(* ===== verification/_CoqProject ===== *)
-Q . S2P
Prelude.v
Bytes.v
Proto.v
Crc16.v
Fmt.v
ParseUint.v
Getopt.v
State.v
Queue.v
Log.v
Spi.v
Exec.v
OpSpec.v
Mailbox.v
Daemon.v
Invariant.v
Handlers.v
Scheduler.v
Exclusive.v
Atomic.v
TextReader.v
TextSpec.v
MainLoop.v
RequestSpec.v
Calm.v
MailboxSpec.v
Retain.v
Wire.v
Sim.v
Main.v
LintSpec.v
Guarantees.v
Liveness.v
Cli.v
CliSpec.v
Program.v
EndToEnd.v
MailboxEndToEnd.v
TextEndToEnd.v
Fuzz.v
FuzzTerm.v
FuzzSpec.v
Examples.v
LintExamples.v
SessionExamples.v
ProgramExamples.v
CliExamples.v
QuirkExamples.v
RegsHeader.v
RegsExamples.v
FuzzExamples.v
