(* ===== verification/Prelude.v ===== *)
(** * Verification of lan80xx-spid and spiproxy-cli, SPI proxy of a LAN80xx PHY

    The daemon (src/lan80xx_spid.c) owns the spidev of a LAN80xx package and
    serves register operations to clients over a unix SOCK_SEQPACKET socket.
    Datagrams (src/spiproxy.h) become items of three priority queues; a
    single-threaded epoll loop drains them: single operations, atomic batches,
    whole-device claims with cleanup operations, MCU mailbox transactions that
    drain the queues again while they wait, statistics, the op log and a
    hardware reset.  Every operation passes three lint detectors and is logged
    (src/log.c); options are parsed by src/parse.c.  A command-line client
    (src/spiproxy_cli.c) sends one request at a time and prints the answer.  A
    fuzzing build (SPIPROXY_FUZZ, src/fuzz/) replaces the bus by a stub and
    drives the daemon and the client's parser from arbitrary input.

    ** Modelling

    Every C function is one Rocq definition in the monad [D W] (State.v):
    explicit state ([glob], the static structure [g]), an environment [W] of
    class [World] (ioctls, sockets, clock, GPIO, indeterminate stack contents)
    and the trace of visible events, with three faults: [Oob], an access outside
    an object (out of range index, NULL or stale pointer, buffer overrun),
    [Cyclic], a walk in circles through a linked list, and [OutOfFuel].  Integers
    are [Z] with their wrap-around written out; buffers are [list Z]; pointers
    into an array are indices.  [wp] (this file) is the
    total-correctness predicate the proofs use: a program returns and its
    result satisfies the postcondition, unless it stops with a fault the first
    argument allows ([fun _ => False] allows none).

    - Prelude.v: integers, buffers, the monad, [wp], tactics and the hint base.
    - Bytes.v, Proto.v: spiproxy.h, its little-endian structures.
    - Crc16.v: crc16_ccitt and the polynomial arithmetic it computes.
    - Fmt.v: the printf conversions the code uses.  ParseUint.v: parse.c on a
      model of strtoul.  Getopt.v: the C library's getopt.
    - State.v: the structure [g], the environment, its laws ([WorldOk]).
    - Queue.v: the intrusive linked queues and the free list at pointer level
      and their refinement of lists ([rep]).
    - Log.v: log.c, the names of registers, types and statuses.
    - Spi.v: the SPI core and reset pulse, the interface [Backend] to it and
      the chip with delayed reads ([PipelinedChip]).
    - Exec.v, OpSpec.v: trace_add, lint_op, exec_op, mb_rd, mb_wr; what one
      operation does.
    - Calm.v: the steps between two writes of a register (reads, log lines,
      sleeps, the clock, clients) by kind, and the class [StorageChip]: registers
      that are plain storage ([chip_storage]) change only by their own writes.
      Status bits, clear-on-read counters and registers the MCU writes are not
      plain storage, and nothing is assumed of them.
    - Mailbox.v, MailboxSpec.v: exec_mailbox; the class [MailboxChip] of a chip
      with an MCU behind the mailbox, the reference decoder of its packets, and
      what a timeout means ([timed_out]).
    - Daemon.v: send_resp, claim_end, exec_item, item_eligible, drain_queues,
      enqueue, client_drop, client_frame, client_msg, accept_client, the body
      of the main loop.
    - Invariant.v, Handlers.v, Scheduler.v, MainLoop.v: the invariant [inv], the
      account of owed answers [owes], and their preservation by every handler,
      by the (recursive) drain and by a turn of the loop.
    - Exclusive.v, Atomic.v, RequestSpec.v: what each kind of request does.
      TextReader.v, TextSpec.v: a reader of the texts of STATS and TRACE that
      knows nothing of how they are printed, and what it finds in them.
    - Retain.v: an operation on the chip, the value it leaves there, and what of
      the environment it does not touch.
    - Wire.v: the environment with one more process at the socket: its pending
      connection, the datagrams it has sent, the end of its connection.
    - Main.v: options, start-up, the loop, reachable states.  Program.v: [main]
      of the daemon as a whole, from its command line to its exit status.
    - LintSpec.v: the hazard detectors against the history of operations.
    - Guarantees.v, Liveness.v: the properties of the whole daemon; every
      request is served.
    - Cli.v, CliSpec.v: spiproxy_cli.c in the same monad over its own state
      [cli]; the socket's other end is the class [Peer], libc's qsort the class
      [Qsort].
    - EndToEnd.v: the daemon as the client's peer ([daemon_peer]): connect, the
      wait in recv and the exit of the process each run a turn of the daemon's
      loop, which accepts, receives, serves and drops the process; what the read
      and write commands do through it to the chip, from a process that has just
      been started ([process_start]), alone and one process after the other.
      MailboxEndToEnd.v: the mailbox command, down to the MCU.  TextEndToEnd.v:
      the stats and trace commands.
    - Fuzz.v, FuzzTerm.v, FuzzSpec.v: the stub bus (a second [Backend]), the
      harnesses of src/fuzz/ with their oracle; why they end; what they show.
    - RegsHeader.v: gen_lan80xx_regs_header.py, the build script that writes the
      header with the register enumerators, and what a compiler finds in it.
    - Sim.v, Examples.v, LintExamples.v, SessionExamples.v, ProgramExamples.v,
      CliExamples.v, RegsExamples.v, FuzzExamples.v: a simulated board
      (registers, a clear-on-read counter, an echoing MCU, a clock, sockets) that
      satisfies every assumed law, and concrete runs of the theorems on it.  QuirkExamples.v: runs in which the program does what its
      comments do not say.

    ** What the theorems show

    - Safety and termination (Guarantees.v): from any reachable state a turn
      never leaves an object of the program and always returns; every drain
      answers each request it takes exactly once, to its client, and makes
      progress unless every request waits for a claim of another client; the pool, queues, claim and client table stay consistent; every
      datagram sent is a well-formed response.  The program as a whole
      (Program.v) ends only with a wrong command line, a failed start-up or a
      signal, with the exit status of each, and never with a fault.
    - Liveness (Liveness.v): with quiet sockets, as many turns as there are
      queued requests, each past the deadline of the claim of the moment, answer
      all of them.
    - Lint (LintSpec.v): the bounded state of the detectors (page owners, last
      counter readers, ring of reads) reports what reference detectors make of
      the whole history of successful operations with their times, and a client
      alone is never reported.
    - Exclusion and atomicity: no bus request of another client is started under
      a claim (a mailbox transaction under way when the claim is granted goes on:
      [claim_granted_during_mailbox]); a batch runs up to its first failure and
      puts its frames on the bus in one piece; claims end at their deadline or
      with their owner, cleanups included.
    - Functional behaviour on a chip: reads return registers, writes leave their
      value in registers that are plain storage, mailbox transactions return what
      the reference decoder makes of the answer and give up only after a look
      without an answer and a clock past the wait, every request type is answered
      as specified, with its error cases; what STATS and TRACE answer is read back
      to the daemon's counters, clients and recorded operations.
    - The client: no answer of a peer makes a command other than mailbox leave
      its buffers; bench reports exact ranks; the read and write commands work
      end to end, from the start of the process through its connection and the
      daemon's queues to the frames on the bus and the printed register value,
      and a value one process writes to plain storage is the value the next one
      reads; the mailbox command prints what the reference decoder makes of the
      MCU's answer; what stats and trace print is read back to the daemon's state.
    - The generated header (RegsHeader.v): its enumerators are the registers of
      the vendor's headers, each name once and with the least of its definitions.
    - The fuzzing build: every input is processed to the end and passes the
      oracle, whatever the stub answers.
    - Refinement: pointer-level queues implement lists; CRC is the polynomial
      remainder and detects bursts; encodings and texts round trip.

    ** Fuel and bounds

    Two recursions are not structural: the poll loop of the mailbox and the
    drain that it calls.  A timeout is below 2^32 ms and each poll sleeps 1 ms,
    so [POLL_FUEL] = 2^32 + 2 polls always suffice; each nested drain works on
    one item fewer, so [TURN_FUEL] = 257 + [POLL_FUEL] is enough for a turn.
    Termination theorems hold for every fuel from there on, safety theorems
    for every fuel.  List walks are bounded by the pool's size and provably never
    reach the bound.  In the fuzzing build polls do not sleep and the stub ends a
    wait at the second look at the flag: fuel 3 is enough there.  The hammer
    command of the client runs for a time its environment decides and has its
    fuel as an argument.

    ** Not modelled

    CMake files, packaging, the script that writes seed inputs for the fuzzer and
    the shell scripts that run it: none of them is part of a program.  The
    vendor's register headers are not in the repository: they are the input of
    RegsHeader.v, and the offsets the daemon takes from the generated header are
    the class [Regs] (RegsExamples.v gets its instance from a small vendor tree).
    Text is ASCII.  A device path and reset line name are assumed to fit 1024
    characters together (a longer path makes the STATS text overrun its buffer).
    The mailbox command of the client is excluded from its bounds theorem because
    a peer can make it read past its buffer ([cli_mailbox_overread]); connected to
    the daemon it does not ([cli_mailbox_end_to_end]). *)
From Stdlib Require Export ZArith Lia Ascii String.
From stdpp Require Export base tactics list numbers strings sets.

Declare Scope spid_scope.
Delimit Scope spid_scope with spid.
#[global] Open Scope Z_scope.

(** ** Machine integers

    A C unsigned integer of width [w] is a [Z]; every store into a typed
    variable is an explicit wrap. *)

Definition u8 (z : Z) : Z := z mod 2 ^ 8.
Definition u16 (z : Z) : Z := z mod 2 ^ 16.
Definition u32 (z : Z) : Z := z mod 2 ^ 32.
Definition u64 (z : Z) : Z := z mod 2 ^ 64.

Definition is_u8 (z : Z) : Prop := 0 <= z < 2 ^ 8.
Definition is_u16 (z : Z) : Prop := 0 <= z < 2 ^ 16.
Definition is_u32 (z : Z) : Prop := 0 <= z < 2 ^ 32.
Definition is_u64 (z : Z) : Prop := 0 <= z < 2 ^ 64.

(** Bytes of a buffer. *)
Definition bytes_ok (l : list Z) : Prop := Forall is_u8 l.

(** ** Failures of the model

    [Oob] is an access outside a C object (undefined behaviour); [Cyclic] is a
    walk over a linked list that takes more steps than there are items, which
    only a cycle does; [OutOfFuel] is the exhaustion of the fuel of a loop of the
    model. *)
Inductive fault := Oob | Cyclic | OutOfFuel.

Inductive res (A : Type) :=
| Ok (a : A)
| Fail (e : fault).
Arguments Ok {A} a.
Arguments Fail {A} e.

Definition res_bind {A B} (r : res A) (k : A -> res B) : res B :=
  match r with Ok a => k a | Fail e => Fail e end.

(** ** The state and error monad of the handlers *)

Definition M (S A : Type) : Type := S -> res (A * S).

Definition returnM {S A} (a : A) : M S A := fun s => Ok (a, s).
Definition bindM {S A B} (m : M S A) (k : A -> M S B) : M S B :=
  fun s => match m s with Ok (a, s') => k a s' | Fail e => Fail e end.
Definition failM {S A} (e : fault) : M S A := fun _ => Fail e.
Definition getM {S} : M S S := fun s => Ok (s, s).
Definition modifyM {S} (f : S -> S) : M S unit := fun s => Ok (tt, f s).
Definition liftM {S A} (r : res A) : M S A :=
  fun s => match r with Ok a => Ok (a, s) | Fail e => Fail e end.

Notation "'let*' x ':=' m 'in' k" := (bindM m (fun x => k))
  (at level 10, x name, m at level 100, k at level 200) : spid_scope.
Notation "'let*' ' p ':=' m 'in' k" := (bindM m (fun x => match x with p => k end))
  (at level 10, p pattern, m at level 100, k at level 200) : spid_scope.
Notation "m ;; k" := (bindM m (fun _ => k))
  (at level 100, k at level 200, right associativity) : spid_scope.
Notation "'let!' x ':=' r 'in' k" := (res_bind r (fun x => k))
  (at level 10, x name, r at level 100, k at level 200) : spid_scope.
Notation "'let!' ' p ':=' r 'in' k" := (res_bind r (fun x => match x with p => k end))
  (at level 10, p pattern, r at level 100, k at level 200) : spid_scope.
#[global] Open Scope spid_scope.

Definition whenM {S} (b : bool) (m : M S unit) : M S unit :=
  if b then m else returnM tt.

(** A [for] loop over a list of indices or elements. *)
Fixpoint forM {S A} (l : list A) (f : A -> M S unit) : M S unit :=
  match l with
  | [] => returnM tt
  | x :: l' => f x ;; forM l' f
  end.

(** ** Buffers with bounds-checked accesses *)

Definition buf_get (buf : list Z) (i : nat) : res Z :=
  match buf !! i with Some b => Ok b | None => Fail Oob end.

Definition buf_read (buf : list Z) (off n : nat) : res (list Z) :=
  if (off + n <=? length buf)%nat then Ok (take n (drop off buf)) else Fail Oob.

Definition buf_write (buf : list Z) (off : nat) (src : list Z) : res (list Z) :=
  if (off + length src <=? length buf)%nat
  then Ok (take off buf ++ src ++ drop (off + length src) buf)
  else Fail Oob.

(** Array element access, [Oob] outside the array. *)
Definition arr_get {A} (l : list A) (i : nat) : res A :=
  match l !! i with Some x => Ok x | None => Fail Oob end.

Definition arr_set {A} (l : list A) (i : nat) (x : A) : res (list A) :=
  if (i <? length l)%nat then Ok (<[i := x]> l) else Fail Oob.

(** [memcpy] of whole elements to the start of an array. *)
Definition arr_fill {A} (l src : list A) : res (list A) :=
  if (length src <=? length l)%nat then Ok (src ++ drop (length src) l) else Fail Oob.

(** ** Weakest preconditions

    [wp E m Q s]: running [m] from [s] either returns with [Q] or fails with a
    fault that [E] admits. *)
Definition wp {S A} (E : fault -> Prop) (m : M S A) (Q : A -> S -> Prop) (s : S) : Prop :=
  match m s with Ok (a, s') => Q a s' | Fail e => E e end.

(** Pure analogue for [res]. *)
Definition rwp {A} (E : fault -> Prop) (r : res A) (Q : A -> Prop) : Prop :=
  match r with Ok a => Q a | Fail e => E e end.

Arguments wp : simpl never.
Arguments rwp : simpl never.
Arguments bindM : simpl never.

Section Wp.
Context {S : Type}.
Implicit Types (s : S) (E : fault -> Prop).

Lemma wp_mono {A} E (m : M S A) (Q Q' : A -> S -> Prop) s :
  wp E m Q s -> (forall a s', Q a s' -> Q' a s') -> wp E m Q' s.
Proof. unfold wp. destruct (m s) as [[a s']|]; auto. Qed.

Lemma wp_fault_mono {A} (E E' : fault -> Prop) (m : M S A) Q s :
  (forall e, E e -> E' e) -> wp E m Q s -> wp E' m Q s.
Proof. unfold wp. destruct (m s) as [[a s']|]; auto. Qed.

(** No admitted fault: the computation returns. *)
Lemma wp_returns {A} (m : M S A) Q s :
  wp (fun _ => False) m Q s -> exists a s', m s = Ok (a, s') /\ Q a s'.
Proof. unfold wp. destruct (m s) as [[a s']|]; [eauto|done]. Qed.

Lemma wp_returns_val {A} (m : M S A) (a : A) (P : S -> Prop) s :
  wp (fun _ => False) m (fun a' s' => a' = a /\ P s') s -> exists s', m s = Ok (a, s') /\ P s'.
Proof. intros H. destruct (wp_returns _ _ _ H) as (a' & s' & ? & -> & ?). eauto. Qed.

Lemma wp_unit (m : M S unit) (P : S -> Prop) s :
  wp (fun _ => False) m (fun _ s' => P s') s -> exists s', m s = Ok (tt, s') /\ P s'.
Proof. intros H. destruct (wp_returns _ _ _ H) as ([] & s' & ?). eauto. Qed.

Lemma wp_ret {A} E (a : A) Q s : Q a s -> wp E (returnM a) Q s.
Proof. done. Qed.

Lemma wp_bind {A B} E (m : M S A) (k : A -> M S B) Q s :
  wp E m (fun a s' => wp E (k a) Q s') s -> wp E (bindM m k) Q s.
Proof. unfold wp, bindM. destruct (m s) as [[a s']|]; auto. Qed.

Lemma wp_assoc {A B C} E (m : M S A) (k : M S B) (l : M S C) Q s :
  wp E ((m ;; k) ;; l) Q s -> wp E (m ;; k ;; l) Q s.
Proof. unfold wp, bindM. by destruct (m s) as [[a s']|]. Qed.

Lemma wp_get E Q s : Q s s -> wp E getM Q s.
Proof. done. Qed.

Lemma wp_modify E f Q s : Q tt (f s) -> wp E (modifyM f) Q s.
Proof. done. Qed.

Lemma wp_fail {A} E e (Q : A -> S -> Prop) s : E e -> wp E (failM e) Q s.
Proof. done. Qed.

Lemma wp_lift {A} E (r : res A) Q s :
  rwp E r (fun a => Q a s) -> wp E (liftM r) Q s.
Proof. unfold wp, liftM, rwp. destruct r; auto. Qed.

Lemma wp_when E b (m : M S unit) Q s :
  (b = true -> wp E m Q s) -> (b = false -> Q tt s) -> wp E (whenM b m) Q s.
Proof. destruct b; intros H1 H2; [by apply H1 | by apply wp_ret, H2]. Qed.

Lemma wp_if {A} E (b : bool) (m1 m2 : M S A) Q s :
  (b = true -> wp E m1 Q s) -> (b = false -> wp E m2 Q s) ->
  wp E (if b then m1 else m2) Q s.
Proof. destruct b; auto. Qed.

(** Loop rule: an invariant indexed by the elements already visited. *)
Lemma wp_for_list {A} E (I : list A -> S -> Prop) (l : list A) (f : A -> M S unit) Q s :
  I [] s ->
  (forall done x todo s', l = done ++ x :: todo -> I done s' ->
     wp E (f x) (fun _ s'' => I (done ++ [x]) s'') s') ->
  (forall s', I l s' -> Q tt s') ->
  wp E (forM l f) Q s.
Proof.
  intros H0 Hstep Hend.
  enough (forall todo done s', l = done ++ todo -> I done s' ->
            wp E (forM todo f) Q s') as H by (eapply (H l []); done).
  induction todo as [|x todo IH]; intros done s' Hl Hi; cbn.
  - apply wp_ret, Hend. rewrite app_nil_r in Hl. by subst.
  - apply wp_bind. eapply wp_mono; [eapply Hstep; eauto|]. cbn. intros _ s'' Hs.
    eapply (IH (done ++ [x])); [|exact Hs]. by rewrite <-app_assoc.
Qed.

(** Loop rule with a plain invariant. *)
Lemma wp_for {A} E (I : S -> Prop) (l : list A) (f : A -> M S unit) Q s :
  I s ->
  (forall x s', x ∈ l -> I s' -> wp E (f x) (fun _ => I) s') ->
  (forall s', I s' -> Q tt s') ->
  wp E (forM l f) Q s.
Proof.
  intros H0 Hstep Hend. eapply (wp_for_list E (fun _ => I)); eauto.
  intros done x todo s' -> Hi. apply Hstep; [set_solver|done].
Qed.

(** The equation of a run. *)
Lemma wp_outcome {A} (m : M S A) s : wp (fun _ => True) m (fun a s' => m s = Ok (a, s')) s.
Proof. unfold wp. by destruct (m s) as [[]|]. Qed.

Lemma wp_and {A} E1 E2 (m : M S A) Q1 Q2 s :
  wp E1 m Q1 s -> wp E2 m Q2 s ->
  wp (fun e => E1 e /\ E2 e) m (fun a s' => Q1 a s' /\ Q2 a s') s.
Proof. unfold wp. destruct (m s) as [[a s']|]; auto. Qed.

End Wp.

(** ** Buffers *)

Lemma rwp_ok {A} E (a : A) Q : Q a -> rwp E (Ok a) Q.
Proof. done. Qed.

Lemma rwp_mono {A} E (r : res A) (Q Q' : A -> Prop) :
  rwp E r Q -> (forall a, Q a -> Q' a) -> rwp E r Q'.
Proof. unfold rwp. destruct r; auto. Qed.

Lemma rwp_bind {A B} E (r : res A) (k : A -> res B) Q :
  rwp E r (fun a => rwp E (k a) Q) -> rwp E (res_bind r k) Q.
Proof. by destruct r. Qed.

Lemma rwp_buf_get E buf i b Q : buf !! i = Some b -> Q b -> rwp E (buf_get buf i) Q.
Proof. intros H HQ. unfold rwp, buf_get. by rewrite H. Qed.

Lemma arr_get_ok {A} (l : list A) i x : l !! i = Some x -> arr_get l i = Ok x.
Proof. intros H. unfold arr_get. by rewrite H. Qed.

Lemma arr_set_ok {A} (l : list A) i x : (i < length l)%nat -> arr_set l i x = Ok (<[i := x]> l).
Proof. intros H. unfold arr_set. by rewrite (proj2 (Nat.ltb_lt _ _)). Qed.

Lemma buf_write_ok buf off src :
  (off + length src <= length buf)%nat ->
  buf_write buf off src = Ok (take off buf ++ src ++ drop (off + length src) buf).
Proof. intros H. unfold buf_write. by rewrite (proj2 (Nat.leb_le _ _)). Qed.

(** Overwriting the first bytes after a known prefix. *)
Lemma buf_write_at pre src buf off :
  off = length pre -> (length src <= length buf)%nat ->
  buf_write (pre ++ buf) off src = Ok ((pre ++ src) ++ drop (length src) buf).
Proof.
  intros -> H. rewrite buf_write_ok by (rewrite length_app; lia).
  rewrite take_app_length, drop_app, (drop_ge pre) by lia.
  replace (length pre + length src - length pre)%nat with (length src) by lia.
  by rewrite <-app_assoc.
Qed.

Lemma buf_read_prefix pre buf n : n = length pre -> buf_read (pre ++ buf) 0 n = Ok pre.
Proof.
  intros ->. unfold buf_read. rewrite (proj2 (Nat.leb_le _ _)) by (rewrite length_app; lia).
  by rewrite drop_0, take_app_length.
Qed.

Lemma buf_write_0 src buf :
  (length src <= length buf)%nat -> buf_write buf 0 src = Ok (src ++ drop (length src) buf).
Proof. intros H. exact (buf_write_at [] src buf 0 eq_refl H). Qed.

Lemma rwp_arr_get {A} E (l : list A) i x Q : l !! i = Some x -> Q x -> rwp E (arr_get l i) Q.
Proof. intros H HQ. unfold rwp, arr_get. by rewrite H. Qed.

Lemma rwp_arr_set {A} E (l : list A) i x Q :
  (i < length l)%nat -> Q (<[i := x]> l) -> rwp E (arr_set l i x) Q.
Proof. intros H HQ. unfold rwp, arr_set. by rewrite (proj2 (Nat.ltb_lt _ _)). Qed.

Lemma rwp_arr_fill {A} E n (l src : list A) Q :
  length src = n -> (n <= length l)%nat -> Q (src ++ drop n l) -> rwp E (arr_fill l src) Q.
Proof. intros <- H HQ. unfold rwp, arr_fill. by rewrite (proj2 (Nat.leb_le _ _)). Qed.

Lemma rwp_buf_read E buf off n Q :
  (off + n <= length buf)%nat -> Q (take n (drop off buf)) -> rwp E (buf_read buf off n) Q.
Proof. intros H HQ. unfold rwp, buf_read. by rewrite (proj2 (Nat.leb_le _ _)). Qed.

Lemma rwp_buf_write E buf off src Q :
  (off + length src <= length buf)%nat ->
  Q (take off buf ++ src ++ drop (off + length src) buf) -> rwp E (buf_write buf off src) Q.
Proof. intros H HQ. unfold rwp, buf_write. by rewrite (proj2 (Nat.leb_le _ _)). Qed.

Lemma length_buf_splice (buf src : list Z) off :
  (off + length src <= length buf)%nat ->
  length (take off buf ++ src ++ drop (off + length src) buf) = length buf.
Proof. rewrite !length_app, length_take, length_drop. lia. Qed.

Lemma bytes_ok_app l1 l2 : bytes_ok l1 -> bytes_ok l2 -> bytes_ok (l1 ++ l2).
Proof. by apply Forall_app_2. Qed.

Lemma bytes_ok_take n l : bytes_ok l -> bytes_ok (take n l).
Proof. by apply Forall_take. Qed.

Lemma bytes_ok_drop n l : bytes_ok l -> bytes_ok (drop n l).
Proof. by apply Forall_drop. Qed.

Lemma u8_range z : is_u8 (u8 z).
Proof. unfold is_u8, u8. by apply Z.mod_pos_bound. Qed.
Lemma u16_range z : is_u16 (u16 z).
Proof. unfold is_u16, u16. by apply Z.mod_pos_bound. Qed.
Lemma u32_range z : is_u32 (u32 z).
Proof. unfold is_u32, u32. by apply Z.mod_pos_bound. Qed.
Lemma u64_range z : is_u64 (u64 z).
Proof. unfold is_u64, u64. by apply Z.mod_pos_bound. Qed.

Lemma u8_id z : is_u8 z -> u8 z = z.
Proof. unfold is_u8, u8. apply Z.mod_small. Qed.
Lemma u16_id z : is_u16 z -> u16 z = z.
Proof. unfold is_u16, u16. apply Z.mod_small. Qed.
Lemma u32_id z : is_u32 z -> u32 z = z.
Proof. unfold is_u32, u32. apply Z.mod_small. Qed.
Lemma u64_id z : is_u64 z -> u64 z = z.
Proof. unfold is_u64, u64. apply Z.mod_small. Qed.

(** Stated for rewriting: it keeps the kernel from unfolding [f]. *)
Lemma fold_left_cons {A B} (f : A -> B -> A) b l a :
  fold_left f (b :: l) a = fold_left f l (f a b).
Proof. done. Qed.

(** ** Bits of bounded integers *)

Lemma testbit_above z k n : 0 <= z < 2 ^ k -> k <= n -> Z.testbit z n = false.
Proof.
  intros Hz Hn. destruct (Z.lt_ge_cases k 0); [rewrite Z.pow_neg_r in Hz; lia|].
  rewrite <-(Z.mod_small z (2 ^ k)) by done. by apply Z.mod_pow2_bits_high.
Qed.

Lemma lt_pow2_testbit z k :
  0 <= k -> (forall n, k <= n -> Z.testbit z n = false) -> 0 <= z < 2 ^ k.
Proof.
  intros Hk Hb. replace z with (z mod 2 ^ k); [by apply Z.mod_pos_bound, Z.pow_pos_nonneg|].
  apply Z.bits_inj'. intros n Hn. destruct (Z.lt_ge_cases n k).
  - by rewrite Z.mod_pow2_bits_low.
  - rewrite Z.mod_pow2_bits_high by lia. by rewrite Hb.
Qed.

Lemma lxor_bound a b k : 0 <= k -> 0 <= a < 2 ^ k -> 0 <= b < 2 ^ k -> 0 <= Z.lxor a b < 2 ^ k.
Proof.
  intros Hk Ha Hb. apply lt_pow2_testbit; [done|]. intros n Hn.
  by rewrite Z.lxor_spec, !(testbit_above _ k).
Qed.

Lemma lor_bound a b k : 0 <= k -> 0 <= a < 2 ^ k -> 0 <= b < 2 ^ k -> 0 <= Z.lor a b < 2 ^ k.
Proof.
  intros Hk Ha Hb. apply lt_pow2_testbit; [done|]. intros n Hn.
  by rewrite Z.lor_spec, !(testbit_above _ k).
Qed.

Lemma land_bound_r a b k : 0 <= k -> 0 <= b < 2 ^ k -> 0 <= Z.land a b < 2 ^ k.
Proof.
  intros Hk Hb. apply lt_pow2_testbit; [done|]. intros n Hn.
  by rewrite Z.land_spec, (testbit_above b k), andb_false_r.
Qed.

(** Disjoint bit ranges add up. *)
Lemma lor_shiftl_add a b k :
  0 <= k -> 0 <= a < 2 ^ k -> Z.lor (Z.shiftl b k) a = b * 2 ^ k + a.
Proof.
  intros Hk Ha. rewrite <-Z.shiftl_mul_pow2 by done.
  assert (Z.land (Z.shiftl b k) a = 0) as Hd.
  { apply Z.bits_inj'. intros n Hn. rewrite Z.land_spec, Z.shiftl_spec, Z.bits_0 by done.
    destruct (Z.lt_ge_cases n k); [by rewrite Z.testbit_neg_r by lia|].
    by rewrite (testbit_above a k), andb_false_r. }
  by rewrite Z.add_nocarry_lxor, Z.lxor_lor.
Qed.

(** Linear arithmetic with division and remainder by constants. *)
Ltac dlia := Z.to_euclidean_division_equations; lia.

(** An index reduced modulo the length of a ring stays inside it. *)
Lemma ring_index w n : (0 < n)%nat -> (Z.to_nat (w mod Z.of_nat n) < n)%nat.
Proof. intros Hn. pose proof (Z.mod_pos_bound w (Z.of_nat n)). lia. Qed.

(** ** Ring buffers

    Of the [len] entries written so far, the [k]-th newest is in slot
    [ring_slot n len k] of a ring of [n]. *)
Definition ring_slot (n len k : nat) : nat :=
  Z.to_nat ((Z.of_nat len - 1 - Z.of_nat k) mod Z.of_nat n).

Lemma ring_slot_lt n len k : (0 < n)%nat -> (ring_slot n len k < n)%nat.
Proof. apply ring_index. Qed.

(** A new entry pushes the others one place back. *)
Lemma ring_slot_S n len k : ring_slot n (S len) (S k) = ring_slot n len k.
Proof. unfold ring_slot. do 2 f_equal. lia. Qed.

(** It overwrites none of the [n - 1] entries before it. *)
Lemma ring_slot_next n len k : (S k < n)%nat -> ring_slot n (S len) 0 <> ring_slot n len k.
Proof.
  intros Hk Heq. unfold ring_slot in Heq. apply Z2Nat.inj in Heq; [|apply Z.mod_pos_bound; lia..].
  assert ((Z.of_nat k + 1) mod Z.of_nat n = 0) as H0.
  { replace (Z.of_nat k + 1) with (Z.of_nat (S len) - 1 - Z.of_nat 0 - (Z.of_nat len - 1 - Z.of_nat k)) by lia.
    by rewrite Zminus_mod, Heq, Z.sub_diag. }
  rewrite Z.mod_small in H0; lia.
Qed.

(** Every slot belongs to one of the [n] newest. *)
Lemma ring_slot_surj n len i : (i < n)%nat -> exists k, (k < n)%nat /\ ring_slot n len k = i.
Proof.
  intros Hi. exists (Z.to_nat ((Z.of_nat len - 1 - Z.of_nat i) mod Z.of_nat n)).
  pose proof (Z.mod_pos_bound (Z.of_nat len - 1 - Z.of_nat i) (Z.of_nat n) ltac:(lia)) as Hb.
  split; [lia|]. unfold ring_slot. rewrite Z2Nat.id by lia. rewrite Zminus_mod_idemp_r.
  replace (Z.of_nat len - 1 - _) with (Z.of_nat i) by lia. rewrite Z.mod_small; lia.
Qed.

Lemma ring_slot_inj n len j k :
  (j < n)%nat -> (k < n)%nat -> ring_slot n len j = ring_slot n len k -> j = k.
Proof.
  intros Hj Hk Heq. unfold ring_slot in Heq. apply Z2Nat.inj in Heq; [|apply Z.mod_pos_bound; lia..].
  assert ((Z.of_nat k - Z.of_nat j) mod Z.of_nat n = 0) as H0.
  { replace (Z.of_nat k - Z.of_nat j) with
      (Z.of_nat len - 1 - Z.of_nat j - (Z.of_nat len - 1 - Z.of_nat k)) by lia.
    by rewrite Zminus_mod, Heq, Z.sub_diag. }
  apply Z.mod_divide in H0 as [q Hq]; [|lia]. assert (q = 0) by nia. nia.
Qed.

(** The slot written next, from a 32-bit write index whose wrap-around the size
    of the ring divides. *)
Lemma ring_slot_write n len :
  (Z.of_nat n | 2 ^ 32) -> Z.to_nat (u32 (Z.of_nat len) mod Z.of_nat n) = ring_slot n (S len) 0.
Proof.
  intros Hn. unfold ring_slot, u32. rewrite Z.mod_mod_divide by done. do 2 f_equal. lia.
Qed.

Create HintDb spid discriminated.
#[export] Hint Resolve u8_range u16_range u32_range u64_range
  bytes_ok_app bytes_ok_take bytes_ok_drop : spid.
