(* ===== verification/Bytes.v ===== *)
(** * Little-endian memory of the C structures

    The daemon and its clients exchange C structures as raw host memory.  The
    supported hosts are little-endian (the corpus generator packs every field
    with a little-endian format); this file holds the codec between integers
    and their bytes, and the lemmas on it the protocol structures share. *)
From S2P Require Import Prelude.

(** Memory image of a [n]-byte unsigned integer. *)
Fixpoint le_encode (n : nat) (z : Z) : list Z :=
  match n with
  | O => []
  | S n' => z mod 256 :: le_encode n' (z / 256)
  end.

(** Value of the unsigned integer whose memory image is [l]. *)
Fixpoint le_decode (l : list Z) : Z :=
  match l with
  | [] => 0
  | b :: l' => b + 256 * le_decode l'
  end.

(** [n]-byte field of a structure image at byte offset [off]. *)
Definition field (l : list Z) (off n : nat) : Z := le_decode (take n (drop off l)).

Lemma length_le_encode n z : length (le_encode n z) = n.
Proof. revert z. induction n as [|n IH]; intros z; cbn; [done|]. by rewrite IH. Qed.

Lemma le_encode_ok n z : bytes_ok (le_encode n z).
Proof.
  revert z. induction n as [|n IH]; intros z; cbn; constructor; [|apply IH].
  unfold is_u8. apply Z.mod_pos_bound. lia.
Qed.

Lemma le_decode_encode n z : le_decode (le_encode n z) = z mod 256 ^ Z.of_nat n.
Proof.
  revert z. induction n as [|n IH]; intros z; cbn [le_encode le_decode].
  - by rewrite Z.pow_0_r, Z.mod_1_r.
  - rewrite IH, Nat2Z.inj_succ, Z.pow_succ_r by lia.
    rewrite (Z.rem_mul_r z 256 (256 ^ Z.of_nat n)) by (try apply Z.pow_nonzero; lia).
    lia.
Qed.

Lemma le_decode_range l : bytes_ok l -> 0 <= le_decode l < 256 ^ Z.of_nat (length l).
Proof.
  induction 1 as [|b l Hb Hl IH]; cbn [le_decode length]; [by rewrite Z.pow_0_r|].
  rewrite Nat2Z.inj_succ, Z.pow_succ_r by lia. unfold is_u8 in Hb. lia.
Qed.

Lemma le_encode_decode l : bytes_ok l -> le_encode (length l) (le_decode l) = l.
Proof.
  induction 1 as [|b l Hb Hl IH]; cbn [le_decode length le_encode]; [done|].
  unfold is_u8 in Hb.
  replace (b + 256 * le_decode l) with (b + le_decode l * 256) by lia.
  rewrite Z.mod_add, Z.mod_small, Z.div_add, Z.div_small, Z.add_0_l by lia.
  by rewrite IH.
Qed.

Lemma le_decode_encode_id n z : 0 <= z < 256 ^ Z.of_nat n -> le_decode (le_encode n z) = z.
Proof. intros H. by rewrite le_decode_encode, Z.mod_small. Qed.

Lemma field_range l off n :
  bytes_ok l -> 0 <= field l off n < 256 ^ Z.of_nat n.
Proof.
  intros H. unfold field.
  assert (bytes_ok (take n (drop off l))) as Hb by auto with spid.
  pose proof (le_decode_range _ Hb) as [? Hlt]. split; [done|].
  eapply Z.lt_le_trans; [exact Hlt|]. apply Z.pow_le_mono_r; [lia|].
  rewrite length_take. lia.
Qed.

(** Reading a field of a concatenation: skip a prefix, or read inside it. *)
Lemma field_skip a b off n :
  (length a <= off)%nat -> field (a ++ b) off n = field b (off - length a) n.
Proof.
  intros H. unfold field. rewrite drop_app.
  rewrite (drop_ge a) by lia. done.
Qed.

Lemma field_head n z rest :
  0 <= z < 256 ^ Z.of_nat n -> field (le_encode n z ++ rest) 0 n = z.
Proof.
  intros H. unfold field. rewrite drop_0, take_app_length'; [|by rewrite length_le_encode].
  by apply le_decode_encode_id.
Qed.

Lemma field_split l off n m :
  (off + n + m <= length l)%nat -> bytes_ok l ->
  le_encode n (field l off n) ++ take m (drop (off + n) l) = take (n + m) (drop off l).
Proof.
  intros Hlen Hok. unfold field.
  assert (length (take n (drop off l)) = n) as Hn
    by (rewrite length_take, length_drop; lia).
  rewrite <-Hn at 1. rewrite le_encode_decode by auto with spid.
  rewrite <-drop_drop. by rewrite take_take_drop.
Qed.

#[export] Hint Resolve le_encode_ok : spid.
