(* ===== verification/Proto.v ===== *)
(** * The wire protocol (spiproxy.h)

    Message types, status codes and limits, and the C structures exchanged
    over the socket with their memory images: [hdr] for [struct spiproxy_hdr],
    [op] for [struct spiproxy_op], [claim_req], [mb] and [reset_req] for
    [struct spiproxy_claim], [spiproxy_mb] and [spiproxy_reset].  The layout
    lemmas show that each codec is a bijection between well-typed structures
    and byte images of the right size. *)
From S2P Require Import Prelude Bytes.

Definition SPIPROXY_SOCK : string := "/run/lan80xx-spid.sock".
Definition SPIPROXY_VER : Z := 1.
Definition SPIPROXY_BATCH_MAX : nat := 64.
Definition SPIPROXY_MB_MAX : Z := 1018.
Definition SPIPROXY_MSG_MAX : nat := Z.to_nat 4096.
Definition SPIPROXY_RESP : Z := 0x80.

Inductive spiproxy_type :=
| SPIPROXY_READ | SPIPROXY_WRITE | SPIPROXY_BATCH | SPIPROXY_CLAIM | SPIPROXY_RELEASE
| SPIPROXY_MAILBOX | SPIPROXY_STATS | SPIPROXY_TRACE | SPIPROXY_TSFIFO_SUB
| SPIPROXY_BER_WINDOW | SPIPROXY_DFU | SPIPROXY_RESET.

Definition type_code (t : spiproxy_type) : Z :=
  match t with
  | SPIPROXY_READ => 1 | SPIPROXY_WRITE => 2 | SPIPROXY_BATCH => 3 | SPIPROXY_CLAIM => 4
  | SPIPROXY_RELEASE => 5 | SPIPROXY_MAILBOX => 6 | SPIPROXY_STATS => 7 | SPIPROXY_TRACE => 8
  | SPIPROXY_TSFIFO_SUB => 9 | SPIPROXY_BER_WINDOW => 10 | SPIPROXY_DFU => 11
  | SPIPROXY_RESET => 12
  end.

Definition type_of_code (z : Z) : option spiproxy_type :=
  match z with
  | 1 => Some SPIPROXY_READ | 2 => Some SPIPROXY_WRITE | 3 => Some SPIPROXY_BATCH
  | 4 => Some SPIPROXY_CLAIM | 5 => Some SPIPROXY_RELEASE | 6 => Some SPIPROXY_MAILBOX
  | 7 => Some SPIPROXY_STATS | 8 => Some SPIPROXY_TRACE | 9 => Some SPIPROXY_TSFIFO_SUB
  | 10 => Some SPIPROXY_BER_WINDOW | 11 => Some SPIPROXY_DFU | 12 => Some SPIPROXY_RESET
  | _ => None
  end.

Inductive spiproxy_status :=
| SPIPROXY_OK | SPIPROXY_EINVAL | SPIPROXY_EIO | SPIPROXY_EBUSY | SPIPROXY_ETIMEDOUT
| SPIPROXY_ENOSYS | SPIPROXY_ECRC.

#[export] Instance spiproxy_type_eq_dec : EqDecision spiproxy_type.
Proof. solve_decision. Defined.
#[export] Instance spiproxy_status_eq_dec : EqDecision spiproxy_status.
Proof. solve_decision. Defined.

Definition status_code (s : spiproxy_status) : Z :=
  match s with
  | SPIPROXY_OK => 0 | SPIPROXY_EINVAL => 1 | SPIPROXY_EIO => 2 | SPIPROXY_EBUSY => 3
  | SPIPROXY_ETIMEDOUT => 4 | SPIPROXY_ENOSYS => 5 | SPIPROXY_ECRC => 6
  end.

Definition SPIPROXY_PRIO_NORMAL : Z := 0.
Definition SPIPROXY_PRIO_HIGH : Z := 1.
Definition SPIPROXY_PRIO_LOW : Z := 2.

(** ** Structures *)

Record hdr := Hdr { h_ver : Z; h_type : Z; h_flags : Z; h_seq : Z; h_len : Z }.

Definition hdr_size : nat := 12.
(** A message buffer: header and largest body. *)
Definition MSG_BUF : nat := (hdr_size + SPIPROXY_MSG_MAX)%nat.
Definition hdr_decode (l : list Z) : hdr :=
  Hdr (field l 0 1) (field l 1 1) (field l 2 2) (field l 4 4) (field l 8 4).
Definition hdr_encode (h : hdr) : list Z :=
  le_encode 1 (h_ver h) ++ le_encode 1 (h_type h) ++ le_encode 2 (h_flags h) ++
  le_encode 4 (h_seq h) ++ le_encode 4 (h_len h).
Definition hdr_ok (h : hdr) : Prop :=
  is_u8 (h_ver h) /\ is_u8 (h_type h) /\ is_u16 (h_flags h) /\
  is_u32 (h_seq h) /\ is_u32 (h_len h).

Record op := Op {
  op_slice : Z; op_write : Z; op_mmd : Z; op_rsvd : Z;
  op_reg : Z; op_rsvd2 : Z; op_val : Z }.

Definition op_size : nat := 12.
Definition op_decode (l : list Z) : op :=
  Op (field l 0 1) (field l 1 1) (field l 2 1) (field l 3 1)
     (field l 4 2) (field l 6 2) (field l 8 4).
Definition op_encode (o : op) : list Z :=
  le_encode 1 (op_slice o) ++ le_encode 1 (op_write o) ++ le_encode 1 (op_mmd o) ++
  le_encode 1 (op_rsvd o) ++ le_encode 2 (op_reg o) ++ le_encode 2 (op_rsvd2 o) ++
  le_encode 4 (op_val o).
Definition op_ok (o : op) : Prop :=
  is_u8 (op_slice o) /\ is_u8 (op_write o) /\ is_u8 (op_mmd o) /\ is_u8 (op_rsvd o) /\
  is_u16 (op_reg o) /\ is_u16 (op_rsvd2 o) /\ is_u32 (op_val o).

Definition op_set_write (v : Z) (o : op) : op :=
  Op (op_slice o) v (op_mmd o) (op_rsvd o) (op_reg o) (op_rsvd2 o) (op_val o).
Definition op_set_val (v : Z) (o : op) : op :=
  Op (op_slice o) (op_write o) (op_mmd o) (op_rsvd o) (op_reg o) (op_rsvd2 o) v.

Record claim_req := ClaimReq { cl_max_ms : Z; cl_ncleanup : Z; cl_rsvd : Z }.

Definition claim_size : nat := 8.
Definition claim_decode (l : list Z) : claim_req :=
  ClaimReq (field l 0 4) (field l 4 2) (field l 6 2).
Definition claim_encode (c : claim_req) : list Z :=
  le_encode 4 (cl_max_ms c) ++ le_encode 2 (cl_ncleanup c) ++ le_encode 2 (cl_rsvd c).
Definition claim_ok (c : claim_req) : Prop :=
  is_u32 (cl_max_ms c) /\ is_u16 (cl_ncleanup c) /\ is_u16 (cl_rsvd c).

Record mb := Mb { mb_slice : Z; mb_cmd : Z; mb_payload_len : Z; mb_timeout_ms : Z }.

Definition mb_size : nat := 8.
Definition mb_decode (l : list Z) : mb :=
  Mb (field l 0 1) (field l 1 1) (field l 2 2) (field l 4 4).
Definition mb_encode (m : mb) : list Z :=
  le_encode 1 (mb_slice m) ++ le_encode 1 (mb_cmd m) ++ le_encode 2 (mb_payload_len m) ++
  le_encode 4 (mb_timeout_ms m).
Definition mb_ok (m : mb) : Prop :=
  is_u8 (mb_slice m) /\ is_u8 (mb_cmd m) /\ is_u16 (mb_payload_len m) /\
  is_u32 (mb_timeout_ms m).

Record reset_req := ResetReq { rs_assert_us : Z; rs_deassert_us : Z }.

Definition reset_size : nat := 8.
Definition reset_decode (l : list Z) : reset_req := ResetReq (field l 0 4) (field l 4 4).
Definition reset_encode (r : reset_req) : list Z :=
  le_encode 4 (rs_assert_us r) ++ le_encode 4 (rs_deassert_us r).
Definition reset_ok (r : reset_req) : Prop :=
  is_u32 (rs_assert_us r) /\ is_u32 (rs_deassert_us r).

(** ** Codec lemmas *)

Ltac unfold_ranges := unfold is_u8, is_u16, is_u32, is_u64 in *.

(** Reads every field of an encoded structure back. *)
Ltac solve_decode_encode :=
  repeat (rewrite field_skip by (rewrite ?length_le_encode; lia);
          rewrite ?length_le_encode; cbn [Nat.sub]);
  first [ rewrite field_head by (cbn; lia); reflexivity
        | rewrite <-(app_nil_r (le_encode _ _)), field_head by (cbn; lia); reflexivity ].

Lemma hdr_decode_encode h rest : hdr_ok h -> hdr_decode (hdr_encode h ++ rest) = h.
Proof.
  destruct h; intros (? & ? & ? & ? & ?); cbn in * |- ; unfold_ranges.
  unfold hdr_decode, hdr_encode; cbn [h_ver h_type h_flags h_seq h_len].
  rewrite <-!app_assoc. f_equal; solve_decode_encode.
Qed.

Lemma op_decode_encode o rest : op_ok o -> op_decode (op_encode o ++ rest) = o.
Proof.
  destruct o; intros (? & ? & ? & ? & ? & ? & ?); cbn in * |- ; unfold_ranges.
  unfold op_decode, op_encode;
    cbn [op_slice op_write op_mmd op_rsvd op_reg op_rsvd2 op_val].
  rewrite <-!app_assoc. f_equal; solve_decode_encode.
Qed.

Lemma claim_decode_encode c rest : claim_ok c -> claim_decode (claim_encode c ++ rest) = c.
Proof.
  destruct c; intros (? & ? & ?); cbn in * |- ; unfold_ranges.
  unfold claim_decode, claim_encode; cbn [cl_max_ms cl_ncleanup cl_rsvd].
  rewrite <-!app_assoc. f_equal; solve_decode_encode.
Qed.

Lemma mb_decode_encode m rest : mb_ok m -> mb_decode (mb_encode m ++ rest) = m.
Proof.
  destruct m; intros (? & ? & ? & ?); cbn in * |- ; unfold_ranges.
  unfold mb_decode, mb_encode; cbn [mb_slice mb_cmd mb_payload_len mb_timeout_ms].
  rewrite <-!app_assoc. f_equal; solve_decode_encode.
Qed.

Lemma reset_decode_encode r rest : reset_ok r -> reset_decode (reset_encode r ++ rest) = r.
Proof.
  destruct r; intros (? & ?); cbn in * |- ; unfold_ranges.
  unfold reset_decode, reset_encode; cbn [rs_assert_us rs_deassert_us].
  rewrite <-!app_assoc. f_equal; solve_decode_encode.
Qed.

(** The image of a field followed by the bytes after it. *)
Lemma field_tail l off n :
  (off + n = length l)%nat -> bytes_ok l -> le_encode n (field l off n) = drop off l.
Proof.
  intros Hlen Hok. pose proof (field_split l off n 0) as H.
  rewrite Nat.add_0_r, take_0, app_nil_r in H.
  rewrite H by (lia || done). apply take_ge. rewrite length_drop. lia.
Qed.

Lemma field_cons l off n :
  (off + n <= length l)%nat -> bytes_ok l ->
  le_encode n (field l off n) ++ drop (off + n) l = drop off l.
Proof.
  intros Hlen Hok. pose proof (field_split l off n (length l - off - n)) as H.
  rewrite take_ge in H by (rewrite length_drop; lia).
  rewrite H by (lia || done). apply take_ge. rewrite length_drop. lia.
Qed.

Ltac fold_fields :=
  repeat match goal with
  | |- context [le_encode ?n (field ?l ?off ?n) ++ drop ?k ?l] =>
      change (drop k l) with (drop (off + n) l); rewrite (field_cons l off n) by (lia || done)
  end.

Lemma hdr_encode_decode l : length l = hdr_size -> bytes_ok l -> hdr_encode (hdr_decode l) = l.
Proof.
  unfold hdr_size. intros Hl Hok.
  unfold hdr_encode, hdr_decode; cbn [h_ver h_type h_flags h_seq h_len].
  rewrite (field_tail l 8 4) by (lia || done). fold_fields. apply drop_0.
Qed.

Lemma op_encode_decode l : length l = op_size -> bytes_ok l -> op_encode (op_decode l) = l.
Proof.
  unfold op_size. intros Hl Hok.
  unfold op_encode, op_decode; cbn [op_slice op_write op_mmd op_rsvd op_reg op_rsvd2 op_val].
  rewrite (field_tail l 8 4) by (lia || done). fold_fields. apply drop_0.
Qed.

Lemma mb_encode_decode l : length l = mb_size -> bytes_ok l -> mb_encode (mb_decode l) = l.
Proof.
  unfold mb_size. intros Hl Hok.
  unfold mb_encode, mb_decode; cbn [mb_slice mb_cmd mb_payload_len mb_timeout_ms].
  rewrite (field_tail l 4 4) by (lia || done). fold_fields. apply drop_0.
Qed.

Ltac solve_decode_ok l Hok :=
  pose proof (fun off n => field_range l off n Hok) as Hr; unfold_ranges;
  repeat split; cbn; first [apply (Hr _ 1%nat) | apply (Hr _ 2%nat) | apply (Hr _ 4%nat)].

Lemma hdr_decode_ok l : bytes_ok l -> hdr_ok (hdr_decode l).
Proof. intros Hok. solve_decode_ok l Hok. Qed.
Lemma op_decode_ok l : bytes_ok l -> op_ok (op_decode l).
Proof. intros Hok. solve_decode_ok l Hok. Qed.
Lemma claim_decode_ok l : bytes_ok l -> claim_ok (claim_decode l).
Proof. intros Hok. solve_decode_ok l Hok. Qed.
Lemma mb_decode_ok l : bytes_ok l -> mb_ok (mb_decode l).
Proof. intros Hok. solve_decode_ok l Hok. Qed.
Lemma reset_decode_ok l : bytes_ok l -> reset_ok (reset_decode l).
Proof. intros Hok. solve_decode_ok l Hok. Qed.

Lemma op_set_val_ok v o : op_ok o -> is_u32 v -> op_ok (op_set_val v o).
Proof. intros (? & ? & ? & ? & ? & ? & ?) Hv. by split_and!. Qed.
Lemma op_set_write_ok v o : op_ok o -> is_u8 v -> op_ok (op_set_write v o).
Proof. intros (? & ? & ? & ? & ? & ? & ?) Hv. by split_and!. Qed.

Lemma length_hdr_encode h : length (hdr_encode h) = hdr_size.
Proof. unfold hdr_encode. by rewrite !length_app, !length_le_encode. Qed.
Lemma length_op_encode o : length (op_encode o) = op_size.
Proof. unfold op_encode. by rewrite !length_app, !length_le_encode. Qed.
Lemma length_mb_encode m : length (mb_encode m) = mb_size.
Proof. unfold mb_encode. by rewrite !length_app, !length_le_encode. Qed.

Lemma hdr_encode_ok h : bytes_ok (hdr_encode h).
Proof. unfold hdr_encode. auto 10 with spid. Qed.
Lemma op_encode_ok o : bytes_ok (op_encode o).
Proof. unfold op_encode. auto 10 with spid. Qed.
Lemma mb_encode_ok m : bytes_ok (mb_encode m).
Proof. unfold mb_encode. auto 10 with spid. Qed.

Lemma type_of_code_spec z t : type_of_code z = Some t <-> z = type_code t.
Proof.
  split.
  - unfold type_of_code. intros H. repeat case_match; simplify_eq; done.
  - by intros ->; destruct t.
Qed.

#[export] Hint Resolve hdr_decode_ok op_decode_ok claim_decode_ok mb_decode_ok reset_decode_ok
  hdr_encode_ok op_encode_ok mb_encode_ok : spid.

(** every structure of the protocol has its C size in memory, and decoding
    an image recovers all its fields, whatever follows it in the message. *)
Theorem wire_structs_roundtrip h o c m r rest :
  hdr_ok h -> op_ok o -> claim_ok c -> mb_ok m -> reset_ok r ->
  (length (hdr_encode h) = hdr_size /\ hdr_decode (hdr_encode h ++ rest) = h) /\
  (length (op_encode o) = op_size /\ op_decode (op_encode o ++ rest) = o) /\
  (length (claim_encode c) = claim_size /\ claim_decode (claim_encode c ++ rest) = c) /\
  (length (mb_encode m) = mb_size /\ mb_decode (mb_encode m ++ rest) = m) /\
  (length (reset_encode r) = reset_size /\ reset_decode (reset_encode r ++ rest) = r).
Proof.
  intros. split_and!; try done; [by apply hdr_decode_encode|by apply op_decode_encode
    |by apply claim_decode_encode|by apply mb_decode_encode|by apply reset_decode_encode].
Qed.

Lemma wire_structs_roundtrip_witness :
  hdr_decode (hdr_encode (Hdr 1 2 1 0x01020304 12) ++ [5]) = Hdr 1 2 1 0x01020304 12 /\
  op_decode (op_encode (Op 3 1 0x1e 0 0xd800 0 0xdeadbeef) ++ [5]) = Op 3 1 0x1e 0 0xd800 0 0xdeadbeef.
Proof.
  destruct (wire_structs_roundtrip (Hdr 1 2 1 0x01020304 12) (Op 3 1 0x1e 0 0xd800 0 0xdeadbeef)
    (ClaimReq 1 2 3) (Mb 1 2 3 4) (ResetReq 5 6) [5]) as ((_ & Hh) & (_ & Ho) & _);
    try (unfold hdr_ok, op_ok, claim_ok, mb_ok, reset_ok; unfold_ranges; cbn; lia).
  split; [exact Hh|exact Ho].
Defined.
