(* ===== verification/Crc16.v ===== *)
(** * The mailbox checksum (crc16_ccitt of lan80xx_spid.c)

    The bit-serial loop of the daemon, its meaning as a remainder in GF(2)[x]
    modulo x^16 + x^12 + x^5 + 1, and the error patterns it detects. *)
From S2P Require Import Prelude Bytes.

(** ** The code *)

(** One round of the inner loop. *)
Definition crc_bit (crc : Z) : Z :=
  u16 (if Z.land crc 0x8000 =? 0 then Z.shiftl crc 1
       else Z.lxor (Z.shiftl crc 1) 0x1021).

(** One round of the outer loop: fold a byte in, then eight rounds. *)
Definition crc_byte (crc b : Z) : Z :=
  Nat.iter 8 crc_bit (u16 (Z.lxor crc (Z.shiftl (u16 b) 8))).

Definition crc16_ccitt (p : list Z) : Z := fold_left crc_byte p 0xffff.

(** ** The reference: polynomials over GF(2)

    A polynomial is the integer of its coefficients.  [multiple p] says that
    [p] lies in the ideal generated by the generator. *)

Definition POLY : Z := 0x11021.

Inductive multiple : Z -> Prop :=
| multiple_0 : multiple 0
| multiple_x p : multiple p -> multiple (Z.shiftl p 1)
| multiple_g p : multiple p -> multiple (Z.lxor p POLY).

(** Congruence modulo the generator. *)
Definition gf_eq (a b : Z) : Prop := multiple (Z.lxor a b).

(** The message as one big-endian number, first byte most significant. *)
Definition be_value (p : list Z) : Z := fold_left (fun a b => Z.lxor (Z.shiftl a 8) b) p 0.

(** The dividend: the message times x^16, with 0xffff added to its first
    sixteen coefficients (the initial value of the register). *)
Definition crc_dividend (p : list Z) : Z :=
  Z.lxor (Z.shiftl (be_value p) 16) (Z.shiftl 0xffff (8 * Z.of_nat (length p))).

(** ** Congruence is an equivalence and a congruence *)

Lemma multiple_lxor a b : multiple a -> multiple b -> multiple (Z.lxor a b).
Proof.
  intros Ha. revert b. induction Ha as [|p Hp IH|p Hp IH]; intros b Hb.
  - by rewrite Z.lxor_0_l.
  - revert p Hp IH. induction Hb as [|q Hq IHq|q Hq IHq]; intros p Hp IH.
    + rewrite Z.lxor_0_r. by constructor.
    + rewrite <-Z.shiftl_lxor. constructor. by apply IH.
    + rewrite <-Z.lxor_assoc. constructor. by apply IHq.
  - rewrite Z.lxor_assoc, (Z.lxor_comm POLY), <-Z.lxor_assoc. constructor. by apply IH.
Qed.

Lemma multiple_shiftl n a : 0 <= n -> multiple a -> multiple (Z.shiftl a n).
Proof.
  intros Hn Ha. revert n Hn. apply natlike_ind; [by rewrite Z.shiftl_0_r|].
  intros n Hn IH. unfold Z.succ. rewrite <-Z.shiftl_shiftl by lia. by constructor.
Qed.

#[export] Instance gf_eq_equivalence : Equivalence gf_eq.
Proof.
  split.
  - intros a. unfold gf_eq. rewrite Z.lxor_nilpotent. constructor.
  - intros a b H. unfold gf_eq in *. by rewrite Z.lxor_comm.
  - intros a b c H1 H2. unfold gf_eq in *.
    pose proof (multiple_lxor _ _ H1 H2) as H.
    rewrite Z.lxor_assoc, <-(Z.lxor_assoc b), Z.lxor_nilpotent, Z.lxor_0_l in H. done.
Qed.

#[export] Instance gf_eq_lxor : Proper (gf_eq ==> gf_eq ==> gf_eq) Z.lxor.
Proof.
  intros a a' Ha b b' Hb. unfold gf_eq in *.
  replace (Z.lxor (Z.lxor a b) (Z.lxor a' b')) with (Z.lxor (Z.lxor a a') (Z.lxor b b'));
    [by apply multiple_lxor|].
  rewrite !Z.lxor_assoc. f_equal. rewrite <-!Z.lxor_assoc. f_equal. apply Z.lxor_comm.
Qed.

Lemma gf_eq_shiftl n a b : 0 <= n -> gf_eq a b -> gf_eq (Z.shiftl a n) (Z.shiftl b n).
Proof. intros Hn H. unfold gf_eq. rewrite <-Z.shiftl_lxor. by apply multiple_shiftl. Qed.

(** ** One round of the register *)

(** The top bit of the register and the rest. *)
Lemma land_8000 c : is_u16 c -> (Z.land c 0x8000 =? 0) = (c <? 2 ^ 15).
Proof.
  intros Hc. unfold is_u16 in Hc.
  change 0x8000 with (Z.shiftl (Z.ones 1) 15).
  assert (Z.land c (Z.shiftl (Z.ones 1) 15) = Z.shiftl (c / 2 ^ 15) 15) as ->.
  { rewrite <-Z.shiftr_div_pow2 by lia. apply Z.bits_inj'. intros n Hn.
    rewrite Z.land_spec, !Z.shiftl_spec by lia.
    destruct (Z.lt_ge_cases n 15).
    - rewrite !(Z.testbit_neg_r _ (n - 15)) by lia. apply andb_false_r.
    - rewrite Z.shiftr_spec by lia. rewrite Z.sub_add.
      destruct (decide (n = 15)) as [->|Hne]; [by rewrite andb_true_r|].
      by rewrite (testbit_above c 16) by lia. }
  rewrite Z.shiftl_mul_pow2 by lia.
  destruct (Z.ltb_spec c (2 ^ 15)).
  - rewrite Z.div_small by lia. done.
  - apply Z.eqb_neq. assert (1 <= c / 2 ^ 15) by (apply Z.div_le_lower_bound; lia). lia.
Qed.

(** A round is: shift, and subtract the generator if a carry came out. *)
Lemma crc_bit_spec c :
  is_u16 c ->
  crc_bit c = if c <? 2 ^ 15 then Z.shiftl c 1 else Z.lxor (Z.shiftl c 1) POLY.
Proof.
  intros Hc. unfold crc_bit. rewrite land_8000 by done. unfold is_u16 in Hc.
  rewrite Z.shiftl_mul_pow2 by lia.
  destruct (Z.ltb_spec c (2 ^ 15)).
  - unfold u16. apply Z.mod_small. lia.
  - set (d := c - 2 ^ 15). assert (c * 2 ^ 1 = Z.lxor (2 * d) (2 ^ 16)) as ->.
    { rewrite <-Z.add_nocarry_lxor; [unfold d; lia|].
      apply Z.bits_inj'. intros n Hn. rewrite Z.land_spec, Z.bits_0, Z.pow2_bits_eqb by lia.
      destruct (Z.eqb_spec 16 n) as [<-|]; [|apply andb_false_r].
      by rewrite (testbit_above (2 * d) 16) by (unfold d; lia). }
    change POLY with (Z.lxor (2 ^ 16) 0x1021). rewrite <-Z.lxor_assoc.
    rewrite (Z.lxor_assoc (2 * d) (2 ^ 16) (2 ^ 16)), Z.lxor_nilpotent, Z.lxor_0_r.
    unfold u16. rewrite <-!Z.land_ones by lia.
    apply Z.bits_inj'. intros n Hn. rewrite Z.land_spec, !Z.lxor_spec, Z.pow2_bits_eqb by lia.
    destruct (Z.lt_ge_cases n 16).
    + rewrite Z.ones_spec_low, andb_true_r by lia.
      destruct (Z.eqb_spec 16 n); [lia|]. by rewrite xorb_false_r.
    + rewrite Z.ones_spec_high, andb_false_r by lia.
      by rewrite (testbit_above (2 * d) 16), (testbit_above 0x1021 16) by (unfold d; lia).
Qed.

Lemma crc_bit_range c : is_u16 (crc_bit c).
Proof. apply u16_range. Qed.

Lemma crc_bit_gf c : is_u16 c -> gf_eq (crc_bit c) (Z.shiftl c 1).
Proof.
  intros Hc. rewrite crc_bit_spec by done. destruct (c <? 2 ^ 15); [done|].
  unfold gf_eq. rewrite Z.lxor_assoc, (Z.lxor_comm POLY), <-Z.lxor_assoc.
  rewrite Z.lxor_nilpotent. repeat constructor.
Qed.

Lemma crc_rounds n c :
  is_u16 c ->
  is_u16 (Nat.iter n crc_bit c) /\ gf_eq (Nat.iter n crc_bit c) (Z.shiftl c (Z.of_nat n)).
Proof.
  intros Hc. induction n as [|n [IHr IH]]; [by rewrite Z.shiftl_0_r|].
  rewrite Nat2Z.inj_succ, Nat.iter_succ. split; [apply crc_bit_range|].
  rewrite crc_bit_gf by done. unfold Z.succ. rewrite <-Z.shiftl_shiftl by lia.
  by apply gf_eq_shiftl.
Qed.

Lemma u16_lxor a b : is_u16 a -> is_u16 b -> is_u16 (Z.lxor a b).
Proof. by apply lxor_bound. Qed.

Lemma u16_byte_shift b : is_u8 b -> is_u16 (Z.shiftl (u16 b) 8).
Proof.
  unfold is_u8, is_u16. intros Hb. rewrite u16_id by (unfold is_u16; lia).
  rewrite Z.shiftl_mul_pow2; lia.
Qed.

Lemma crc_byte_unfold c b :
  is_u16 c -> is_u8 b ->
  crc_byte c b = Nat.iter 8 crc_bit (Z.lxor c (Z.shiftl b 8)) /\
  is_u16 (Z.lxor c (Z.shiftl b 8)).
Proof.
  intros Hc Hb. assert (u16 b = b) as Hu by (apply u16_id; unfold is_u8, is_u16 in *; lia).
  assert (is_u16 (Z.lxor c (Z.shiftl b 8))) as Hr.
  { apply u16_lxor; [done|]. rewrite <-Hu. by apply u16_byte_shift. }
  unfold crc_byte. by rewrite Hu, u16_id.
Qed.

Lemma crc_byte_range c b : is_u16 (crc_byte c b).
Proof. unfold crc_byte. apply (crc_rounds 8), u16_range. Qed.

Lemma crc_fold_range p c : is_u16 c -> is_u16 (fold_left crc_byte p c).
Proof.
  revert c. induction p as [|b p IH]; intros c Hc; [exact Hc|].
  rewrite fold_left_cons. apply IH, crc_byte_range.
Qed.

Lemma crc16_range p : is_u16 (crc16_ccitt p).
Proof. apply crc_fold_range. unfold is_u16. lia. Qed.

Lemma be_value_snoc p b : be_value (p ++ [b]) = Z.lxor (Z.shiftl (be_value p) 8) b.
Proof. unfold be_value. by rewrite fold_left_app. Qed.

Lemma crc_dividend_snoc p b :
  crc_dividend (p ++ [b]) = Z.lxor (Z.shiftl (crc_dividend p) 8) (Z.shiftl b 16).
Proof.
  unfold crc_dividend. rewrite be_value_snoc, length_app. cbn [length].
  rewrite Nat2Z.inj_add, !Z.shiftl_lxor, !Z.shiftl_shiftl by lia.
  replace (8 * (Z.of_nat (length p) + Z.of_nat 1)) with (8 * Z.of_nat (length p) + 8) by lia.
  rewrite (Z.add_comm 8 16), !Z.lxor_assoc. f_equal. apply Z.lxor_comm.
Qed.

Lemma crc16_snoc p b : crc16_ccitt (p ++ [b]) = crc_byte (crc16_ccitt p) b.
Proof. unfold crc16_ccitt. by rewrite fold_left_app. Qed.

Lemma crc16_congruent p : bytes_ok p -> gf_eq (crc16_ccitt p) (crc_dividend p).
Proof.
  induction p as [|b p IH] using rev_ind; intros Hok; [reflexivity|].
  apply Forall_app in Hok as [Hp Hb]. apply Forall_cons in Hb as [Hb _].
  rewrite crc_dividend_snoc, <-(gf_eq_shiftl 8 _ _ ltac:(lia) (IH Hp)), crc16_snoc.
  destruct (crc_byte_unfold _ b (crc16_range p) Hb) as [-> Hr].
  destruct (crc_rounds 8 _ Hr) as [_ Hc]. rewrite Hc.
  rewrite Z.shiftl_lxor, Z.shiftl_shiftl by lia. reflexivity.
Qed.

(** ** Uniqueness of the remainder, by long division *)

Definition poly_reduce (r : Z) : Z := if Z.testbit r 16 then Z.lxor r POLY else r.

Fixpoint poly_rem_pos (p : positive) : Z :=
  match p with
  | xH => 1
  | xO p' => poly_reduce (2 * poly_rem_pos p')
  | xI p' => poly_reduce (2 * poly_rem_pos p' + 1)
  end.

Definition poly_rem (z : Z) : Z := match z with Zpos p => poly_rem_pos p | _ => 0 end.

Lemma poly_rem_step z (b : bool) :
  0 <= z -> poly_rem (2 * z + Z.b2z b) = poly_reduce (2 * poly_rem z + Z.b2z b).
Proof.
  intros Hz. destruct z as [|p|p]; [by destruct b| |lia].
  destruct b; cbn [Z.b2z]; rewrite ?Z.add_0_r; reflexivity.
Qed.

Lemma lxor_double a b (x y : bool) :
  Z.lxor (2 * a + Z.b2z x) (2 * b + Z.b2z y) = 2 * Z.lxor a b + Z.b2z (xorb x y).
Proof.
  apply Z.bits_inj'. intros n Hn. destruct (decide (n = 0)) as [->|].
  - by rewrite Z.lxor_spec, !Z.testbit_0_r.
  - replace n with (Z.succ (n - 1)) by lia.
    by rewrite Z.lxor_spec, !Z.testbit_succ_r, Z.lxor_spec by lia.
Qed.

Lemma poly_reduce_lxor a b :
  poly_reduce (Z.lxor a b) = Z.lxor (poly_reduce a) (poly_reduce b).
Proof.
  unfold poly_reduce. rewrite Z.lxor_spec.
  destruct (Z.testbit a 16), (Z.testbit b 16); cbn [xorb].
  - rewrite Z.lxor_assoc, <-(Z.lxor_assoc POLY), (Z.lxor_comm POLY b), Z.lxor_assoc.
    by rewrite Z.lxor_nilpotent, Z.lxor_0_r.
  - by rewrite !Z.lxor_assoc, (Z.lxor_comm POLY).
  - by rewrite Z.lxor_assoc.
  - done.
Qed.

Lemma poly_rem_lxor a b :
  0 <= a -> 0 <= b -> poly_rem (Z.lxor a b) = Z.lxor (poly_rem a) (poly_rem b).
Proof.
  intros Ha. revert b. induction a as [a IH] using (well_founded_induction (Z.lt_wf 0)).
  intros b Hb. destruct (decide (a = 0)) as [->|Hne]; [by rewrite !Z.lxor_0_l|].
  rewrite (Z.div2_odd a), (Z.div2_odd b), lxor_double.
  assert (0 <= Z.div2 a < a) by (rewrite Z.div2_div; split; [apply Z.div_pos|apply Z.div_lt]; lia).
  assert (0 <= Z.div2 b) by (rewrite Z.div2_div; apply Z.div_pos; lia).
  rewrite !poly_rem_step by (done || lia || apply Z.lxor_nonneg; lia).
  rewrite (IH (Z.div2 a)) by lia. by rewrite <-poly_reduce_lxor, lxor_double.
Qed.

Lemma poly_rem_small z : 0 <= z < 2 ^ 16 -> poly_rem z = z.
Proof.
  intros [Hz Hlt]. revert Hlt. induction z as [z IH] using (well_founded_induction (Z.lt_wf 0)).
  intros Hlt. destruct (decide (z = 0)) as [->|Hne]; [done|].
  rewrite (Z.div2_odd z) at 1.
  assert (0 <= Z.div2 z < z) by (rewrite Z.div2_div; split; [apply Z.div_pos|apply Z.div_lt]; lia).
  rewrite poly_rem_step, IH, <-Z.div2_odd by lia.
  unfold poly_reduce. by rewrite (testbit_above z 16).
Qed.

Lemma multiple_poly_rem p : multiple p -> 0 <= p /\ poly_rem p = 0.
Proof.
  induction 1 as [|p Hp [IHp IH]|p Hp [IHp IH]]; [done| |].
  - rewrite Z.shiftl_mul_pow2 by lia. split; [lia|].
    replace (p * 2 ^ 1) with (2 * p + Z.b2z false) by (cbn; lia).
    by rewrite poly_rem_step, IH.
  - split; [apply Z.lxor_nonneg; unfold POLY; lia|].
    by rewrite poly_rem_lxor, IH.
Qed.

Lemma gf_eq_unique r r' : is_u16 r -> is_u16 r' -> gf_eq r r' -> r = r'.
Proof.
  unfold gf_eq. intros Hr Hr' H%multiple_poly_rem. destruct H as [_ H].
  rewrite poly_rem_small in H by (by apply lxor_bound). by apply Z.lxor_eq.
Qed.

(** ** Error detection *)

Lemma crc_bit_inj c c' : is_u16 c -> is_u16 c' -> crc_bit c = crc_bit c' -> c = c'.
Proof.
  intros Hc Hc' H. rewrite !crc_bit_spec in H by done.
  assert (forall z, Z.odd (Z.shiftl z 1) = false) as Hs.
  { intros z. rewrite Z.shiftl_mul_pow2 by lia. change (2 ^ 1) with 2. by rewrite Z.mul_comm, Z.odd_mul. }
  assert (forall z, Z.odd (Z.lxor z POLY) = negb (Z.odd z)) as Hx.
  { intros z. rewrite <-!Z.bit0_odd, Z.lxor_spec. by rewrite xorb_true_r. }
  assert (forall a b, Z.shiftl a 1 = Z.shiftl b 1 -> a = b) as Hi.
  { intros a b Hab. rewrite !Z.shiftl_mul_pow2 in Hab by lia. lia. }
  destruct (Z.ltb_spec c (2 ^ 15)), (Z.ltb_spec c' (2 ^ 15)).
  - by apply Hi.
  - apply (f_equal Z.odd) in H. by rewrite Hx, !Hs in H.
  - apply (f_equal Z.odd) in H. by rewrite Hx, !Hs in H.
  - apply Hi. apply (f_equal (fun z => Z.lxor z POLY)) in H.
    by rewrite !Z.lxor_assoc, Z.lxor_nilpotent, !Z.lxor_0_r in H.
Qed.

Lemma crc_rounds_inj n c c' :
  is_u16 c -> is_u16 c' -> Nat.iter n crc_bit c = Nat.iter n crc_bit c' -> c = c'.
Proof.
  intros Hc Hc'. induction n as [|n IH]; [done|]. rewrite !Nat.iter_succ.
  intros H%crc_bit_inj; [by apply IH|apply crc_rounds; done..].
Qed.

(** The generator divides no short polynomial times a power of x. *)
Lemma short_not_multiple b n : 0 <= n -> is_u16 b -> gf_eq (Z.shiftl b n) 0 -> b = 0.
Proof.
  intros Hn Hb H. rewrite <-(Z2Nat.id n) in H by done.
  destruct (crc_rounds (Z.to_nat n) b Hb) as [Hr Hg]. rewrite <-Hg in H.
  assert (is_u16 0) as H0 by (unfold is_u16; lia).
  apply (crc_rounds_inj (Z.to_nat n)); [done..|].
  destruct (crc_rounds (Z.to_nat n) 0 H0) as [Hr0 Hg0]. rewrite Z.shiftl_0_l in Hg0.
  apply gf_eq_unique; [done..|]. by rewrite Hg0.
Qed.

(** A burst error of at most sixteen bits changes the checksum. *)
Lemma burst_changes_crc p p' b k :
  bytes_ok p -> bytes_ok p' -> length p = length p' ->
  0 < b < 2 ^ 16 -> 0 <= k -> Z.lxor (be_value p) (be_value p') = Z.shiftl b k ->
  crc16_ccitt p <> crc16_ccitt p'.
Proof.
  intros Hp Hp' Hlen Hb Hk Hx Heq.
  enough (b = 0) by lia. apply (short_not_multiple b (k + 16)); [lia|unfold is_u16; lia|].
  rewrite <-Z.shiftl_shiftl, <-Hx, Z.shiftl_lxor by lia.
  assert (forall x y z, Z.lxor x y = Z.lxor (Z.lxor x z) (Z.lxor y z)) as Hz.
  { intros x y z. rewrite (Z.lxor_comm y z), Z.lxor_assoc, <-(Z.lxor_assoc z z y).
    by rewrite Z.lxor_nilpotent, Z.lxor_0_l. }
  rewrite (Hz _ _ (Z.shiftl 0xffff (8 * Z.of_nat (length p)))).
  rewrite Hlen at 2. fold (crc_dividend p) (crc_dividend p').
  rewrite <-!crc16_congruent, Heq by done. by rewrite Z.lxor_nilpotent.
Qed.

(** C31: the checksum loop computes the remainder, modulo the CCITT generator
    x^16 + x^12 + x^5 + 1, of the message times x^16 with its first sixteen
    coefficients inverted; it is the only 16-bit value congruent to it. *)
Theorem crc16_is_remainder p :
  bytes_ok p ->
  is_u16 (crc16_ccitt p) /\ gf_eq (crc16_ccitt p) (crc_dividend p) /\
  forall r, is_u16 r -> gf_eq r (crc_dividend p) -> r = crc16_ccitt p.
Proof.
  intros Hp. split_and!; [apply crc16_range|by apply crc16_congruent|].
  intros r Hr Hg. apply gf_eq_unique; [done|apply crc16_range|].
  by rewrite crc16_congruent.
Qed.

(** The standard check value of this CRC variant. *)
Lemma crc16_is_remainder_witness :
  crc16_ccitt [0x31; 0x32; 0x33; 0x34; 0x35; 0x36; 0x37; 0x38; 0x39] = 0x29b1 /\
  gf_eq 0x29b1 (crc_dividend [0x31; 0x32; 0x33; 0x34; 0x35; 0x36; 0x37; 0x38; 0x39]).
Proof.
  split; [reflexivity|].
  destruct (crc16_is_remainder [0x31; 0x32; 0x33; 0x34; 0x35; 0x36; 0x37; 0x38; 0x39])
    as (_ & H & _); [|exact H].
  repeat constructor; unfold is_u8; lia.
Defined.

(** a corruption confined to a window of sixteen consecutive bits of a
    packet always changes its checksum. *)
Theorem crc16_detects_bursts p p' b k :
  bytes_ok p -> bytes_ok p' -> length p = length p' ->
  0 < b < 2 ^ 16 -> 0 <= k -> Z.lxor (be_value p) (be_value p') = Z.shiftl b k ->
  crc16_ccitt p <> crc16_ccitt p'.
Proof. intros. by eapply burst_changes_crc. Qed.

Lemma crc16_detects_bursts_witness :
  crc16_ccitt [0x12; 0x34; 0x56] <> crc16_ccitt [0x12; 0x35; 0xd6].
Proof.
  apply (crc16_detects_bursts _ _ 0x180 0); try reflexivity; try lia;
    repeat constructor; unfold is_u8; lia.
Defined.
