(* ===== verification/Fmt.v ===== *)
(** * printf conversions

    The conversions of the format strings of the daemon (%u %d %llu %x %s %c),
    as functions to [string], with the bounds on the length of what they print
    that the fixed-size text buffers of the daemon rely on. *)
From S2P Require Import Prelude.

(** Digit of value [0..15] (or up to 35), lower or upper case. *)
Definition digit_char (upper : bool) (d : Z) : Ascii.ascii :=
  Ascii.ascii_of_nat (Z.to_nat (if d <? 10 then 48 + d
                                else if upper then 55 + d else 87 + d)).

(** Digits of [n] in base [b], most significant first, in front of [acc]. *)
Fixpoint digits (fuel : nat) (upper : bool) (b n : Z) (acc : string) : string :=
  match fuel with
  | O => acc
  | S f =>
      let acc' := String (digit_char upper (n mod b)) acc in
      if n / b =? 0 then acc' else digits f upper b (n / b) acc'
  end.

(** Enough fuel for every base from 2 on. *)
Definition digit_fuel (n : Z) : nat := S (Z.to_nat (Z.log2 n)).

(** %u and %llu. *)
Definition dec (n : Z) : string := digits (digit_fuel n) false 10 n "".
(** %d. *)
Definition dec_int (n : Z) : string := if n <? 0 then String "-"%char (dec (- n)) else dec n.

Fixpoint pad_left (k : nat) (c : Ascii.ascii) (s : string) : string :=
  match k with O => s | S k' => String c (pad_left k' c s) end.

(** %0<w>x and %0<w>X. *)
Definition hex_case (upper : bool) (w : nat) (n : Z) : string :=
  let s := digits (digit_fuel n) upper 16 n "" in
  pad_left (w - String.length s) "0"%char s.
Definition hex (w : nat) (n : Z) : string := hex_case false w n.
Definition HEX (w : nat) (n : Z) : string := hex_case true w n.

(** %#x and %#06x. *)
Definition hex_alt (n : Z) : string := if n =? 0 then "0" else "0x" +:+ hex 1 n.
Definition hex_alt6 (n : Z) : string := if n =? 0 then "000000" else "0x" +:+ hex 4 n.

(** The newline character. *)
Definition nl : string := String (Ascii.ascii_of_nat 10) "".

(** [snprintf(buf, size, "%s", s)] into a buffer of [size] chars. *)
Definition trunc (size : nat) (s : string) : string := String.substring 0 (size - 1) s.

(** Text as the bytes of a message body. *)
Definition str_bytes (s : string) : list Z :=
  (fun c => Z.of_nat (Ascii.nat_of_ascii c)) <$> String.list_ascii_of_string s.

(** ** Lengths *)

Lemma append_cons c s t : String c s +:+ t = String c (s +:+ t).
Proof. done. Qed.
Lemma append_nil t : "" +:+ t = t.
Proof. done. Qed.
Lemma append_assoc s t u : (s +:+ t) +:+ u = s +:+ (t +:+ u).
Proof. induction s as [|c s IH]; [done|]. by rewrite !append_cons, IH. Qed.

Lemma slen_app s t : String.length (s +:+ t) = (String.length s + String.length t)%nat.
Proof. induction s as [|c s IH]; simpl; [done|]. by rewrite IH. Qed.

Lemma digits_length fuel upper b n acc k :
  2 <= b -> 0 <= n < b ^ Z.of_nat k -> (1 <= k)%nat ->
  (String.length (digits fuel upper b n acc) <= k + String.length acc)%nat.
Proof.
  intros Hb. revert n acc k.
  induction fuel as [|f IH]; intros n acc k Hn Hk; cbn [digits]; [lia|].
  destruct (Z.eqb_spec (n / b) 0); [cbn; lia|].
  destruct k as [|[|k]]; [lia| |].
  - rewrite Z.pow_1_r in Hn. rewrite Z.div_small in * by lia. lia.
  - etransitivity; [apply (IH _ _ (S k))|cbn; lia]; [|lia]. split.
    + apply Z.div_pos; lia.
    + apply Z.div_lt_upper_bound; [lia|].
      rewrite Nat2Z.inj_succ, Z.pow_succ_r in Hn by lia. apply Hn.
Qed.

Lemma dec_length n k :
  0 <= n < 10 ^ Z.of_nat k -> (1 <= k)%nat -> (String.length (dec n) <= k)%nat.
Proof.
  intros Hn Hk. unfold dec.
  pose proof (digits_length (digit_fuel n) false 10 n "" k). cbn in *. lia.
Qed.

Lemma dec_u8_length n : is_u8 n -> (String.length (dec n) <= 3)%nat.
Proof. unfold is_u8. intros H. apply dec_length; cbn; lia. Qed.
Lemma dec_u32_length n : is_u32 n -> (String.length (dec n) <= 10)%nat.
Proof. unfold is_u32. intros H. apply dec_length; cbn; lia. Qed.
Lemma dec_u64_length n : is_u64 n -> (String.length (dec n) <= 20)%nat.
Proof. unfold is_u64. intros H. apply dec_length; cbn; lia. Qed.

Lemma dec_int_length n :
  - 2 ^ 31 <= n < 2 ^ 31 -> (String.length (dec_int n) <= 11)%nat.
Proof.
  intros H. unfold dec_int. destruct (Z.ltb_spec n 0); cbn [String.length].
  - apply le_n_S, dec_length; cbn; lia.
  - etransitivity; [apply (dec_length _ 10); cbn; lia|lia].
Qed.

Lemma pad_left_length k c s : String.length (pad_left k c s) = (k + String.length s)%nat.
Proof. induction k as [|k IH]; cbn; [done|]. by rewrite IH. Qed.

Lemma hex_case_length upper w n :
  0 <= n < 16 ^ Z.of_nat w -> (1 <= w)%nat -> String.length (hex_case upper w n) = w.
Proof.
  intros Hn Hw. unfold hex_case. rewrite pad_left_length.
  pose proof (digits_length (digit_fuel n) upper 16 n "" w). cbn in *. lia.
Qed.

Lemma trunc_length size s : (String.length (trunc size s) <= size - 1)%nat.
Proof.
  unfold trunc. generalize (size - 1)%nat. intros m. clear size. revert m.
  induction s as [|c s IH]; intros [|m]; cbn; try lia. specialize (IH m). lia.
Qed.

Lemma trunc_id size s : (String.length s < size)%nat -> trunc size s = s.
Proof.
  intros H. unfold trunc. assert (String.length s <= size - 1)%nat as Hl by lia.
  revert Hl. generalize (size - 1)%nat. clear. intros m. revert m.
  induction s as [|c s IH]; intros [|m] Hl; cbn in *; try lia; [done..|].
  f_equal. apply IH. lia.
Qed.

Lemma str_bytes_ok s : bytes_ok (str_bytes s).
Proof.
  unfold str_bytes. apply Forall_fmap, Forall_true. intros c. cbn. unfold is_u8.
  pose proof (Ascii.nat_ascii_bounded c). lia.
Qed.

Lemma length_str_bytes s : length (str_bytes s) = String.length s.
Proof. unfold str_bytes. rewrite length_fmap. induction s as [|c s IH]; cbn; [done|]. by rewrite IH. Qed.

Lemma str_bytes_app s t : str_bytes (s +:+ t) = str_bytes s ++ str_bytes t.
Proof. unfold str_bytes. induction s; simpl; [done|]. by f_equal. Qed.

#[export] Hint Resolve str_bytes_ok : spid.
