(* ===== verification/ParseUint.v ===== *)
(** * Command-line integers (parse.c)

    [strtoul] as the C library documents it, and [parse_uint] on top of it:
    what it accepts, what it returns, and that it reads back every number the
    daemon prints. *)
From S2P Require Import Prelude Fmt.

Definition ULONG_MAX : Z := 2 ^ 64 - 1.

Definition is_space (c : Ascii.ascii) : bool :=
  let n := Ascii.nat_of_ascii c in (n =? 32)%nat || ((9 <=? n) && (n <=? 13))%nat.

(** Value of a digit character, letters counting from 10. *)
Definition digit_val (c : Ascii.ascii) : option Z :=
  let n := Z.of_nat (Ascii.nat_of_ascii c) in
  if (48 <=? n) && (n <=? 57) then Some (n - 48)
  else if (97 <=? n) && (n <=? 122) then Some (n - 87)
  else if (65 <=? n) && (n <=? 90) then Some (n - 55)
  else None.

Definition digit_in (base : Z) (c : Ascii.ascii) : option Z :=
  match digit_val c with
  | Some d => if d <? base then Some d else None
  | None => None
  end.

Fixpoint skip_spaces (s : string) : string :=
  match s with
  | String c s' => if is_space c then skip_spaces s' else s
  | EmptyString => s
  end.

(** Longest run of digits: mathematical value, number of digits, rest. *)
Fixpoint scan_digits (base : Z) (s : string) (acc : Z) (n : nat) : Z * nat * string :=
  match s with
  | String c s' =>
      match digit_in base c with
      | Some d => scan_digits base s' (acc * base + d) (S n)
      | None => (acc, n, s)
      end
  | EmptyString => (acc, n, s)
  end.

Definition strip_sign (s : string) : bool * string :=
  match s with
  | String c s' =>
      if Ascii.eqb c "-"%char then (true, s')
      else if Ascii.eqb c "+"%char then (false, s') else (false, s)
  | EmptyString => (false, s)
  end.

(** Base selection and the optional 0x prefix, which counts only when a hex
    digit follows it. *)
Definition hex_prefix (s : string) : option string :=
  match s with
  | String z (String x (String c s')) =>
      if Ascii.eqb z "0"%char && (Ascii.eqb x "x"%char || Ascii.eqb x "X"%char)
         && bool_decide (is_Some (digit_in 16 c))
      then Some (String c s') else None
  | _ => None
  end.

Definition leading_zero (s : string) : bool :=
  match s with String c _ => Ascii.eqb c "0"%char | EmptyString => false end.

Definition strip_base (base : Z) (s : string) : Z * string :=
  if (base =? 0) || (base =? 16) then
    match hex_prefix s with
    | Some s' => (16, s')
    | None => if base =? 16 then (16, s)
              else if leading_zero s then (8, s) else (10, s)
    end
  else (base, s).

Record strtoul_result := StrtoulResult {
  st_value : Z;
  st_no_conv : bool;      (* end == s *)
  st_rest : string;       (* text at [end] *)
  st_erange : bool }.     (* errno == ERANGE *)

Definition strtoul (s : string) (base : Z) : strtoul_result :=
  let '(neg, s1) := strip_sign (skip_spaces s) in
  let '(b, s2) := strip_base base s1 in
  let '(v, n, rest) := scan_digits b s2 0 0 in
  match n with
  | O => StrtoulResult 0 true s false
  | S _ =>
      if ULONG_MAX <? v then StrtoulResult ULONG_MAX false rest true
      else StrtoulResult (if neg then u64 (- v) else v) false rest false
  end.

Definition parse_uint (s : string) (base lo hi : Z) : option Z :=
  let r := strtoul s base in
  if st_no_conv r || negb (bool_decide (st_rest r = ""%string)) || st_erange r
     || (st_value r <? lo) || (hi <? st_value r)
  then None else Some (st_value r).

(** What it prints on stderr when it does not accept. *)
Definition invalid_numeric (s : string) : string := "invalid numeric argument '" +:+ s +:+ "'" +:+ nl.

(** ** What is accepted *)

(** Value of a digit string. *)
Definition digits_value (base : Z) (ds : list Z) : Z := fold_left (fun a d => a * base + d) ds 0.


Lemma scan_digits_all base s ds acc n :
  Forall2 (fun c d => digit_in base c = Some d) (String.list_ascii_of_string s) ds ->
  scan_digits base s acc n =
    (fold_left (fun a d => a * base + d) ds acc, (n + length ds)%nat, ""%string).
Proof.
  revert ds acc n. induction s as [|c s IH]; intros ds acc n HF; cbn in *; inversion HF; subst.
  - by rewrite Nat.add_0_r.
  - match goal with H : digit_in base c = _ |- _ => rewrite H end.
    rewrite (IH l') by done. cbn. f_equal. f_equal. lia.
Qed.

(** Digits printed in base [b] evaluate back. *)
Lemma digit_val_char upper d :
  0 <= d < 36 -> digit_val (digit_char upper d) = Some d.
Proof.
  intros Hd. assert (Z.to_nat d < 36)%nat as Hn by lia.
  rewrite <-(Z2Nat.id d) by lia. revert Hn. generalize (Z.to_nat d). clear.
  intros n Hn. do 36 (destruct n as [|n]; [by destruct upper|]). lia.
Qed.

Lemma digits_scan fuel upper b n acc ds :
  2 <= b <= 36 -> 0 <= n -> (Z.to_nat (Z.log2 n) < fuel)%nat ->
  Forall2 (fun c d => digit_in b c = Some d) (String.list_ascii_of_string acc) ds ->
  exists ds', Forall2 (fun c d => digit_in b c = Some d)
                (String.list_ascii_of_string (digits fuel upper b n acc)) (ds' ++ ds) /\
    digits_value b ds' = n /\ ds' <> [] /\
    (n <> 0 -> exists d ds'', ds' = d :: ds'' /\ d <> 0).
Proof.
  intros Hb. revert n acc ds. induction fuel as [|f IH]; intros n acc ds Hn Hf HF; [lia|].
  cbn [digits]. pose proof (Z.mod_pos_bound n b ltac:(lia)) as Hm.
  assert (Forall2 (fun c d => digit_in b c = Some d)
     (String.list_ascii_of_string (String (digit_char upper (n mod b)) acc)) (n mod b :: ds)) as HF'.
  { cbn. constructor; [|done]. unfold digit_in. rewrite digit_val_char by lia.
    by rewrite (proj2 (Z.ltb_lt _ _)) by lia. }
  destruct (Z.eqb_spec (n / b) 0) as [Hz|Hz].
  - exists [n mod b]. pose proof (Z.div_mod n b ltac:(lia)). split_and!; [done|cbn; lia|done|].
    intros Hne. exists (n mod b), []. split; [done|lia].
  - assert (0 < n / b) by (pose proof (Z.div_pos n b); lia).
    assert (Z.log2 (n / b) < Z.log2 n) as Hlog.
    { apply Z.log2_lt_pow2; [lia|]. pose proof (Z.log2_spec n) as [_ Hs]; [|].
      { destruct (decide (n = 0)); [subst; rewrite Z.div_0_l in *; lia|lia]. }
      apply Z.div_lt_upper_bound; [lia|]. rewrite Z.pow_succ_r in Hs by apply Z.log2_nonneg.
      pose proof (Z.pow_pos_nonneg 2 (Z.log2 n)). pose proof (Z.log2_nonneg n). nia. }
    pose proof (Z.log2_nonneg (n / b)).
    destruct (IH (n / b) _ _ ltac:(lia) ltac:(lia) HF') as (ds' & HF2 & Hv & Hne & Hlead).
    exists (ds' ++ [n mod b]). rewrite <-app_assoc. split_and!; [done| | |].
    + unfold digits_value in *. rewrite fold_left_app. cbn. rewrite Hv.
      pose proof (Z.div_mod n b). lia.
    + by destruct ds'.
    + intros _. destruct (Hlead Hz) as (d & ds'' & -> & ?). by eexists _, _.
Qed.

(** ** Digits are neither blanks nor signs *)

Lemma digit_in_not_special b c d :
  digit_in b c = Some d ->
  is_space c = false /\ Ascii.eqb c "-"%char = false /\ Ascii.eqb c "+"%char = false /\
  (b <= 16 -> Ascii.eqb c "x"%char = false /\ Ascii.eqb c "X"%char = false).
Proof.
  unfold digit_in. destruct (digit_val c) as [d'|] eqn:Hd; [|done].
  destruct (Z.ltb_spec d' b); [|done]. intros [= <-].
  destruct c as [[] [] [] [] [] [] [] []]; cbv in Hd; simplify_eq/=;
    (split_and!; [done..|intros; first [done|lia]]).
Qed.

Lemma strip_head b s ds :
  Forall2 (fun c d => digit_in b c = Some d) (String.list_ascii_of_string s) ds ->
  strip_sign (skip_spaces s) = (false, s).
Proof.
  destruct s as [|c s]; [done|]. cbn. inversion 1; subst.
  destruct (digit_in_not_special b c y) as (-> & Hm & Hp & _); [done|].
  cbn. by rewrite Hm, Hp.
Qed.

Lemma strtoul_digits s base b ds :
  Forall2 (fun c d => digit_in b c = Some d) (String.list_ascii_of_string s) ds ->
  ds <> [] -> strip_base base s = (b, s) -> digits_value b ds <= ULONG_MAX ->
  strtoul s base = StrtoulResult (digits_value b ds) false "" false.
Proof.
  intros HF Hne Hb Hv. unfold strtoul. rewrite (strip_head b s ds HF), Hb.
  rewrite (scan_digits_all b s ds 0 0 HF). destruct ds as [|d ds]; [done|].
  cbn [length Nat.add]. fold (digits_value b (d :: ds)).
  destruct (Z.ltb_spec ULONG_MAX (digits_value b (d :: ds))); [lia|done].
Qed.

Lemma hex_prefix_digits b s ds :
  b <= 16 -> Forall2 (fun c d => digit_in b c = Some d) (String.list_ascii_of_string s) ds ->
  hex_prefix s = None.
Proof.
  intros Hb. destruct s as [|z [|x [|c s]]]; try done. cbn. intros HF.
  apply Forall2_cons_inv_l in HF as (d0 & ds0 & _ & HF & ->).
  apply Forall2_cons_inv_l in HF as (d1 & ds1 & Hd1 & _ & ->).
  destruct (digit_in_not_special b x d1) as (_ & _ & _ & Hx); [done|].
  destruct (Hx Hb) as [-> ->]. by rewrite andb_false_r.
Qed.

Lemma parse_uint_value s base lo hi v :
  lo <= v <= hi -> strtoul s base = StrtoulResult v false "" false ->
  parse_uint s base lo hi = Some v.
Proof.
  intros Hv Hs. unfold parse_uint. rewrite Hs. cbn.
  destruct (Z.ltb_spec v lo), (Z.ltb_spec hi v); by (lia || done).
Qed.

Lemma dec_digits n :
  0 <= n -> exists ds, Forall2 (fun c d => digit_in 10 c = Some d)
    (String.list_ascii_of_string (dec n)) ds /\ ds <> [] /\ digits_value 10 ds = n /\
    (n <> 0 -> leading_zero (dec n) = false).
Proof.
  intros Hn. destruct (digits_scan (digit_fuel n) false 10 n "" []) as (ds & HF & Hv & Hne & Hl);
    [lia|done|unfold digit_fuel; lia|constructor|].
  rewrite app_nil_r in HF. exists ds. split_and!; [done..|].
  intros (d & ds' & -> & Hd)%Hl. unfold dec, leading_zero.
  destruct (digits _ _ _ _ _) as [|c s]; [done|].
  cbn in HF. inversion HF; subst. destruct (Ascii.eqb_spec c "0"%char) as [->|]; [|done].
  match goal with H : digit_in 10 "0"%char = _ |- _ => cbv in H; by simplify_eq end.
Qed.

Lemma hex_digits n :
  0 <= n -> exists ds, Forall2 (fun c d => digit_in 16 c = Some d)
    (String.list_ascii_of_string (hex 1 n)) ds /\ ds <> [] /\ digits_value 16 ds = n.
Proof.
  intros Hn. destruct (digits_scan (digit_fuel n) false 16 n "" []) as (ds & HF & Hv & Hne & _);
    [lia|done|unfold digit_fuel; lia|constructor|].
  rewrite app_nil_r in HF. exists ds. split_and!; [|done..].
  unfold hex, hex_case. destruct (digits _ _ _ _ _) as [|c s] eqn:Hs; [|done].
  cbn in HF. inversion HF; subst. done.
Qed.

Lemma strip_base_0x s ds :
  Forall2 (fun c d => digit_in 16 c = Some d) (String.list_ascii_of_string s) ds -> ds <> [] ->
  strip_base 0 (String "0" (String "x" s)) = (16, s).
Proof.
  intros HF Hne. unfold strip_base, hex_prefix. destruct s as [|c s]; [by inversion HF; subst|].
  rewrite bool_decide_true; [done|]. apply Forall2_cons_inv_l in HF as (d & ? & Hd & _). eauto.
Qed.

(** ** Properties *)

(** parse_uint reads back every number in range: its decimal text in base
    10 and in base 0, and its hexadecimal text in base 16 and, behind 0x, in
    base 0. *)
Theorem parse_uint_print n lo hi :
  0 <= n <= ULONG_MAX -> lo <= n <= hi ->
  parse_uint (dec n) 10 lo hi = Some n /\ parse_uint (dec n) 0 lo hi = Some n /\
  parse_uint (hex 1 n) 16 lo hi = Some n /\
  parse_uint (String "0" (String "x" (hex 1 n))) 0 lo hi = Some n.
Proof.
  intros Hn Hr. destruct (dec_digits n) as (ds & HF & Hne & Hv & Hl); [lia|].
  destruct (hex_digits n) as (hs & HFh & Hneh & Hvh); [lia|].
  split_and!; (apply parse_uint_value; [done|]).
  - rewrite <-Hv at 2. by apply strtoul_digits; [..|rewrite Hv; lia].
  - destruct (decide (n = 0)) as [->|Hnz]; [done|].
    rewrite <-Hv at 2. apply strtoul_digits; [done..| |rewrite Hv; lia].
    unfold strip_base. cbn [Z.eqb orb]. by rewrite (hex_prefix_digits 10 _ ds), Hl.
  - rewrite <-Hvh at 2. apply strtoul_digits; [done..| |rewrite Hvh; lia].
    unfold strip_base. cbn [Z.eqb orb]. by rewrite (hex_prefix_digits 16 _ hs).
  - unfold strtoul.
    change (strip_sign (skip_spaces (String "0" (String "x" ?s))))
      with (false, String "0" (String "x" s)).
    cbn beta iota. rewrite (strip_base_0x _ hs), (scan_digits_all 16 _ hs) by done.
    destruct hs as [|h hs]; [done|]. cbn [length Nat.add]. fold (digits_value 16 (h :: hs)).
    rewrite Hvh. by destruct (Z.ltb_spec ULONG_MAX n); [lia|].
Qed.

Lemma parse_uint_print_witness : parse_uint (dec 65535) 0 0 65535 = Some 65535.
Proof. apply (parse_uint_print 65535 0 65535); unfold ULONG_MAX; lia. Defined.






Lemma parse_uint_range s base lo hi v : parse_uint s base lo hi = Some v -> lo <= v <= hi.
Proof.
  unfold parse_uint. intros H. case_match eqn:Hc; [done|]. injection H as <-.
  rewrite !orb_false_iff, !Z.ltb_ge in Hc. lia.
Qed.



(** the documented grammar is narrower than what the code accepts: in base
    0 a leading zero selects octal, and the negation of a large number is
    accepted as a small one. *)
Theorem parse_uint_octal_and_negative :
  parse_uint "010" 0 0 255 = Some 8 /\ parse_uint "10" 0 0 255 = Some 10 /\
  parse_uint "-18446744073709551606" 10 0 15 = Some 10.
Proof. done. Qed.
