(* ===== verification/Getopt.v ===== *)
(** * getopt

    The options of a command line as the C library's [getopt] reports them, used
    by [main] of lan80xx_spid.c and of spiproxy_cli.c: options may be given in one
    word, an argument is the rest of its word or the next one, words that are no
    options are skipped and left for the program, and [--] ends the options. *)
From S2P Require Import Prelude Fmt.

(** What one call reports: an option with its argument ([""] when it takes none),
    or ['?'] for an unknown letter or a missing argument. *)
Inductive got :=
| GotOpt (c : Ascii.ascii) (arg : string)
| GotUnknown (c : Ascii.ascii)
| GotMissing (c : Ascii.ascii).

#[export] Instance got_eq_dec : EqDecision got.
Proof. solve_decision. Defined.

(** Whether the letter is an option of [spec], and then whether it takes an
    argument. *)
Fixpoint takes_arg (spec : string) (c : Ascii.ascii) : option bool :=
  match spec with
  | EmptyString => None
  | String d spec' =>
      if Ascii.eqb d ":" then takes_arg spec' c
      else if Ascii.eqb d c then Some (match spec' with String e _ => Ascii.eqb e ":" | EmptyString => false end)
      else takes_arg spec' c
  end.

(** The letters of one word; the last may want the next word as its argument. *)
Fixpoint letters (spec word : string) : list got * option Ascii.ascii :=
  match word with
  | EmptyString => ([], None)
  | String c word' =>
      match takes_arg spec c with
      | Some true => match word' with EmptyString => ([], Some c) | _ => ([GotOpt c word'], None) end
      | Some false => let '(l, next) := letters spec word' in (GotOpt c "" :: l, next)
      | None => let '(l, next) := letters spec word' in (GotUnknown c :: l, next)
      end
  end.

(** The letters of a word that starts like an option. *)
Definition option_word (word : string) : option string :=
  match word with
  | String d (String c s) => if Ascii.eqb d "-" then Some (String c s) else None
  | _ => None
  end.

(** All calls until -1, and the words from [optind] on. *)
Fixpoint getopt (spec : string) (args : list string) : list got * list string :=
  match args with
  | [] => ([], [])
  | a :: args' =>
      if bool_decide (a = "--"%string) then ([], args') else
      match option_word a with
      | None => let '(l, rest) := getopt spec args' in (l, a :: rest)
      | Some word =>
          match letters spec word with
          | (l, None) => let '(l', rest) := getopt spec args' in (l ++ l', rest)
          | (l, Some c) =>
              match args' with
              | [] => (l ++ [GotMissing c], [])
              | v :: args'' => let '(l', rest) := getopt spec args'' in (l ++ GotOpt c v :: l', rest)
              end
          end
      end
  end.

(** What it writes to stderr. *)
Definition got_message (prog : string) (g : got) : list string :=
  match g with
  | GotOpt _ _ => []
  | GotUnknown c => [prog +:+ ": invalid option -- '" +:+ String c "'" +:+ nl]
  | GotMissing c => [prog +:+ ": option requires an argument -- '" +:+ String c "'" +:+ nl]
  end.

(** ** Writing options *)

(** An option of the specification, given as words of its own. *)
Definition got_ok (spec : string) (g : got) : Prop :=
  match g with
  | GotOpt c arg => c <> "-"%char /\ (takes_arg spec c = Some true \/ takes_arg spec c = Some false /\ arg = ""%string)
  | _ => False
  end.
Definition words (spec : string) (g : got) : list string :=
  match g with
  | GotOpt c arg => String "-" (String c "") :: match takes_arg spec c with Some true => [arg] | _ => [] end
  | _ => []
  end.

Lemma getopt_words spec opts rest :
  Forall (got_ok spec) opts -> Forall (fun a => option_word a = None) rest ->
  getopt spec ((opts ≫= words spec) ++ rest) = (opts, rest).
Proof.
  intros Ho Hr. induction Ho as [|[c arg| |] opts Hc _ IH]; cbn [mbind list_bind app]; [|clear Hr|done..].
  - induction Hr as [|a rest Ha _ IH]; [done|]. cbn [getopt]. rewrite bool_decide_false, Ha, IH by (by intros ->). done.
  - destruct Hc as [Hd Hc]. cbn [words]. rewrite <-app_assoc. cbn [app getopt].
    rewrite bool_decide_false by congruence. cbn [option_word Ascii.eqb Bool.eqb letters].
    destruct Hc as [-> |[-> ->]]; cbn [app]; by rewrite IH.
Qed.
