(* ===== verification/State.v ===== *)
(** * The daemon's state and its environment

    [glob] is the static structure [g] of lan80xx_spid.c, split by component;
    [World] is the interface to everything outside the program (spidev ioctls,
    sockets, the clock, GPIO, the indeterminate content of automatic arrays);
    [st] pairs them with the trace of externally visible events, and [D] is
    the monad of the daemon's functions. *)
From S2P Require Import Prelude Bytes Proto.

(** ** Limits of lan80xx_spid.c *)

Definition MAX_CLIENTS : nat := 16.
Definition MAX_QITEMS : nat := 256.
Definition TRACE_RING : nat := Z.to_nat 1024.
Definition RD_RING_COUNT : nat := 16.
Definition TRACE_TAIL_MAX : Z := 64.
Definition TRACE_LINE_MAX : Z := 64.
Definition SLICE_COUNT : Z := 4.
Definition SIDE_COUNT : nat := 2.
Definition USEC_PER_SEC : Z := 1000000.
Definition COMM_PATH_MAX : nat := 20.

(** MMD numbers: the build emits one enumerator per name of this table. *)
Definition LAN80XX_MMD_LINE_PMA : Z := 0x01.
Definition LAN80XX_MMD_MAC_LINE_PCS : Z := 0x03.
Definition LAN80XX_MMD_LINE_KR : Z := 0x07.
Definition LAN80XX_MMD_HOST_PMA : Z := 0x09.
Definition LAN80XX_MMD_HOST_PCS : Z := 0x0B.
Definition LAN80XX_MMD_GLOBAL : Z := 0x1E.

(** Register offsets: enumerators of the header the build generates from the
    vendor's sources, which are not part of the repository. *)
Class Regs := {
  LAN80XX_MCU_IO_MNGT_MISC_DEVICE_ID_REG : Z;
  LAN80XX_MCU_IO_MNGT_MISC_DEVICE_SILICON_REVISION_REG : Z;
  LAN80XX_MCU_IO_MNGT_MISC_DEVICE_FEATURE_DISABLE_REG : Z;
  LAN80XX_HOST_PCS25G_STATUS1 : Z;
  LAN80XX_HOST_PCS25G_BASER_STATUS1 : Z;
  LAN80XX_HOST_PCS25G_BASER_STATUS2 : Z;
  LAN80XX_LINE_PCS25G_STATUS1 : Z }.

(** The only fact about them the daemon relies on: they are 16-bit offsets. *)
Class RegsOk (RG : Regs) : Prop := {
  device_id_reg_u16 : is_u16 LAN80XX_MCU_IO_MNGT_MISC_DEVICE_ID_REG }.

(** ** State of the components *)

Record client := Client {
  c_fd : Z;
  c_used : bool;
  c_id : Z;
  c_pid : Z;
  c_comm : string;
  c_n_ops : Z;
  c_n_msgs : Z;
  c_n_err : Z }.

Definition set_c_fd (k : Z -> Z) (r : client) : client :=
  Client (k (c_fd r)) (c_used r) (c_id r) (c_pid r) (c_comm r) (c_n_ops r) (c_n_msgs r) (c_n_err r).
Definition set_c_used (k : bool -> bool) (r : client) : client :=
  Client (c_fd r) (k (c_used r)) (c_id r) (c_pid r) (c_comm r) (c_n_ops r) (c_n_msgs r) (c_n_err r).
Definition set_c_id (k : Z -> Z) (r : client) : client :=
  Client (c_fd r) (c_used r) (k (c_id r)) (c_pid r) (c_comm r) (c_n_ops r) (c_n_msgs r) (c_n_err r).
Definition set_c_pid (k : Z -> Z) (r : client) : client :=
  Client (c_fd r) (c_used r) (c_id r) (k (c_pid r)) (c_comm r) (c_n_ops r) (c_n_msgs r) (c_n_err r).
Definition set_c_comm (k : string -> string) (r : client) : client :=
  Client (c_fd r) (c_used r) (c_id r) (c_pid r) (k (c_comm r)) (c_n_ops r) (c_n_msgs r) (c_n_err r).
Definition set_c_n_ops (k : Z -> Z) (r : client) : client :=
  Client (c_fd r) (c_used r) (c_id r) (c_pid r) (c_comm r) (k (c_n_ops r)) (c_n_msgs r) (c_n_err r).
Definition set_c_n_msgs (k : Z -> Z) (r : client) : client :=
  Client (c_fd r) (c_used r) (c_id r) (c_pid r) (c_comm r) (c_n_ops r) (k (c_n_msgs r)) (c_n_err r).
Definition set_c_n_err (k : Z -> Z) (r : client) : client :=
  Client (c_fd r) (c_used r) (c_id r) (c_pid r) (c_comm r) (c_n_ops r) (c_n_msgs r) (k (c_n_err r)).

(** Queue items live in a static pool; a pointer to one is its index, and a
    pointer to a client is the index of its slot. *)
Record qitem := QItem {
  q_next : option nat;
  q_c : nat;
  q_hdr : hdr;
  q_body : list Z }.

Definition set_q_next (k : option nat -> option nat) (r : qitem) : qitem :=
  QItem (k (q_next r)) (q_c r) (q_hdr r) (q_body r).
Definition set_q_c (k : nat -> nat) (r : qitem) : qitem :=
  QItem (q_next r) (k (q_c r)) (q_hdr r) (q_body r).
Definition set_q_hdr (k : hdr -> hdr) (r : qitem) : qitem :=
  QItem (q_next r) (q_c r) (k (q_hdr r)) (q_body r).
Definition set_q_body (k : list Z -> list Z) (r : qitem) : qitem :=
  QItem (q_next r) (q_c r) (q_hdr r) (k (q_body r)).

Record qstate := QState {
  qh : list (option nat);
  qt : list (option nat);
  pool : list qitem;
  freel : option nat;
  n_queued : Z }.

Definition set_qh (k : list (option nat) -> list (option nat)) (r : qstate) : qstate :=
  QState (k (qh r)) (qt r) (pool r) (freel r) (n_queued r).
Definition set_qt (k : list (option nat) -> list (option nat)) (r : qstate) : qstate :=
  QState (qh r) (k (qt r)) (pool r) (freel r) (n_queued r).
Definition set_pool (k : list qitem -> list qitem) (r : qstate) : qstate :=
  QState (qh r) (qt r) (k (pool r)) (freel r) (n_queued r).
Definition set_freel (k : option nat -> option nat) (r : qstate) : qstate :=
  QState (qh r) (qt r) (pool r) (k (freel r)) (n_queued r).
Definition set_n_queued (k : Z -> Z) (r : qstate) : qstate :=
  QState (qh r) (qt r) (pool r) (freel r) (k (n_queued r)).

Record trace_ent := TraceEnt {
  te_ts : Z;
  te_cid : Z;
  te_slice : Z;
  te_write : Z;
  te_mmd : Z;
  te_reg : Z;
  te_val : Z }.

Record claim_state := ClaimState {
  claim_owner : option nat;
  claim_deadline : Z;
  claim_cleanup : list op;
  claim_ncleanup : Z }.

Definition set_claim_owner (k : option nat -> option nat) (r : claim_state) : claim_state :=
  ClaimState (k (claim_owner r)) (claim_deadline r) (claim_cleanup r) (claim_ncleanup r).
Definition set_claim_deadline (k : Z -> Z) (r : claim_state) : claim_state :=
  ClaimState (claim_owner r) (k (claim_deadline r)) (claim_cleanup r) (claim_ncleanup r).
Definition set_claim_cleanup (k : list op -> list op) (r : claim_state) : claim_state :=
  ClaimState (claim_owner r) (claim_deadline r) (k (claim_cleanup r)) (claim_ncleanup r).
Definition set_claim_ncleanup (k : Z -> Z) (r : claim_state) : claim_state :=
  ClaimState (claim_owner r) (claim_deadline r) (claim_cleanup r) (k (claim_ncleanup r)).

Record counters := Counters {
  n_reads : Z;
  n_writes : Z;
  n_io_err : Z;
  n_warns : Z }.

Definition set_n_reads (k : Z -> Z) (r : counters) : counters :=
  Counters (k (n_reads r)) (n_writes r) (n_io_err r) (n_warns r).
Definition set_n_writes (k : Z -> Z) (r : counters) : counters :=
  Counters (n_reads r) (k (n_writes r)) (n_io_err r) (n_warns r).
Definition set_n_io_err (k : Z -> Z) (r : counters) : counters :=
  Counters (n_reads r) (n_writes r) (k (n_io_err r)) (n_warns r).
Definition set_n_warns (k : Z -> Z) (r : counters) : counters :=
  Counters (n_reads r) (n_writes r) (n_io_err r) (k (n_warns r)).

(** [g.lctx.comm] points to the name of a client, to a literal, or nowhere. *)
Inductive commptr := CommNull | CommClient (i : nat) | CommLit (s : string).

Record logctx := LogCtx {
  lx_cid : Z;
  lx_comm : commptr;
  lx_seq : Z;
  lx_tag : string }.

Definition set_lx_cid (k : Z -> Z) (r : logctx) : logctx :=
  LogCtx (k (lx_cid r)) (lx_comm r) (lx_seq r) (lx_tag r).
Definition set_lx_comm (k : commptr -> commptr) (r : logctx) : logctx :=
  LogCtx (lx_cid r) (k (lx_comm r)) (lx_seq r) (lx_tag r).
Definition set_lx_seq (k : Z -> Z) (r : logctx) : logctx :=
  LogCtx (lx_cid r) (lx_comm r) (k (lx_seq r)) (lx_tag r).
Definition set_lx_tag (k : string -> string) (r : logctx) : logctx :=
  LogCtx (lx_cid r) (lx_comm r) (lx_seq r) (k (lx_tag r)).

(** Lint state: who wrote the page register last, who read the clear-on-read
    counters last, and the recent reads. *)
Record owner := Owner { ow_cid : Z; ow_comm : string }.
Record cor := Cor { co_cid : Z; co_comm : string; co_ts : Z }.
Record rd_ent := RdEnt {
  rd_slice : Z;
  rd_mmd : Z;
  rd_reg : Z;
  rd_cid : Z;
  rd_comm : string;
  rd_ts : Z }.

Definition set_rd_slice (k : Z -> Z) (r : rd_ent) : rd_ent :=
  RdEnt (k (rd_slice r)) (rd_mmd r) (rd_reg r) (rd_cid r) (rd_comm r) (rd_ts r).
Definition set_rd_mmd (k : Z -> Z) (r : rd_ent) : rd_ent :=
  RdEnt (rd_slice r) (k (rd_mmd r)) (rd_reg r) (rd_cid r) (rd_comm r) (rd_ts r).
Definition set_rd_reg (k : Z -> Z) (r : rd_ent) : rd_ent :=
  RdEnt (rd_slice r) (rd_mmd r) (k (rd_reg r)) (rd_cid r) (rd_comm r) (rd_ts r).
Definition set_rd_cid (k : Z -> Z) (r : rd_ent) : rd_ent :=
  RdEnt (rd_slice r) (rd_mmd r) (rd_reg r) (k (rd_cid r)) (rd_comm r) (rd_ts r).
Definition set_rd_comm (k : string -> string) (r : rd_ent) : rd_ent :=
  RdEnt (rd_slice r) (rd_mmd r) (rd_reg r) (rd_cid r) (k (rd_comm r)) (rd_ts r).
Definition set_rd_ts (k : Z -> Z) (r : rd_ent) : rd_ent :=
  RdEnt (rd_slice r) (rd_mmd r) (rd_reg r) (rd_cid r) (rd_comm r) (k (rd_ts r)).

Record lint_state := LintState {
  page_owner : list (list owner);
  cor_last : list cor;
  rd_ring : list rd_ent;
  rd_w : Z }.

Definition set_page_owner (k : list (list owner) -> list (list owner)) (r : lint_state) : lint_state :=
  LintState (k (page_owner r)) (cor_last r) (rd_ring r) (rd_w r).
Definition set_cor_last (k : list cor -> list cor) (r : lint_state) : lint_state :=
  LintState (page_owner r) (k (cor_last r)) (rd_ring r) (rd_w r).
Definition set_rd_ring (k : list rd_ent -> list rd_ent) (r : lint_state) : lint_state :=
  LintState (page_owner r) (cor_last r) (k (rd_ring r)) (rd_w r).
Definition set_rd_w (k : Z -> Z) (r : lint_state) : lint_state :=
  LintState (page_owner r) (cor_last r) (rd_ring r) (k (rd_w r)).

(** Command-line configuration; [cf_log] is [g.log != NULL] and [cf_trace] the
    sink pointer of log.c. *)
Record config := Config {
  cf_dev : string;
  cf_sock : string;
  cf_pad : Z;
  cf_freq : Z;
  cf_rst_line : option string;
  cf_rst_fd : Z;
  cf_log : bool;
  cf_trace : bool }.

Definition set_cf_dev (k : string -> string) (r : config) : config :=
  Config (k (cf_dev r)) (cf_sock r) (cf_pad r) (cf_freq r) (cf_rst_line r) (cf_rst_fd r) (cf_log r) (cf_trace r).
Definition set_cf_sock (k : string -> string) (r : config) : config :=
  Config (cf_dev r) (k (cf_sock r)) (cf_pad r) (cf_freq r) (cf_rst_line r) (cf_rst_fd r) (cf_log r) (cf_trace r).
Definition set_cf_pad (k : Z -> Z) (r : config) : config :=
  Config (cf_dev r) (cf_sock r) (k (cf_pad r)) (cf_freq r) (cf_rst_line r) (cf_rst_fd r) (cf_log r) (cf_trace r).
Definition set_cf_freq (k : Z -> Z) (r : config) : config :=
  Config (cf_dev r) (cf_sock r) (cf_pad r) (k (cf_freq r)) (cf_rst_line r) (cf_rst_fd r) (cf_log r) (cf_trace r).
Definition set_cf_rst_line (k : option string -> option string) (r : config) : config :=
  Config (cf_dev r) (cf_sock r) (cf_pad r) (cf_freq r) (k (cf_rst_line r)) (cf_rst_fd r) (cf_log r) (cf_trace r).
Definition set_cf_rst_fd (k : Z -> Z) (r : config) : config :=
  Config (cf_dev r) (cf_sock r) (cf_pad r) (cf_freq r) (cf_rst_line r) (k (cf_rst_fd r)) (cf_log r) (cf_trace r).
Definition set_cf_log (k : bool -> bool) (r : config) : config :=
  Config (cf_dev r) (cf_sock r) (cf_pad r) (cf_freq r) (cf_rst_line r) (cf_rst_fd r) (k (cf_log r)) (cf_trace r).
Definition set_cf_trace (k : bool -> bool) (r : config) : config :=
  Config (cf_dev r) (cf_sock r) (cf_pad r) (cf_freq r) (cf_rst_line r) (cf_rst_fd r) (cf_log r) (k (cf_trace r)).

Record glob := Glob {
  g_cfg : config;
  g_cl : list client;
  g_next_cid : Z;
  g_qs : qstate;
  g_claim : claim_state;
  g_mb_inflight : bool;
  g_ring : list trace_ent;
  g_ring_w : Z;
  g_cnt : counters;
  g_lctx : logctx;
  g_lint : lint_state;
  g_stop : bool }.

Definition set_g_cfg (k : config -> config) (r : glob) : glob :=
  Glob (k (g_cfg r)) (g_cl r) (g_next_cid r) (g_qs r) (g_claim r) (g_mb_inflight r) (g_ring r) (g_ring_w r) (g_cnt r) (g_lctx r) (g_lint r) (g_stop r).
Definition set_g_cl (k : list client -> list client) (r : glob) : glob :=
  Glob (g_cfg r) (k (g_cl r)) (g_next_cid r) (g_qs r) (g_claim r) (g_mb_inflight r) (g_ring r) (g_ring_w r) (g_cnt r) (g_lctx r) (g_lint r) (g_stop r).
Definition set_g_next_cid (k : Z -> Z) (r : glob) : glob :=
  Glob (g_cfg r) (g_cl r) (k (g_next_cid r)) (g_qs r) (g_claim r) (g_mb_inflight r) (g_ring r) (g_ring_w r) (g_cnt r) (g_lctx r) (g_lint r) (g_stop r).
Definition set_g_qs (k : qstate -> qstate) (r : glob) : glob :=
  Glob (g_cfg r) (g_cl r) (g_next_cid r) (k (g_qs r)) (g_claim r) (g_mb_inflight r) (g_ring r) (g_ring_w r) (g_cnt r) (g_lctx r) (g_lint r) (g_stop r).
Definition set_g_claim (k : claim_state -> claim_state) (r : glob) : glob :=
  Glob (g_cfg r) (g_cl r) (g_next_cid r) (g_qs r) (k (g_claim r)) (g_mb_inflight r) (g_ring r) (g_ring_w r) (g_cnt r) (g_lctx r) (g_lint r) (g_stop r).
Definition set_g_mb_inflight (k : bool -> bool) (r : glob) : glob :=
  Glob (g_cfg r) (g_cl r) (g_next_cid r) (g_qs r) (g_claim r) (k (g_mb_inflight r)) (g_ring r) (g_ring_w r) (g_cnt r) (g_lctx r) (g_lint r) (g_stop r).
Definition set_g_ring (k : list trace_ent -> list trace_ent) (r : glob) : glob :=
  Glob (g_cfg r) (g_cl r) (g_next_cid r) (g_qs r) (g_claim r) (g_mb_inflight r) (k (g_ring r)) (g_ring_w r) (g_cnt r) (g_lctx r) (g_lint r) (g_stop r).
Definition set_g_ring_w (k : Z -> Z) (r : glob) : glob :=
  Glob (g_cfg r) (g_cl r) (g_next_cid r) (g_qs r) (g_claim r) (g_mb_inflight r) (g_ring r) (k (g_ring_w r)) (g_cnt r) (g_lctx r) (g_lint r) (g_stop r).
Definition set_g_cnt (k : counters -> counters) (r : glob) : glob :=
  Glob (g_cfg r) (g_cl r) (g_next_cid r) (g_qs r) (g_claim r) (g_mb_inflight r) (g_ring r) (g_ring_w r) (k (g_cnt r)) (g_lctx r) (g_lint r) (g_stop r).
Definition set_g_lctx (k : logctx -> logctx) (r : glob) : glob :=
  Glob (g_cfg r) (g_cl r) (g_next_cid r) (g_qs r) (g_claim r) (g_mb_inflight r) (g_ring r) (g_ring_w r) (g_cnt r) (k (g_lctx r)) (g_lint r) (g_stop r).
Definition set_g_lint (k : lint_state -> lint_state) (r : glob) : glob :=
  Glob (g_cfg r) (g_cl r) (g_next_cid r) (g_qs r) (g_claim r) (g_mb_inflight r) (g_ring r) (g_ring_w r) (g_cnt r) (g_lctx r) (k (g_lint r)) (g_stop r).
Definition set_g_stop (k : bool -> bool) (r : glob) : glob :=
  Glob (g_cfg r) (g_cl r) (g_next_cid r) (g_qs r) (g_claim r) (g_mb_inflight r) (g_ring r) (g_ring_w r) (g_cnt r) (g_lctx r) (g_lint r) (k (g_stop r)).

(** ** The environment *)

Inductive event :=
| EvSpi (tx : list Z)
| EvSend (fd : Z) (msg : list Z) (sent : bool)
| EvUsleep (us : Z)
| EvGpioSet (fd v : Z)
| EvSyslog (priority : Z) (line : string)
| EvTrace (line : string)
| EvEpollAdd (fd : Z) (slot : nat)
| EvEpollDel (fd : Z)
| EvClose (fd : Z)
| EvSpiMode (mode : Z)
| EvUnlink (path : string)
| EvBind (path : string)
| EvOpenlog (ident : string)
| EvCloselog.

Record accepted := Accepted { ac_fd : Z; ac_pid : Z; ac_comm_file : option string }.

Class World (W : Type) := {
  w_time : W -> Z;                            (* the monotonic clock, in microseconds *)
  w_spi : W -> list Z -> W * (Z * list Z);    (* SPI_IOC_MESSAGE(1): rc, rx buffer *)
  w_clock : W -> W * (Z * Z);                 (* clock_gettime: tv_sec, tv_nsec *)
  w_send : W -> Z -> list Z -> W * Z;         (* send: rc *)
  w_recv : W -> Z -> W * (Z * list Z);        (* recv: n, receive buffer *)
  w_accept : W -> W * option accepted;        (* accept, SO_PEERCRED, /proc/<pid>/comm *)
  w_do : W -> event -> W;                     (* calls whose result is ignored *)
  w_undef : W -> Z;                           (* an uninitialised uint32_t *)
  w_stack : W -> nat -> list Z }.             (* an uninitialised automatic array *)

(** The last value of the clock: [now_us] cannot tell later times apart. *)
Definition TIME_MAX : Z := 2 ^ 64 - 1.

(** Documented behaviour of the environment: the kernel fills the buffers it
    is given, [clock_gettime(CLOCK_MONOTONIC)] never goes back (and stays below
    2^63 microseconds, some 290,000 years, or else at the end of the range),
    [usleep] sleeps at least the time it is given. *)
Class WorldOk (W : Type) (WW : World W) : Prop := {
  w_spi_rx w tx : length (snd (snd (w_spi w tx))) = 22%nat /\
                  bytes_ok (snd (snd (w_spi w tx)));
  w_recv_buf w fd : let '(n, buf) := snd (w_recv w fd) in
                    n <= 4108 /\ length buf = Z.to_nat 4108 /\ bytes_ok buf;
  w_accept_pid w a : snd (w_accept w) = Some a -> - 2 ^ 31 <= ac_pid a < 2 ^ 31;
  w_undef_u32 w : is_u32 (w_undef w);
  w_time_range w : 0 <= w_time w < 2 ^ 63 \/ w_time w = TIME_MAX;
  w_clock_reads w : let '(w', (sec, nsec)) := w_clock w in
                    0 <= sec /\ 0 <= nsec < 10 ^ 9 /\ w_time w' = w_time w /\
                    sec * USEC_PER_SEC + nsec / 1000 = w_time w;
  w_spi_time w tx : w_time w <= w_time (fst (w_spi w tx));
  w_send_time w fd msg : w_time w <= w_time (fst (w_send w fd msg));
  w_do_time w e : w_time w <= w_time (w_do w e);
  w_usleep_time w us : 0 <= us -> w_time w + us <= w_time (w_do w (EvUsleep us)) \/
                                 w_time (w_do w (EvUsleep us)) = TIME_MAX;
  w_stack_bytes w n : length (w_stack w n) = n /\ bytes_ok (w_stack w n) }.

Record st (W : Type) := St { st_g : glob; st_w : W; st_out : list event }.
Arguments St {W} st_g st_w st_out.
Arguments st_g {W} s.
Arguments st_w {W} s.
Arguments st_out {W} s.

Abbreviation D W := (M (st W)).

(** ** Primitives of the monad *)

Section Primitives.
Context {W : Type} {WW : World W}.

Definition getg : D W glob := fun s => Ok (st_g s, s).
Definition setg (f : glob -> glob) : D W unit :=
  fun s => Ok (tt, St (f (st_g s)) (st_w s) (st_out s)).

(** A call whose result the code ignores. *)
Definition emit (e : event) : D W unit :=
  fun s => Ok (tt, St (st_g s) (w_do (st_w s) e) (e :: st_out s)).

(** A call of the environment that answers. *)
Definition ask {A} (f : W -> W * A) : D W A :=
  fun s => let '(w', a) := f (st_w s) in Ok (a, St (st_g s) w' (st_out s)).

(** Indeterminate initial values. *)
Definition undef : D W Z := fun s => Ok (w_undef (st_w s), s).
Definition stack_array (n : nat) : D W (list Z) := fun s => Ok (w_stack (st_w s) n, s).

Definition note (e : event) : D W unit :=
  fun s => Ok (tt, St (st_g s) (st_w s) (e :: st_out s)).

Definition now_us : D W Z :=
  let* '(sec, nsec) := ask w_clock in
  returnM (u64 (u64 (sec * USEC_PER_SEC) + nsec / 1000)).

(** Dereference of a client pointer. *)
Definition get_client (i : nat) : D W client :=
  let* g := getg in liftM (arr_get (g_cl g) i).
Definition upd_client (i : nat) (f : client -> client) : D W unit :=
  let* g := getg in
  let* c := liftM (arr_get (g_cl g) i) in
  setg (set_g_cl (fun cl => <[i := f c]> cl)).

(** Dereference of [g.lctx.comm]. *)
Definition lctx_comm : D W string :=
  let* g := getg in
  match lx_comm (g_lctx g) with
  | CommNull => failM Oob
  | CommClient i => let* c := get_client i in returnM (c_comm c)
  | CommLit s => returnM s
  end.

End Primitives.

(** ** Rules of the primitives *)

Section PrimitiveRules.
Context {W : Type} {WW : World W}.
Implicit Types (s : st W) (E : fault -> Prop).

Lemma wp_getg E Q s : Q (st_g s) s -> wp E getg Q s.
Proof. done. Qed.

Lemma wp_setg E f Q s : Q tt (St (f (st_g s)) (st_w s) (st_out s)) -> wp E (setg f) Q s.
Proof. done. Qed.

Lemma wp_emit E e Q s :
  Q tt (St (st_g s) (w_do (st_w s) e) (e :: st_out s)) -> wp E (emit e) Q s.
Proof. done. Qed.

Lemma wp_note E e Q s : Q tt (St (st_g s) (st_w s) (e :: st_out s)) -> wp E (note e) Q s.
Proof. done. Qed.

Lemma wp_ask {A} E (f : W -> W * A) Q s :
  (forall w' a, f (st_w s) = (w', a) -> Q a (St (st_g s) w' (st_out s))) -> wp E (ask f) Q s.
Proof. intros H. unfold wp, ask. destruct (f (st_w s)) as [w' a]. by apply H. Qed.

Lemma wp_undef E Q s : Q (w_undef (st_w s)) s -> wp E undef Q s.
Proof. done. Qed.

Lemma wp_stack E n Q s : Q (w_stack (st_w s) n) s -> wp E (stack_array n) Q s.
Proof. done. Qed.

Lemma wp_now_us E Q s :
  (forall w' sec nsec, w_clock (st_w s) = (w', (sec, nsec)) ->
     Q (u64 (u64 (sec * USEC_PER_SEC) + nsec / 1000)) (St (st_g s) w' (st_out s))) ->
  wp E now_us Q s.
Proof. intros H. apply wp_bind, wp_ask. intros w' [sec nsec] Hw. by apply wp_ret, H. Qed.

(** Reading the clock takes no time and returns it. *)
Lemma wp_now_clock {WO : WorldOk W WW} E Q s :
  (forall w', w' = fst (w_clock (st_w s)) -> w_time w' = w_time (st_w s) ->
     Q (w_time (st_w s)) (St (st_g s) w' (st_out s))) ->
  wp E now_us Q s.
Proof.
  intros H. apply wp_now_us. intros w' sec nsec Hw. pose proof (w_clock_reads (st_w s)) as Hc.
  rewrite Hw in Hc. destruct Hc as (Hs & Hn & Ht & Hr).
  pose proof (w_time_range (st_w s)) as Hrange. unfold TIME_MAX, USEC_PER_SEC in *.
  rewrite (u64_id (sec * _)) by (unfold is_u64; dlia).
  rewrite Hr, u64_id by (unfold is_u64; lia). apply H; [by rewrite Hw|done].
Qed.

Lemma wp_now_time {WO : WorldOk W WW} E Q s :
  (forall w', w_time w' = w_time (st_w s) -> Q (w_time (st_w s)) (St (st_g s) w' (st_out s))) ->
  wp E now_us Q s.
Proof. intros H. apply wp_now_clock. intros w' _. apply H. Qed.

Lemma wp_get_client E i c Q s :
  g_cl (st_g s) !! i = Some c -> Q c s -> wp E (get_client i) Q s.
Proof.
  intros Hc HQ. apply wp_bind, wp_getg, wp_lift. unfold rwp, arr_get. by rewrite Hc.
Qed.

Lemma wp_upd_client E i f c Q s :
  g_cl (st_g s) !! i = Some c ->
  Q tt (St (set_g_cl (fun cl => <[i := f c]> cl) (st_g s)) (st_w s) (st_out s)) ->
  wp E (upd_client i f) Q s.
Proof.
  intros Hc HQ. apply wp_bind, wp_getg, wp_bind, wp_lift. unfold rwp, arr_get. rewrite Hc.
  by apply wp_setg.
Qed.

End PrimitiveRules.

(** One step of symbolic execution. *)
Ltac wp_step :=
  lazymatch goal with
  | |- wp _ (bindM _ _) _ _ => apply wp_bind
  | |- wp _ (returnM _) _ _ => apply wp_ret
  | |- wp _ (failM _) _ _ => apply wp_fail
  | |- wp _ getg _ _ => apply wp_getg
  | |- wp _ (setg _) _ _ => apply wp_setg
  | |- wp _ (emit _) _ _ => apply wp_emit
  | |- wp _ (note _) _ _ => apply wp_note
  | |- wp _ undef _ _ => apply wp_undef
  | |- wp _ (stack_array _) _ _ => apply wp_stack
  | |- wp _ (liftM _) _ _ => apply wp_lift
  | |- wp _ (match ?x with pair _ _ => _ end) _ _ => destruct x
  end; cbn beta iota; cbn [st_g st_w st_out].
Ltac wp_steps := repeat wp_step.
