(* ===== verification/Queue.v ===== *)
(** * The request queues

    Three FIFO queues of requests (one per priority class) and a free list,
    threaded through the [next] pointers of a static pool of 256 items.  The
    first part translates the pointer manipulations of [drain_queues],
    [enqueue] and [client_drop]; the second part proves that they implement
    three lists: append at the tail, remove the first eligible item, filter
    out a client. *)
From S2P Require Import Prelude Bytes Proto State.

(** ** Pointer operations *)

(** The places a [qitem_t **] can point to: a queue head or a [next] field. *)
Inductive qloc := LHead (q : nat) | LNext (i : nat).

Definition loc_get (qs : qstate) (pp : qloc) : res (option nat) :=
  match pp with
  | LHead q => arr_get (qh qs) q
  | LNext i => let! it := arr_get (pool qs) i in Ok (q_next it)
  end.

Definition loc_set (qs : qstate) (pp : qloc) (v : option nat) : res qstate :=
  match pp with
  | LHead q => let! h := arr_set (qh qs) q v in Ok (set_qh (fun _ => h) qs)
  | LNext i =>
      let! it := arr_get (pool qs) i in
      let! p := arr_set (pool qs) i (set_q_next (fun _ => v) it) in
      Ok (set_pool (fun _ => p) qs)
  end.

(** [while (t && t->next) t = t->next]. *)
Fixpoint walk_tail (fuel : nat) (pl : list qitem) (t : option nat) : res (option nat) :=
  match fuel with
  | O => Fail Cyclic
  | S f =>
      match t with
      | None => Ok None
      | Some i =>
          let! it := arr_get pl i in
          match q_next it with
          | None => Ok t
          | Some _ => walk_tail f pl (q_next it)
          end
      end
  end.

(** Enough for every walk over a list without cycles. *)
Definition walk_fuel (qs : qstate) : nat := S (length (pool qs)).

(** Unlink item [i] found through [pp]; recompute the tail if it was last. *)
Definition unlink (qs : qstate) (q : nat) (pp : qloc) (i : nat) : res qstate :=
  let! it := arr_get (pool qs) i in
  let! qs1 := loc_set qs pp (q_next it) in
  let! tl := arr_get (qt qs1) q in
  if decide (tl = Some i) then
    let! h := arr_get (qh qs1) q in
    let! t := walk_tail (walk_fuel qs1) (pool qs1) h in
    let! qt' := arr_set (qt qs1) q t in
    Ok (set_qt (fun _ => qt') qs1)
  else Ok qs1.

(** The inner loop of [drain_queues] over queue [q]. *)
Fixpoint scan_queue (fuel : nat) (elig : nat -> hdr -> bool) (qs : qstate) (q : nat) (pp : qloc)
    : res (option nat * qstate) :=
  match fuel with
  | O => Fail Cyclic
  | S f =>
      let! p := loc_get qs pp in
      match p with
      | None => Ok (None, qs)
      | Some i =>
          let! it := arr_get (pool qs) i in
          if elig (q_c it) (q_hdr it) then
            let! qs' := unlink qs q pp i in Ok (Some i, qs')
          else scan_queue f elig qs q (LNext i)
      end
  end.

(** The loop over the priority classes, from class [q] on. *)
Fixpoint scan_classes (n : nat) (elig : nat -> hdr -> bool) (qs : qstate) (q : nat)
    : res (option nat * qstate) :=
  match n with
  | O => Ok (None, qs)
  | S n' =>
      let! r := scan_queue (walk_fuel qs) elig qs q (LHead q) in
      match fst r with
      | Some _ => Ok r
      | None => scan_classes n' elig (snd r) (S q)
      end
  end.

Definition take_eligible (elig : nat -> hdr -> bool) (qs : qstate) : res (option nat * qstate) :=
  scan_classes 3 elig qs 0.

(** Return an item to the free list. *)
Definition release_item (i : nat) (qs : qstate) : res qstate :=
  let! it := arr_get (pool qs) i in
  let! p := arr_set (pool qs) i (set_q_next (fun _ => freel qs) it) in
  Ok (set_freel (fun _ => Some i) (set_pool (fun _ => p) qs)).

(** First half of [enqueue]: pop a free item and fill its header. *)
Definition take_free (c : nat) (h : hdr) (qs : qstate) : res (option (nat * qstate)) :=
  match freel qs with
  | None => Ok None
  | Some i =>
      let! it := arr_get (pool qs) i in
      let! p := arr_set (pool qs) i (QItem None c h (q_body it)) in
      Ok (Some (i, set_freel (fun _ => q_next it) (set_pool (fun _ => p) qs)))
  end.

(** Second half: copy the body and link the item at the tail of queue [q]. *)
Definition link_tail (q i : nat) (body : list Z) (qs : qstate) : res qstate :=
  let! it := arr_get (pool qs) i in
  let! b := buf_write (q_body it) 0 body in
  let! p := arr_set (pool qs) i (set_q_body (fun _ => b) it) in
  let qs1 := set_pool (fun _ => p) qs in
  let! t := arr_get (qt qs1) q in
  let! qs2 := loc_set qs1 (match t with Some j => LNext j | None => LHead q end) (Some i) in
  let! qt' := arr_set (qt qs2) q (Some i) in
  Ok (set_n_queued (fun n => n + 1) (set_qt (fun _ => qt') qs2)).

(** The purge loop of [client_drop] over queue [q]. *)
Fixpoint purge_queue (fuel : nat) (c : nat) (qs : qstate) (pp : qloc) : res qstate :=
  match fuel with
  | O => Fail Cyclic
  | S f =>
      let! p := loc_get qs pp in
      match p with
      | None => Ok qs
      | Some i =>
          let! it := arr_get (pool qs) i in
          if decide (q_c it = c) then
            let! qs1 := loc_set qs pp (q_next it) in
            let! qs2 := release_item i qs1 in
            purge_queue f c (set_n_queued (fun n => n - 1) qs2) pp
          else purge_queue f c qs (LNext i)
      end
  end.

(** Purge one class and recompute its tail. *)
Definition purge_class (c : nat) (qs : qstate) (q : nat) : res qstate :=
  let! qs1 := purge_queue (walk_fuel qs) c qs (LHead q) in
  let! h := arr_get (qh qs1) q in
  let! t := walk_tail (walk_fuel qs1) (pool qs1) h in
  let! qt' := arr_set (qt qs1) q t in
  Ok (set_qt (fun _ => qt') qs1).

Definition purge_client (c : nat) (qs : qstate) : res qstate :=
  let! qs0 := purge_class c qs 0 in
  let! qs1 := purge_class c qs0 1 in
  purge_class c qs1 2.

(** ** Linked lists in the pool *)

(** [seg pl p l e]: following [next] from [p] visits exactly [l] and ends at [e]. *)
Fixpoint seg (pl : list qitem) (p : option nat) (l : list nat) (e : option nat) : Prop :=
  match l with
  | [] => p = e
  | i :: l' => p = Some i /\ exists it, pl !! i = Some it /\ seg pl (q_next it) l' e
  end.

Lemma seg_app pl p l1 l2 e :
  seg pl p (l1 ++ l2) e <-> exists m, seg pl p l1 m /\ seg pl m l2 e.
Proof.
  revert p. induction l1 as [|i l1 IH]; intros p; cbn.
  - split; [by intros; exists p|by intros (m & -> & ?)].
  - split.
    + intros (-> & it & Hit & (m & H1 & H2)%IH). eauto 10.
    + intros (m & (-> & it & Hit & H1) & H2). split; [done|]. exists it. split; [done|].
      apply IH. eauto.
Qed.

Lemma seg_insert pl p l e i x : i ∉ l -> seg pl p l e -> seg (<[i := x]> pl) p l e.
Proof.
  revert p. induction l as [|j l IH]; intros p Hi; cbn; [done|].
  apply not_elem_of_cons in Hi as [Hne Hi].
  intros (-> & it & Hit & Hs). split; [done|]. exists it.
  rewrite list_lookup_insert_ne by done. auto.
Qed.

Lemma seg_lookup pl p l e i : seg pl p l e -> i ∈ l -> is_Some (pl !! i).
Proof.
  revert p. induction l as [|j l IH]; intros p; cbn; [by intros _ ?%not_elem_of_nil|].
  intros (_ & it & Hit & Hs) [-> |Hi]%elem_of_cons; eauto.
Qed.

Lemma seg_head pl p i l e : seg pl p (i :: l) e -> p = Some i.
Proof. by intros [-> _]. Qed.

(** The last element of the list is where the tail walk stops. *)
Lemma walk_tail_spec fuel pl p l :
  seg pl p l None -> (length l < fuel)%nat -> walk_tail fuel pl p = Ok (last l).
Proof.
  revert p l. induction fuel as [|f IH]; intros p l Hs Hf; [lia|].
  destruct l as [|i l]; cbn in Hs; [by subst|].
  destruct Hs as (-> & it & Hit & Hs). cbn. unfold arr_get. rewrite Hit. cbn.
  destruct l as [|j l]; [by cbn in Hs; rewrite Hs|].
  pose proof (seg_head _ _ _ _ _ Hs) as Hn. rewrite Hn. rewrite Hn in Hs.
  rewrite (IH _ _ Hs) by (cbn in *; lia). done.
Qed.

(** ** Representation *)

(** Where the pointer walk stands after the prefix [pre] of queue [q]. *)
Definition loc_of (q : nat) (pre : list nat) : qloc :=
  match last pre with None => LHead q | Some j => LNext j end.

(** What an item carries besides its link. *)
Definition payload (it : qitem) : nat * hdr * list Z := (q_c it, q_hdr it, q_body it).
Definition same_payloads (qs qs' : qstate) : Prop :=
  payload <$> pool qs' = payload <$> pool qs.

(** [lrep qs qa fa busy]: the three queues hold the items [qa], the free list
    [fa]; the remaining items, [busy], are being executed.  Together they are
    the pool, without sharing. *)
Record lrep (qs : qstate) (qa : list (list nat)) (fa busy : list nat) : Prop := {
  lrep_pool : length (pool qs) = MAX_QITEMS;
  lrep_qh : length (qh qs) = 3%nat;
  lrep_qt : length (qt qs) = 3%nat;
  lrep_qa : length qa = 3%nat;
  lrep_seg q l h : qa !! q = Some l -> qh qs !! q = Some h -> seg (pool qs) h l None;
  lrep_free : seg (pool qs) (freel qs) fa None;
  lrep_perm : busy ++ fa ++ concat qa ≡ₚ seq 0 MAX_QITEMS }.

(** The tail pointers are right. *)
Definition tails (qs : qstate) (qa : list (list nat)) : Prop :=
  forall q l, qa !! q = Some l -> qt qs !! q = Some (last l).

Record rep (qs : qstate) (qa : list (list nat)) (fa busy : list nat) : Prop := {
  rep_lrep : lrep qs qa fa busy;
  rep_tails : tails qs qa;
  rep_count : n_queued qs = Z.of_nat (length (concat qa)) }.

Lemma concat_delete {A} (ll : list (list A)) q l :
  ll !! q = Some l -> concat ll ≡ₚ l ++ concat (delete q ll).
Proof.
  revert q. induction ll as [|x ll IH]; intros [|q] H; simplify_eq/=; [done|].
  rewrite (IH _ H), !app_assoc. by rewrite (Permutation_app_comm x l).
Qed.

Lemma concat_insert {A} (ll : list (list A)) q l l' :
  ll !! q = Some l -> concat (<[q := l']> ll) ≡ₚ l' ++ concat (delete q ll).
Proof.
  revert q. induction ll as [|x ll IH]; intros [|q] H; simplify_eq/=; [done|].
  rewrite (IH _ H), !app_assoc. by rewrite (Permutation_app_comm x l').
Qed.

Lemma elem_concat_delete {A} (ll : list (list A)) q q' l x :
  q <> q' -> ll !! q' = Some l -> x ∈ l -> x ∈ concat (delete q ll).
Proof.
  revert q q'. induction ll as [|y ll IH]; intros [|q] [|q'] Hne H Hx; simplify_eq/=; try done.
  - apply list_elem_of_In, in_concat. exists l. split; [|by apply list_elem_of_In].
    apply list_elem_of_In. by eapply list_elem_of_lookup_2.
  - set_solver.
  - apply elem_of_app. right. eapply IH; [|done..]. lia.
Qed.

Section LRep.
Context {qs : qstate} {qa : list (list nat)} {fa busy : list nat} (R : lrep qs qa fa busy).

Lemma lrep_nodup : NoDup (busy ++ fa ++ concat qa).
Proof. rewrite (lrep_perm _ _ _ _ R). apply NoDup_seq. Qed.

Lemma lrep_head q l : qa !! q = Some l -> exists h, qh qs !! q = Some h /\ seg (pool qs) h l None.
Proof.
  intros Hq. destruct (lookup_lt_is_Some_2 (qh qs) q) as [h Hh].
  { rewrite (lrep_qh _ _ _ _ R), <-(lrep_qa _ _ _ _ R). by eapply lookup_lt_Some. }
  exists h. split; [done|]. by eapply lrep_seg.
Qed.

(** Everything a queue shares its items with: nothing. *)
Lemma lrep_queue q l :
  qa !! q = Some l ->
  NoDup l /\ forall x, x ∈ l -> (x ∉ fa) /\ (x ∉ busy) /\
    forall q' l', q <> q' -> qa !! q' = Some l' -> x ∉ l'.
Proof.
  intros Hq. pose proof lrep_nodup as Hnd. rewrite (concat_delete qa q l Hq) in Hnd.
  apply NoDup_app in Hnd as (_ & Hb & Hnd). apply NoDup_app in Hnd as (_ & Hf & Hnd).
  apply NoDup_app in Hnd as (Hl & Hlo & _). split; [done|].
  intros x Hx. split_and!.
  - intros Hxf. apply (Hf x Hxf). set_solver.
  - intros Hxb. apply (Hb x Hxb). set_solver.
  - intros q' l' Hne Hq' Hx'. apply (Hlo x Hx). by eapply elem_concat_delete.
Qed.

Lemma lrep_bound i : i ∈ busy ++ fa ++ concat qa -> (i < MAX_QITEMS)%nat.
Proof. rewrite (lrep_perm _ _ _ _ R), elem_of_seq. lia. Qed.

Lemma lrep_item i : i ∈ busy ++ fa ++ concat qa -> exists it, pool qs !! i = Some it.
Proof. intros Hi. apply lookup_lt_is_Some_2. rewrite (lrep_pool _ _ _ _ R). by apply lrep_bound. Qed.

Lemma lrep_in_queue q l i : qa !! q = Some l -> i ∈ l -> i ∈ busy ++ fa ++ concat qa.
Proof.
  intros Hq Hi. rewrite (concat_delete qa q l Hq). set_solver.
Qed.

Lemma lrep_queue_length q l : qa !! q = Some l -> (length l <= MAX_QITEMS)%nat.
Proof.
  intros Hq. pose proof (Permutation_length (lrep_perm _ _ _ _ R)) as H.
  rewrite length_seq, !length_app in H.
  pose proof (Permutation_length (concat_delete qa q l Hq)) as H'. rewrite length_app in H'. lia.
Qed.

End LRep.

(** Relinking one item keeps every list that does not contain it. *)
Lemma lrep_store qs qa fa busy i x :
  lrep qs qa fa busy -> i ∉ fa -> i ∉ concat qa ->
  lrep (set_pool (fun p => <[i := x]> p) qs) qa fa busy.
Proof.
  intros R Hf Hq. split; cbn; try apply R.
  - rewrite length_insert. apply R.
  - intros q l h Hl Hh. apply seg_insert; [|by eapply lrep_seg].
    intros Hi. apply Hq. rewrite (concat_delete qa q l Hl). set_solver.
  - apply seg_insert; [done|]. apply R.
Qed.

(** ** Unlinking *)

Lemma seg_snoc_inv pl p l j e :
  seg pl p (l ++ [j]) e ->
  exists jt, seg pl p l (Some j) /\ pl !! j = Some jt /\ q_next jt = e.
Proof. intros (m & Hl & -> & jt & Hj & He)%seg_app. eauto. Qed.

Lemma seg_snoc pl p l j e jt :
  seg pl p l (Some j) -> pl !! j = Some jt -> q_next jt = e -> seg pl p (l ++ [j]) e.
Proof. intros Hl Hj He. apply seg_app. exists (Some j). split; [done|]. cbn. eauto. Qed.

(** Reading the pointer that leads to the rest of a queue. *)
Lemma loc_get_of qs qa fa busy q pre post :
  lrep qs qa fa busy -> qa !! q = Some (pre ++ post) ->
  exists m, loc_get qs (loc_of q pre) = Ok m /\ seg (pool qs) m post None.
Proof.
  intros R Hq. destruct (lrep_head R q _ Hq) as (h & Hh & (m & Hpre & Hpost)%seg_app).
  unfold loc_of. destruct pre as [|j pre _] using rev_ind.
  - cbn in *. subst m. exists h. unfold arr_get. by rewrite Hh.
  - rewrite last_snoc. destruct (seg_snoc_inv _ _ _ _ _ Hpre) as (jt & _ & Hj & <-).
    exists (q_next jt). cbn. unfold arr_get. by rewrite Hj.
Qed.

Lemma insert_payload (pl : list qitem) i it x :
  pl !! i = Some it -> payload x = payload it -> payload <$> <[i := x]> pl = payload <$> pl.
Proof.
  intros Hi Hx. rewrite list_fmap_insert, Hx. apply list_insert_id.
  by rewrite list_lookup_fmap, Hi.
Qed.

Lemma queue_insert_cases (qa : list (list nat)) q l q' l' :
  <[q := l]> qa !! q' = Some l' -> q' = q /\ l' = l \/ q' <> q /\ qa !! q' = Some l'.
Proof.
  destruct (decide (q = q')) as [->|Hne].
  - intros H. pose proof (lookup_lt_Some _ _ _ H) as Hlt. rewrite length_insert in Hlt.
    rewrite list_lookup_insert_eq in H by done. left. by simplify_eq.
  - rewrite list_lookup_insert_ne by done. auto.
Qed.

Lemma elem_of_snoc (l : list nat) j : j ∈ l ++ [j].
Proof. set_solver. Qed.
Lemma nodup_snoc (l : list nat) j : NoDup (l ++ [j]) -> NoDup l /\ (j ∉ l).
Proof. intros (Hl & Hd & _)%NoDup_app. split; [done|]. intros Hj. apply (Hd j Hj). set_solver. Qed.
Lemma elem_of_pred (pre : list nat) j i post : j ∈ (pre ++ [j]) ++ i :: post.
Proof. set_solver. Qed.
Lemma nodup_pred (pre : list nat) j i post :
  NoDup ((pre ++ [j]) ++ i :: post) -> (j ∉ pre) /\ (j ∉ post) /\ i <> j.
Proof.
  rewrite <-app_assoc. cbn. intros (_ & Hd & [Hj _]%NoDup_cons)%NoDup_app.
  split_and!; [|set_solver..]. intros Hp. apply (Hd j Hp). set_solver.
Qed.

(** Storing through the pointer that leads to an item removes it from its
    queue; the item joins the busy ones. *)
Lemma loc_set_unlink qs qa fa busy q pre i post it :
  lrep qs qa fa busy -> qa !! q = Some (pre ++ i :: post) -> pool qs !! i = Some it ->
  exists qs', loc_set qs (loc_of q pre) (q_next it) = Ok qs' /\
    lrep qs' (<[q := pre ++ post]> qa) fa (i :: busy) /\
    pool qs' !! i = Some it /\
    qt qs' = qt qs /\ freel qs' = freel qs /\ n_queued qs' = n_queued qs /\ same_payloads qs qs'.
Proof.
  intros R Hq Hi.
  assert (q < 3)%nat as Hq3 by (rewrite <-(lrep_qa _ _ _ _ R); by eapply lookup_lt_Some).
  destruct (lrep_head R q _ Hq) as (h & Hh & (m & Hpre & -> & it' & Hit & Hpost)%seg_app).
  simplify_eq. destruct (lrep_queue R q _ Hq) as [Hnd Hout].
  assert ((i :: busy) ++ fa ++ concat (<[q:=pre ++ post]> qa) ≡ₚ seq 0 MAX_QITEMS) as Hperm.
  { rewrite <-(lrep_perm _ _ _ _ R), (concat_insert qa q _ _ Hq), (concat_delete qa q _ Hq).
    cbn. rewrite <-Permutation_middle. cbn. solve_Permutation. }
  pose proof (fun q' l' => queue_insert_cases qa q (pre ++ post) q' l') as Hcase.
  unfold loc_of. destruct pre as [|j pre _] using rev_ind.
  - cbn in Hpre. subst h. cbn [last loc_set].
    rewrite arr_set_ok by (rewrite (lrep_qh _ _ _ _ R); done). eexists. split; [done|].
    split; [|done]. split; cbn; try (apply R || by rewrite length_insert; apply R); [|done].
    intros q' l' h' [[-> ->]|[Hne Hl']]%Hcase Hh'.
    + rewrite list_lookup_insert_eq in Hh' by (rewrite (lrep_qh _ _ _ _ R); done).
      by simplify_eq.
    + rewrite list_lookup_insert_ne in Hh' by done. by eapply lrep_seg.
  - rewrite last_snoc. destruct (seg_snoc_inv _ _ _ _ _ Hpre) as (jt & Hp & Hj & _).
    cbn [loc_set]. rewrite (arr_get_ok _ _ _ Hj). cbn [res_bind].
    rewrite arr_set_ok by (by eapply lookup_lt_Some). eexists. split; [done|].
    destruct (Hout j (elem_of_pred pre j i post)) as (Hjf & Hjb & Hjo).
    destruct (nodup_pred pre j i post Hnd) as (Hjp & Hjpost & Hij).
    split; [|split_and!; cbn; try done; [by rewrite list_lookup_insert_ne
      |unfold same_payloads; cbn; by eapply insert_payload]].
    split; cbn; try (apply R || by rewrite length_insert; apply R); [| |done].
    + intros q' l' h' [[-> ->]|[Hne Hl']]%Hcase Hh'.
      * simplify_eq. apply seg_app. exists (q_next it). split; [|by apply seg_insert].
        eapply (seg_snoc _ _ _ j); [by apply seg_insert| |].
        { apply list_lookup_insert_eq. by eapply lookup_lt_Some. }
        done.
      * apply seg_insert; [by eapply Hjo|by eapply lrep_seg].
    + apply seg_insert; [done|apply R].
Qed.

Lemma last_middle (pre : list nat) i post : last (pre ++ i :: post) = last (i :: post).
Proof. rewrite last_app. by destruct (last (i :: post)) eqn:E; [|apply last_None in E]. Qed.

Lemma unlink_spec qs qa fa busy q pre i post :
  lrep qs qa fa busy -> tails qs qa -> qa !! q = Some (pre ++ i :: post) ->
  exists qs', unlink qs q (loc_of q pre) i = Ok qs' /\
    lrep qs' (<[q := pre ++ post]> qa) fa (i :: busy) /\ tails qs' (<[q := pre ++ post]> qa) /\
    n_queued qs' = n_queued qs /\ same_payloads qs qs'.
Proof.
  intros R T Hq.
  destruct (lrep_item R i) as [it Hi]; [eapply lrep_in_queue; [done..|set_solver]|].
  destruct (loc_set_unlink qs qa fa busy q pre i post it R Hq Hi)
    as (qs1 & Hs & R1 & _ & Hqt & Hf & Hn & Hp).
  unfold unlink. rewrite (arr_get_ok _ _ _ Hi). cbn [res_bind]. rewrite Hs. cbn [res_bind].
  rewrite (arr_get_ok _ q (last (pre ++ i :: post))) by (rewrite Hqt; by apply T). cbn [res_bind].
  assert (forall t, t = last (pre ++ post) -> forall q' l',
    <[q:=pre ++ post]> qa !! q' = Some l' -> <[q:=t]> (qt qs1) !! q' = Some (last l')) as Htl.
  { intros t -> q' l' [[-> ->]|[Hne Hl]]%queue_insert_cases.
    - apply list_lookup_insert_eq. rewrite (lrep_qt _ _ _ _ R1), <-(lrep_qa _ _ _ _ R).
      by eapply lookup_lt_Some.
    - rewrite list_lookup_insert_ne, Hqt by done. by apply T. }
  assert (<[q:=pre ++ post]> qa !! q = Some (pre ++ post)) as Hq1
    by (apply list_lookup_insert_eq; by eapply lookup_lt_Some).
  destruct (decide _) as [_|Hne].
  - destruct (lrep_head R1 q _ Hq1) as (h & Hh & Hseg).
    rewrite (arr_get_ok _ _ _ Hh). cbn [res_bind].
    rewrite (walk_tail_spec _ _ _ _ Hseg); cycle 1.
    { unfold walk_fuel. rewrite (lrep_pool _ _ _ _ R1). apply Nat.lt_succ_r.
      by eapply lrep_queue_length. }
    cbn [res_bind]. rewrite arr_set_ok; cycle 1.
    { rewrite (lrep_qt _ _ _ _ R1), <-(lrep_qa _ _ _ _ R). by eapply lookup_lt_Some. }
    eexists. split; [done|]. split; [|split_and!; [intros ???; by apply Htl|done..]].
    split; cbn; try apply R1. rewrite length_insert. apply R1.
  - exists qs1. split; [done|]. split; [done|]. split; [|done].
    assert (last (pre ++ post) = last (pre ++ i :: post)) as Hlast.
    { rewrite last_middle in *. destruct post as [|k post]; [done|]. by rewrite last_middle. }
    intros q' l' Hl'. rewrite <-(list_insert_id (qt qs1) q (last (pre ++ post)));
      [by apply Htl|]. rewrite Hqt, Hlast. by apply T.
Qed.

(** ** The abstract scheduler

    [pick P qa] removes, from the first class that has one, the first item
    that satisfies [P]. *)
Fixpoint split_first (P : nat -> bool) (l : list nat) : option (nat * list nat) :=
  match l with
  | [] => None
  | i :: l' =>
      if P i then Some (i, l')
      else match split_first P l' with Some (j, r) => Some (j, i :: r) | None => None end
  end.

Fixpoint pick (P : nat -> bool) (qa : list (list nat)) : option (nat * list (list nat)) :=
  match qa with
  | [] => None
  | l :: qa' =>
      match split_first P l with
      | Some (i, l') => Some (i, l' :: qa')
      | None => match pick P qa' with Some (i, qa'') => Some (i, l :: qa'') | None => None end
      end
  end.

(** Eligibility of the item at an index. *)
Definition eligb (elig : nat -> hdr -> bool) (pl : list qitem) (i : nat) : bool :=
  match pl !! i with Some it => elig (q_c it) (q_hdr it) | None => false end.

Lemma scan_queue_spec fuel elig qs qa fa busy q pre todo :
  lrep qs qa fa busy -> tails qs qa -> qa !! q = Some (pre ++ todo) -> (length todo < fuel)%nat ->
  match split_first (eligb elig (pool qs)) todo with
  | Some (i, rest) =>
      exists qs', scan_queue fuel elig qs q (loc_of q pre) = Ok (Some i, qs') /\
        lrep qs' (<[q := pre ++ rest]> qa) fa (i :: busy) /\ tails qs' (<[q := pre ++ rest]> qa) /\
        n_queued qs' = n_queued qs /\ same_payloads qs qs'
  | None => scan_queue fuel elig qs q (loc_of q pre) = Ok (None, qs)
  end.
Proof.
  revert pre todo. induction fuel as [|f IH]; intros pre todo R T Hq Hf; [lia|].
  destruct (loc_get_of qs qa fa busy q pre todo R Hq) as (m & Hm & Hseg).
  cbn [scan_queue]. rewrite Hm. cbn [res_bind].
  destruct todo as [|i todo]; [by cbn in *; subst m|]. destruct Hseg as (-> & it & Hi & _).
  rewrite (arr_get_ok _ _ _ Hi). cbn [res_bind split_first].
  unfold eligb at 1. rewrite Hi. destruct (elig (q_c it) (q_hdr it)).
  - destruct (unlink_spec qs qa fa busy q pre i todo R T Hq) as (qs' & -> & H). eauto.
  - assert (LNext i = loc_of q (pre ++ [i])) as -> by (unfold loc_of; by rewrite last_snoc).
    specialize (IH (pre ++ [i]) todo R T). rewrite <-app_assoc in IH.
    specialize (IH Hq ltac:(cbn in Hf; lia)).
    destruct (split_first _ todo) as [[j rest]|]; [|done].
    destruct IH as (qs' & Hs & R' & T' & H). exists qs'. rewrite <-app_assoc in R', T'. eauto.
Qed.

Lemma scan_classes_spec n elig qs qa fa busy q :
  lrep qs qa fa busy -> tails qs qa -> (q + n = 3)%nat ->
  match pick (eligb elig (pool qs)) (drop q qa) with
  | Some (i, qd) =>
      exists qs', scan_classes n elig qs q = Ok (Some i, qs') /\
        lrep qs' (take q qa ++ qd) fa (i :: busy) /\ tails qs' (take q qa ++ qd) /\
        n_queued qs' = n_queued qs /\ same_payloads qs qs'
  | None => scan_classes n elig qs q = Ok (None, qs)
  end.
Proof.
  revert q. induction n as [|n IH]; intros q R T Hn; cbn [scan_classes].
  - rewrite drop_ge by (rewrite (lrep_qa _ _ _ _ R); lia). done.
  - destruct (lookup_lt_is_Some_2 qa q) as [l Hl]; [rewrite (lrep_qa _ _ _ _ R); lia|].
    rewrite (drop_S _ _ _ Hl). cbn [pick].
    pose proof (scan_queue_spec (walk_fuel qs) elig qs qa fa busy q [] l R T Hl) as Hs.
    specialize (Hs ltac:(unfold walk_fuel; rewrite (lrep_pool _ _ _ _ R); apply Nat.lt_succ_r;
      by eapply lrep_queue_length)).
    destruct (split_first _ l) as [[i rest]|].
    + destruct Hs as (qs' & Hs & H). change (loc_of q []) with (LHead q) in Hs. rewrite Hs.
      exists qs'. split; [done|]. cbn [app] in H. by rewrite <-insert_take_drop by (by eapply lookup_lt_Some).
    + change (loc_of q []) with (LHead q) in Hs. rewrite Hs. cbn [res_bind fst snd].
      specialize (IH (S q) R T ltac:(lia)).
      destruct (pick _ (drop (S q) qa)) as [[i qd]|]; [|done].
      destruct IH as (qs' & H1 & H2). exists qs'. split; [done|].
      rewrite (take_S_r _ _ _ Hl), <-app_assoc in H2. done.
Qed.

(** The split is at the first element that satisfies [P]. *)
Lemma split_first_spec P l :
  match split_first P l with
  | Some (i, r) => exists pre post, l = pre ++ i :: post /\ r = pre ++ post /\ P i = true /\
                     forall j, j ∈ pre -> P j = false
  | None => forall j, j ∈ l -> P j = false
  end.
Proof.
  induction l as [|i l IH]; cbn [split_first]; [by intros j ?%not_elem_of_nil|].
  destruct (P i) eqn:Hi.
  - exists [], l. split_and!; try done. by intros j ?%not_elem_of_nil.
  - destruct (split_first P l) as [[k r]|].
    + destruct IH as (pre & post & -> & -> & Hk & Hpre). exists (i :: pre), post.
      split_and!; try done. by intros j [-> |?]%elem_of_cons; auto.
    + by intros j [-> |?]%elem_of_cons; auto.
Qed.

(** What [pick] chooses: the oldest eligible item of the most urgent class that
    has one. *)
Definition chosen (P : nat -> bool) (qa : list (list nat)) (i : nat) (qa' : list (list nat)) : Prop :=
  exists q pre post, qa !! q = Some (pre ++ i :: post) /\ qa' = <[q := pre ++ post]> qa /\
    P i = true /\ (forall j, j ∈ pre -> P j = false) /\
    (forall q' l j, (q' < q)%nat -> qa !! q' = Some l -> j ∈ l -> P j = false).

Lemma pick_spec P qa :
  match pick P qa with
  | Some (i, qa') => chosen P qa i qa'
  | None => forall j, j ∈ concat qa -> P j = false
  end.
Proof.
  induction qa as [|l qa IH]; cbn [pick concat]; [by intros j ?%not_elem_of_nil|].
  pose proof (split_first_spec P l) as Hs. destruct (split_first P l) as [[i r]|].
  - destruct Hs as (pre & post & -> & -> & Hi & Hpre). exists 0%nat, pre, post.
    split_and!; try done. intros; lia.
  - destruct (pick P qa) as [[i qa']|].
    + destruct IH as (q & pre & post & Hq & -> & Hi & Hpre & Hlow).
      exists (S q), pre, post. split_and!; try done.
      intros [|q'] l' j Hlt Hl' Hj; simplify_eq/=; [by apply Hs|]. eapply Hlow; [|done..]. lia.
    + intros j [?|?]%elem_of_app; auto.
Qed.

Lemma chosen_perm P qa i qa' : chosen P qa i qa' -> concat qa ≡ₚ i :: concat qa'.
Proof.
  intros (q & pre & post & Hq & -> & _). rewrite (concat_delete _ _ _ Hq).
  rewrite (concat_insert qa q _ (pre ++ post) Hq). cbn. solve_Permutation.
Qed.

Lemma set_n_queued_lrep f qs qa fa busy :
  lrep qs qa fa busy -> lrep (set_n_queued f qs) qa fa busy.
Proof. intros R. split; cbn; apply R. Qed.

Lemma take_eligible_refines elig qs qa fa busy :
  rep qs qa fa busy ->
  match pick (eligb elig (pool qs)) qa with
  | Some (i, qa') =>
      exists qs', take_eligible elig qs = Ok (Some i, qs') /\
        rep (set_n_queued (fun n => n - 1) qs') qa' fa (i :: busy) /\ same_payloads qs qs'
  | None => take_eligible elig qs = Ok (None, qs)
  end.
Proof.
  intros [R T Hn]. pose proof (scan_classes_spec 3 elig qs qa fa busy 0 R T eq_refl) as H.
  pose proof (pick_spec (eligb elig (pool qs)) qa) as Hp.
  rewrite drop_0 in H. destruct (pick _ qa) as [[i qa']|]; [|done].
  destruct H as (qs' & Hs & R' & T' & Hn' & Hpl). exists qs'. split; [done|]. split; [|done].
  split; [by apply set_n_queued_lrep|done|]. cbn. rewrite Hn', Hn.
  rewrite (Permutation_length (chosen_perm _ _ _ _ Hp)). cbn [length]. lia.
Qed.

(** ** Enqueueing *)

Lemma lookup_same_payload qs qs' i it :
  same_payloads qs qs' -> pool qs' !! i = Some it ->
  exists it0, pool qs !! i = Some it0 /\ payload it = payload it0.
Proof.
  intros Hp Hi. assert ((payload <$> pool qs') !! i = Some (payload it)) as H
    by by rewrite list_lookup_fmap, Hi.
  unfold same_payloads in Hp. rewrite Hp, list_lookup_fmap in H.
  destruct (pool qs !! i) as [it0|]; [|done].
  exists it0. split; [done|]. by apply (inj Some) in H.
Qed.

(** Popping the free list makes its first item busy. *)
Lemma take_free_spec c h qs qa i fa busy :
  rep qs qa (i :: fa) busy ->
  exists qs' it, pool qs !! i = Some it /\ take_free c h qs = Ok (Some (i, qs')) /\
    rep qs' qa fa (i :: busy) /\ pool qs' = <[i := QItem None c h (q_body it)]> (pool qs).
Proof.
  intros [R T Hn]. pose proof (lrep_free _ _ _ _ R) as (Hf & it & Hi & Hseg).
  unfold take_free. rewrite Hf, (arr_get_ok _ _ _ Hi). cbn [res_bind].
  rewrite arr_set_ok by (by eapply lookup_lt_Some). cbn [res_bind].
  eexists _, it. split; [done|]. split; [done|]. split; [|done].
  pose proof (lrep_nodup R) as Hnd. apply NoDup_app in Hnd as (_ & _ & Hnd).
  cbn in Hnd. apply NoDup_cons in Hnd as [Hni _].
  assert ((i ∉ fa) /\ (i ∉ concat qa)) as [Hfa Hqa] by set_solver.
  split; [|done|done]. split; cbn; try apply R.
  - rewrite length_insert. apply R.
  - intros q l h' Hl Hh'. apply seg_insert; [|by eapply lrep_seg].
    intros Hil. apply Hqa. rewrite (concat_delete qa q l Hl). set_solver.
  - by apply seg_insert.
  - rewrite <-(lrep_perm _ _ _ _ R). cbn. by rewrite Permutation_middle.
Qed.

(** Storing through the tail pointer appends. *)
Lemma loc_set_append qs qa fa busy q l i it :
  lrep qs qa fa (i :: busy) -> qa !! q = Some l ->
  pool qs !! i = Some it -> q_next it = None ->
  exists qs', loc_set qs (match last l with Some j => LNext j | None => LHead q end) (Some i) = Ok qs' /\
    lrep qs' (<[q := l ++ [i]]> qa) fa busy /\
    qt qs' = qt qs /\ n_queued qs' = n_queued qs /\ same_payloads qs qs'.
Proof.
  intros R Hq Hi Hnone.
  assert (q < 3)%nat as Hq3 by (rewrite <-(lrep_qa _ _ _ _ R); by eapply lookup_lt_Some).
  destruct (lrep_head R q _ Hq) as (h & Hh & Hseg).
  pose proof (lrep_nodup R) as Hnd. destruct (lrep_queue R q l Hq) as [Hndl Hout].
  assert ((i ∉ fa) /\ (i ∉ concat qa)) as [Hif Hic].
  { apply NoDup_cons in Hnd as [Hni _]. set_solver. }
  assert (i ∉ l) as Hil.
  { intros Hin. apply Hic. rewrite (concat_delete qa q l Hq). set_solver. }
  assert (busy ++ fa ++ concat (<[q:=l ++ [i]]> qa) ≡ₚ seq 0 MAX_QITEMS) as Hperm.
  { rewrite <-(lrep_perm _ _ _ _ R), (concat_insert qa q _ _ Hq), (concat_delete qa q _ Hq).
    cbn. solve_Permutation. }
  pose proof (fun q' l' => queue_insert_cases qa q (l ++ [i]) q' l') as Hcase.
  destruct l as [|j l _] using rev_ind.
  - cbn [last loc_set]. cbn in Hseg. subst h.
    rewrite arr_set_ok by (rewrite (lrep_qh _ _ _ _ R); done). eexists. split; [done|].
    split; [|done]. split; cbn; try (apply R || by rewrite length_insert; apply R); [|done].
    intros q' l' h' [[-> ->]|[Hne Hl']]%Hcase Hh'.
    + rewrite list_lookup_insert_eq in Hh' by (rewrite (lrep_qh _ _ _ _ R); done).
      simplify_eq. cbn. eauto.
    + rewrite list_lookup_insert_ne in Hh' by done. by eapply lrep_seg.
  - rewrite last_snoc. destruct (seg_snoc_inv _ _ _ _ _ Hseg) as (jt & Hp & Hj & _).
    cbn [loc_set]. rewrite (arr_get_ok _ _ _ Hj). cbn [res_bind].
    rewrite arr_set_ok by (by eapply lookup_lt_Some). eexists. split; [done|].
    destruct (Hout j (elem_of_snoc l j)) as (Hjf & Hjb & Hjo).
    destruct (nodup_snoc l j Hndl) as [_ Hjl].
    assert (i <> j) as Hij by (intros ->; apply Hil, elem_of_snoc).
    split; [|split_and!; try done; unfold same_payloads; cbn; by eapply insert_payload].
    split; cbn; try (apply R || by rewrite length_insert; apply R); [| |done].
    + intros q' l' h' [[-> ->]|[Hne Hl']]%Hcase Hh'.
      * simplify_eq. eapply (seg_snoc _ _ _ i _ it).
        -- eapply (seg_snoc _ _ _ j); [by apply seg_insert| |].
           { apply list_lookup_insert_eq. by eapply lookup_lt_Some. }
           done.
        -- by rewrite list_lookup_insert_ne.
        -- done.
      * apply seg_insert; [by eapply Hjo|by eapply lrep_seg].
    + apply seg_insert; [done|apply R].
Qed.

(** A fresh item is filled and becomes the last of its class. *)
Lemma link_tail_spec qs qa fa busy q l i it body :
  rep qs qa fa (i :: busy) -> qa !! q = Some l -> pool qs !! i = Some it -> q_next it = None ->
  (length body <= length (q_body it))%nat ->
  exists qs', link_tail q i body qs = Ok qs' /\ rep qs' (<[q := l ++ [i]]> qa) fa busy /\
    (payload <$> pool qs') =
      <[i := (q_c it, q_hdr it, body ++ drop (length body) (q_body it))]> (payload <$> pool qs).
Proof.
  intros [R T Hn] Hq Hi Hnone Hlen.
  assert (i < length (pool qs))%nat as Hil by by eapply lookup_lt_Some.
  unfold link_tail. rewrite (arr_get_ok _ _ _ Hi). cbn [res_bind].
  rewrite buf_write_ok by (cbn; lia). cbn [res_bind take app Nat.add].
  rewrite arr_set_ok by done. cbn [res_bind].
  set (it' := set_q_body _ it). set (qs1 := set_pool _ qs).
  pose proof (lrep_nodup R) as Hnd. apply NoDup_cons in Hnd as [Hni _].
  assert (lrep qs1 qa fa (i :: busy)) as R1 by (apply (lrep_store qs); set_solver).
  assert (pool qs1 !! i = Some it') as Hi1 by by apply list_lookup_insert_eq.
  rewrite (arr_get_ok _ q (last l)) by by apply T. cbn [res_bind].
  destruct (loc_set_append qs1 qa fa busy q l i it' R1 Hq Hi1 Hnone)
    as (qs2 & -> & R2 & Hqt & Hn2 & Hp). cbn [res_bind].
  assert (q < length (qt qs2))%nat as Hq2.
  { rewrite (lrep_qt _ _ _ _ R2), <-(lrep_qa _ _ _ _ R). by eapply lookup_lt_Some. }
  rewrite arr_set_ok by done. eexists. split; [done|]. split.
  - split.
    + apply set_n_queued_lrep. split; cbn; try apply R2. rewrite length_insert. apply R2.
    + intros q' l' [[-> ->]|[Hne Hl']]%queue_insert_cases; cbn.
      * rewrite last_snoc. by apply list_lookup_insert_eq.
      * rewrite list_lookup_insert_ne, Hqt by done. by apply T.
    + cbn. rewrite Hn2. cbn. rewrite Hn, (Permutation_length (concat_insert qa q _ (l ++ [i]) Hq)).
      rewrite (Permutation_length (concat_delete qa q _ Hq)), !length_app. cbn. lia.
  - cbn. unfold same_payloads in Hp. rewrite Hp. unfold qs1. cbn.
    by rewrite list_fmap_insert.
Qed.

(** ** Dropping a client *)

Lemma release_item_spec qs qa fa busy i :
  lrep qs qa fa (i :: busy) ->
  exists qs', release_item i qs = Ok qs' /\ lrep qs' qa (i :: fa) busy /\
    qh qs' = qh qs /\ qt qs' = qt qs /\ n_queued qs' = n_queued qs /\ same_payloads qs qs'.
Proof.
  intros R. destruct (lrep_item R i) as [it Hi]; [set_solver|].
  assert (i < length (pool qs))%nat as Hil by by eapply lookup_lt_Some.
  unfold release_item. rewrite (arr_get_ok _ _ _ Hi). cbn [res_bind].
  rewrite arr_set_ok by done. eexists. split; [done|].
  pose proof (lrep_nodup R) as Hnd. apply NoDup_cons in Hnd as [Hni _].
  assert (i ∉ fa) as Hfa by set_solver.
  split; [|split_and!; try done; unfold same_payloads; cbn; by eapply insert_payload].
  split; cbn; try apply R.
  - rewrite length_insert. apply R.
  - intros q l h Hl Hh. apply seg_insert; [|by eapply lrep_seg].
    intros Hin. apply Hni. rewrite (concat_delete qa q l Hl). set_solver.
  - split; [done|]. exists (set_q_next (fun _ => freel qs) it).
    split; [by apply list_lookup_insert_eq|]. apply seg_insert; [done|apply R].
  - rewrite <-(lrep_perm _ _ _ _ R). cbn. solve_Permutation.
Qed.

(** Whose item it is. *)
Definition owned_by (pl : list qitem) (c i : nat) : Prop := q_c <$> pl !! i = Some c.
#[export] Instance owned_by_dec pl c i : Decision (owned_by pl c i).
Proof. unfold owned_by. apply _. Defined.

Lemma owned_same qs qs' c i : same_payloads qs qs' -> owned_by (pool qs') c i <-> owned_by (pool qs) c i.
Proof.
  intros Hp. unfold owned_by.
  enough (forall qs, q_c <$> pool qs !! i = (fun p => fst (fst p)) <$> (payload <$> pool qs) !! i)
    as H by by rewrite !H, Hp.
  intros qs0. rewrite list_lookup_fmap. by destruct (pool qs0 !! i).
Qed.

Lemma same_payloads_trans qs1 qs2 qs3 :
  same_payloads qs1 qs2 -> same_payloads qs2 qs3 -> same_payloads qs1 qs3.
Proof. unfold same_payloads. congruence. Qed.

Definition keep (c : nat) (pl : list qitem) (l : list nat) : list nat :=
  filter (fun i => ~ owned_by pl c i) l.
Definition drops (c : nat) (pl : list qitem) (l : list nat) : list nat :=
  filter (owned_by pl c) l.

Lemma keep_same c qs qs' l : same_payloads qs qs' -> keep c (pool qs') l = keep c (pool qs) l.
Proof. intros Hp. apply list_filter_iff. intros i. by rewrite (owned_same qs qs'). Qed.
Lemma drops_same c qs qs' l : same_payloads qs qs' -> drops c (pool qs') l = drops c (pool qs) l.
Proof. intros Hp. apply list_filter_iff. intros i. by rewrite (owned_same qs qs'). Qed.

Lemma owned_lookup pl c i it : pl !! i = Some it -> owned_by pl c i <-> q_c it = c.
Proof. intros H. unfold owned_by. rewrite H. cbn. naive_solver. Qed.

Lemma purge_queue_spec fuel c qs qa fa busy q pre todo :
  lrep qs qa fa busy -> qa !! q = Some (pre ++ todo) -> (length todo < fuel)%nat ->
  exists qs', purge_queue fuel c qs (loc_of q pre) = Ok qs' /\
    lrep qs' (<[q := pre ++ keep c (pool qs) todo]> qa) (rev (drops c (pool qs) todo) ++ fa) busy /\
    qt qs' = qt qs /\ n_queued qs' = n_queued qs - Z.of_nat (length (drops c (pool qs) todo)) /\
    same_payloads qs qs'.
Proof.
  revert qs qa fa pre todo. induction fuel as [|f IH]; intros qs qa fa pre todo R Hq Hf; [lia|].
  destruct (loc_get_of qs qa fa busy q pre todo R Hq) as (m & Hm & Hseg).
  cbn [purge_queue]. rewrite Hm. cbn [res_bind].
  destruct todo as [|i todo].
  { cbn in Hseg. subst m. exists qs. split; [done|]. cbn. rewrite Z.sub_0_r.
    by rewrite list_insert_id. }
  destruct Hseg as (-> & it & Hi & _). rewrite (arr_get_ok _ _ _ Hi). cbn [res_bind].
  pose proof (owned_lookup _ c _ _ Hi) as Hown. unfold keep, drops. rewrite !filter_cons.
  cbn in Hf. destruct (decide (q_c it = c)) as [Hc|Hc].
  - rewrite (decide_False (P := ~ _)), decide_True by naive_solver.
    destruct (loc_set_unlink qs qa fa busy q pre i todo it R Hq Hi)
      as (qs1 & -> & R1 & _ & Hqt1 & _ & Hn1 & Hp1). cbn [res_bind].
    destruct (release_item_spec _ _ _ _ _ R1) as (qs2 & -> & R2 & _ & Hqt2 & Hn2 & Hp2).
    cbn [res_bind].
    assert (same_payloads qs (set_n_queued (fun n => n - 1) qs2)) as Hp
      by by eapply same_payloads_trans.
    destruct (IH (set_n_queued (fun n => n - 1) qs2) (<[q:=pre ++ todo]> qa) (i :: fa) pre todo)
      as (qs' & Hs & R' & Hqt' & Hn' & Hp').
    { by apply set_n_queued_lrep. }
    { apply list_lookup_insert_eq. by eapply lookup_lt_Some. }
    { lia. }
    rewrite (keep_same c qs _ todo Hp), (drops_same c qs _ todo Hp) in *.
    rewrite list_insert_insert_eq in R'. exists qs'. split; [done|].
    split; [|split_and!; [cbn in *; congruence| |by eapply same_payloads_trans]].
    + cbn [rev]. rewrite <-app_assoc. exact R'.
    + cbn [n_queued set_n_queued] in Hn'. cbn [length]. unfold drops in Hn'. lia.
  - rewrite decide_True, (decide_False (P := owned_by _ _ _)) by naive_solver.
    assert (LNext i = loc_of q (pre ++ [i])) as -> by (unfold loc_of; by rewrite last_snoc).
    destruct (IH qs qa fa (pre ++ [i]) todo R) as (qs' & Hs & R' & H'); [by rewrite <-app_assoc|lia|].
    exists qs'. split; [done|]. rewrite <-app_assoc in R'. done.
Qed.

(** The tails of the classes below [k] are right. *)
Definition tails_below (k : nat) (qs : qstate) (qa : list (list nat)) : Prop :=
  forall q l, (q < k)%nat -> qa !! q = Some l -> qt qs !! q = Some (last l).

Lemma purge_class_spec c qs qa fa busy q l :
  lrep qs qa fa busy -> tails_below q qs qa -> qa !! q = Some l ->
  exists qs', purge_class c qs q = Ok qs' /\
    lrep qs' (<[q := keep c (pool qs) l]> qa) (rev (drops c (pool qs) l) ++ fa) busy /\
    tails_below (S q) qs' (<[q := keep c (pool qs) l]> qa) /\
    n_queued qs' = n_queued qs - Z.of_nat (length (drops c (pool qs) l)) /\ same_payloads qs qs'.
Proof.
  intros R T Hq. unfold purge_class.
  destruct (purge_queue_spec (walk_fuel qs) c qs qa fa busy q [] l R Hq)
    as (qs1 & Hs & R1 & Hqt & Hn & Hp).
  { unfold walk_fuel. rewrite (lrep_pool _ _ _ _ R). apply Nat.lt_succ_r.
    by eapply lrep_queue_length. }
  change (loc_of q []) with (LHead q) in Hs. rewrite Hs. cbn [res_bind app] in *.
  assert (q < length qa)%nat as Hlt by by eapply lookup_lt_Some.
  assert (<[q := keep c (pool qs) l]> qa !! q = Some (keep c (pool qs) l)) as Hq1
    by by apply list_lookup_insert_eq.
  destruct (lrep_head R1 q _ Hq1) as (h & Hh & Hseg). rewrite (arr_get_ok _ _ _ Hh). cbn [res_bind].
  rewrite (walk_tail_spec _ _ _ _ Hseg); cycle 1.
  { unfold walk_fuel. rewrite (lrep_pool _ _ _ _ R1). apply Nat.lt_succ_r.
    by eapply lrep_queue_length. }
  cbn [res_bind]. assert (q < length (qt qs1))%nat as Hqt1
    by by rewrite (lrep_qt _ _ _ _ R1), <-(lrep_qa _ _ _ _ R).
  rewrite arr_set_ok by done. eexists. split; [done|]. split; [|split; [|done]].
  - split; cbn; try apply R1. rewrite length_insert. apply R1.
  - intros q' l' Hlt' [[-> ->]|[Hne Hl']]%queue_insert_cases; cbn.
    + by apply list_lookup_insert_eq.
    + rewrite list_lookup_insert_ne, Hqt by done. apply T; [lia|done].
Qed.

Lemma filter_lengths c pl l :
  length l = (length (keep c pl l) + length (drops c pl l))%nat.
Proof.
  unfold keep, drops. induction l as [|i l IH]; [done|]. rewrite !filter_cons.
  destruct (decide (owned_by pl c i)); [rewrite (decide_False (P := ~ _)) by naive_solver
    |rewrite (decide_True (P := ~ _)) by done]; cbn; lia.
Qed.

(** Dropping a client filters its items out of every class and frees them. *)
Lemma purge_client_refines c qs qa fa busy :
  rep qs qa fa busy ->
  exists qs' fa', purge_client c qs = Ok qs' /\ rep qs' (keep c (pool qs) <$> qa) fa' busy /\
    fa' ≡ₚ drops c (pool qs) (concat qa) ++ fa /\ same_payloads qs qs'.
Proof.
  intros [R T Hn]. destruct qa as [|l0 [|l1 [|l2 [|? ?]]]] eqn:Hqa; rewrite <-?Hqa in *;
    try (pose proof (lrep_qa _ _ _ _ R); subst; done).
  unfold purge_client.
  destruct (purge_class_spec c qs qa fa busy 0 l0 R) as (qs0 & -> & R0 & T0 & Hn0 & Hp0);
    [by intros ?? ?%Nat.nlt_0_r|by rewrite Hqa|]. cbn [res_bind].
  destruct (purge_class_spec c qs0 _ _ busy 1 l1 R0 T0) as (qs1 & -> & R1 & T1 & Hn1 & Hp1);
    [by rewrite Hqa|]. cbn [res_bind].
  destruct (purge_class_spec c qs1 _ _ busy 2 l2 R1 T1) as (qs2 & -> & R2 & T2 & Hn2 & Hp2);
    [by rewrite Hqa|].
  assert (same_payloads qs qs1) as Hp01 by by eapply same_payloads_trans.
  rewrite !(keep_same c qs qs0), !(keep_same c qs qs1), !(drops_same c qs qs0),
    !(drops_same c qs qs1) in * by done.
  rewrite Hqa in R2, T2. cbn in R2, T2. eexists _, _. split; [done|]. split; [|split].
  - rewrite Hqa. cbn. split; [exact R2| |].
    + intros q l Hl. apply T2; [|done]. apply lookup_lt_Some in Hl. cbn in Hl. lia.
    + rewrite Hn2, Hn1, Hn0, Hn, Hqa. cbn. rewrite !app_nil_r, !length_app.
      rewrite (filter_lengths c (pool qs) l0), (filter_lengths c (pool qs) l1),
        (filter_lengths c (pool qs) l2). lia.
  - rewrite Hqa. cbn. unfold drops. rewrite !filter_app, filter_nil, app_nil_r, <-!Permutation_rev.
    solve_Permutation.
  - by eapply same_payloads_trans.
Qed.

(** Changing what an item carries keeps the lists. *)
Lemma seg_same_next pl pl' p l e :
  (forall j, q_next <$> pl' !! j = q_next <$> pl !! j) -> seg pl p l e -> seg pl' p l e.
Proof.
  intros H. revert p. induction l as [|i l IH]; intros p; cbn; [done|].
  intros (-> & it & Hi & Hs). split; [done|]. specialize (H i). rewrite Hi in H.
  destruct (pl' !! i) as [it'|]; [|done]. exists it'. split; [done|].
  apply (inj Some) in H. rewrite H. by apply IH.
Qed.

Lemma rep_set_body qs qa fa busy i it body :
  rep qs qa fa busy -> pool qs !! i = Some it ->
  rep (set_pool (fun p => <[i := set_q_body (fun _ => body) it]> p) qs) qa fa busy.
Proof.
  intros [R T Hn] Hi.
  assert (forall j, q_next <$> <[i := set_q_body (fun _ => body) it]> (pool qs) !! j =
                    q_next <$> pool qs !! j) as Hnext.
  { intros j. destruct (decide (i = j)) as [<-|Hne]; [|by rewrite list_lookup_insert_ne].
    rewrite list_lookup_insert_eq by (by eapply lookup_lt_Some). by rewrite Hi. }
  split; [|done|done]. split; cbn; try apply R.
  - rewrite length_insert. apply R.
  - intros q l h Hl Hh. eapply seg_same_next; [exact Hnext|]. by eapply lrep_seg.
  - eapply seg_same_next; [exact Hnext|apply R].
Qed.

(** ** The empty queues set up by [main] *)

(** [for (i = 0; i < MAX_QITEMS - 1; i++) g.pool[i].next = &g.pool[i + 1]] on
    zero-initialised items. *)
Definition init_item (i : nat) : qitem :=
  QItem (if (i <? MAX_QITEMS - 1)%nat then Some (S i) else None) 0 (Hdr 0 0 0 0 0)
        (replicate SPIPROXY_MSG_MAX 0).
Definition init_qs : qstate :=
  QState (replicate 3 None) (replicate 3 None) (init_item <$> seq 0 MAX_QITEMS) (Some 0%nat) 0.

Lemma init_pool_lookup i : (i < MAX_QITEMS)%nat -> pool init_qs !! i = Some (init_item i).
Proof. intros Hi. cbn [pool init_qs]. by rewrite list_lookup_fmap, lookup_seq_lt. Qed.

(** A pool linked in its order is a free list of all items. *)
Definition linked_in_order (pl : list qitem) : Prop :=
  forall i, (i < MAX_QITEMS)%nat ->
    q_next <$> pl !! i = Some (if (i <? MAX_QITEMS - 1)%nat then Some (S i) else None).

Lemma ordered_seg pl n i :
  linked_in_order pl -> (i + n = MAX_QITEMS)%nat -> (0 < n)%nat -> seg pl (Some i) (seq i n) None.
Proof.
  intros Hpl. revert i. induction n as [|n IH]; intros i Hi Hn; [lia|]. cbn [seq seg]. split; [done|].
  pose proof (Hpl i ltac:(lia)) as Hi'. apply fmap_Some in Hi' as (it & Hit & Hnx).
  exists it. split; [done|]. rewrite <-Hnx.
  destruct (Nat.ltb_spec i (MAX_QITEMS - 1)); destruct n as [|n]; try lia; [|done].
  apply IH; lia.
Qed.

Lemma ordered_rep pl :
  length pl = MAX_QITEMS -> linked_in_order pl ->
  rep (QState (replicate 3 None) (replicate 3 None) pl (Some 0%nat) 0) [[]; []; []] (seq 0 MAX_QITEMS) [].
Proof.
  intros Hl Hpl. split; [split| |].
  - done.
  - done.
  - done.
  - done.
  - intros q l h Hq Hh. assert (h = None /\ l = []) as [-> ->]; [|done]. clear -Hq Hh.
    destruct q as [|[|[|q]]]; cbn in Hq, Hh; by simplify_eq.
  - apply ordered_seg; [done|unfold MAX_QITEMS; lia..].
  - cbn [concat app]. by rewrite app_nil_r.
  - intros [|[|[|q]]] l Hq; simplify_eq/=; done.
  - done.
Qed.

Lemma init_rep : rep init_qs [[]; []; []] (seq 0 MAX_QITEMS) [].
Proof.
  apply ordered_rep; [by rewrite length_fmap, length_seq|].
  intros i Hi. pose proof (init_pool_lookup i Hi) as H. cbn [pool init_qs] in H. by rewrite H.
Qed.

(** ** The queue contract *)

(** Header and body of a request as it is stored in the pool. *)
Definition stored (pl : list qitem) (i c : nat) (h : hdr) (body : list Z) : Prop :=
  exists it, pl !! i = Some it /\ q_c it = c /\ q_hdr it = h /\ take (length body) (q_body it) = body.

Lemma stored_payload pl i c h body rest :
  (payload <$> pl) !! i = Some (c, h, body ++ rest) -> stored pl i c h body.
Proof.
  rewrite list_lookup_fmap. destruct (pl !! i) as [it|] eqn:Hi; [|done]. cbn. unfold payload.
  intros H. injection H as Hc Hh Hb. exists it. split_and!; try done.
  by rewrite Hb, take_app_length.
Qed.

(** Both halves of [enqueue] on the queue structure. *)
Definition queue_request (q c : nat) (h : hdr) (body : list Z) (qs : qstate) : res (option qstate) :=
  let! r := take_free c h qs in
  match r with
  | None => Ok None
  | Some (i, qs1) => let! qs2 := link_tail q i body qs1 in Ok (Some qs2)
  end.

Lemma queue_request_ok q c h body qs qa i fa busy l it :
  rep qs qa (i :: fa) busy -> qa !! q = Some l -> pool qs !! i = Some it ->
  (length body <= length (q_body it))%nat ->
  exists qs', queue_request q c h body qs = Ok (Some qs') /\
    rep qs' (<[q := l ++ [i]]> qa) fa busy /\
    (payload <$> pool qs') =
      <[i := (c, h, body ++ drop (length body) (q_body it))]> (payload <$> pool qs).
Proof.
  intros R Hq Hi Hlen. destruct (take_free_spec c h qs qa i fa busy R) as (qs1 & it' & Hi' & Ht & R1 & Hp).
  simplify_eq. unfold queue_request. rewrite Ht. cbn [res_bind].
  assert (i < length (pool qs))%nat as Hil by by eapply lookup_lt_Some.
  destruct (link_tail_spec qs1 qa fa busy q l i (QItem None c h (q_body it)) body R1 Hq)
    as (qs2 & -> & R2 & Hp2); [by rewrite Hp, list_lookup_insert_eq|done..|].
  exists qs2. split; [done|]. split; [done|]. rewrite Hp2, Hp, list_fmap_insert. cbn.
  by rewrite list_insert_insert_eq.
Qed.

(** C28: enqueueing refines appending to a list: with a free item, the request
    becomes the last element of its priority class, with its header, client and
    body stored, and every other queued request keeps its place and content;
    with an empty free list nothing changes. *)
Theorem enqueue_appends q c h body qs qa fa busy l :
  rep qs qa fa busy -> qa !! q = Some l ->
  Forall (fun it => length (q_body it) = SPIPROXY_MSG_MAX) (pool qs) ->
  (length body <= SPIPROXY_MSG_MAX)%nat ->
  match fa with
  | [] => queue_request q c h body qs = Ok None
  | i :: fa' =>
      exists qs', queue_request q c h body qs = Ok (Some qs') /\
        rep qs' (<[q := l ++ [i]]> qa) fa' busy /\ stored (pool qs') i c h body /\
        (forall j, j <> i -> payload <$> pool qs' !! j = payload <$> pool qs !! j)
  end.
Proof.
  intros R Hq Hb Hlen. destruct fa as [|i fa].
  - unfold queue_request, take_free. destruct R as [R _ _].
    pose proof (lrep_free _ _ _ _ R) as Hf. cbn in Hf. by rewrite Hf.
  - destruct (lrep_item (rep_lrep _ _ _ _ R) i) as [it Hi]; [set_solver|].
    pose proof (Forall_lookup_1 _ _ _ _ Hb Hi) as Hl. cbn in Hl.
    destruct (queue_request_ok q c h body qs qa i fa busy l it R Hq Hi) as (qs' & Hs & R' & Hp);
      [by rewrite Hl|].
    exists qs'. split; [done|]. split; [done|]. split.
    + eapply stored_payload. rewrite Hp. apply list_lookup_insert_eq. rewrite length_fmap.
      by eapply lookup_lt_Some.
    + intros j Hj. rewrite <-!list_lookup_fmap, Hp. by rewrite list_lookup_insert_ne.
Qed.

Lemma init_bodies : Forall (fun it => length (q_body it) = SPIPROXY_MSG_MAX) (pool init_qs).
Proof.
  cbn [pool init_qs]. apply Forall_fmap, Forall_true. intros i. apply length_replicate.
Qed.

Definition example_hdr : hdr := Hdr 1 7 0 42 0.

Lemma enqueue_appends_witness :
  exists qs', queue_request 1 3 example_hdr [1; 2; 3] init_qs = Ok (Some qs') /\
    rep qs' [[]; [0%nat]; []] (seq 1 255) [] /\ stored (pool qs') 0 3 example_hdr [1; 2; 3] /\
    (forall j, j <> 0%nat -> payload <$> pool qs' !! j = payload <$> pool init_qs !! j).
Proof.
  exact (enqueue_appends 1 3 example_hdr [1; 2; 3] init_qs [[]; []; []] (0%nat :: seq 1 255) [] []
    init_rep eq_refl init_bodies (proj2 (Nat2Z.inj_le 3 SPIPROXY_MSG_MAX) ltac:(done))).
Defined.

(** C27: dequeueing refines the scheduler's specification: it removes the oldest
    eligible request of the most urgent class that has an eligible one, leaves
    all others in order, and reports none only when no request is eligible. *)
Theorem take_eligible_schedules elig qs qa fa busy :
  rep qs qa fa busy ->
  (exists i qa' qs', chosen (eligb elig (pool qs)) qa i qa' /\
     take_eligible elig qs = Ok (Some i, qs') /\
     rep (set_n_queued (fun n => n - 1) qs') qa' fa (i :: busy) /\ same_payloads qs qs') \/
  (forall i, i ∈ concat qa -> eligb elig (pool qs) i = false) /\
  take_eligible elig qs = Ok (None, qs).
Proof.
  intros R. pose proof (take_eligible_refines elig qs qa fa busy R) as H.
  pose proof (pick_spec (eligb elig (pool qs)) qa) as Hp.
  destruct (pick _ qa) as [[i qa']|]; [left|by right].
  destruct H as (qs' & H). by exists i, qa', qs'.
Qed.

(** Two requests of different classes: the low class was queued first. *)
Lemma example_two_queued :
  exists qs, rep qs [[1%nat]; [0%nat]; []] (seq 2 254) [] /\
    (forall i, (i < 256)%nat -> eligb (fun _ _ => true) (pool qs) i = true).
Proof.
  destruct (queue_request_ok 1 3 example_hdr [] init_qs [[]; []; []] 0 (seq 1 255) [] [] (init_item 0)
    init_rep eq_refl (init_pool_lookup 0 ltac:(unfold MAX_QITEMS; lia)) (Nat.le_0_l _))
    as (qs1 & _ & R1 & _). change (<[1%nat:=_]> _) with [[]; [0%nat]; []] in R1.
  destruct (lrep_item (rep_lrep _ _ _ _ R1) 1) as [it Hi]; [by left|].
  destruct (queue_request_ok 0 4 example_hdr [] qs1 [[]; [0%nat]; []] 1 (seq 2 254) [] [] it R1 eq_refl Hi
    (Nat.le_0_l _)) as (qs2 & _ & R2 & _).
  exists qs2. split; [exact R2|]. intros i Hi2. unfold eligb.
  destruct (lookup_lt_is_Some_2 (pool qs2) i) as [x ->]; [|done].
  by rewrite (lrep_pool _ _ _ _ (rep_lrep _ _ _ _ R2)).
Qed.

Lemma take_eligible_schedules_witness :
  exists qs qs', rep qs [[1%nat]; [0%nat]; []] (seq 2 254) [] /\
    take_eligible (fun _ _ => true) qs = Ok (Some 1%nat, qs').
Proof.
  destruct example_two_queued as (qs & R & He). exists qs.
  destruct (take_eligible_schedules (fun _ _ => true) qs _ _ _ R)
    as [(i & qa' & qs' & Hc & Ht & _)|[Hno _]].
  - exists qs'. split; [exact R|]. rewrite Ht. do 2 f_equal.
    destruct Hc as (q & pre & post & Hq & _ & Hi & Hpre & Hlow). destruct q as [|q].
    + destruct pre as [|x [|y pre]]; cbn in Hq; by simplify_eq.
    + specialize (Hlow 0%nat [1%nat] 1%nat ltac:(lia) eq_refl ltac:(by left)).
      rewrite He in Hlow by lia. done.
  - specialize (Hno 1%nat ltac:(by left)). rewrite He in Hno by lia. done.
Defined.

(** C29: dropping a client refines filtering: its requests disappear from every
    class and return to the free list, all others stay in order. *)
Theorem purge_client_filters c qs qa fa busy :
  rep qs qa fa busy ->
  exists qs' fa', purge_client c qs = Ok qs' /\ rep qs' (keep c (pool qs) <$> qa) fa' busy /\
    fa' ≡ₚ drops c (pool qs) (concat qa) ++ fa /\ same_payloads qs qs'.
Proof. apply purge_client_refines. Qed.

Lemma purge_client_filters_witness :
  exists qs' fa', purge_client 5 init_qs = Ok qs' /\ rep qs' [[]; []; []] fa' [] /\
    fa' ≡ₚ seq 0 MAX_QITEMS.
Proof.
  destruct (purge_client_filters 5 init_qs _ _ _ init_rep) as (qs' & fa' & H1 & H2 & H3 & _).
  exists qs', fa'. split_and!; [exact H1|exact H2|exact H3].
Defined.
