(* ===== verification/Log.v ===== *)
(** * Logging (log.c) and symbolic names

    [log_msg] goes to syslog and is teed into the -L sink; [log_trace] only
    reaches the sink and does nothing without one.  [warn_line], [type_name],
    [status_name] and [reg_name] are the helpers of lan80xx_spid.c that build
    the text of the log lines. *)
From S2P Require Import Prelude Bytes Fmt Proto State.

Definition LOG_ERR : Z := 3.
Definition LOG_WARNING : Z := 4.
Definition LOG_NOTICE : Z := 5.
Definition PRI_TRACE : Z := -1.

Definition pri_tag (priority : Z) : string :=
  if priority =? LOG_ERR then "ERR "
  else if priority =? LOG_WARNING then "WARN "
  else if priority =? LOG_NOTICE then "NOTE "
  else "".

Section Log.
Context {W : Type} {WW : World W}.

Definition trace_v (priority : Z) (line : string) : D W unit :=
  let* g := getg in
  if cf_trace (g_cfg g) then
    let* '(sec, nsec) := ask w_clock in
    emit (EvTrace (dec (u64 (u64 (sec * 1000000) + nsec / 1000)) +:+ " " +:+
                   pri_tag priority +:+ line))
  else returnM tt.

(** [sink] tells whether there is a -L file. *)
Definition log_open (ident : string) (sink : bool) : D W unit :=
  setg (set_g_cfg (set_cf_trace (fun _ => sink))) ;; emit (EvOpenlog ident).

Definition log_close : D W unit := emit EvCloselog.

Definition log_msg (priority : Z) (line : string) : D W unit :=
  emit (EvSyslog priority line) ;; trace_v priority line.

Definition log_trace (line : string) : D W unit := trace_v PRI_TRACE line.

Definition log_always := log_msg LOG_NOTICE.
Definition log_error := log_msg LOG_ERR.
Definition log_warn := log_msg LOG_WARNING.
Definition log_debug := log_trace.

Definition warn_line (line : string) : D W unit :=
  setg (set_g_cnt (set_n_warns (fun n => u64 (n + 1)))) ;;
  log_warn (trunc 256 line).

(** Logging reads the clock and adds log events; it changes no state. *)
Definition is_log_event (e : event) : Prop :=
  match e with EvSyslog _ _ | EvTrace _ => True | _ => False end.

End Log.

Definition type_names : list string :=
  ["?"; "READ"; "WRITE"; "BATCH"; "CLAIM"; "RELEASE"; "MAILBOX";
   "STATS"; "TRACE"; "TSFIFO_SUB"; "BER_WINDOW"; "DFU"].

Definition type_name (t : Z) : string :=
  if t <? Z.of_nat (length type_names) then default "?" (type_names !! Z.to_nat t) else "?".

Definition status_names : list string :=
  ["OK"; "EINVAL"; "EIO"; "EBUSY"; "ETIMEDOUT"; "ENOSYS"; "ECRC"].

Definition status_name (st : Z) : string :=
  if (0 <=? st) && (st <? Z.of_nat (length status_names))
  then default "?" (status_names !! Z.to_nat st) else "?".

(** ** Register names *)

Definition MB_CMD_ADDR : Z := 0xd800.
Definition MB_RESP_ADDR : Z := 0xd900.
Definition MB_FLAG : Z := 0xda00.
Definition MB_MCU_MASK : Z := 0xda01.
Definition MB_GUARD_LO : Z := 0xd800.
Definition MB_GUARD_HI : Z := 0xdaff.
Definition MB_F_BUSY : Z := 0x00000001.
Definition MB_F_RESP : Z := 0x00000002.
Definition MB_SET_REQ : Z := 0x00010000.
Definition MB_CLR_REQ : Z := 0x01000000.
Definition MB_CLR_RESP : Z := 0x02000000.
Definition REG_NAME_BUF : nat := 32.

Section Names.
Context {RG : Regs}.

Definition global_reg_name (reg val : Z) (write : bool) : string :=
  if reg =? LAN80XX_MCU_IO_MNGT_MISC_DEVICE_ID_REG then " DEVICE_ID"
  else if reg =? LAN80XX_MCU_IO_MNGT_MISC_DEVICE_SILICON_REVISION_REG then " SILICON_REV"
  else if reg =? LAN80XX_MCU_IO_MNGT_MISC_DEVICE_FEATURE_DISABLE_REG then " FEATURE_FUSES"
  else if reg =? MB_MCU_MASK then " MB_MCU_INT_MASK"
  else if reg =? MB_MCU_MASK + 1 then " MB_HOST_INT_MASK"
  else if reg =? MB_FLAG then
    if write && (val =? MB_SET_REQ) then " MB_FLAG doorbell"
    else if write && (val =? MB_CLR_REQ) then " MB_FLAG clr-req"
    else if write && (val =? MB_CLR_RESP) then " MB_FLAG clr-resp"
    else " MB_FLAG"
  else if (MB_CMD_ADDR <=? reg) && (reg <=? MB_CMD_ADDR + 0xff) then
    trunc REG_NAME_BUF (" MB_REQ[" +:+ dec (reg - MB_CMD_ADDR) +:+ "]")
  else if (MB_RESP_ADDR <=? reg) && (reg <=? MB_RESP_ADDR + 0xff) then
    trunc REG_NAME_BUF (" MB_RESP[" +:+ dec (reg - MB_RESP_ADDR) +:+ "]")
  else " GLOBAL".

Definition pma_reg_name (mmd reg : Z) : string :=
  let side := if mmd =? LAN80XX_MMD_HOST_PMA then "HOST" else "LINE" in
  trunc REG_NAME_BUF
    (if reg =? 0xf0ff then " " +:+ side +:+ "_PMA8_CMU_FF(page)"
     else if Z.land reg 0xff00 =? 0xf000 then
       " " +:+ side +:+ "_PMA8_CMU_" +:+ HEX 2 (Z.land reg 0xff)
     else if Z.land reg 0xff00 =? 0xf100 then
       " " +:+ side +:+ "_PMA8_LANE_" +:+ HEX 2 (Z.land reg 0xff)
     else if reg =? 0x0001 then " " +:+ side +:+ "_PMA_STATUS1"
     else " " +:+ side +:+ "_PMA").

Definition reg_name (mmd reg val : Z) (write : bool) : string :=
  if mmd =? LAN80XX_MMD_GLOBAL then global_reg_name reg val write
  else if (mmd =? LAN80XX_MMD_HOST_PMA) || (mmd =? LAN80XX_MMD_LINE_PMA) then
    pma_reg_name mmd reg
  else if mmd =? LAN80XX_MMD_HOST_PCS then
    if reg =? LAN80XX_HOST_PCS25G_STATUS1 then " HOST_PCS_STATUS1"
    else if reg =? LAN80XX_HOST_PCS25G_BASER_STATUS1 then " HOST_BASER_STATUS1"
    else if reg =? LAN80XX_HOST_PCS25G_BASER_STATUS2 then " HOST_BASER_STATUS2(CoR)"
    else " HOST_PCS25G"
  else if mmd =? LAN80XX_MMD_MAC_LINE_PCS then
    if reg =? LAN80XX_LINE_PCS25G_STATUS1 then " LINE_PCS_STATUS1" else " LINE_PCS"
  else if mmd =? LAN80XX_MMD_LINE_KR then " AN"
  else "".

End Names.

Section LogRules.
Context {W : Type} {WW : World W} {WO : WorldOk W WW}.
Implicit Types (s : st W) (E : fault -> Prop).

(** A logging call: the clock moves on, only log events are added. *)
Definition logged s (Q : unit -> st W -> Prop) (g' : glob) : Prop :=
  forall w' o', w_time (st_w s) <= w_time w' -> Forall is_log_event o' ->
    Q tt (St g' w' (o' ++ st_out s)).

Lemma wp_trace_v E priority line Q s : logged s Q (st_g s) -> wp E (trace_v priority line) Q s.
Proof.
  intros H. unfold trace_v. wp_steps. apply wp_if; intros _; wp_steps.
  - apply wp_ask. intros w' [sec nsec] Hw. wp_steps.
    apply (H _ [EvTrace _]); [|by repeat constructor].
    pose proof (w_clock_reads (st_w s)) as Hc. rewrite Hw in Hc.
    destruct Hc as (_ & _ & <- & _). apply w_do_time.
  - destruct s as [g w o]. apply (H w []); [done|constructor].
Qed.

Lemma wp_log_debug E line Q s : logged s Q (st_g s) -> wp E (log_debug line) Q s.
Proof. apply wp_trace_v. Qed.

Lemma wp_log_msg E priority line Q s : logged s Q (st_g s) -> wp E (log_msg priority line) Q s.
Proof.
  intros H. unfold log_msg. wp_steps. apply wp_trace_v. intros w' o' Ht Ho. cbn [st_w st_g st_out] in *.
  replace (o' ++ _ :: st_out s) with ((o' ++ [EvSyslog priority line]) ++ st_out s)
    by by rewrite <-app_assoc.
  apply H.
  - etransitivity; [apply w_do_time|exact Ht].
  - apply Forall_app_2; [done|]. by repeat constructor.
Qed.

Lemma wp_warn_line E line Q s :
  logged s Q (set_g_cnt (set_n_warns (fun n => u64 (n + 1))) (st_g s)) -> wp E (warn_line line) Q s.
Proof. intros H. unfold warn_line. wp_steps. by apply wp_log_msg. Qed.

End LogRules.
