(* ===== verification/Spi.v ===== *)
(** * SPI transfers (the SPI core of lan80xx_spid.c)

    The 7-byte instruction frames, the two-ioctl pipelined read, and the
    interface [Backend] the rest of the daemon is written against: the
    hardware implementation here is one instance of it, the stub of the fuzz
    harness another. *)
From S2P Require Import Prelude Bytes Fmt Proto State Log.

Definition SPI_BYTES : nat := 7.
Definition SPI_PAD_MAX : Z := 15.
Definition SPI_BUF_MAX : nat := 22.
Definition SPI_WRITE_FLAG : Z := 0x80.
Definition SPI_ADDR_HI_MASK : Z := 0x7f.
Definition SPI_SLICE_SHIFT : Z := 21.
Definition SPI_MMD_SHIFT : Z := 16.

Definition spi_fill (write : bool) (addr val : Z) : list Z :=
  let head :=
    [ u8 (Z.lor (if write then SPI_WRITE_FLAG else 0)
                (Z.land (Z.shiftr addr 16) SPI_ADDR_HI_MASK));
      u8 (Z.shiftr addr 8);
      u8 addr ] in
  let data :=
    if write then [ u8 (Z.shiftr val 24); u8 (Z.shiftr val 16); u8 (Z.shiftr val 8); u8 val ]
    else replicate 4 0xff in
  head ++ data ++ replicate (SPI_BUF_MAX - SPI_BYTES) 0xff.

Definition spi_addr (slice mmd reg : Z) : Z :=
  u32 (Z.lor (Z.lor (Z.shiftl slice SPI_SLICE_SHIFT) (Z.shiftl mmd SPI_MMD_SHIFT)) reg).

(** What differs between the builds (SPIPROXY_FUZZ): write returns the C result,
    read also the new content of [*val], whose old content is an argument. *)
Class Backend (W : Type) := {
  spi_write_reg : Z -> Z -> Z -> Z -> D W Z;
  spi_read_reg : Z -> Z -> Z -> Z -> D W (Z * Z);
  gpio_pulse_reset : Z -> Z -> D W unit;
  MB_POLL_DELAY_US : Z }.

Definition is_spi_event (e : event) : Prop := match e with EvSpi _ => True | _ => False end.
Definition is_reset_event (e : event) : Prop :=
  match e with EvGpioSet _ _ | EvUsleep _ => True | _ => False end.

(** Counter changes of a read, a write and a failed transfer. *)
Definition count_read (g : glob) : glob := set_g_cnt (set_n_reads (fun n => u64 (n + 1))) g.
Definition count_write (g : glob) : glob := set_g_cnt (set_n_writes (fun n => u64 (n + 1))) g.
Definition count_io_err (g : glob) : glob := set_g_cnt (set_n_io_err (fun n => u64 (n + 1))) g.

Definition pad_ok (g : glob) : Prop := 0 <= cf_pad (g_cfg g) <= SPI_PAD_MAX.

(** Contract of a backend: with the padding in range it only counts, talks to
    the bus, and reads values of 32 bits; a failed read leaves the destination
    alone. *)
Class BackendOk (W : Type) (WW : World W) (BE : Backend W) : Prop := {
  spi_write_reg_ok slice mmd reg val (s : st W) (Q : Z -> st W -> Prop) :
    pad_ok (st_g s) ->
    (forall rc w' o', (rc = 0 \/ rc = -1) -> w_time (st_w s) <= w_time w' ->
       Forall is_spi_event o' ->
       Q rc (St (if rc =? 0 then count_write (st_g s) else count_io_err (st_g s)) w'
                (o' ++ st_out s))) ->
    wp (fun _ => False) (spi_write_reg slice mmd reg val) Q s;
  spi_read_reg_ok slice mmd reg old (s : st W) (Q : Z * Z -> st W -> Prop) :
    pad_ok (st_g s) ->
    (forall rc v w' o', (rc = 0 /\ is_u32 v) \/ (rc = -1 /\ v = old) ->
       w_time (st_w s) <= w_time w' -> Forall is_spi_event o' ->
       Q (rc, v) (St (if rc =? 0 then count_read (st_g s) else count_io_err (st_g s)) w'
                     (o' ++ st_out s))) ->
    wp (fun _ => False) (spi_read_reg slice mmd reg old) Q s;
  gpio_pulse_reset_ok a d (s : st W) (Q : unit -> st W -> Prop) :
    (forall w' o', w_time (st_w s) <= w_time w' -> Forall is_reset_event o' ->
       Q tt (St (st_g s) w' (o' ++ st_out s))) ->
    wp (fun _ => False) (gpio_pulse_reset a d) Q s }.

Section Hardware.
Context {W : Type} {WW : World W} {RG : Regs}.

(** One SPI_IOC_MESSAGE(1) of [len] bytes out of the transmit buffer; the
    kernel copies [len] bytes, which must lie inside the buffer. *)
Definition ioctl_spi (tx : list Z) (len : nat) : D W (Z * list Z) :=
  let* tx' := liftM (buf_read tx 0 len) in
  note (EvSpi tx') ;; ask (fun w => w_spi w tx').

Definition hw_spi_write_reg (slice mmd reg val : Z) : D W Z :=
  let tx := spi_fill true (spi_addr slice mmd reg) val in
  let* '(rc, _) := ioctl_spi tx SPI_BYTES in
  if rc <? 1 then setg count_io_err ;; returnM (-1)
  else setg count_write ;; returnM 0.

Definition hw_spi_read_reg (slice mmd reg old : Z) : D W (Z * Z) :=
  let* g := getg in
  let len := (SPI_BYTES + Z.to_nat (cf_pad (g_cfg g)))%nat in
  let tx0 := spi_fill false (spi_addr slice mmd reg) 0 in
  let tx1 := spi_fill false (spi_addr slice LAN80XX_MMD_GLOBAL
                               LAN80XX_MCU_IO_MNGT_MISC_DEVICE_ID_REG) 0 in
  let* '(rc0, _) := ioctl_spi tx0 len in
  if rc0 <? 0 then setg count_io_err ;; returnM (-1, old) else
  let* '(rc1, rx1) := ioctl_spi tx1 len in
  if rc1 <? 0 then setg count_io_err ;; returnM (-1, old) else
  let* b3 := liftM (buf_get rx1 3) in
  let* b4 := liftM (buf_get rx1 4) in
  let* b5 := liftM (buf_get rx1 5) in
  let* b6 := liftM (buf_get rx1 6) in
  setg count_read ;;
  returnM (0, Z.lor (Z.lor (Z.lor (u32 (Z.shiftl b3 24)) (Z.shiftl b4 16)) (Z.shiftl b5 8)) b6).

Definition gpio_set (fd value : Z) : D W unit :=
  emit (EvGpioSet fd (if value =? 0 then 0 else 1)).

Definition hw_gpio_pulse_reset (assert_us deassert_us : Z) : D W unit :=
  let* g := getg in
  gpio_set (cf_rst_fd (g_cfg g)) 1 ;;
  emit (EvUsleep assert_us) ;;
  gpio_set (cf_rst_fd (g_cfg g)) 0 ;;
  emit (EvUsleep deassert_us).

#[export] Instance hw_backend : Backend W :=
  {| spi_write_reg := hw_spi_write_reg; spi_read_reg := hw_spi_read_reg;
     gpio_pulse_reset := hw_gpio_pulse_reset; MB_POLL_DELAY_US := 1000 |}.

Lemma length_spi_fill write addr val : length (spi_fill write addr val) = SPI_BUF_MAX.
Proof. by destruct write. Qed.

Lemma wp_ioctl_spi E tx len Q (s : st W) :
  (len <= length tx)%nat ->
  (forall w' rc rx, w_spi (st_w s) (take len tx) = (w', (rc, rx)) ->
     Q (rc, rx) (St (st_g s) w' (EvSpi (take len tx) :: st_out s))) ->
  wp E (ioctl_spi tx len) Q s.
Proof.
  intros Hlen H. unfold ioctl_spi. wp_steps. apply rwp_buf_read; [done|].
  rewrite drop_0. wp_steps. apply wp_ask. cbn.
  intros w' [rc rx] Hw. by apply H.
Qed.

Lemma rx_value_u32 b3 b4 b5 b6 :
  is_u8 b3 -> is_u8 b4 -> is_u8 b5 -> is_u8 b6 ->
  is_u32 (Z.lor (Z.lor (Z.lor (u32 (Z.shiftl b3 24)) (Z.shiftl b4 16)) (Z.shiftl b5 8)) b6).
Proof.
  unfold is_u8. intros. repeat (apply (lor_bound _ _ 32); [lia| |]).
  - apply u32_range.
  - rewrite Z.shiftl_mul_pow2 by lia. lia.
  - rewrite Z.shiftl_mul_pow2 by lia. lia.
  - lia.
Qed.

Context {WO : WorldOk W WW}.

Lemma spi_rx_ok w tx w' rc rx :
  w_spi w tx = (w', (rc, rx)) -> length rx = 22%nat /\ bytes_ok rx.
Proof. intros H. pose proof (w_spi_rx w tx) as Hrx. by rewrite H in Hrx. Qed.

Lemma spi_time_ok w tx w' x : w_spi w tx = (w', x) -> w_time w <= w_time w'.
Proof. intros H. pose proof (w_spi_time w tx) as Ht. by rewrite H in Ht. Qed.

Lemma hw_write_ok slice mmd reg val (s : st W) (Q : Z -> st W -> Prop) :
  (forall rc w' o', (rc = 0 \/ rc = -1) -> w_time (st_w s) <= w_time w' -> Forall is_spi_event o' ->
     Q rc (St (if rc =? 0 then count_write (st_g s) else count_io_err (st_g s)) w'
              (o' ++ st_out s))) ->
  wp (fun _ => False) (hw_spi_write_reg slice mmd reg val) Q s.
Proof.
  intros H. unfold hw_spi_write_reg. wp_steps.
  apply wp_ioctl_spi; [rewrite length_spi_fill; unfold SPI_BYTES, SPI_BUF_MAX; lia|].
  intros w' rc rx Ht%spi_time_ok. apply wp_if; intros _; wp_steps.
  - apply (H (-1) w' [EvSpi _]); [lia|done|by repeat constructor].
  - apply (H 0 w' [EvSpi _]); [lia|done|by repeat constructor].
Qed.

Lemma hw_read_ok slice mmd reg old (s : st W) (Q : Z * Z -> st W -> Prop) :
  pad_ok (st_g s) ->
  (forall rc v w' o', (rc = 0 /\ is_u32 v) \/ (rc = -1 /\ v = old) ->
     w_time (st_w s) <= w_time w' -> Forall is_spi_event o' ->
     Q (rc, v) (St (if rc =? 0 then count_read (st_g s) else count_io_err (st_g s)) w'
                   (o' ++ st_out s))) ->
  wp (fun _ => False) (hw_spi_read_reg slice mmd reg old) Q s.
Proof.
  intros Hpad H. unfold hw_spi_read_reg, pad_ok, SPI_PAD_MAX in *. wp_steps.
  apply wp_ioctl_spi; [rewrite length_spi_fill; unfold SPI_BYTES, SPI_BUF_MAX; lia|].
  intros w0 rc0 rx0 Ht0%spi_time_ok. apply wp_if; intros _; wp_steps.
  { apply (H (-1) old w0 [EvSpi _]); [auto|done|by repeat constructor]. }
  apply wp_ioctl_spi; [rewrite length_spi_fill; unfold SPI_BYTES, SPI_BUF_MAX; lia|].
  intros w1 rc1 rx1 Hrx. pose proof (spi_time_ok _ _ _ _ Hrx) as Ht1. cbn [st_w] in Ht0, Ht1.
  apply wp_if; intros _; wp_steps.
  { apply (H (-1) old w1 [EvSpi _; EvSpi _]); [auto|lia|by repeat constructor]. }
  destruct (spi_rx_ok _ _ _ _ _ Hrx) as [Hl Hb].
  destruct rx1 as [|? [|? [|? [|b3 [|b4 [|b5 [|b6 rx1]]]]]]]; try done.
  assert (is_u8 b3 /\ is_u8 b4 /\ is_u8 b5 /\ is_u8 b6) as (? & ? & ? & ?).
  { unfold bytes_ok in Hb. rewrite !Forall_cons in Hb. tauto. }
  do 4 (eapply rwp_buf_get; [reflexivity|]; wp_steps).
  apply (H 0 _ w1 [EvSpi _; EvSpi _]); [left|lia|by repeat constructor].
  split; [done|by apply rx_value_u32].
Qed.

#[export] Instance hw_backend_ok : BackendOk W WW hw_backend.
Proof.
  split.
  - intros slice mmd reg val s Q _. apply hw_write_ok.
  - intros slice mmd reg old s Q. apply hw_read_ok.
  - intros a d s Q H. cbn [gpio_pulse_reset hw_backend]. unfold hw_gpio_pulse_reset, gpio_set.
    wp_steps. apply (H _ [_; _; _; _]); [|by repeat constructor].
    repeat (etransitivity; [|apply w_do_time]). done.
Qed.

End Hardware.

(** ** The frame as the chip decodes it *)

Record frame := Frame {
  fr_write : bool; fr_slice : Z; fr_mmd : Z; fr_reg : Z; fr_data : Z }.

(** Byte 0: write flag, two slice bits, five MMD bits; then the 16-bit register
    and the 32-bit data window, most significant byte first. *)
Definition frame_decode (tx : list Z) : option frame :=
  match tx with
  | b0 :: b1 :: b2 :: d3 :: d4 :: d5 :: d6 :: _ =>
      Some (Frame (Z.testbit b0 7) (Z.land (Z.shiftr b0 5) 3) (Z.land b0 31)
                  (b1 * 256 + b2) (d3 * 2 ^ 24 + d4 * 2 ^ 16 + d5 * 2 ^ 8 + d6))
  | _ => None
  end.

(** A chip with delayed reads: the data window of a transfer carries the answer
    to the previous request; a read request latches the register. *)
Class PipelinedChip (W : Type) (WW : World W) := {
  chip_reg : W -> Z -> Z -> Z -> Z;
  chip_storage : Z -> Z -> Z -> bool;     (* registers that keep what is written *)
  chip_latch : W -> Z;
  chip_latch_u32 w : is_u32 (chip_latch w);
  chip_transfer w tx f :
    bytes_ok tx -> frame_decode tx = Some f ->
    exists w' rc b0 b1 b2 rest,
      w_spi w tx =
        (w', (rc, b0 :: b1 :: b2 :: u8 (Z.shiftr (chip_latch w) 24) ::
                  u8 (Z.shiftr (chip_latch w) 16) :: u8 (Z.shiftr (chip_latch w) 8) ::
                  u8 (chip_latch w) :: rest)) /\ 1 <= rc /\
      (if fr_write f
       then chip_storage (fr_slice f) (fr_mmd f) (fr_reg f) = true ->
            chip_reg w' (fr_slice f) (fr_mmd f) (fr_reg f) = fr_data f
       else chip_latch w' = chip_reg w (fr_slice f) (fr_mmd f) (fr_reg f)) }.

Lemma spi_fill_ok write addr val len : bytes_ok (take len (spi_fill write addr val)).
Proof.
  apply bytes_ok_take. destruct write; repeat (constructor; [apply u8_range || (unfold is_u8; lia)|]);
    constructor.
Qed.

Lemma u8_mod z : u8 z = z mod 256.
Proof. done. Qed.

(** For in-range fields the address is the sum of its parts. *)
Lemma spi_addr_sum slice mmd reg :
  0 <= slice < 4 -> 0 <= mmd < 32 -> is_u16 reg ->
  spi_addr slice mmd reg = slice * 2 ^ 21 + mmd * 2 ^ 16 + reg.
Proof.
  unfold is_u16. intros Hs Hm Hr. unfold spi_addr, SPI_SLICE_SHIFT, SPI_MMD_SHIFT.
  rewrite <-Z.lor_assoc, (lor_shiftl_add reg mmd 16) by lia.
  rewrite (lor_shiftl_add _ slice 21) by lia. rewrite u32_id; unfold is_u32; lia.
Qed.

Lemma spi_head_byte (write : bool) hi :
  0 <= hi < 128 ->
  u8 (Z.lor (if write then SPI_WRITE_FLAG else 0) (Z.land hi SPI_ADDR_HI_MASK)) =
  (if write then 128 else 0) + hi.
Proof.
  intros H. change SPI_ADDR_HI_MASK with (Z.ones 7). rewrite Z.land_ones, Z.mod_small by lia.
  destruct write; [|rewrite Z.lor_0_l; apply u8_id; unfold is_u8; lia].
  change SPI_WRITE_FLAG with (Z.shiftl 1 7). rewrite lor_shiftl_add by lia.
  apply u8_id; unfold is_u8; lia.
Qed.

(** The chip recovers from the first seven bytes exactly what was sent. *)
Lemma spi_fill_decode write slice mmd reg val len :
  0 <= slice < 4 -> 0 <= mmd < 32 -> is_u16 reg -> is_u32 val -> (SPI_BYTES <= len)%nat ->
  frame_decode (take len (spi_fill write (spi_addr slice mmd reg) val)) =
  Some (Frame write slice mmd reg (if write then val else 0xffffffff)).
Proof.
  unfold is_u16, is_u32. intros Hs Hm Hr Hv Hlen. unfold spi_fill, SPI_BYTES in *.
  rewrite spi_addr_sum by (unfold is_u16; lia).
  rewrite !Z.shiftr_div_pow2 by lia.
  replace ((slice * 2 ^ 21 + mmd * 2 ^ 16 + reg) / 2 ^ 16) with (slice * 32 + mmd) by dlia.
  rewrite spi_head_byte by lia. rewrite !u8_mod.
  do 7 (destruct len as [|len]; [lia|]). clear Hlen.
  assert (Z.testbit ((if write then 128 else 0) + (slice * 32 + mmd)) 7 = write) as Ht.
  { rewrite Z.testbit_odd, Z.shiftr_div_pow2 by lia. destruct write.
    - replace ((128 + (slice * 32 + mmd)) / 2 ^ 7) with 1 by dlia. done.
    - by rewrite Z.div_small by lia. }
  destruct write; cbn [app take replicate frame_decode]; rewrite Ht;
    do 2 f_equal; change 31 with (Z.ones 5); change 3 with (Z.ones 2);
    rewrite ?Z.land_ones, ?Z.shiftr_div_pow2 by lia; dlia.
Qed.

Section PipelinedReads.
Context {W : Type} {WW : World W} {RG : Regs} {RO : RegsOk RG} {CH : PipelinedChip W WW}.

Lemma rx_reassemble v :
  is_u32 v ->
  Z.lor (Z.lor (Z.lor (u32 (Z.shiftl (u8 (Z.shiftr v 24)) 24)) (Z.shiftl (u8 (Z.shiftr v 16)) 16))
           (Z.shiftl (u8 (Z.shiftr v 8)) 8)) (u8 v) = v.
Proof.
  unfold is_u32. intros Hv. rewrite !u8_mod, !Z.shiftr_div_pow2 by lia.
  rewrite u32_id by (unfold is_u32; rewrite Z.shiftl_mul_pow2 by lia; dlia).
  rewrite <-!Z.lor_assoc.
  rewrite (lor_shiftl_add (v mod 256) _ 8) by dlia.
  rewrite (lor_shiftl_add _ _ 16) by dlia. rewrite (lor_shiftl_add _ _ 24) by dlia. dlia.
Qed.

(** The frames of a write and of a read, in the order they are sent. *)
Definition write_frame (slice mmd reg val : Z) : list Z :=
  take SPI_BYTES (spi_fill true (spi_addr slice mmd reg) val).
Definition read_frames (pad slice mmd reg : Z) : list (list Z) :=
  let len := (SPI_BYTES + Z.to_nat pad)%nat in
  [ take len (spi_fill false (spi_addr slice mmd reg) 0);
    take len (spi_fill false (spi_addr slice LAN80XX_MMD_GLOBAL
                                LAN80XX_MCU_IO_MNGT_MISC_DEVICE_ID_REG) 0) ].

(** The bus traffic as events, newest first. *)
Definition on_bus (frames : list (list Z)) (out : list event) : list event :=
  rev (EvSpi <$> frames) ++ out.

(** The bytes the chip answers with reach the caller as one value. *)
Lemma hw_read_latched slice mmd reg old (s : st W) :
  0 <= slice < 4 -> 0 <= mmd < 32 -> is_u16 reg -> pad_ok (st_g s) ->
  exists w',
    hw_spi_read_reg slice mmd reg old s =
    Ok ((0, chip_reg (st_w s) slice mmd reg),
        St (count_read (st_g s)) w'
           (on_bus (read_frames (cf_pad (g_cfg (st_g s))) slice mmd reg) (st_out s))).
Proof.
  intros Hs Hm Hr Hpad. unfold pad_ok, SPI_PAD_MAX in Hpad.
  set (len := (SPI_BYTES + Z.to_nat (cf_pad (g_cfg (st_g s))))%nat).
  assert (len <= SPI_BUF_MAX)%nat as Hlen by (unfold len, SPI_BYTES, SPI_BUF_MAX; lia).
  destruct (chip_transfer (st_w s) _ _ (spi_fill_ok _ _ _ _) (spi_fill_decode false slice mmd reg 0 len Hs Hm Hr
    ltac:(unfold is_u32; lia) ltac:(unfold len; lia)))
    as (w0 & rc0 & a0 & a1 & a2 & ar & Hx0 & Hrc0 & Hlatch). cbn in Hlatch.
  destruct (chip_transfer w0 _ _ (spi_fill_ok _ _ _ _) (spi_fill_decode false slice LAN80XX_MMD_GLOBAL
    LAN80XX_MCU_IO_MNGT_MISC_DEVICE_ID_REG 0 len Hs ltac:(unfold LAN80XX_MMD_GLOBAL; lia)
    device_id_reg_u16 ltac:(unfold is_u32; lia) ltac:(unfold len; lia)))
    as (w1 & rc1 & c0 & c1 & c2 & cr & Hx1 & Hrc1 & _).
  enough (wp (fun _ => False) (hw_spi_read_reg slice mmd reg old)
    (fun r s' => r = (0, chip_reg (st_w s) slice mmd reg) /\ exists w',
       s' = St (count_read (st_g s)) w'
              (on_bus (read_frames (cf_pad (g_cfg (st_g s))) slice mmd reg) (st_out s))) s) as Hwp.
  { unfold wp in Hwp. destruct (hw_spi_read_reg slice mmd reg old s) as [[r s']|]; [|done].
    destruct Hwp as (-> & w' & ->). eauto. }
  unfold hw_spi_read_reg. wp_steps. fold len.
  apply wp_ioctl_spi; [by rewrite length_spi_fill|]. intros w' rc rx Hx. cbn [st_w] in Hx.
  rewrite Hx0 in Hx. simplify_eq. apply wp_if; [lia|]; intros _. wp_steps.
  apply wp_ioctl_spi; [by rewrite length_spi_fill|]. intros wb rcb rxb Hx. cbn [st_w] in Hx.
  rewrite Hx1 in Hx. simplify_eq. apply wp_if; [lia|]; intros _. wp_steps.
  do 4 (eapply rwp_buf_get; [reflexivity|]; wp_steps).
  rewrite rx_reassemble by apply chip_latch_u32. rewrite Hlatch. split; [done|]. by eexists.
Qed.

Lemma hw_write_stored slice mmd reg val (s : st W) :
  0 <= slice < 4 -> 0 <= mmd < 32 -> is_u16 reg -> is_u32 val ->
  exists w',
    hw_spi_write_reg slice mmd reg val s =
      Ok (0, St (count_write (st_g s)) w' (on_bus [write_frame slice mmd reg val] (st_out s))) /\
    (chip_storage slice mmd reg = true -> chip_reg w' slice mmd reg = val).
Proof.
  intros Hs Hm Hr Hv.
  destruct (chip_transfer (st_w s) _ _ (spi_fill_ok _ _ _ _) (spi_fill_decode true slice mmd reg val SPI_BYTES Hs Hm Hr
    Hv (le_n _))) as (w0 & rc0 & a0 & a1 & a2 & ar & Hx0 & Hrc0 & Hst). cbn in Hst.
  enough (wp (fun _ => False) (hw_spi_write_reg slice mmd reg val)
    (fun r s' => r = 0 /\ s' = St (count_write (st_g s)) w0
      (on_bus [write_frame slice mmd reg val] (st_out s))) s) as Hwp.
  { unfold wp in Hwp. destruct (hw_spi_write_reg slice mmd reg val s) as [[r s']|]; [|done].
    destruct Hwp as (-> & ->). eauto. }
  unfold hw_spi_write_reg. wp_steps.
  apply wp_ioctl_spi; [rewrite length_spi_fill; unfold SPI_BYTES, SPI_BUF_MAX; lia|].
  intros w' rc rx Hx. rewrite Hx0 in Hx. simplify_eq.
  apply wp_if; [lia|]; intros _. wp_steps. by split.
Qed.

(** on a chip with the documented delayed reads, the two-transfer read
    returns the value the addressed register had when the read started, for
    every slice, MMD and register, sends the addressed frame and then a harmless
    read of DEVICE_ID, and counts one read. *)
Theorem spi_read_returns_register slice mmd reg old (s : st W) :
  0 <= slice < 4 -> 0 <= mmd < 32 -> is_u16 reg -> pad_ok (st_g s) ->
  exists w',
    hw_spi_read_reg slice mmd reg old s =
    Ok ((0, chip_reg (st_w s) slice mmd reg),
        St (count_read (st_g s)) w'
           (on_bus (read_frames (cf_pad (g_cfg (st_g s))) slice mmd reg) (st_out s))).
Proof. apply hw_read_latched. Qed.

(** a register write followed by a read of the same register returns the
    written value. *)
Theorem spi_write_then_read slice mmd reg val old (s : st W) :
  0 <= slice < 4 -> 0 <= mmd < 32 -> is_u16 reg -> is_u32 val -> pad_ok (st_g s) ->
  chip_storage slice mmd reg = true ->
  exists s',
    (hw_spi_write_reg slice mmd reg val ;; hw_spi_read_reg slice mmd reg old) s =
    Ok ((0, val), s').
Proof.
  intros Hs Hm Hr Hv Hpad Hplain.
  destruct (hw_write_stored slice mmd reg val s) as (w' & Hw & Hreg); [done..|].
  destruct (hw_read_latched slice mmd reg old (St (count_write (st_g s)) w'
    (on_bus [write_frame slice mmd reg val] (st_out s)))) as (w'' & Hread); [done..|].
  cbn [st_w] in Hread. rewrite Hreg in Hread by done. unfold bindM. rewrite Hw, Hread. eauto.
Qed.

End PipelinedReads.

(** for in-range fields the chip decodes from a frame exactly the direction,
    slice, MMD, register and data the daemon was asked to transfer. *)
Theorem spi_frame_roundtrip write slice mmd reg val :
  0 <= slice < 4 -> 0 <= mmd < 32 -> is_u16 reg -> is_u32 val ->
  frame_decode (take SPI_BYTES (spi_fill write (spi_addr slice mmd reg) val)) =
  Some (Frame write slice mmd reg (if write then val else 0xffffffff)).
Proof. intros. by apply spi_fill_decode. Qed.

Lemma spi_frame_roundtrip_witness :
  frame_decode (take SPI_BYTES (spi_fill true (spi_addr 2 0x1e 0xd800) 0xdeadbeef)) =
  Some (Frame true 2 0x1e 0xd800 0xdeadbeef).
Proof. apply (spi_frame_roundtrip true 2 0x1e 0xd800 0xdeadbeef); unfold is_u16, is_u32; lia. Defined.

(** The top MMD bit falls off the frame. *)
Lemma spi_fill_mmd_alias write slice mmd reg val :
  0 <= slice < 4 -> 0 <= mmd < 128 -> is_u16 reg ->
  spi_fill write (spi_addr slice (mmd + 128) reg) val = spi_fill write (spi_addr slice mmd reg) val.
Proof.
  unfold is_u16. intros Hs Hm Hr.
  set (x := Z.lor (Z.lor (Z.shiftl slice 21) (Z.shiftl mmd 16)) reg).
  assert (0 <= x < 2 ^ 23) as Hx.
  { unfold x. repeat (apply (lor_bound _ _ 23); [lia| |]);
      rewrite ?Z.shiftl_mul_pow2 by lia; lia. }
  assert (spi_addr slice mmd reg = x) as -> by (apply u32_id; unfold is_u32; lia).
  assert (spi_addr slice (mmd + 128) reg = 2 ^ 23 + x) as ->.
  { unfold spi_addr, SPI_SLICE_SHIFT, SPI_MMD_SHIFT.
    assert (mmd + 128 = Z.lor (Z.shiftl 1 7) mmd) as ->
      by (rewrite lor_shiftl_add by lia; lia).
    rewrite Z.shiftl_lor, Z.shiftl_shiftl by lia.
    rewrite (Z.lor_comm (Z.shiftl slice 21)), <-(Z.lor_assoc (Z.shiftl 1 _)), <-Z.lor_assoc.
    rewrite (Z.lor_comm (Z.shiftl mmd 16)). fold x. rewrite lor_shiftl_add by done.
    apply u32_id. unfold is_u32. lia. }
  unfold spi_fill. change SPI_ADDR_HI_MASK with (Z.ones 7).
  rewrite !Z.land_ones, !Z.shiftr_div_pow2 by lia.
  replace ((2 ^ 23 + x) / 2 ^ 16 mod 2 ^ 7) with (x / 2 ^ 16 mod 2 ^ 7) by dlia.
  replace (u8 ((2 ^ 23 + x) / 2 ^ 8)) with (u8 (x / 2 ^ 8)) by (rewrite !u8_mod; dlia).
  replace (u8 (2 ^ 23 + x)) with (u8 x) by (rewrite !u8_mod; dlia). done.
Qed.
