(* ===== verification/Exec.v ===== *)
(** * Register operations: op log, lint and exec_op

    [trace_add], [lint_op], [exec_op] and the mailbox accessors [mb_rd] and
    [mb_wr] of lan80xx_spid.c, written against the [Backend] interface. *)
From S2P Require Import Prelude Bytes Fmt Proto State Log Spi.

Definition LINT_COR_WINDOW_US : Z := 120 * USEC_PER_SEC.
Definition LINT_RMW_WINDOW_US : Z := 10 * 1000.

Section Exec.
Context {W : Type} {WW : World W} {RG : Regs} {BE : Backend W}.

(** ** Op-log ring *)

Definition trace_add (c : option nat) (o : op) : D W unit :=
  let* g := getg in
  let idx := Z.to_nat (g_ring_w g mod Z.of_nat TRACE_RING) in
  setg (set_g_ring_w (fun w => u32 (w + 1))) ;;
  let* ts := now_us in
  let* cid := match c with
              | Some i => let* cl := get_client i in returnM (c_id cl)
              | None => returnM 0
              end in
  let* ring := liftM (arr_set (g_ring g) idx
    (TraceEnt ts cid (op_slice o) (op_write o) (op_mmd o) (op_reg o) (op_val o))) in
  setg (set_g_ring (fun _ => ring)).

(** ** Lint *)

(** [op->write] used as a truth value. *)
Definition is_write (o : op) : bool := negb (op_write o =? 0).
Definition dir_char (o : op) : string := if is_write o then "W" else "R".

Definition page_owner_store (slice side : nat) (x : owner) : D W unit :=
  let* g := getg in
  let* row := liftM (arr_get (page_owner (g_lint g)) slice) in
  let* row' := liftM (arr_set row side x) in
  setg (set_g_lint (set_page_owner (fun t => <[slice := row']> t))).

(** page-ride: access to the paged space on a page set by someone else. *)
Definition lint_page (o : op) : D W unit :=
  let side := if op_mmd o =? LAN80XX_MMD_HOST_PMA then Some 0%nat
              else if op_mmd o =? LAN80XX_MMD_LINE_PMA then Some 1%nat else None in
  match side with
  | None => returnM tt
  | Some side =>
      if Z.land (op_reg o) 0xfe00 =? 0xf000 then
        let slice := Z.to_nat (op_slice o) in
        let* g := getg in
        let cid := lx_cid (g_lctx g) in
        if (op_reg o =? 0xf0ff) && is_write o then
          let* comm := lctx_comm in
          page_owner_store slice side (Owner cid (trunc COMM_PATH_MAX comm))
        else
          let* row := liftM (arr_get (page_owner (g_lint g)) slice) in
          let* own := liftM (arr_get row side) in
          if negb (ow_cid own =? 0) && negb (ow_cid own =? cid) then
            let* comm := lctx_comm in
            warn_line ("page-ride: C" +:+ dec cid +:+ "(" +:+ comm +:+ ") " +:+ dir_char o +:+
              " s" +:+ dec (op_slice o) +:+ " " +:+ hex 2 (op_mmd o) +:+ " " +:+
              hex 4 (op_reg o) +:+ " on page set by C" +:+ dec (ow_cid own) +:+ "(" +:+
              ow_comm own +:+ ")")
          else returnM tt
      else returnM tt
  end.

(** cor-poach: clear-on-read counter read soon after another client read it. *)
Definition lint_cor (now : Z) (o : op) : D W unit :=
  if negb (is_write o) && (op_reg o =? LAN80XX_HOST_PCS25G_BASER_STATUS2) &&
     ((op_mmd o =? LAN80XX_MMD_HOST_PCS) || (op_mmd o =? LAN80XX_MMD_MAC_LINE_PCS)) then
    let k := if op_mmd o =? LAN80XX_MMD_HOST_PCS then 0%nat else 1%nat in
    let* g := getg in
    let cid := lx_cid (g_lctx g) in
    let* last := liftM (arr_get (cor_last (g_lint g)) k) in
    let* comm := lctx_comm in
    whenM (negb (co_cid last =? 0) && negb (co_cid last =? cid) &&
           (u64 (now - co_ts last) <? LINT_COR_WINDOW_US))
      (warn_line ("cor-poach: C" +:+ dec cid +:+ "(" +:+ comm +:+ ") R s" +:+
         dec (op_slice o) +:+ " " +:+ hex 2 (op_mmd o) +:+ " 0021 " +:+
         dec (u64 (now - co_ts last) / USEC_PER_SEC) +:+ "s after C" +:+ dec (co_cid last) +:+
         "(" +:+ co_comm last +:+ ") (counters consumed)")) ;;
    setg (set_g_lint (set_cor_last (fun t => <[k := Cor cid (trunc COMM_PATH_MAX comm) now]> t)))
  else returnM tt.

(** The entry of the read ring a write races with, if any. *)
Definition rmw_hit (cid now : Z) (o : op) (e : rd_ent) : bool :=
  negb (rd_cid e =? 0) && negb (rd_cid e =? cid) && (rd_slice e =? op_slice o) &&
  (rd_mmd e =? op_mmd o) && (rd_reg e =? op_reg o) &&
  (u64 (now - rd_ts e) <? LINT_RMW_WINDOW_US).

(** The scan of the ring, from index [i] on; it stops at the first hit. *)
Fixpoint rmw_scan (n : nat) (i : nat) (now : Z) (o : op) : D W unit :=
  match n with
  | O => returnM tt
  | S n' =>
      let* g := getg in
      let cid := lx_cid (g_lctx g) in
      let* e := liftM (arr_get (rd_ring (g_lint g)) i) in
      if rmw_hit cid now o e then
        let* comm := lctx_comm in
        warn_line ("rmw-race: C" +:+ dec cid +:+ "(" +:+ comm +:+ ") W s" +:+ dec (op_slice o) +:+
          " " +:+ hex 2 (op_mmd o) +:+ " " +:+ hex 4 (op_reg o) +:+ " " +:+
          dec (u64 (now - rd_ts e) / 1000) +:+ "ms after R by C" +:+ dec (rd_cid e) +:+ "(" +:+
          rd_comm e +:+ ")") ;;
        setg (set_g_lint (set_rd_ring (fun t => <[i := set_rd_cid (fun _ => 0) e]> t)))
      else rmw_scan n' (S i) now o
  end.

(** rmw-race: write to a register recently read by someone else; a read is
    remembered. *)
Definition lint_rmw (now : Z) (o : op) : D W unit :=
  if is_write o then rmw_scan RD_RING_COUNT 0 now o
  else
    let* g := getg in
    let w := Z.to_nat (rd_w (g_lint g) mod Z.of_nat RD_RING_COUNT) in
    setg (set_g_lint (set_rd_w (fun n => u32 (n + 1)))) ;;
    let* comm := lctx_comm in
    let* ring := liftM (arr_set (rd_ring (g_lint g)) w
      (RdEnt (op_slice o) (op_mmd o) (op_reg o) (lx_cid (g_lctx g))
             (trunc COMM_PATH_MAX comm) now)) in
    setg (set_g_lint (set_rd_ring (fun _ => ring))).

Definition lint_op (o : op) : D W unit :=
  let* now := now_us in
  lint_page o ;; lint_cor now o ;; lint_rmw now o.

(** ** One register operation *)

(** The mailbox region that is guarded while a transaction is in flight. *)
Definition in_mb_guard (o : op) : bool :=
  (op_mmd o =? LAN80XX_MMD_GLOBAL) && (MB_GUARD_LO <=? op_reg o) && (op_reg o <=? MB_GUARD_HI).

(** The bus transfer: the C result and the operation with its new value. *)
Definition op_transfer (o : op) : D W (Z * op) :=
  if is_write o then
    let* rc := spi_write_reg (op_slice o) (op_mmd o) (op_reg o) (op_val o) in
    returnM (rc, o)
  else
    let* '(rc, v) := spi_read_reg (op_slice o) (op_mmd o) (op_reg o) (op_val o) in
    returnM (rc, op_set_val v o).

(** The event-log line of an operation. *)
Definition op_log (o : op) (rc : Z) : D W unit :=
  let* g := getg in
  whenM (cf_log (g_cfg g))
    (let* comm := lctx_comm in
     let lx := g_lctx g in
     let tagged := negb (bool_decide (lx_tag lx = ""%string)) in
     log_debug ("C" +:+ dec (lx_cid lx) +:+ "(" +:+ comm +:+ ") seq=" +:+ dec (lx_seq lx) +:+
       " OP" +:+ (if tagged then " " else "") +:+ lx_tag lx +:+ " " +:+ dir_char o +:+
       " s" +:+ dec (op_slice o) +:+ " " +:+ hex 2 (op_mmd o) +:+ " " +:+ hex 4 (op_reg o) +:+
       " = " +:+ hex 8 (op_val o) +:+ reg_name (op_mmd o) (op_reg o) (op_val o) (is_write o) +:+
       (if rc =? 0 then "" else " IO-ERR"))).

Definition exec_op (c : option nat) (o : op) : D W (spiproxy_status * op) :=
  if SLICE_COUNT <=? op_slice o then returnM (SPIPROXY_EINVAL, o) else
  let* g := getg in
  if g_mb_inflight g && in_mb_guard o && bool_decide (is_Some c)
  then returnM (SPIPROXY_EBUSY, o) else
  let* '(rc, o') := op_transfer o in
  trace_add c o' ;;
  whenM (rc =? 0) (lint_op o') ;;
  op_log o' rc ;;
  returnM (if rc =? 0 then SPIPROXY_OK else SPIPROXY_EIO, o').

(** ** Mailbox-internal accesses *)

Definition mb_log (dir : string) (write : bool) (slice reg val rc : Z) : D W unit :=
  let* g := getg in
  whenM (cf_log (g_cfg g))
    (let* comm := lctx_comm in
     let lx := g_lctx g in
     log_debug ("C" +:+ dec (lx_cid lx) +:+ "(" +:+ comm +:+ ") seq=" +:+ dec (lx_seq lx) +:+
       " OP mb " +:+ dir +:+ " s" +:+ dec slice +:+ " " +:+ hex 2 LAN80XX_MMD_GLOBAL +:+ " " +:+
       hex 4 reg +:+ " = " +:+ hex 8 val +:+ reg_name LAN80XX_MMD_GLOBAL reg val write +:+
       (if rc =? 0 then "" else " IO-ERR"))).

Definition mb_rd (slice reg old : Z) : D W (Z * Z) :=
  let* '(rc, v) := spi_read_reg slice LAN80XX_MMD_GLOBAL reg old in
  mb_log "R" false slice reg v rc ;;
  returnM (rc, v).

Definition mb_wr (slice reg val : Z) : D W Z :=
  let* rc := spi_write_reg slice LAN80XX_MMD_GLOBAL reg val in
  mb_log "W" true slice reg val rc ;;
  returnM rc.

End Exec.

(** ** Well-formedness of the diagnostics state *)

Definition te_ok (e : trace_ent) : Prop :=
  is_u64 (te_ts e) /\ is_u32 (te_cid e) /\ 0 <= te_slice e < SLICE_COUNT /\
  is_u8 (te_write e) /\ is_u8 (te_mmd e) /\ is_u16 (te_reg e) /\ is_u32 (te_val e).

Definition cnt_ok (c : counters) : Prop :=
  is_u64 (n_reads c) /\ is_u64 (n_writes c) /\ is_u64 (n_io_err c) /\ is_u64 (n_warns c).

Definition lint_ok (l : lint_state) : Prop :=
  length (page_owner l) = Z.to_nat SLICE_COUNT /\
  Forall (fun row => length row = SIDE_COUNT) (page_owner l) /\
  length (cor_last l) = SIDE_COUNT /\ length (rd_ring l) = RD_RING_COUNT /\ is_u32 (rd_w l).

Definition diag_ok (g : glob) : Prop :=
  length (g_ring g) = TRACE_RING /\ Forall te_ok (g_ring g) /\ is_u32 (g_ring_w g) /\
  cnt_ok (g_cnt g) /\ lint_ok (g_lint g).

Definition client_ok (c : client) : Prop :=
  is_u32 (c_id c) /\ - 2 ^ 31 <= c_pid c < 2 ^ 31 /\
  (String.length (c_comm c) < COMM_PATH_MAX)%nat /\
  is_u64 (c_n_ops c) /\ is_u64 (c_n_msgs c) /\ is_u64 (c_n_err c).

Definition cl_ok (g : glob) : Prop :=
  length (g_cl g) = MAX_CLIENTS /\ Forall client_ok (g_cl g).

(** The log context points to a name. *)
Definition lctx_ok (g : glob) : Prop :=
  match lx_comm (g_lctx g) with
  | CommNull => False
  | CommClient i => (i < MAX_CLIENTS)%nat
  | CommLit _ => True
  end.

Definition ctx_ok (g : glob) : Prop := diag_ok g /\ cl_ok g /\ lctx_ok g /\ pad_ok g.

(** Everything a register operation leaves alone. *)
Definition exec_same (g g' : glob) : Prop :=
  g_cfg g' = g_cfg g /\ g_cl g' = g_cl g /\ g_next_cid g' = g_next_cid g /\
  g_qs g' = g_qs g /\ g_claim g' = g_claim g /\ g_mb_inflight g' = g_mb_inflight g /\
  g_lctx g' = g_lctx g /\ g_stop g' = g_stop g.

Definition op_event (e : event) : Prop := is_spi_event e \/ is_log_event e.

(** A step that only touches the diagnostics, the bus and the logs. *)
Definition qstep {W} {WW : World W} (s s' : st W) : Prop :=
  exec_same (st_g s) (st_g s') /\ diag_ok (st_g s') /\ w_time (st_w s) <= w_time (st_w s') /\
  exists ev, st_out s' = ev ++ st_out s /\ Forall op_event ev.

Definition quiet {W A} {WW : World W} (m : D W A) : Prop :=
  forall E s, ctx_ok (st_g s) -> wp E m (fun _ s' => qstep s s') s.

(** Updates of one part keep the others. *)
Lemma diag_set_cnt f g :
  diag_ok g -> (cnt_ok (g_cnt g) -> cnt_ok (f (g_cnt g))) -> diag_ok (set_g_cnt f g).
Proof. intros (? & ? & ? & ? & ?) Hf. split_and!; auto. Qed.

Lemma diag_set_lint f g :
  diag_ok g -> (lint_ok (g_lint g) -> lint_ok (f (g_lint g))) -> diag_ok (set_g_lint f g).
Proof. intros (? & ? & ? & ? & ?) Hf. split_and!; auto. Qed.

Lemma cnt_ok_bump c :
  cnt_ok c ->
  cnt_ok (set_n_reads (fun n => u64 (n + 1)) c) /\ cnt_ok (set_n_writes (fun n => u64 (n + 1)) c) /\
  cnt_ok (set_n_io_err (fun n => u64 (n + 1)) c) /\ cnt_ok (set_n_warns (fun n => u64 (n + 1)) c).
Proof. intros (? & ? & ? & ?). split_and!; (split_and!; cbn; auto with spid). Qed.

Lemma exec_same_refl g : exec_same g g.
Proof. done. Qed.

Lemma exec_same_trans g1 g2 g3 : exec_same g1 g2 -> exec_same g2 g3 -> exec_same g1 g3.
Proof. unfold exec_same. intuition congruence. Qed.

Lemma exec_same_ctx g g' : exec_same g g' -> ctx_ok g -> diag_ok g' -> ctx_ok g'.
Proof.
  intros (Hcfg & Hcl & _ & _ & _ & _ & Hlx & _) (_ & Hc & Hl & Hp) Hd.
  unfold ctx_ok, cl_ok, lctx_ok, pad_ok. by rewrite Hcfg, Hcl, Hlx.
Qed.

Section QuietRules.
Context {W : Type} {WW : World W} {WO : WorldOk W WW}.

Lemma qstep_intro (s : st W) g' w' o' :
  exec_same (st_g s) g' -> diag_ok g' -> w_time (st_w s) <= w_time w' -> Forall op_event o' ->
  qstep s (St g' w' (o' ++ st_out s)).
Proof. intros. split_and!; try done. by exists o'. Qed.

(** Only the diagnostics state changes. *)
Lemma qstep_diag (s : st W) g' w' :
  exec_same (st_g s) g' -> diag_ok g' -> w_time (st_w s) <= w_time w' ->
  qstep s (St g' w' (st_out s)).
Proof. intros. by apply (qstep_intro s g' w' []). Qed.

Lemma qstep_refl (s : st W) : ctx_ok (st_g s) -> qstep s s.
Proof. intros (Hd & _). destruct s. by apply qstep_diag. Qed.

Lemma qstep_trans (s1 s2 s3 : st W) : qstep s1 s2 -> qstep s2 s3 -> qstep s1 s3.
Proof.
  intros (H1 & _ & Ht1 & ev1 & Ho1 & He1) (H2 & Hd & Ht2 & ev2 & Ho2 & He2).
  split; [by eapply exec_same_trans|]. split; [done|]. split; [lia|].
  exists (ev2 ++ ev1). rewrite Ho2, Ho1, app_assoc. split; [done|]. by apply Forall_app_2.
Qed.

Lemma qstep_ctx (s s' : st W) : qstep s s' -> ctx_ok (st_g s) -> ctx_ok (st_g s').
Proof. intros (H & Hd & _) Hc. by eapply exec_same_ctx. Qed.

Lemma qstep_time (s s' : st W) : qstep s s' -> w_time (st_w s) <= w_time (st_w s').
Proof. by intros (_ & _ & ? & _). Qed.

Lemma quiet_bind {A B} (m : D W A) (k : A -> D W B) :
  quiet m -> (forall a, quiet (k a)) -> quiet (bindM m k).
Proof.
  intros Hm Hk E s Hc. apply wp_bind. eapply wp_mono; [by apply Hm|].
  cbn. intros a s1 H1. eapply wp_mono; [apply Hk; by eapply qstep_ctx|].
  cbn. intros b s2 H2. by eapply qstep_trans.
Qed.

Lemma quiet_ret {A} (a : A) : quiet (W := W) (returnM a).
Proof. intros E s Hc. apply wp_ret. by apply qstep_refl. Qed.

Lemma quiet_getg : quiet (W := W) getg.
Proof. intros E s Hc. apply wp_getg. by apply qstep_refl. Qed.

Lemma quiet_when b (m : D W unit) : quiet m -> quiet (whenM b m).
Proof. intros H. destruct b; [done|apply quiet_ret]. Qed.

Lemma quiet_if {A} (b : bool) (m1 m2 : D W A) : quiet m1 -> quiet m2 -> quiet (if b then m1 else m2).
Proof. by destruct b. Qed.

(** A change of the diagnostics state that keeps it well formed. *)
Lemma quiet_setg f :
  (forall g, ctx_ok g -> exec_same g (f g) /\ diag_ok (f g)) -> quiet (W := W) (setg f).
Proof.
  intros H E s Hc. apply wp_setg. destruct (H _ Hc) as [Hs Hd]. by apply qstep_diag.
Qed.

Lemma log_op_events o' : Forall is_log_event o' -> Forall op_event o'.
Proof. intros H. eapply Forall_impl; [exact H|]. intros e He. by right. Qed.

Lemma quiet_log_debug line : quiet (W := W) (log_debug line).
Proof.
  intros E s Hc. apply wp_log_debug. intros w' o' Ht Ho.
  apply qstep_intro; [done|apply Hc|done|by apply log_op_events].
Qed.

Lemma quiet_now_us : quiet (W := W) now_us.
Proof.
  intros E s Hc. apply wp_now_time. intros w' Ht. apply qstep_diag; [done|apply Hc|lia].
Qed.

Lemma quiet_get_client i : (i < MAX_CLIENTS)%nat -> quiet (W := W) (get_client i).
Proof.
  intros Hi E s Hc. pose proof Hc as (_ & [Hl _] & _).
  destruct (lookup_lt_is_Some_2 (g_cl (st_g s)) i) as [c Hcl]; [by rewrite Hl|].
  eapply wp_get_client; [done|]. by apply qstep_refl.
Qed.

Lemma quiet_lctx_comm : quiet (W := W) lctx_comm.
Proof.
  intros E s Hc. unfold lctx_comm. wp_steps. pose proof Hc as (_ & _ & Hx & _).
  unfold lctx_ok in Hx. destruct (lx_comm (g_lctx (st_g s))) as [|i|t]; [done| |].
  - eapply (quiet_bind (get_client i)); [by apply quiet_get_client|intros; apply quiet_ret|done].
  - by apply quiet_ret.
Qed.

Lemma quiet_warn_line line : quiet (W := W) (warn_line line).
Proof.
  intros E s Hc. apply wp_warn_line. intros w' o' Ht Ho.
  apply qstep_intro; [done| |done|by apply log_op_events].
  apply diag_set_cnt; [apply Hc|]. intros H. apply (cnt_ok_bump _ H).
Qed.

End QuietRules.

#[export] Hint Resolve quiet_ret quiet_getg quiet_log_debug quiet_now_us quiet_get_client
  quiet_lctx_comm quiet_warn_line : spid.

Section ExecRules.
Context {W : Type} {WW : World W} {WO : WorldOk W WW} {RG : Regs}
  {BE : Backend W} {BO : BackendOk W WW BE}.

(** The operation may be traced: its fields are in range. *)
Definition op_traced (o : op) : Prop := op_ok o /\ 0 <= op_slice o < SLICE_COUNT.

(** Continue with a quiet computation. *)
Lemma wp_quiet {A} E (m : D W A) (s0 s : st W) :
  quiet m -> ctx_ok (st_g s0) -> qstep s0 s -> wp E m (fun _ s' => qstep s0 s') s.
Proof.
  intros Hm Hc Hs. eapply wp_mono; [apply Hm; by eapply qstep_ctx|].
  cbn. intros a s' H'. by eapply qstep_trans.
Qed.

Lemma quiet_trace_add c o :
  op_traced o -> (forall i, c = Some i -> (i < MAX_CLIENTS)%nat) -> quiet (trace_add c o).
Proof.
  intros [(? & ? & ? & ? & ? & ? & ?) Hsl] Hi E s Hc. unfold trace_add. wp_steps.
  apply wp_now_time. cbn [st_g st_w st_out]. intros w' Ht. wp_steps.
  pose proof Hc as ((Hlen & Hring & Hw & Hcnt & Hlint) & [Hcl Hcls] & _).
  eapply (wp_mono _ _ (fun cid s' => is_u32 cid /\
    s' = St (set_g_ring_w (fun w => u32 (w + 1)) (st_g s)) w' (st_out s))).
  { destruct c as [i|]; [|apply wp_ret; split; [unfold is_u32; lia|done]].
    specialize (Hi i eq_refl).
    destruct (lookup_lt_is_Some_2 (g_cl (st_g s)) i) as [cl Hcli]; [by rewrite Hcl|].
    wp_steps. eapply wp_get_client; [done|]. wp_steps. split; [|done].
    eapply Forall_lookup_1 in Hcls as (? & _); done. }
  cbn. intros cid s' (Hcid & ->). wp_steps. apply rwp_arr_set.
  { rewrite Hlen. apply ring_index. unfold TRACE_RING. lia. }
  wp_steps. apply qstep_diag; [done| |lia]. pose proof (w_time_range (st_w s)) as Hr.
  split_and!; cbn.
  - by rewrite length_insert.
  - apply Forall_insert; [done|]. unfold te_ok. cbn. split_and!; try done; unfold is_u64, TIME_MAX in *; lia.
  - apply u32_range.
  - done.
  - done.
Qed.

Lemma quiet_lint_page o : op_traced o -> quiet (lint_page o).
Proof.
  intros [_ Hsl] E s Hc. unfold lint_page.
  pose proof Hc as ((_ & _ & _ & _ & (Hpo & Hrow & _)) & _).
  set (side := if op_mmd o =? LAN80XX_MMD_HOST_PMA then Some 0%nat
               else if op_mmd o =? LAN80XX_MMD_LINE_PMA then Some 1%nat else None).
  assert (forall i, side = Some i -> (i < SIDE_COUNT)%nat) as Hside.
  { unfold side, SIDE_COUNT. intros i H. repeat case_match; simplify_eq; lia. }
  destruct side as [side'|]; [|by apply quiet_ret]. specialize (Hside _ eq_refl).
  destruct (lookup_lt_is_Some_2 (page_owner (g_lint (st_g s))) (Z.to_nat (op_slice o)))
    as [row Hr]; [rewrite Hpo; unfold SLICE_COUNT in *; lia|].
  pose proof (Forall_lookup_1 _ _ _ _ Hrow Hr) as Hrl. cbn in Hrl.
  apply wp_if; intros _; [|by apply quiet_ret]. wp_steps.
  apply wp_if; intros _; wp_steps.
  - eapply wp_mono; [apply quiet_lctx_comm, Hc|]. cbn. intros comm s1 H1.
    unfold page_owner_store. wp_steps. pose proof H1 as (_ & (_ & _ & _ & _ & Hl1) & _).
    destruct Hl1 as (Hpo1 & Hrow1 & ? & ? & ?).
    destruct (lookup_lt_is_Some_2 (page_owner (g_lint (st_g s1))) (Z.to_nat (op_slice o)))
      as [row1 Hr1]; [rewrite Hpo1; unfold SLICE_COUNT in *; lia|].
    pose proof (Forall_lookup_1 _ _ _ _ Hrow1 Hr1) as Hrl1. cbn in Hrl1.
    eapply rwp_arr_get; [done|]. wp_steps. apply rwp_arr_set; [by rewrite Hrl1|]. wp_steps.
    eapply qstep_trans; [exact H1|]. apply qstep_diag; [done| |done].
    apply diag_set_lint; [apply H1|]. intros _. split_and!; cbn; try done.
    + by rewrite length_insert.
    + apply Forall_insert; [done|]. by rewrite length_insert.
  - eapply rwp_arr_get; [done|]. wp_steps.
    destruct (lookup_lt_is_Some_2 row side') as [own Ho]; [by rewrite Hrl|].
    eapply rwp_arr_get; [done|]. apply quiet_if; auto with spid.
    apply quiet_bind; auto with spid.
Qed.

Lemma quiet_lint_cor now o : quiet (lint_cor now o).
Proof.
  intros E s Hc. unfold lint_cor. apply wp_if; intros _; [|by apply quiet_ret]. wp_steps.
  pose proof Hc as ((_ & _ & _ & _ & (_ & _ & Hco & _)) & _).
  set (k := if op_mmd o =? LAN80XX_MMD_HOST_PCS then 0%nat else 1%nat).
  assert (k < SIDE_COUNT)%nat as Hk by (unfold k, SIDE_COUNT; case_match; lia).
  destruct (lookup_lt_is_Some_2 (cor_last (g_lint (st_g s))) k) as [last Hl]; [by rewrite Hco|].
  eapply rwp_arr_get; [done|].
  apply quiet_bind; [auto with spid| |done]. intros comm.
  apply quiet_bind; [apply quiet_when; auto with spid|]. intros _.
  apply quiet_setg. intros g Hg. split; [done|]. apply diag_set_lint; [apply Hg|].
  intros (? & ? & ? & ? & ?). split_and!; cbn; try done. by rewrite length_insert.
Qed.

Lemma quiet_rmw_scan n i now o : (i + n <= RD_RING_COUNT)%nat -> quiet (rmw_scan n i now o).
Proof.
  revert i. induction n as [|n IH]; intros i Hi E s Hc; cbn [rmw_scan]; [by apply quiet_ret|].
  wp_steps. pose proof Hc as ((_ & _ & _ & _ & (_ & _ & _ & Hrd & _)) & _).
  destruct (lookup_lt_is_Some_2 (rd_ring (g_lint (st_g s))) i) as [e He]; [rewrite Hrd; lia|].
  eapply rwp_arr_get; [done|]. apply quiet_if; [| |done]; [|apply IH; lia].
  apply quiet_bind; [auto with spid|]. intros comm.
  apply quiet_bind; [auto with spid|]. intros _.
  apply quiet_setg. intros g Hg. split; [done|]. apply diag_set_lint; [apply Hg|].
  intros (? & ? & ? & ? & ?). split_and!; cbn; try done. by rewrite length_insert.
Qed.

Lemma quiet_lint_rmw now o : quiet (lint_rmw now o).
Proof.
  intros E s Hc. unfold lint_rmw. apply wp_if; intros _; [apply quiet_rmw_scan; [done|done]|].
  wp_steps. pose proof Hc as ((Hr & Hr' & Hw & Hcn & (Hp & Hpr & Hco & Hrd & Hrw)) & _).
  match goal with |- wp _ _ _ ?s' => assert (qstep s s') as Hs end.
  { apply qstep_diag; [done| |done]. apply diag_set_lint; [apply Hc|].
    intros _. split_and!; cbn; try done. apply u32_range. }
  eapply wp_mono; [apply quiet_lctx_comm; by eapply qstep_ctx|]. cbn [st_g]. intros comm s1 H1.
  wp_steps. apply rwp_arr_set.
  { rewrite Hrd. apply ring_index. unfold RD_RING_COUNT. lia. }
  wp_steps. eapply qstep_trans; [exact Hs|]. eapply qstep_trans; [exact H1|].
  apply qstep_diag; [done| |done]. apply diag_set_lint; [apply H1|].
  intros (? & ? & ? & ? & ?). split_and!; cbn; try done. by rewrite length_insert.
Qed.

Lemma quiet_lint_op o : op_traced o -> quiet (lint_op o).
Proof.
  intros Ho. unfold lint_op. apply quiet_bind; [auto with spid|]. intros now.
  apply quiet_bind; [by apply quiet_lint_page|]. intros _.
  apply quiet_bind; [apply quiet_lint_cor|]. intros _. apply quiet_lint_rmw.
Qed.

Lemma qstep_counted (s : st W) (rc : Z) g1 w' o' :
  ctx_ok (st_g s) -> w_time (st_w s) <= w_time w' -> Forall is_spi_event o' ->
  g1 = count_read (st_g s) \/ g1 = count_write (st_g s) \/ g1 = count_io_err (st_g s) ->
  qstep s (St g1 w' (o' ++ st_out s)).
Proof.
  intros Hc Ht Ho Hg. apply qstep_intro; [by destruct Hg as [-> |[-> | ->]]| |done|].
  - destruct Hg as [-> |[-> | ->]]; (apply diag_set_cnt; [apply Hc|]); intros H; apply (cnt_ok_bump _ H).
  - eapply Forall_impl; [exact Ho|]. intros e He. by left.
Qed.

Lemma wp_spi_write slice mmd reg val E Q (s : st W) :
  ctx_ok (st_g s) ->
  (forall rc s', (rc = 0 \/ rc = -1) -> qstep s s' -> Q rc s') ->
  wp E (spi_write_reg slice mmd reg val) Q s.
Proof.
  intros Hc H. eapply wp_fault_mono; [|apply spi_write_reg_ok; [apply Hc|]]; [done|].
  intros rc w' o' Hrc Ht Ho. apply H; [done|]. apply qstep_counted; [done..|].
  destruct (rc =? 0); auto.
Qed.

Lemma wp_spi_read slice mmd reg old E Q (s : st W) :
  ctx_ok (st_g s) ->
  (forall rc v s', (rc = 0 /\ is_u32 v \/ rc = -1 /\ v = old) -> qstep s s' -> Q (rc, v) s') ->
  wp E (spi_read_reg slice mmd reg old) Q s.
Proof.
  intros Hc H. eapply wp_fault_mono; [|apply spi_read_reg_ok; [apply Hc|]]; [done|].
  intros rc v w' o' Hrc Ht Ho. apply H; [done|]. apply qstep_counted; [done..|].
  destruct (rc =? 0); auto.
Qed.

(** When an operation is refused because a mailbox transaction is in flight. *)
Definition guarded (g : glob) (c : option nat) (o : op) : bool :=
  g_mb_inflight g && in_mb_guard o && bool_decide (is_Some c).

(** The status of an operation as a function of the request and the guard:
    only an executed operation can end in success or in a bus error. *)
Definition exec_status (g : glob) (c : option nat) (o : op) (x : spiproxy_status) : Prop :=
  if SLICE_COUNT <=? op_slice o then x = SPIPROXY_EINVAL
  else if guarded g c o then x = SPIPROXY_EBUSY
  else x = SPIPROXY_OK \/ x = SPIPROXY_EIO.

Lemma op_set_val_id o : op_set_val (op_val o) o = o.
Proof. by destruct o. Qed.

Lemma quiet_op_log o rc : quiet (W := W) (op_log o rc).
Proof.
  apply quiet_bind; [auto with spid|]. intros g. apply quiet_when.
  apply quiet_bind; auto with spid.
Qed.

Lemma quiet_mb_log dir write slice reg val rc : quiet (W := W) (mb_log dir write slice reg val rc).
Proof.
  apply quiet_bind; [auto with spid|]. intros g. apply quiet_when.
  apply quiet_bind; auto with spid.
Qed.

Lemma wp_op_transfer o E Q (s : st W) :
  ctx_ok (st_g s) -> op_ok o ->
  (forall rc v s', (rc = 0 \/ rc = -1) -> is_u32 v ->
     (is_write o = true \/ rc <> 0 -> v = op_val o) -> qstep s s' -> Q (rc, op_set_val v o) s') ->
  wp E (op_transfer o) Q s.
Proof.
  intros Hc (_ & _ & _ & _ & _ & _ & Hval) H. unfold op_transfer.
  apply wp_if; intros Hw; wp_steps.
  - apply wp_spi_write; [done|]. intros rc s1 Hrc H1. wp_steps.
    pose proof (H rc (op_val o) s1) as HQ. rewrite op_set_val_id in HQ. by apply HQ.
  - apply wp_spi_read; [done|]. intros rc v s1 Hrc H1. wp_steps.
    apply H; [lia| |intros [?|?]|done].
    + destruct Hrc as [[_ ?]|[_ ->]]; done.
    + congruence.
    + destruct Hrc as [[? _]|[_ ->]]; done.
Qed.

Lemma wp_exec_op c o E Q (s : st W) :
  ctx_ok (st_g s) -> op_ok o -> (forall i, c = Some i -> (i < MAX_CLIENTS)%nat) ->
  (forall x v s', exec_status (st_g s) c o x -> is_u32 v ->
     (is_write o = true \/ x <> SPIPROXY_OK -> v = op_val o) -> qstep s s' ->
     (x = SPIPROXY_EINVAL \/ x = SPIPROXY_EBUSY -> s' = s) -> Q (x, op_set_val v o) s') ->
  wp E (exec_op c o) Q s.
Proof.
  intros Hc Ho Hi H. pose proof Ho as (Hsl & _ & _ & _ & _ & _ & Hval).
  unfold exec_op. unfold exec_status, guarded in H.
  assert (forall x, (if SLICE_COUNT <=? op_slice o then x = SPIPROXY_EINVAL
    else if g_mb_inflight (st_g s) && in_mb_guard o && bool_decide (is_Some c)
    then x = SPIPROXY_EBUSY else x = SPIPROXY_OK \/ x = SPIPROXY_EIO) -> Q (x, o) s) as Hrefuse.
  { intros x Hx. pose proof (H x (op_val o) s Hx) as HQ. rewrite op_set_val_id in HQ.
    apply HQ; auto. by apply qstep_refl. }
  destruct (Z.leb_spec SLICE_COUNT (op_slice o)); [by apply wp_ret, Hrefuse|].
  wp_steps. destruct (g_mb_inflight (st_g s) && in_mb_guard o && bool_decide (is_Some c));
    [by apply wp_ret, Hrefuse|].
  clear Hrefuse. wp_steps. apply wp_op_transfer; [done..|]. intros rc v s1 Hrc Hv Hkeep H1.
  assert (op_traced (op_set_val v o)) as Ht.
  { split; [|split; [apply Hsl|done]]. destruct Ho as (? & ? & ? & ? & ? & ? & ?). by split_and!. }
  wp_steps. eapply wp_mono; [apply (wp_quiet _ _ s); [by apply quiet_trace_add|done..]|].
  cbn. intros _ s2 H2. wp_steps.
  eapply wp_mono; [apply (wp_quiet _ _ s); [apply quiet_when; by apply quiet_lint_op|done..]|].
  cbn. intros _ s3 H3. wp_steps.
  eapply wp_mono; [apply (wp_quiet _ _ s); [apply quiet_op_log|done..]|].
  cbn. intros _ s4 H4. apply wp_ret. destruct (Z.eqb_spec rc 0) as [->|Hne].
  - apply H; [auto|done| |done|by intros [?|?]]. intros [?|?]; [|done]. apply Hkeep; auto.
  - apply H; [auto|done| |done|by intros [?|?]]. intros _. apply Hkeep; auto.
Qed.

Lemma wp_mb_rd slice reg old E Q (s : st W) :
  ctx_ok (st_g s) ->
  (forall rc v s', (rc = 0 /\ is_u32 v \/ rc = -1 /\ v = old) -> qstep s s' -> Q (rc, v) s') ->
  wp E (mb_rd slice reg old) Q s.
Proof.
  intros Hc H. unfold mb_rd. wp_steps. apply wp_spi_read; [done|]. intros rc v s1 Hrc H1.
  wp_steps. eapply wp_mono; [apply (wp_quiet _ _ s); [apply quiet_mb_log|done..]|].
  cbn. intros _ s2 H2. apply wp_ret. by apply H.
Qed.

Lemma wp_mb_wr slice reg val E Q (s : st W) :
  ctx_ok (st_g s) ->
  (forall rc s', (rc = 0 \/ rc = -1) -> qstep s s' -> Q rc s') ->
  wp E (mb_wr slice reg val) Q s.
Proof.
  intros Hc H. unfold mb_wr. wp_steps. apply wp_spi_write; [done|]. intros rc s1 Hrc H1.
  wp_steps. eapply wp_mono; [apply (wp_quiet _ _ s); [apply quiet_mb_log|done..]|].
  cbn. intros _ s2 H2. apply wp_ret. by apply H.
Qed.

End ExecRules.
