(* ===== verification/OpSpec.v ===== *)
(** * What register operations do

    The outcome of [exec_op] on every branch, its traffic on the bus and its
    result on a chip with delayed reads, and the op-log ring as the list of
    the operations executed so far. *)
From S2P Require Import Prelude Bytes Proto Fmt State Queue Log Spi Exec.

Section Outcome.
Context {W : Type} {WW : World W} {WO : WorldOk W WW} {RG : Regs}
  {BE : Backend W} {BO : BackendOk W WW BE}.

(** C30: exec_op always returns.  A slice above 3 is refused with EINVAL, a
    client's access to the mailbox region during a transaction with EBUSY, both
    without touching any state or the bus; otherwise the operation is executed
    and ends in OK or EIO.  A write or a failed operation keeps the value field,
    and nothing but diagnostics, bus traffic and log lines changes. *)
Theorem exec_op_outcome c o (s : st W) :
  ctx_ok (st_g s) -> op_ok o -> (forall i, c = Some i -> (i < MAX_CLIENTS)%nat) ->
  exists x v s', exec_op c o s = Ok ((x, op_set_val v o), s') /\
    exec_status (st_g s) c o x /\ is_u32 v /\
    (is_write o = true \/ x <> SPIPROXY_OK -> v = op_val o) /\ qstep s s' /\
    (x = SPIPROXY_EINVAL \/ x = SPIPROXY_EBUSY -> s' = s).
Proof.
  intros Hc Ho Hi.
  enough (wp (fun _ => False) (exec_op c o) (fun r s' => exists x v, r = (x, op_set_val v o) /\
    exec_status (st_g s) c o x /\ is_u32 v /\
    (is_write o = true \/ x <> SPIPROXY_OK -> v = op_val o) /\ qstep s s' /\
    (x = SPIPROXY_EINVAL \/ x = SPIPROXY_EBUSY -> s' = s)) s) as H.
  { unfold wp in H. destruct (exec_op c o s) as [[r s']|]; [|done].
    destruct H as (x & v & -> & H). by exists x, v, s'. }
  apply wp_exec_op; [done..|]. intros x v s' ? ? ? ? ?. by exists x, v.
Qed.

End Outcome.

(** ** Computations that only log and keep a part of the state *)

Definition only_logs {W} (s s' : st W) : Prop :=
  exists ev, st_out s' = ev ++ st_out s /\ Forall is_log_event ev.

Definition tame {W A X} (f : glob -> X) (m : D W A) : Prop :=
  forall s, wp (fun _ => True) m (fun _ s' => f (st_g s') = f (st_g s) /\ only_logs s s') s.

Section Tame.
Context {W : Type} {WW : World W} {X : Type} (f : glob -> X).

Lemma only_logs_refl (s : st W) : only_logs s s.
Proof. by exists []. Qed.

Lemma only_logs_trans (s1 s2 s3 : st W) : only_logs s1 s2 -> only_logs s2 s3 -> only_logs s1 s3.
Proof.
  intros (e1 & H1 & L1) (e2 & H2 & L2). exists (e2 ++ e1). rewrite H2, H1, app_assoc.
  split; [done|by apply Forall_app_2].
Qed.

Lemma tame_bind {A B} (m : D W A) (k : A -> D W B) :
  tame f m -> (forall a, tame f (k a)) -> tame f (bindM m k).
Proof.
  intros Hm Hk s. apply wp_bind. eapply wp_mono; [apply Hm|]. cbn. intros a s1 [H1 L1].
  eapply wp_mono; [apply Hk|]. cbn. intros b s2 [H2 L2].
  split; [congruence|by eapply only_logs_trans].
Qed.

Lemma tame_ret {A} (a : A) : tame (W := W) f (returnM a).
Proof. intros s. by split; [|apply only_logs_refl]. Qed.
Lemma tame_fail {A} e : tame (W := W) (A := A) f (failM e).
Proof. by intros s. Qed.
Lemma tame_getg : tame (W := W) f getg.
Proof. intros s. by split; [|apply only_logs_refl]. Qed.
Lemma tame_lift {A} (r : res A) : tame (W := W) f (liftM r).
Proof. intros s. apply wp_lift. destruct r; [|done]. by split; [|apply only_logs_refl]. Qed.
Lemma tame_ask {A} (g : W -> W * A) : tame f (ask g).
Proof. intros s. apply wp_ask. intros w' a _. split; [done|]. by exists []. Qed.
Lemma tame_emit e : is_log_event e -> tame f (emit e).
Proof. intros He s. split; [done|]. exists [e]. split; [done|]. by repeat constructor. Qed.
Lemma tame_setg h : (forall g, f (h g) = f g) -> tame (W := W) f (setg h).
Proof. intros H s. apply wp_setg. split; [apply H|]. by exists []. Qed.
Lemma tame_if {A} (b : bool) (m1 m2 : D W A) : tame f m1 -> tame f m2 -> tame f (if b then m1 else m2).
Proof. by destruct b. Qed.
Lemma tame_when b (m : D W unit) : tame f m -> tame f (whenM b m).
Proof. destruct b; [done|]. intros _. apply tame_ret. Qed.

End Tame.

(** Structural search through a computation. *)
Ltac solve_tame :=
  repeat first
    [ apply tame_ret | apply tame_fail | apply tame_getg | apply tame_lift | apply tame_ask
    | apply tame_emit; done | apply tame_when | apply tame_if
    | apply tame_setg; done | apply tame_bind; [|intros] | progress cbn beta iota
    | match goal with |- tame _ (match ?x with _ => _ end) => destruct x end ].

Section RingTame.
Context {W : Type} {WW : World W} {RG : Regs}.

Definition ring_part (g : glob) : list trace_ent * Z := (g_ring g, g_ring_w g).

Lemma log_tame {X} (f : glob -> X) line : tame (W := W) f (log_debug line).
Proof. unfold log_debug, log_trace, trace_v. solve_tame. Qed.

Lemma warn_tame_ring line : tame (W := W) ring_part (warn_line line).
Proof. unfold warn_line, log_warn, log_msg, trace_v. solve_tame. Qed.

Lemma lctx_comm_tame {X} (f : glob -> X) : tame (W := W) f lctx_comm.
Proof. unfold lctx_comm, get_client. solve_tame. Qed.

Lemma now_tame {X} (f : glob -> X) : tame (W := W) f now_us.
Proof. unfold now_us. solve_tame. Qed.

Lemma rmw_scan_tame_ring n i now o : tame (W := W) ring_part (rmw_scan n i now o).
Proof.
  revert i. induction n as [|n IH]; intros i; cbn [rmw_scan]; [apply tame_ret|].
  solve_tame; auto using lctx_comm_tame, warn_tame_ring.
Qed.

Lemma lint_tame_ring o : tame (W := W) ring_part (lint_op o).
Proof.
  unfold lint_op, lint_page, page_owner_store, lint_cor, lint_rmw.
  solve_tame; auto using lctx_comm_tame, warn_tame_ring, now_tame, rmw_scan_tame_ring.
Qed.

Lemma op_log_tame_ring o rc : tame (W := W) ring_part (op_log o rc).
Proof. unfold op_log. solve_tame; auto using lctx_comm_tame, log_tame. Qed.

End RingTame.

(** ** The op log

    [ring_holds g l]: the ring holds the newest entries of [l] (newest first)
    and the write index has counted them all. *)
Definition ring_holds (g : glob) (l : list trace_ent) : Prop :=
  length (g_ring g) = TRACE_RING /\ g_ring_w g = u32 (Z.of_nat (length l)) /\
  forall k e, (k < TRACE_RING)%nat -> l !! k = Some e ->
    g_ring g !! Z.to_nat ((Z.of_nat (length l) - 1 - Z.of_nat k) mod Z.of_nat TRACE_RING) = Some e.

(** The write index wraps at 2^32, a multiple of the ring size. *)
Lemma trace_ring_divides : (Z.of_nat TRACE_RING | 2 ^ 32).
Proof. by exists (2 ^ 22). Qed.

Lemma ring_push g l e idx :
  ring_holds g l -> idx = Z.to_nat (g_ring_w g mod Z.of_nat TRACE_RING) ->
  ring_holds (set_g_ring (fun _ => <[idx := e]> (g_ring g))
                (set_g_ring_w (fun w => u32 (w + 1)) g)) (e :: l).
Proof.
  intros (Hlen & Hw & Hl) ->. rewrite Hw, (ring_slot_write _ _ trace_ring_divides).
  split; [cbn; by rewrite length_insert|]. split.
  { cbn [g_ring_w set_g_ring set_g_ring_w length]. rewrite Hw. unfold u32.
    rewrite Zplus_mod_idemp_l. f_equal. lia. }
  intros k x Hk Hx. change (g_ring (set_g_ring (fun _ => <[ring_slot TRACE_RING (S (length l)) 0 := e]> (g_ring g))
    (set_g_ring_w (fun w => u32 (w + 1)) g)) !! ring_slot TRACE_RING (S (length l)) k = Some x).
  cbn [g_ring set_g_ring]. destruct k as [|k]; cbn in Hx.
  - simplify_eq. apply list_lookup_insert_eq. rewrite Hlen. apply ring_slot_lt. lia.
  - rewrite ring_slot_S, list_lookup_insert_ne by by apply ring_slot_next. apply Hl; [lia|done].
Qed.

(** Every ring holds some history. *)
Lemma ring_holds_some g :
  length (g_ring g) = TRACE_RING -> is_u32 (g_ring_w g) -> exists l, ring_holds g l.
Proof.
  intros Hl Hw. set (n := Z.to_nat (g_ring_w g)).
  set (at_k k := Z.to_nat ((g_ring_w g - 1 - Z.of_nat k) mod Z.of_nat TRACE_RING)).
  exists ((fun k => default (TraceEnt 0 0 0 0 0 0 0) (g_ring g !! at_k k)) <$> seq 0 n).
  unfold is_u32 in Hw. assert (Z.of_nat n = g_ring_w g) as Hn by (unfold n; lia).
  split; [done|]. rewrite length_fmap, length_seq, Hn. split; [by rewrite u32_id|].
  intros k e Hk He. rewrite list_lookup_fmap in He.
  destruct (seq 0 n !! k) as [j|] eqn:Hj; [|done]. apply lookup_seq in Hj as [-> _]. cbn in He.
  destruct (lookup_lt_is_Some_2 (g_ring g) (at_k k)) as [x Hx].
  { rewrite Hl. apply ring_index. unfold TRACE_RING. lia. }
  rewrite Hx in He. cbn in He. simplify_eq. exact Hx.
Qed.

(** The entry of an operation. *)
Definition op_entry (ts cid : Z) (o : op) : trace_ent :=
  TraceEnt ts cid (op_slice o) (op_write o) (op_mmd o) (op_reg o) (op_val o).

(** ** The bus *)

Definition spi_of (e : event) : option (list Z) :=
  match e with EvSpi tx => Some tx | _ => None end.

(** All frames sent so far, in order. *)
Definition bus (out : list event) : list (list Z) := rev (omap spi_of out).

Lemma bus_app ev out : bus (ev ++ out) = bus out ++ bus ev.
Proof. unfold bus. by rewrite omap_app, rev_app_distr. Qed.

Lemma bus_on_bus frames out : bus (on_bus frames out) = bus out ++ frames.
Proof.
  unfold on_bus. rewrite bus_app. f_equal. unfold bus.
  induction frames as [|f frames IH]; [done|]. cbn [fmap list_fmap rev]. rewrite omap_app, rev_app_distr.
  cbn. f_equal. exact IH.
Qed.

Lemma bus_logs ev out : Forall is_log_event ev -> bus (ev ++ out) = bus out.
Proof.
  intros H. rewrite bus_app. enough (bus ev = []) as -> by apply app_nil_r. unfold bus.
  induction H as [|e ev He Hev IH]; [done|]. cbn. by destruct e.
Qed.

Lemma bus_only_logs {W} (s s' : st W) : only_logs s s' -> bus (st_out s') = bus (st_out s).
Proof. intros (ev & -> & H). by apply bus_logs. Qed.

Section OnChip.
Context {W : Type} {WW : World W} {WO : WorldOk W WW} {RG : Regs} {RO : RegsOk RG}
  {CH : PipelinedChip W WW}.

(** The frames of an operation. *)
Definition op_frames (pad : Z) (o : op) : list (list Z) :=
  if is_write o then [write_frame (op_slice o) (op_mmd o) (op_reg o) (op_val o)]
  else read_frames pad (op_slice o) (op_mmd o) (op_reg o).

(** The operation as the client gets it back. *)
Definition op_result (w : W) (o : op) : op :=
  if is_write o then o else op_set_val (chip_reg w (op_slice o) (op_mmd o) (op_reg o)) o.

Lemma wp_eq {S A} E (m : M S A) (Q : A -> S -> Prop) s a s' : m s = Ok (a, s') -> Q a s' -> wp E m Q s.
Proof. intros H HQ. unfold wp. by rewrite H. Qed.

Lemma wp_quiet_tame {A X} (f : glob -> X) (m : D W A) E Q s :
  quiet m -> tame f m -> ctx_ok (st_g s) ->
  (forall a s', qstep s s' -> f (st_g s') = f (st_g s) -> only_logs s s' -> Q a s') ->
  wp E m Q s.
Proof.
  intros Hq Ht Hc HQ. eapply wp_fault_mono; [|eapply wp_mono; [exact (wp_and (fun _ => False) (fun _ => True) m _ _ s (Hq _ s Hc) (Ht s))|]].
  - by intros e [? _].
  - cbn. intros a s' [H1 [H2 H3]]. by apply HQ.
Qed.

Definition valid_op (o : op) : Prop :=
  op_ok o /\ op_slice o < SLICE_COUNT /\ op_mmd o < 32.

Lemma op_transfer_on_chip o (s : st W) :
  valid_op o -> pad_ok (st_g s) ->
  exists g' w', op_transfer o s =
    Ok ((0, op_result (st_w s) o), St g' w' (on_bus (op_frames (cf_pad (g_cfg (st_g s))) o) (st_out s))) /\
    (g' = count_read (st_g s) \/ g' = count_write (st_g s)) /\
    is_u32 (op_val (op_result (st_w s) o)).
Proof.
  intros ((Hs & _ & Hm & _ & Hr & _ & Hv) & Hsl & Hmm) Hpad.
  unfold is_u8, SLICE_COUNT in *. unfold op_transfer, op_frames, op_result, bindM.
  cbn [spi_read_reg spi_write_reg hw_backend]. destruct (is_write o).
  - destruct (hw_write_stored (op_slice o) (op_mmd o) (op_reg o) (op_val o) s) as (w' & -> & _);
      [lia|lia|done..|]. cbn. eauto 10.
  - destruct (hw_read_latched (op_slice o) (op_mmd o) (op_reg o) (op_val o) s) as (w' & Hread);
      [lia|lia|done..|].
    pose proof (hw_read_ok (op_slice o) (op_mmd o) (op_reg o) (op_val o) s
      (fun r _ => is_u32 (snd r) \/ fst r = -1) Hpad) as Hok. unfold wp in Hok. rewrite Hread in *.
    cbn [fst snd] in Hok. cbn. eexists _, _. split; [reflexivity|]. split; [by left|].
    destruct Hok as [?|?]; [|done|done]. intros rc v w1 o1 [[_ ?]|[-> _]] _ _; [by left|by right].
Qed.

(** The client id an operation is logged with. *)
Definition caller_id (g : glob) (c : option nat) : Z :=
  match c with Some i => default 0 (c_id <$> g_cl g !! i) | None => 0 end.

Lemma wp_trace_add c o l E Q (s : st W) :
  ctx_ok (st_g s) -> op_traced o -> (forall i, c = Some i -> (i < MAX_CLIENTS)%nat) ->
  ring_holds (st_g s) l ->
  (forall ts s', qstep s s' -> ring_holds (st_g s') (op_entry ts (caller_id (st_g s) c) o :: l) ->
     only_logs s s' -> Q tt s') ->
  wp E (trace_add c o) Q s.
Proof.
  intros Hc Ho Hi Hr HQ.
  enough (wp (fun _ => True) (trace_add c o) (fun _ s' =>
    exists ts, ring_holds (st_g s') (op_entry ts (caller_id (st_g s) c) o :: l) /\ only_logs s s') s) as H.
  { eapply wp_fault_mono; [|eapply wp_mono; [exact (wp_and (fun _ => False) _ _ _ _ s (quiet_trace_add c o Ho Hi _ s Hc) H)|]].
    - by intros e [? _].
    - cbn. intros [] s' [H1 (ts & H2 & H3)]. by eapply HQ. }
  unfold trace_add. wp_steps. apply wp_now_time. cbn [st_g st_w st_out]. intros w' _. wp_steps.
  eapply (wp_mono _ _ (fun cid s' => cid = caller_id (st_g s) c /\
    s' = St (set_g_ring_w (fun w => u32 (w + 1)) (st_g s)) w' (st_out s))).
  { destruct c as [i|]; [|by apply wp_ret]. pose proof Hc as (_ & [Hcl _] & _).
    destruct (lookup_lt_is_Some_2 (g_cl (st_g s)) i) as [cl Hcli]; [rewrite Hcl; auto|].
    wp_steps. eapply wp_get_client; [done|]. apply wp_ret. split; [|done]. cbn. by rewrite Hcli. }
  cbn beta. intros cid ? [-> ->]. wp_steps. apply rwp_arr_set.
  { destruct Hr as (-> & _). apply ring_index. unfold TRACE_RING. lia. }
  wp_steps. eexists. split; [by apply ring_push|]. by exists [].
Qed.

(** Executing a valid operation on the chip. *)
Lemma exec_op_effect c o l E Q (s : st W) :
  ctx_ok (st_g s) -> valid_op o -> (forall i, c = Some i -> (i < MAX_CLIENTS)%nat) ->
  guarded (st_g s) c o = false -> ring_holds (st_g s) l ->
  (forall ts s', qstep s s' ->
     ring_holds (st_g s') (op_entry ts (caller_id (st_g s) c) (op_result (st_w s) o) :: l) ->
     bus (st_out s') = bus (st_out s) ++ op_frames (cf_pad (g_cfg (st_g s))) o ->
     Q (SPIPROXY_OK, op_result (st_w s) o) s') ->
  wp E (exec_op c o) Q s.
Proof.
  intros Hc Hv Hi Hg Hr HQ. unfold exec_op, guarded in *. pose proof Hv as (Ho & Hsl & Hmm).
  rewrite (proj2 (Z.leb_gt _ _) Hsl). wp_steps. rewrite Hg. wp_steps.
  destruct (op_transfer_on_chip o s Hv ltac:(apply Hc)) as (g1 & w1 & Heq & Hg1 & Hu).
  eapply wp_eq; [exact Heq|]. set (s1 := St _ _ _) in *. set (o' := op_result (st_w s) o) in *.
  assert (qstep s s1) as H1.
  { pose proof (wp_op_transfer o (fun _ => False) (fun _ s' => qstep s s') s Hc Ho (fun _ _ _ _ _ _ H => H)) as H.
    unfold wp in H. by rewrite Heq in H. }
  assert (op_traced o') as Ht.
  { pose proof Ho as ([? ?] & ?). unfold o', op_result in *. split.
    - destruct (is_write o); [done|by apply op_set_val_ok].
    - by destruct (is_write o). }
  cbn beta iota. wp_steps. eapply (wp_trace_add c o' l); [by eapply qstep_ctx|done..| |].
  { by destruct Hg1 as [-> | ->]. }
  intros ts s2 H2 Hr2 L2. wp_steps. cbn [Z.eqb whenM].
  pose proof (qstep_trans _ _ _ H1 H2) as H02.
  eapply (wp_quiet_tame ring_part); [by apply quiet_lint_op|apply lint_tame_ring|by eapply qstep_ctx|].
  intros _ s3 H3 K3 L3. wp_steps. pose proof (qstep_trans _ _ _ H02 H3) as H03.
  eapply (wp_quiet_tame ring_part); [apply quiet_op_log|apply op_log_tame_ring|by eapply qstep_ctx|].
  intros _ s4 H4 K4 L4. apply wp_ret. cbn [Z.eqb]. apply (HQ ts); [by eapply qstep_trans| |].
  - injection K3 as Hr3 Hw3. injection K4 as Hr4 Hw4. unfold ring_holds. rewrite Hr4, Hw4, Hr3, Hw3.
    assert (caller_id (st_g s1) c = caller_id (st_g s) c) as <-; [|exact Hr2].
    unfold caller_id. destruct H1 as ((_ & -> & _) & _). done.
  - rewrite (bus_only_logs _ _ L4), (bus_only_logs _ _ L3), (bus_only_logs _ _ L2).
    cbn [st_out s1]. apply bus_on_bus.
Qed.

End OnChip.

(** ** A gap in the mailbox guard *)

(** the guard compares the whole MMD byte, but its top bit does not reach
    the bus: with MMD 0x9e a client's operation on the mailbox region is let
    through during a transaction, and sends the very frames of the guarded
    operation with MMD 0x1e. *)
Theorem mailbox_guard_alias {RG : Regs} g c pad slice write reg val :
  0 <= slice < 4 -> MB_GUARD_LO <= reg <= MB_GUARD_HI -> g_mb_inflight g = true ->
  let op_with mmd := Op slice write mmd 0 reg 0 val in
  guarded g (Some c) (op_with LAN80XX_MMD_GLOBAL) = true /\
  guarded g (Some c) (op_with 0x9e) = false /\
  op_frames pad (op_with 0x9e) = op_frames pad (op_with LAN80XX_MMD_GLOBAL).
Proof.
  intros Hs Hr Hi op_with. unfold guarded, in_mb_guard, op_with. cbn [op_mmd op_reg].
  rewrite Hi, (proj2 (Z.leb_le _ _) (proj1 Hr)), (proj2 (Z.leb_le _ _) (proj2 Hr)).
  split; [done|]. split; [done|]. unfold MB_GUARD_LO, MB_GUARD_HI in Hr.
  unfold op_frames, is_write, write_frame, read_frames. cbn [op_slice op_mmd op_reg op_val op_write].
  change 0x9e with (LAN80XX_MMD_GLOBAL + 128).
  assert (forall w v, spi_fill w (spi_addr slice (LAN80XX_MMD_GLOBAL + 128) reg) v =
    spi_fill w (spi_addr slice LAN80XX_MMD_GLOBAL reg) v) as Ha
    by (intros; apply spi_fill_mmd_alias; [done|unfold LAN80XX_MMD_GLOBAL; lia|unfold is_u16; lia]).
  by rewrite !Ha.
Qed.
