(* ===== verification/Mailbox.v ===== *)
(** * Mailbox transactions ([exec_mailbox] of lan80xx_spid.c)

    A request packet is written into the mailbox window word by word, the
    doorbell rung, the response flag polled while other requests are drained,
    and the response read back and checked.  The drain hook is an argument, as
    in the code it is a forward-declared function. *)
From S2P Require Import Prelude Bytes Proto Crc16 State Log Spi Exec.

Definition MB_HDR_LEN : Z := 4.
Definition MB_CRC_LEN : Z := 2.
Definition MB_TIMEOUT_MS : Z := 500.
Definition MB_PKT_SIZE : nat := Z.to_nat (MB_HDR_LEN + SPIPROXY_MB_MAX + MB_CRC_LEN + 3).

(** ** Packets *)

(** Little-endian word at byte [i] of the packet. *)
Definition pkt_word (pkt : list Z) (i : nat) : res Z :=
  let! b0 := buf_get pkt i in
  let! b1 := buf_get pkt (i + 1) in
  let! b2 := buf_get pkt (i + 2) in
  let! b3 := buf_get pkt (i + 3) in
  Ok (Z.lor (Z.lor (Z.lor b0 (Z.shiftl b1 8)) (Z.shiftl b2 16)) (u32 (Z.shiftl b3 24))).

Definition pkt_store (pkt : list Z) (i : nat) (v : Z) : res (list Z) :=
  buf_write pkt i [u8 v; u8 (Z.shiftr v 8); u8 (Z.shiftr v 16); u8 (Z.shiftr v 24)].

(** {id, 0xff, len_le} + payload + crc16. *)
Definition mb_packet (m : mb) (payload pkt : list Z) : res (list Z) :=
  let n := Z.to_nat (mb_payload_len m) in
  let len := u16 (MB_HDR_LEN + mb_payload_len m + MB_CRC_LEN) in
  let! pkt1 := buf_write pkt 0 [mb_cmd m; 0xff; u8 len; u8 (Z.shiftr len 8)] in
  let! p := buf_read payload 0 n in
  let! pkt2 := buf_write pkt1 4 p in
  let! covered := buf_read pkt2 0 (4 + n) in
  let crc := crc16_ccitt covered in
  let! pkt3 := buf_write pkt2 (4 + n) [u8 crc] in
  buf_write pkt3 (4 + n + 1) [u8 (Z.shiftr crc 8)].

(** [(len + 3) & ~3] in a [uint16_t]. *)
Definition round4 (len : Z) : Z := u16 (Z.land (len + 3) (Z.lnot 3)).

Definition mb_set_cmd (v : Z) (m : mb) : mb := Mb (mb_slice m) v (mb_payload_len m) (mb_timeout_ms m).
Definition mb_set_payload_len (v : Z) (m : mb) : mb := Mb (mb_slice m) (mb_cmd m) v (mb_timeout_ms m).

(** The response in the packet buffer is checked and its data copied. *)
Definition mb_check (m : mb) (pkt resp : list Z) (len : Z) : res (spiproxy_status * mb * Z * list Z) :=
  let n := Z.to_nat len in
  let! lo := buf_get pkt (n - 2) in
  let! hi := buf_get pkt (n - 1) in
  let crc := Z.lor lo (u16 (Z.shiftl hi 8)) in
  let! covered := buf_read pkt 0 (n - Z.to_nat MB_CRC_LEN) in
  if negb (crc16_ccitt covered =? crc) then Ok (SPIPROXY_ECRC, m, 0, resp) else
  let! cmd := buf_get pkt 0 in
  let rlen := u16 (len - MB_HDR_LEN - MB_CRC_LEN) in
  let! data := buf_read pkt (Z.to_nat MB_HDR_LEN) (Z.to_nat rlen) in
  let! resp' := buf_write resp mb_size data in
  Ok (SPIPROXY_OK, mb_set_cmd cmd m, rlen, resp').

(** How the wait for the response flag ends. *)
Inductive poll_end := PollReady (v : Z) | PollIoErr | PollTimeout.

Section Mailbox.
Context {W : Type} {WW : World W} {RG : Regs} {BE : Backend W}.

(** The request words, [n] of them from word [i] on; [v] is the local variable
    of that name.  A result other than 0 is the [goto io_err]. *)
Fixpoint write_words (n i : nat) (slice : Z) (pkt : list Z) (v : Z) : D W (Z * Z) :=
  match n with
  | O => returnM (0, v)
  | S n' =>
      let* w := liftM (pkt_word pkt (4 * i)) in
      let* rc := mb_wr slice (MB_CMD_ADDR + Z.of_nat i) w in
      if rc =? 0 then write_words n' (S i) slice pkt w else returnM (rc, w)
  end.

(** The response words, stored into the packet buffer. *)
Fixpoint read_words (n i : nat) (slice : Z) (pkt : list Z) (v : Z) : D W (Z * list Z) :=
  match n with
  | O => returnM (0, pkt)
  | S n' =>
      let* '(rc, w) := mb_rd slice (MB_RESP_ADDR + Z.of_nat i) v in
      if rc =? 0 then
        let* pkt' := liftM (pkt_store pkt (4 * i) w) in
        read_words n' (S i) slice pkt' w
      else returnM (rc, pkt)
  end.

(** Enable the MCU interrupt and ring the doorbell. *)
Definition ring_doorbell (slice v : Z) : D W (Z * Z) :=
  let* '(rc, v1) := mb_rd slice MB_MCU_MASK v in
  if negb (rc =? 0) then returnM (rc, v1) else
  let* rc1 := mb_wr slice MB_MCU_MASK (Z.lor v1 1) in
  if negb (rc1 =? 0) then returnM (rc1, v1) else
  let* rc2 := mb_wr slice MB_FLAG MB_SET_REQ in
  returnM (rc2, v1).

Definition clear_inflight : D W unit := setg (set_g_mb_inflight (fun _ => false)).

(** The wait: [drain 4] and a pause between two looks at the flag. *)
Fixpoint mb_poll (fuel : nat) (drain : nat -> D W unit) (slice t_end v : Z) : D W poll_end :=
  match fuel with
  | O => failM OutOfFuel
  | S f =>
      let* '(rc, v1) := mb_rd slice MB_FLAG v in
      if negb (rc =? 0) then returnM PollIoErr else
      if negb (Z.land v1 MB_F_RESP =? 0) then returnM (PollReady v1) else
      let* now := now_us in
      if t_end <? now then returnM PollTimeout else
      drain 4%nat ;;
      emit (EvUsleep MB_POLL_DELAY_US) ;;
      mb_poll f drain slice t_end v1
  end.

(** Fetch and check the response: header word, remaining words, CRC. *)
Definition mb_response (m : mb) (pkt resp : list Z) (v : Z) : D W (spiproxy_status * mb * Z * list Z) :=
  let quit x := returnM (x, m, 0, resp) in
  let slice := mb_slice m in
  let* '(rc, v1) := mb_rd slice MB_RESP_ADDR v in
  if negb (rc =? 0) then clear_inflight ;; quit SPIPROXY_EIO else
  let len := u16 (Z.shiftr v1 16) in
  if (len <? MB_HDR_LEN + MB_CRC_LEN) || (MB_HDR_LEN + SPIPROXY_MB_MAX + MB_CRC_LEN <? len) then
    mb_wr slice MB_FLAG MB_CLR_RESP ;; clear_inflight ;; quit SPIPROXY_EINVAL
  else
  let* pkt1 := liftM (pkt_store pkt 0 v1) in
  let* '(rc1, pkt2) := read_words (Z.to_nat (round4 len / 4) - 1) 1 slice pkt1 v1 in
  if negb (rc1 =? 0) then clear_inflight ;; quit SPIPROXY_EIO else
  mb_wr slice MB_FLAG MB_CLR_RESP ;;
  clear_inflight ;;
  liftM (mb_check m pkt2 resp len).

(** The wait for the response and what follows it. *)
Definition mb_await (fuel : nat) (drain : nat -> D W unit) (m : mb) (pkt resp : list Z) (v : Z)
    : D W (spiproxy_status * mb * Z * list Z) :=
  let quit x := returnM (x, m, 0, resp) in
  let slice := mb_slice m in
  let timeout := if mb_timeout_ms m =? 0 then MB_TIMEOUT_MS else mb_timeout_ms m in
  let* now := now_us in
  let t_end := u64 (now + timeout * 1000) in
  let* e := mb_poll fuel drain slice t_end v in
  match e with
  | PollIoErr => clear_inflight ;; quit SPIPROXY_EIO
  | PollTimeout => mb_wr slice MB_FLAG MB_CLR_REQ ;; clear_inflight ;; quit SPIPROXY_ETIMEDOUT
  | PollReady v1 => mb_response m pkt resp v1
  end.

(** The transaction proper: request words, doorbell, wait, response. *)
Definition mb_transact (fuel : nat) (drain : nat -> D W unit) (m : mb) (pkt resp : list Z) (v : Z)
    : D W (spiproxy_status * mb * Z * list Z) :=
  let quit x := returnM (x, m, 0, resp) in
  let slice := mb_slice m in
  let len := u16 (MB_HDR_LEN + mb_payload_len m + MB_CRC_LEN) in
  setg (set_g_mb_inflight (fun _ => true)) ;;
  let* '(rc1, v1) := write_words (Z.to_nat (round4 len / 4)) 0 slice pkt v in
  if negb (rc1 =? 0) then clear_inflight ;; quit SPIPROXY_EIO else
  let* '(rc2, v2) := ring_doorbell slice v1 in
  if negb (rc2 =? 0) then clear_inflight ;; quit SPIPROXY_EIO else
  mb_await fuel drain m pkt resp v2.

(** [payload] is the request body after its header, [resp] the caller's
    response buffer, whose first bytes the caller fills.  The result is the
    status, the updated [*mb], [*resp_len] (0 on entry) and the buffer. *)
Definition exec_mailbox (fuel : nat) (drain : nat -> D W unit) (m : mb) (payload resp : list Z)
    : D W (spiproxy_status * mb * Z * list Z) :=
  let quit x := returnM (x, m, 0, resp) in
  let slice := mb_slice m in
  if (SPIPROXY_MB_MAX <? mb_payload_len m) || (SLICE_COUNT <=? slice) then quit SPIPROXY_EINVAL else
  let* v0 := undef in
  let* pkt0 := stack_array MB_PKT_SIZE in
  let* pkt := liftM (mb_packet m payload pkt0) in
  let* '(rc, v) := mb_rd slice MB_FLAG v0 in
  if negb (rc =? 0) then quit SPIPROXY_EIO else
  if negb (Z.land v MB_F_BUSY =? 0) then quit SPIPROXY_EBUSY else
  mb_transact fuel drain m pkt resp v.

End Mailbox.

(** ** The request packet *)

(** What the MCU receives: header, payload, CRC (little-endian) over both. *)
Definition mb_head (m : mb) : list Z :=
  let len := MB_HDR_LEN + mb_payload_len m + MB_CRC_LEN in
  [mb_cmd m; 0xff; len mod 256; len / 256].
Definition mb_frame (body : list Z) : list Z :=
  body ++ [crc16_ccitt body mod 256; crc16_ccitt body / 256].
Definition mb_request (m : mb) (payload : list Z) : list Z :=
  mb_frame (mb_head m ++ take (Z.to_nat (mb_payload_len m)) payload).

Lemma mb_packet_ok m payload pkt :
  0 <= mb_payload_len m <= SPIPROXY_MB_MAX ->
  (Z.to_nat (mb_payload_len m) <= length payload)%nat -> length pkt = MB_PKT_SIZE ->
  mb_packet m payload pkt = Ok (mb_request m payload ++ drop (Z.to_nat (mb_payload_len m) + 6) pkt).
Proof.
  intros Hpl Hp Hl. unfold mb_packet. set (n := Z.to_nat (mb_payload_len m)).
  assert (Z.of_nat (length pkt) = 1027) as Hlz by by rewrite Hl. clear Hl.
  unfold SPIPROXY_MB_MAX, MB_HDR_LEN, MB_CRC_LEN in *.
  set (len := u16 _). assert (len = 4 + mb_payload_len m + 2) as Hlen
    by (apply u16_id; unfold is_u16; lia).
  assert ([mb_cmd m; 0xff; u8 len; u8 (Z.shiftr len 8)] = mb_head m) as ->.
  { unfold mb_head, MB_HDR_LEN, MB_CRC_LEN. rewrite Hlen, Z.shiftr_div_pow2 by lia.
    unfold u8. do 4 f_equal. dlia. }
  assert (length (take n payload) = n) as Htk by (rewrite length_take; lia).
  assert (length (mb_head m) = 4%nat) as Hh by done.
  rewrite buf_write_0 by (rewrite Hh; lia). cbn [res_bind].
  unfold buf_read at 1. rewrite (proj2 (Nat.leb_le _ _)) by lia. rewrite drop_0. cbn [res_bind].
  rewrite buf_write_at by (rewrite ?length_drop; lia). cbn [res_bind].
  rewrite buf_read_prefix by (rewrite length_app; lia). cbn [res_bind].
  rewrite buf_write_at by (rewrite ?length_app, ?length_drop, ?Htk, ?Hh; cbn [length]; lia).
  cbn [res_bind].
  rewrite buf_write_at by (rewrite ?length_app, ?length_drop, ?Htk, ?Hh; cbn [length]; lia).
  unfold mb_request, mb_frame. fold n. set (crc := crc16_ccitt _).
  pose proof (crc16_range (mb_head m ++ take n payload)) as Hc. fold crc in Hc. unfold is_u16 in Hc.
  rewrite Z.shiftr_div_pow2 by lia. unfold u8.
  rewrite (Z.mod_small (crc / 2 ^ 8)) by dlia. rewrite <-!app_assoc. cbn [app].
  rewrite !drop_drop, Htk, Hh. cbn [length]. do 4 f_equal. change (2 ^ 8) with 256. do 2 f_equal. lia.
Qed.

Lemma length_mb_request m payload :
  (Z.to_nat (mb_payload_len m) <= length payload)%nat ->
  length (mb_request m payload) = (Z.to_nat (mb_payload_len m) + 6)%nat.
Proof. intros H. unfold mb_request, mb_frame. rewrite !length_app, length_take. cbn. lia. Qed.

Lemma mb_request_ok m payload :
  mb_ok m -> mb_payload_len m <= SPIPROXY_MB_MAX -> bytes_ok payload -> bytes_ok (mb_request m payload).
Proof.
  intros (_ & Hc & Hp & _) Hl Hb. unfold mb_request, mb_frame.
  pose proof (crc16_range (mb_head m ++ take (Z.to_nat (mb_payload_len m)) payload)) as Hcrc.
  unfold is_u16 in Hcrc, Hp. repeat apply bytes_ok_app; auto with spid;
    repeat (apply Forall_cons; split); try apply Forall_nil; try done;
    unfold is_u8, MB_HDR_LEN, MB_CRC_LEN, SPIPROXY_MB_MAX in *; dlia.
Qed.

(** The check stays inside the buffers; its result is a status and data that
    fit the caller's. *)
Lemma mb_check_ok m pkt resp len :
  mb_ok m -> length pkt = MB_PKT_SIZE -> bytes_ok pkt ->
  length resp = (mb_size + Z.to_nat SPIPROXY_MB_MAX)%nat -> bytes_ok resp ->
  MB_HDR_LEN + MB_CRC_LEN <= len <= MB_HDR_LEN + SPIPROXY_MB_MAX + MB_CRC_LEN ->
  exists x m' rlen resp', mb_check m pkt resp len = Ok (x, m', rlen, resp') /\
    mb_ok m' /\ mb_slice m' = mb_slice m /\ 0 <= rlen <= SPIPROXY_MB_MAX /\
    length resp' = length resp /\ bytes_ok resp'.
Proof.
  intros Hm Hpl Hpb Hrl Hrb Hlen. unfold mb_check, MB_HDR_LEN, MB_CRC_LEN, SPIPROXY_MB_MAX in *.
  assert (Z.of_nat (length pkt) = 1027) as Hplz by by rewrite Hpl. clear Hpl.
  assert (Z.of_nat (length resp) = 1026) as Hrlz by by rewrite Hrl. clear Hrl.
  unfold buf_get. destruct (lookup_lt_is_Some_2 pkt (Z.to_nat len - 2)) as [lo ->]; [lia|].
  destruct (lookup_lt_is_Some_2 pkt (Z.to_nat len - 1)) as [hi ->]; [lia|].
  destruct (lookup_lt_is_Some_2 pkt 0) as [cmd Hcmd]; [lia|]. rewrite Hcmd. cbn [res_bind]. unfold buf_read.
  rewrite (proj2 (Nat.leb_le _ _)) by lia. cbn [res_bind].
  destruct (negb _); [exists SPIPROXY_ECRC, m, 0, resp; split_and!; done || lia|].
  rewrite (u16_id (len - 4 - 2)), (proj2 (Nat.leb_le _ _)) by (unfold is_u16; lia). cbn [res_bind].
  set (data := take _ (drop (Z.to_nat 4) pkt)).
  assert (length data = Z.to_nat (len - 4 - 2)) as Hd by (unfold data; rewrite length_take, length_drop; lia).
  rewrite buf_write_ok by (unfold mb_size; lia). eexists _, _, _, _. split; [reflexivity|]. split_and!; try done; try lia.
  - destruct Hm as (? & _ & ? & ?). split_and!; try done. exact (Forall_lookup_1 _ _ _ _ Hpb Hcmd).
  - apply length_buf_splice. unfold mb_size. lia.
  - unfold data. auto with spid.
Qed.

(** Rounding a packet length up to whole words. *)
Lemma round4_spec len : 0 <= len <= 1024 -> round4 len = 4 * ((len + 3) / 4).
Proof.
  intros H. unfold round4. rewrite <-Z.ldiff_land. change 3 with (Z.ones 2) at 2.
  rewrite Z.ldiff_ones_r, Z.shiftr_div_pow2, Z.shiftl_mul_pow2 by lia.
  change (2 ^ 2) with 4. rewrite u16_id by (unfold is_u16; dlia). lia.
Qed.

Section MailboxRules.
Context {W : Type} {WW : World W} {WO : WorldOk W WW} {RG : Regs}
  {BE : Backend W} {BO : BackendOk W WW BE}.

Lemma quiet_mb_rd slice reg old : quiet (mb_rd slice reg old).
Proof. intros E s Hc. apply wp_mb_rd; [done|]. by intros. Qed.

Lemma quiet_mb_wr slice reg val : quiet (mb_wr slice reg val).
Proof. intros E s Hc. apply wp_mb_wr; [done|]. by intros. Qed.

Lemma pkt_word_ok pkt i :
  (i + 4 <= length pkt)%nat -> exists v, pkt_word pkt i = Ok v.
Proof.
  intros H. unfold pkt_word, buf_get.
  destruct (lookup_lt_is_Some_2 pkt i) as [b0 ->]; [lia|].
  destruct (lookup_lt_is_Some_2 pkt (i + 1)) as [b1 ->]; [lia|].
  destruct (lookup_lt_is_Some_2 pkt (i + 2)) as [b2 ->]; [lia|].
  destruct (lookup_lt_is_Some_2 pkt (i + 3)) as [b3 ->]; [lia|]. by eexists.
Qed.

Lemma quiet_write_words n i slice pkt v :
  (4 * (i + n) <= length pkt)%nat -> quiet (write_words n i slice pkt v).
Proof.
  revert i v. induction n as [|n IH]; intros i v H; cbn [write_words]; [apply quiet_ret|].
  destruct (pkt_word_ok pkt (4 * i)) as [w Hw]; [lia|]. intros E s Hc.
  wp_steps. rewrite Hw. apply rwp_ok.
  apply quiet_bind; [apply quiet_mb_wr| |done]. intros rc.
  apply quiet_if; [apply IH; lia|apply quiet_ret].
Qed.

Lemma quiet_ring_doorbell slice v : quiet (ring_doorbell slice v).
Proof.
  apply quiet_bind; [apply quiet_mb_rd|]. intros [rc v1].
  apply quiet_if; [apply quiet_ret|]. apply quiet_bind; [apply quiet_mb_wr|]. intros rc1.
  apply quiet_if; [apply quiet_ret|]. apply quiet_bind; [apply quiet_mb_wr|].
  intros. apply quiet_ret.
Qed.

Lemma pkt_store_ok E pkt i v Q :
  (i + 4 <= length pkt)%nat -> bytes_ok pkt ->
  (forall pkt', length pkt' = length pkt -> bytes_ok pkt' -> Q pkt') ->
  rwp E (pkt_store pkt i v) Q.
Proof.
  intros Hl Hb H. unfold pkt_store. apply rwp_buf_write; [done|]. apply H.
  - by apply length_buf_splice.
  - apply bytes_ok_app; [auto with spid|]. apply bytes_ok_app; [|auto with spid].
    repeat constructor; apply u8_range.
Qed.

Lemma wp_read_words n i slice pkt v E Q s :
  ctx_ok (st_g s) -> (4 * (i + n) <= length pkt)%nat -> bytes_ok pkt ->
  (forall rc pkt' s', length pkt' = length pkt -> bytes_ok pkt' -> qstep s s' -> Q (rc, pkt') s') ->
  wp E (read_words n i slice pkt v) Q s.
Proof.
  revert i pkt v s. induction n as [|n IH]; intros i pkt v s Hc Hl Hb H; cbn [read_words].
  - apply wp_ret, H; [done..|by apply qstep_refl].
  - wp_steps. apply wp_mb_rd; [done|]. intros rc w s1 Hrc H1. wp_steps.
    apply wp_if; intros _; wp_steps; [|by apply H].
    apply pkt_store_ok; [lia|done|]. intros pkt' Hl' Hb'.
    apply IH; [by eapply qstep_ctx|by rewrite Hl'; lia|done|].
    intros rc' pkt'' s2 Hl'' Hb'' H2. apply H; [congruence|done|by eapply qstep_trans].
Qed.

End MailboxRules.

(** ** The contract with the drain hook

    [P] is the invariant of the daemon while a request is being executed and
    [R] relates the states before and after a part of it.  The daemon
    discharges the contract for [drain_queues]. *)
Class DrainContract {W : Type} {WW : World W} (P : st W -> Prop) (R : st W -> st W -> Prop)
    (E : fault -> Prop) (drain : nat -> D W unit) : Prop := {
  dc_ctx s : P s -> ctx_ok (st_g s);
  dc_quiet s s' : P s -> qstep s s' -> P s' /\ R s s';
  dc_inflight s b : P s ->
    let s' := St (set_g_mb_inflight (fun _ => b) (st_g s)) (st_w s) (st_out s) in P s' /\ R s s';
  dc_usleep s us : P s ->
    let s' := St (st_g s) (w_do (st_w s) (EvUsleep us)) (EvUsleep us :: st_out s) in P s' /\ R s s';
  dc_trans s1 s2 s3 : R s1 s2 -> R s2 s3 -> R s1 s3;
  dc_time s s' : R s s' -> w_time (st_w s) <= w_time (st_w s');
  dc_drain s : P s -> wp E (drain 4%nat) (fun _ s' => P s' /\ R s s') s }.

(** Polls of the longest timeout with a millisecond between them. *)
Definition POLL_FUEL : Z := 2 ^ 32 + 2.

Section ExecMailbox.
Context {W : Type} {WW : World W} {WO : WorldOk W WW} {RG : Regs}
  {BE : Backend W} {BO : BackendOk W WW BE}.
Context (P : st W -> Prop) (R : st W -> st W -> Prop) (E : fault -> Prop) (drain : nat -> D W unit).
Context {DC : DrainContract P R E drain}.

(** Enough fuel, or fuel is allowed to run out. *)
Definition fuel_ok (fuel : nat) (t_end now : Z) : Prop :=
  E OutOfFuel \/
  (MB_POLL_DELAY_US (W := W) = 1000 /\ t_end < TIME_MAX /\ (1 <= fuel)%nat /\
   t_end < now + 1000 * (Z.of_nat fuel - 1)).

Lemma wp_mb_poll fuel slice t_end v Q s0 s :
  P s -> R s0 s -> fuel_ok fuel t_end (w_time (st_w s)) ->
  (forall e s', P s' -> R s0 s' -> Q e s') ->
  wp E (mb_poll fuel drain slice t_end v) Q s.
Proof.
  revert v s. induction fuel as [|f IH]; intros v s HP HR Hf HQ; cbn [mb_poll].
  { apply wp_fail. destruct Hf as [?|(_ & _ & ? & _)]; [done|lia]. }
  wp_steps. apply wp_mb_rd; [by eapply dc_ctx|]. intros rc v1 s1 _ H1.
  destruct (dc_quiet s s1 HP H1) as [HP1 HR1]. pose proof (dc_trans _ _ _ HR HR1) as HR01.
  wp_steps. apply wp_if; intros _; wp_steps; [by apply HQ|].
  apply wp_if; intros _; wp_steps; [by apply HQ|].
  apply wp_now_time. intros w2 Ht2. set (s2 := St (st_g s1) w2 (st_out s1)).
  assert (qstep s1 s2) as H2 by (apply qstep_diag; [done|by eapply dc_ctx|lia]).
  destruct (dc_quiet s1 s2 HP1 H2) as [HP2 HR2]. pose proof (dc_trans _ _ _ HR01 HR2) as HR02.
  destruct (Z.ltb_spec t_end (w_time (st_w s1))) as [|Hle]; [by apply wp_ret, HQ|].
  wp_steps. eapply wp_mono; [by apply dc_drain|]. cbn beta. intros _ s3 [HP3 HR3].
  wp_steps. set (d := MB_POLL_DELAY_US). destruct (dc_usleep s3 d HP3) as [HP4 HR4].
  set (s4 := St _ _ _) in *.
  apply IH; [done| |clear IH|done].
  { eapply dc_trans; [|exact HR4]. by eapply dc_trans. }
  destruct Hf as [?|(Hd & Hmax & _ & Hlt)]; [by left|right].
  pose proof (dc_time _ _ HR1) as T1. pose proof (dc_time _ _ HR3) as T3. change (st_w s2) with w2 in T3.
  split; [done|]. split; [done|].
  pose proof (w_usleep_time (st_w s3) 1000 ltac:(lia)) as Hs. cbn [st_w s4]. unfold d. rewrite Hd. clear HR3 HR4 HP4.
  destruct f as [|f]; [lia|]. split; [lia|]. unfold TIME_MAX in *. lia.
Qed.

(** What a mailbox transaction guarantees to its caller. *)
Definition mb_post (m : mb) (resp : list Z) (s0 : st W) (r : spiproxy_status * mb * Z * list Z)
    (s' : st W) : Prop :=
  let '(x, m', rlen, resp') := r in
  P s' /\ R s0 s' /\ (g_mb_inflight (st_g s') = true -> g_mb_inflight (st_g s0) = true) /\
  mb_ok m' /\ mb_slice m' = mb_slice m /\ 0 <= rlen <= SPIPROXY_MB_MAX /\
  length resp' = length resp /\ bytes_ok resp'.

Lemma wp_clear_quit {A} (a : A) (Q : A -> st W -> Prop) s0 s :
  P s -> R s0 s ->
  (forall s', P s' -> R s0 s' -> g_mb_inflight (st_g s') = false -> Q a s') ->
  wp E (clear_inflight ;; returnM a) Q s.
Proof.
  intros HP HR HQ. unfold clear_inflight. wp_steps. destruct (dc_inflight s false HP) as [HP' HR'].
  apply HQ; [done|by eapply dc_trans|done].
Qed.

Lemma wp_mb_response m pkt resp v s0 s :
  P s -> R s0 s -> mb_ok m -> length pkt = MB_PKT_SIZE -> bytes_ok pkt ->
  length resp = (mb_size + Z.to_nat SPIPROXY_MB_MAX)%nat -> bytes_ok resp ->
  wp E (mb_response m pkt resp v) (mb_post m resp s0) s.
Proof.
  intros HP HR Hm Hpl Hpb Hrl Hrb. unfold mb_response.
  assert (Z.of_nat (length pkt) = 1027) as Hplz by by rewrite Hpl.
  assert (Z.of_nat (length resp) = 1026) as Hrlz by by rewrite Hrl.
  assert (forall x s', P s' -> R s0 s' -> g_mb_inflight (st_g s') = false ->
    mb_post m resp s0 (x, m, 0, resp) s') as Hquit.
  { intros x s' HP' HR' Hi. unfold mb_post. rewrite Hi. split_and!; done || unfold SPIPROXY_MB_MAX; lia. }
  wp_steps. apply wp_mb_rd; [by eapply dc_ctx|]. intros rc v1 s1 _ H1.
  destruct (dc_quiet s s1 HP H1) as [HP1 HR1']. pose proof (dc_trans _ _ _ HR HR1') as HR1.
  wp_steps. apply wp_if; intros _; [by eapply wp_clear_quit; [..|apply Hquit]|].
  set (len := u16 _). assert (is_u16 len) as Hlen by apply u16_range.
  apply wp_if; intros Hrange; wp_steps.
  { apply wp_mb_wr; [by eapply dc_ctx|]. intros rc2 s2 _ H2.
    destruct (dc_quiet s1 s2 HP1 H2) as [HP2 HR2].
    eapply wp_clear_quit; [done|exact (dc_trans _ _ _ HR1 HR2)|apply Hquit]. }
  unfold MB_HDR_LEN, MB_CRC_LEN, SPIPROXY_MB_MAX in *. unfold is_u16 in Hlen.
  apply orb_false_iff in Hrange as [Hlo%Z.ltb_ge Hhi%Z.ltb_ge].
  rewrite round4_spec by lia.
  apply pkt_store_ok; [lia|done|]. intros pkt1 Hl1 Hb1.
  wp_steps. apply wp_read_words; [by eapply dc_ctx|dlia|done|].
  intros rc1 pkt2 s2 Hl2 Hb2 H2. destruct (dc_quiet s1 s2 HP1 H2) as [HP2 HR2'].
  pose proof (dc_trans _ _ _ HR1 HR2') as HR2.
  wp_steps. apply wp_if; intros _; [by eapply wp_clear_quit; [..|apply Hquit]|].
  wp_steps. apply wp_mb_wr; [by eapply dc_ctx|]. intros rc3 s3 _ H3.
  destruct (dc_quiet s2 s3 HP2 H3) as [HP3 HR3']. pose proof (dc_trans _ _ _ HR2 HR3') as HR3.
  unfold clear_inflight. wp_steps. destruct (dc_inflight s3 false HP3) as [HP4 HR4'].
  cbv zeta in HP4, HR4'. set (s4 := St _ _ _) in *. pose proof (dc_trans _ _ _ HR3 HR4') as HR4.
  destruct (mb_check_ok m pkt2 resp len) as (x & m' & rlen & resp' & -> & Hpost); try done; congruence.
Qed.

Lemma timeout_end timeout now :
  0 < timeout < 2 ^ 32 -> (0 <= now < 2 ^ 63 \/ now = TIME_MAX) ->
  u64 (now + timeout * 1000) < TIME_MAX /\
  u64 (now + timeout * 1000) < now + 1000 * (POLL_FUEL - 1).
Proof.
  unfold TIME_MAX, POLL_FUEL, u64. intros Ht [Hn| ->].
  - rewrite Z.mod_small by lia. lia.
  - replace (2 ^ 64 - 1 + timeout * 1000) with (timeout * 1000 - 1 + 1 * 2 ^ 64) by lia.
    rewrite Z.mod_add, Z.mod_small by lia. lia.
Qed.

(** A result without an answer. *)
Lemma mb_post_quit m resp x s0 s' :
  P s' -> R s0 s' -> mb_ok m -> bytes_ok resp ->
  (g_mb_inflight (st_g s') = true -> g_mb_inflight (st_g s0) = true) -> mb_post m resp s0 (x, m, 0, resp) s'.
Proof. intros. unfold mb_post. split_and!; done || unfold SPIPROXY_MB_MAX; lia. Qed.

Lemma mb_post_clear m resp s0 :
  mb_ok m -> bytes_ok resp -> forall x s', P s' -> R s0 s' -> g_mb_inflight (st_g s') = false ->
  mb_post m resp s0 (x, m, 0, resp) s'.
Proof. intros ? ? x s' ? ? Hi. apply mb_post_quit; congruence || done. Qed.

Lemma wp_mb_await fuel m pkt resp v s0 s :
  P s -> R s0 s -> mb_ok m -> length pkt = MB_PKT_SIZE -> bytes_ok pkt ->
  length resp = (mb_size + Z.to_nat SPIPROXY_MB_MAX)%nat -> bytes_ok resp ->
  (E OutOfFuel \/ MB_POLL_DELAY_US (W := W) = 1000 /\ POLL_FUEL <= Z.of_nat fuel) ->
  wp E (mb_await fuel drain m pkt resp v) (mb_post m resp s0) s.
Proof.
  intros HP HR Hm Hpl Hpb Hrl Hrb Hfuel. unfold mb_await. pose proof Hm as (_ & _ & _ & Hmt). unfold is_u32 in Hmt.
  pose proof (mb_post_clear m resp s0 Hm Hrb) as Hclear.
  wp_steps. apply wp_now_time. intros w5 Ht5. set (s5 := St (st_g s) w5 (st_out s)).
  assert (qstep s s5) as H5 by (apply qstep_diag; [done|by eapply dc_ctx|lia]).
  destruct (dc_quiet s s5 HP H5) as [HP5 HR5']. pose proof (dc_trans _ _ _ HR HR5') as HR5.
  wp_steps. set (timeout := if mb_timeout_ms m =? 0 then _ else _).
  assert (0 < timeout < 2 ^ 32) as Hto.
  { unfold timeout, MB_TIMEOUT_MS. destruct (Z.eqb_spec (mb_timeout_ms m) 0); lia. }
  apply (wp_mb_poll _ _ _ _ _ s0); [done..| |].
  { destruct Hfuel as [?|[Hd Hfu]]; [by left|right].
    destruct (timeout_end timeout _ Hto (w_time_range (st_w s))) as [? ?].
    cbn [st_w s5]. rewrite Ht5. unfold POLL_FUEL in *. split_and!; try done; lia. }
  intros e s6 HP6 HR6. destruct e as [v3| |].
  - by apply wp_mb_response.
  - by eapply wp_clear_quit; [..|apply Hclear].
  - wp_steps. apply wp_mb_wr; [by eapply dc_ctx|]. intros rc7 s7 _ H7.
    destruct (dc_quiet s6 s7 HP6 H7) as [HP7 HR7'].
    eapply wp_clear_quit; [done|exact (dc_trans _ _ _ HR6 HR7')|apply Hclear].
Qed.

Lemma wp_mb_transact fuel m pkt resp v s0 s :
  P s -> R s0 s -> mb_ok m -> mb_payload_len m <= SPIPROXY_MB_MAX -> length pkt = MB_PKT_SIZE -> bytes_ok pkt ->
  length resp = (mb_size + Z.to_nat SPIPROXY_MB_MAX)%nat -> bytes_ok resp ->
  (E OutOfFuel \/ MB_POLL_DELAY_US (W := W) = 1000 /\ POLL_FUEL <= Z.of_nat fuel) ->
  wp E (mb_transact fuel drain m pkt resp v) (mb_post m resp s0) s.
Proof.
  intros HP HR Hm Hlen Hpl Hpb Hrl Hrb Hfuel. unfold mb_transact.
  pose proof Hm as (_ & _ & Hmp & _). unfold is_u16 in Hmp.
  assert (Z.of_nat (length pkt) = 1027) as Hplz by by rewrite Hpl.
  pose proof (mb_post_clear m resp s0 Hm Hrb) as Hclear.
  wp_steps. destruct (dc_inflight s true HP) as [HP2 HR2']. cbv zeta in HP2, HR2'.
  set (s2 := St _ _ _) in *. pose proof (dc_trans _ _ _ HR HR2') as HR2.
  unfold MB_HDR_LEN, MB_CRC_LEN, SPIPROXY_MB_MAX in *.
  rewrite u16_id, round4_spec by (unfold is_u16; lia).
  eapply wp_mono; [eapply quiet_write_words; [dlia|by eapply dc_ctx]|].
  cbn beta. intros [rc1 v1] s3 H3. destruct (dc_quiet s2 s3 HP2 H3) as [HP3 HR3'].
  pose proof (dc_trans _ _ _ HR2 HR3') as HR3.
  apply wp_if; intros _; [by eapply wp_clear_quit; [..|apply Hclear]|].
  wp_steps. eapply wp_mono; [eapply quiet_ring_doorbell; by eapply dc_ctx|].
  cbn beta. intros [rc2 v2] s4 H4. destruct (dc_quiet s3 s4 HP3 H4) as [HP4 HR4'].
  apply wp_if; intros _; [eapply wp_clear_quit; [done|exact (dc_trans _ _ _ HR3 HR4')|apply Hclear]|].
  apply wp_mb_await; try done. exact (dc_trans _ _ _ HR3 HR4').
Qed.

Lemma wp_exec_mailbox fuel m payload resp s :
  P s -> mb_ok m -> (Z.to_nat SPIPROXY_MB_MAX <= length payload)%nat -> bytes_ok payload ->
  length resp = (mb_size + Z.to_nat SPIPROXY_MB_MAX)%nat -> bytes_ok resp ->
  (E OutOfFuel \/ MB_POLL_DELAY_US (W := W) = 1000 /\ POLL_FUEL <= Z.of_nat fuel) ->
  wp E (exec_mailbox fuel drain m payload resp) (mb_post m resp s) s.
Proof.
  intros HP Hm Hpay Hpb Hrl Hrb Hfuel. unfold exec_mailbox. pose proof Hm as (_ & _ & [Hmp _] & _).
  assert (HR : R s s).
  { destruct (dc_quiet s s HP) as [_ ?]; [|done]. apply qstep_refl. by eapply dc_ctx. }
  apply wp_if; intros Hchk; [apply wp_ret; by apply mb_post_quit|].
  apply orb_false_iff in Hchk as [Hlen%Z.ltb_ge Hsl%Z.leb_gt].
  apply (Nat.le_trans (Z.to_nat (mb_payload_len m))) in Hpay; [|lia].
  wp_steps. destruct (w_stack_bytes (st_w s) MB_PKT_SIZE) as [Hsl' Hsb].
  rewrite mb_packet_ok by (done || lia). apply rwp_ok. wp_steps.
  set (pkt := mb_request m payload ++ _).
  assert (length pkt = MB_PKT_SIZE) as Hpl.
  { unfold pkt. rewrite length_app, length_mb_request, length_drop, Hsl' by done.
    unfold MB_PKT_SIZE, SPIPROXY_MB_MAX, MB_HDR_LEN, MB_CRC_LEN in *. lia. }
  assert (bytes_ok pkt) as Hpkb by (apply bytes_ok_app; [by apply mb_request_ok|auto with spid]).
  apply wp_mb_rd; [by eapply dc_ctx|]. intros rc v s1 _ H1.
  destruct (dc_quiet s s1 HP H1) as [HP1 HR1].
  assert (g_mb_inflight (st_g s1) = g_mb_inflight (st_g s)) as Hi1 by apply H1.
  wp_steps. apply wp_if; intros _; wp_steps; [apply mb_post_quit; [done..|congruence]|].
  apply wp_if; intros _; wp_steps; [apply mb_post_quit; [done..|congruence]|].
  by apply wp_mb_transact.
Qed.

End ExecMailbox.
