(* ===== verification/Daemon.v ===== *)
(** * The daemon's handlers (lan80xx_spid.c from [send_resp] to [main])

    Responses, claims, the execution of one request, the scheduler, the
    reception of datagrams, the connection life cycle and one turn of the main
    loop.  [drain_queues] and [exec_item] are mutually recursive through the
    wait of a mailbox transaction: the recursion is on a fuel argument. *)
From S2P Require Import Prelude Bytes Proto Crc16 Fmt State Queue Log Spi Exec Mailbox.

Definition RST_ASSERT_US : Z := 10000.
Definition RST_DEASSERT_US : Z := 100000.

(** [len += snprintf(txt + len, sizeof(txt) - len, ...)] printing [s]. *)
Definition snprintf_at (txt : list Z) (len : Z) (s : string) : res (list Z * Z) :=
  if Z.of_nat (length txt) <? len then Fail Oob else
  let room := (length txt - Z.to_nat len)%nat in
  let out := if (room =? 0)%nat then [] else str_bytes (trunc room s) ++ [0] in
  let! txt' := buf_write txt (Z.to_nat len) out in
  Ok (txt', len + Z.of_nat (String.length s)).

(** A string read by [fgets] and cut by [strcspn]: up to a newline, at most
    [n] characters. *)
Fixpoint first_line (n : nat) (s : string) : string :=
  match n, s with
  | S n', String a s' =>
      if (Ascii.nat_of_ascii a =? 10)%nat || (Ascii.nat_of_ascii a =? 0)%nat then ""
      else String a (first_line n' s')
  | _, _ => ""
  end.

Section Daemon.
Context {W : Type} {WW : World W} {RG : Regs} {BE : Backend W}.

(** ** Responses *)

Definition send_resp (c : nat) (req : hdr) (status : spiproxy_status) (body : list Z) (blen : Z)
    : D W unit :=
  let* msg0 := stack_array MSG_BUF in
  let h := Hdr SPIPROXY_VER (Z.lor (h_type req) SPIPROXY_RESP) (status_code status)
               (h_seq req) blen in
  let* msg1 := liftM (buf_write msg0 0 (hdr_encode h)) in
  let* msg2 := (if blen =? 0 then returnM msg1
                else let* src := liftM (buf_read body 0 (Z.to_nat blen)) in
                     liftM (buf_write msg1 hdr_size src)) in
  let* cl := get_client c in
  let* out := liftM (buf_read msg2 0 (hdr_size + Z.to_nat blen)) in
  let* rc := ask (fun w => w_send w (c_fd cl) out) in
  note (EvSend (c_fd cl) out (0 <=? rc)) ;;
  whenM (rc <? 0) (upd_client c (set_c_n_err (fun n => u64 (n + 1)))) ;;
  log_debug ("C" +:+ dec (c_id cl) +:+ "(" +:+ c_comm cl +:+ ") seq=" +:+ dec (h_seq req) +:+
    " RSP " +:+ type_name (h_type req) +:+ " st=" +:+ status_name (status_code status) +:+
    " len=" +:+ dec blen).

(** ** Claims *)

Definition set_lctx (cid : Z) (comm : commptr) (seq : Z) (tag : string) : D W unit :=
  setg (set_g_lctx (fun _ => LogCtx cid comm seq tag)).

(** One cleanup operation; a read leaves its result in the table. *)
Definition run_cleanup (i : nat) : D W unit :=
  let* g := getg in
  let* o := liftM (arr_get (claim_cleanup (g_claim g)) i) in
  let* '(_, o') := exec_op None o in
  setg (set_g_claim (set_claim_cleanup (fun l => <[i := o']> l))).

Definition claim_end (abnormal : bool) : D W unit :=
  let* g := getg in
  let n := claim_ncleanup (g_claim g) in
  let* '(id, comm, text) :=
    (match claim_owner (g_claim g) with
     | Some i => let* cl := get_client i in returnM (c_id cl, CommClient i, c_comm cl)
     | None => returnM (0, CommLit "?", "?"%string)
     end) in
  let cleanup := abnormal && negb (n =? 0) in
  log_debug ("C" +:+ dec id +:+ "(" +:+ text +:+ ") CLAIM end " +:+
    (if abnormal then "ABNORMAL" else "normal") +:+
    (if cleanup then " (running cleanup ops)" else "")) ;;
  whenM cleanup
    (log_warn ("claim by client " +:+ dec id +:+ " ended abnormally: running " +:+ dec n +:+
       " cleanup ops") ;;
     set_lctx id comm 0 "cleanup" ;;
     forM (seq 0 (Z.to_nat n)) run_cleanup ;;
     setg (set_g_lctx (set_lx_tag (fun _ => ""%string)))) ;;
  setg (set_g_claim (fun cs => ClaimState None 0 (claim_cleanup cs) 0)).

(** ** Execution of one request *)

Definition store_body (i : nat) (body : list Z) : D W unit :=
  let* g := getg in
  let* it := liftM (arr_get (pool (g_qs g)) i) in
  setg (set_g_qs (set_pool (fun p => <[i := set_q_body (fun _ => body) it]> p))).

Definition op_at (body : list Z) (off : nat) : res op :=
  let! b := buf_read body off op_size in Ok (op_decode b).

Definition exec_single (i c : nat) (h : hdr) (body : list Z) (write : bool) : D W unit :=
  if negb (h_len h =? Z.of_nat op_size) then send_resp c h SPIPROXY_EINVAL [] 0 else
  let* o := liftM (op_at body 0) in
  let* '(x, o') := exec_op (Some c) (op_set_write (if write then 1 else 0) o) in
  let* body' := liftM (buf_write body 0 (op_encode o')) in
  store_body i body' ;;
  upd_client c (set_c_n_ops (fun n => u64 (n + 1))) ;;
  send_resp c h x body' (Z.of_nat op_size).

(** [for (i = 0; i < n && st == SPIPROXY_OK; i++)]: [n] operations left, from
    index [k] on; the result is the status, the final index and the body. *)
Fixpoint batch_loop (n k c : nat) (body : list Z) : D W (spiproxy_status * nat * list Z) :=
  match n with
  | O => returnM (SPIPROXY_OK, k, body)
  | S n' =>
      let* o := liftM (op_at body (k * op_size)) in
      let* '(x, o') := exec_op (Some c) o in
      let* body' := liftM (buf_write body (k * op_size) (op_encode o')) in
      if decide (x = SPIPROXY_OK) then batch_loop n' (S k) c body'
      else returnM (x, S k, body')
  end.

Definition exec_batch (i c : nat) (h : hdr) (body : list Z) : D W unit :=
  let n := h_len h / Z.of_nat op_size in
  if (n <? 1) || (Z.of_nat SPIPROXY_BATCH_MAX <? n) || negb (h_len h mod Z.of_nat op_size =? 0)
  then send_resp c h SPIPROXY_EINVAL [] 0 else
  let* '(x, k, body') := batch_loop (Z.to_nat n) 0 c body in
  store_body i body' ;;
  upd_client c (set_c_n_ops (fun n => u64 (n + Z.of_nat k))) ;;
  send_resp c h x body' (h_len h).

(** [n] consecutive operations of a byte image. *)
Fixpoint ops_decode (n : nat) (l : list Z) : list op :=
  match n with
  | O => []
  | S n' => op_decode (take op_size l) :: ops_decode n' (drop op_size l)
  end.

Definition exec_claim (c : nat) (h : hdr) (body : list Z) : D W unit :=
  let einval := send_resp c h SPIPROXY_EINVAL [] 0 in
  if h_len h <? Z.of_nat claim_size then einval else
  let* b := liftM (buf_read body 0 claim_size) in
  let cr := claim_decode b in
  let n := cl_ncleanup cr in
  if (Z.of_nat SPIPROXY_BATCH_MAX <? n) ||
     negb (h_len h =? Z.of_nat claim_size + n * Z.of_nat op_size) then einval else
  let* g := getg in
  if match claim_owner (g_claim g) with Some o => bool_decide (o <> c) | None => false end
  then send_resp c h SPIPROXY_EBUSY [] 0 else
  setg (set_g_claim (set_claim_owner (fun _ => Some c))) ;;
  let* cl := get_client c in
  log_debug ("C" +:+ dec (c_id cl) +:+ "(" +:+ c_comm cl +:+ ") seq=" +:+ dec (h_seq h) +:+
    " CLAIM grant max_ms=" +:+ dec (cl_max_ms cr) +:+ " ncleanup=" +:+ dec n) ;;
  let* now := now_us in
  setg (set_g_claim (set_claim_deadline (fun _ => u64 (now + cl_max_ms cr * 1000)))) ;;
  setg (set_g_claim (set_claim_ncleanup (fun _ => n))) ;;
  let* src := liftM (buf_read body claim_size (Z.to_nat n * op_size)) in
  let* g' := getg in
  let* l := liftM (arr_fill (claim_cleanup (g_claim g')) (ops_decode (Z.to_nat n) src)) in
  setg (set_g_claim (set_claim_cleanup (fun _ => l))) ;;
  send_resp c h SPIPROXY_OK [] 0.

Definition exec_release (c : nat) (h : hdr) : D W unit :=
  let* g := getg in
  whenM (bool_decide (claim_owner (g_claim g) = Some c)) (claim_end false) ;;
  send_resp c h SPIPROXY_OK [] 0.

Definition exec_mb_item (fuel : nat) (drain : nat -> D W unit) (i c : nat) (h : hdr) (body : list Z)
    : D W unit :=
  let* b := liftM (buf_read body 0 mb_size) in
  let m := mb_decode b in
  let* resp := stack_array (mb_size + Z.to_nat SPIPROXY_MB_MAX) in
  if negb (h_len h =? Z.of_nat mb_size + mb_payload_len m) then send_resp c h SPIPROXY_EINVAL [] 0
  else
  let* '(x, m', rlen, resp1) := exec_mailbox fuel drain m (drop mb_size body) resp in
  let m2 := mb_set_payload_len rlen m' in
  let* body' := liftM (buf_write body 0 (mb_encode m2)) in
  store_body i body' ;;
  let* resp2 := liftM (buf_write resp1 0 (mb_encode m2)) in
  send_resp c h x resp2
    (Z.of_nat mb_size + (if decide (x = SPIPROXY_OK) then rlen else 0)).

Definition bit (b : bool) : Z := if b then 1 else 0.

(** First line of the STATS text and the line of one client. *)
Definition stats_line (g : glob) (claim_id : Z) : string :=
  let cf := g_cfg g in let n := g_cnt g in
  "dev=" +:+ cf_dev cf +:+ " freq=" +:+ dec_int (cf_freq cf) +:+ " pad=" +:+ dec_int (cf_pad cf) +:+
  " rst=" +:+ (if 0 <=? cf_rst_fd cf then default "on" (cf_rst_line cf) else "off") +:+
  " reads=" +:+ dec (n_reads n) +:+ " writes=" +:+ dec (n_writes n) +:+
  " io_err=" +:+ dec (n_io_err n) +:+ " warns=" +:+ dec (n_warns n) +:+
  " queued=" +:+ dec_int (n_queued (g_qs g)) +:+ " claim=" +:+ dec claim_id +:+
  " mb_inflight=" +:+ dec_int (bit (g_mb_inflight g)) +:+ nl.

Definition client_line (c : client) : string :=
  "client " +:+ dec (c_id c) +:+ "(" +:+ c_comm c +:+ ") pid " +:+ dec_int (c_pid c) +:+
  " msgs=" +:+ dec (c_n_msgs c) +:+ " ops=" +:+ dec (c_n_ops c) +:+ " err=" +:+ dec (c_n_err c) +:+
  nl.

(** The lines of the connected clients, appended in slot order. *)
Fixpoint stats_clients (cls : list client) (txt : list Z) (len : Z) : res (list Z * Z) :=
  match cls with
  | [] => Ok (txt, len)
  | c :: cls' =>
      if c_used c then
        let! '(txt', len') := snprintf_at txt len (client_line c) in
        stats_clients cls' txt' len'
      else stats_clients cls' txt len
  end.

Definition exec_stats (c : nat) (h : hdr) : D W unit :=
  let* txt0 := stack_array SPIPROXY_MSG_MAX in
  let* g := getg in
  let* cid := (match claim_owner (g_claim g) with
               | Some i => let* cl := get_client i in returnM (c_id cl)
               | None => returnM 0
               end) in
  let* '(txt1, len1) := liftM (snprintf_at txt0 0 (stats_line g cid)) in
  let* '(txt2, len2) := liftM (stats_clients (g_cl g) txt1 len1) in
  send_resp c h SPIPROXY_OK txt2 (u32 len2).

Definition trace_line (e : trace_ent) : string :=
  dec (te_ts e) +:+ " c" +:+ dec (te_cid e) +:+ " " +:+ (if te_write e =? 0 then "R" else "W") +:+
  " " +:+ dec (te_slice e) +:+ " " +:+ hex 2 (te_mmd e) +:+ " " +:+ hex 4 (te_reg e) +:+ " " +:+
  hex 8 (te_val e) +:+ nl.

(** [n] entries left, from write index [w] on. *)
Fixpoint trace_lines (n : nat) (ring : list trace_ent) (w : Z) (txt : list Z) (len : Z)
    : res (list Z * Z) :=
  match n with
  | O => Ok (txt, len)
  | S n' =>
      if len <? Z.of_nat SPIPROXY_MSG_MAX - TRACE_LINE_MAX then
        let! e := arr_get ring (Z.to_nat (w mod Z.of_nat TRACE_RING)) in
        let! '(txt', len') := snprintf_at txt len (trace_line e) in
        trace_lines n' ring (w + 1) txt' len'
      else Ok (txt, len)
  end.

Definition exec_trace (c : nat) (h : hdr) : D W unit :=
  let* txt0 := stack_array SPIPROXY_MSG_MAX in
  let* g := getg in
  let start := if TRACE_TAIL_MAX <? g_ring_w g then g_ring_w g - TRACE_TAIL_MAX else 0 in
  let* '(txt, len) :=
    liftM (trace_lines (Z.to_nat (g_ring_w g - start)) (g_ring g) start txt0 0) in
  send_resp c h SPIPROXY_OK txt (u32 len).

Definition exec_reset (c : nat) (h : hdr) (body : list Z) : D W unit :=
  if negb (h_len h =? Z.of_nat reset_size) then send_resp c h SPIPROXY_EINVAL [] 0 else
  let* g := getg in
  if cf_rst_fd (g_cfg g) <? 0 then send_resp c h SPIPROXY_ENOSYS [] 0 else
  let* b := liftM (buf_read body 0 reset_size) in
  let rq := reset_decode b in
  let a := if rs_assert_us rq =? 0 then RST_ASSERT_US else rs_assert_us rq in
  let d := if rs_deassert_us rq =? 0 then RST_DEASSERT_US else rs_deassert_us rq in
  clear_inflight ;;
  gpio_pulse_reset a d ;;
  let* cl := get_client c in
  log_debug ("C" +:+ dec (c_id cl) +:+ "(" +:+ c_comm cl +:+ ") seq=" +:+ dec (h_seq h) +:+
    " RESET hw assert=" +:+ dec a +:+ "us deassert=" +:+ dec d +:+ "us") ;;
  send_resp c h SPIPROXY_OK [] 0.

(** The switch over the type of the request. *)
Definition exec_request (fuel : nat) (drain : nat -> D W unit) (i c : nat) (h : hdr) (body : list Z)
    : D W unit :=
  match type_of_code (h_type h) with
  | Some SPIPROXY_READ => exec_single i c h body false
  | Some SPIPROXY_WRITE => exec_single i c h body true
  | Some SPIPROXY_BATCH => exec_batch i c h body
  | Some SPIPROXY_CLAIM => exec_claim c h body
  | Some SPIPROXY_RELEASE => exec_release c h
  | Some SPIPROXY_MAILBOX => exec_mb_item fuel drain i c h body
  | Some SPIPROXY_STATS => exec_stats c h
  | Some SPIPROXY_TRACE => exec_trace c h
  | Some SPIPROXY_RESET => exec_reset c h body
  | _ => send_resp c h SPIPROXY_ENOSYS [] 0
  end.

(** The item is a copy of the pool entry: nothing else writes to it while it is
    being executed, and [store_body] writes its changes back. *)
Definition exec_item (fuel : nat) (drain : nat -> D W unit) (i : nat) : D W unit :=
  let* g := getg in
  let* it := liftM (arr_get (pool (g_qs g)) i) in
  let c := q_c it in let h := q_hdr it in
  let* cl := get_client c in
  set_lctx (c_id cl) (CommClient c) (h_seq h) "" ;;
  exec_request fuel drain i c h (q_body it).

(** ** The scheduler *)

Definition item_eligible (owner : option nat) (c : nat) (h : hdr) : bool :=
  match owner with
  | None => true
  | Some o => bool_decide (c = o) ||
      ((type_code SPIPROXY_CLAIM <=? h_type h) && negb (h_type h =? type_code SPIPROXY_MAILBOX))
  end.

(** [while (budget--)]: take the next eligible item, execute it, free it. *)
Fixpoint drain_loop (budget : nat) (exec : nat -> D W unit) : D W unit :=
  match budget with
  | O => returnM tt
  | S b =>
      let* g := getg in
      let* '(it, qs) := liftM (take_eligible (item_eligible (claim_owner (g_claim g))) (g_qs g)) in
      match it with
      | None => returnM tt
      | Some i =>
          setg (set_g_qs (fun _ => set_n_queued (fun n => n - 1) qs)) ;;
          exec i ;;
          let* g' := getg in
          let* qs' := liftM (release_item i (g_qs g')) in
          setg (set_g_qs (fun _ => qs')) ;;
          drain_loop b exec
      end
  end.

Fixpoint drain_queues (fuel : nat) (budget : nat) : D W unit :=
  match fuel with
  | O => failM OutOfFuel
  | S f => drain_loop budget (exec_item f (drain_queues f))
  end.

(** ** Reception *)

Definition prio_class (flags : Z) : nat :=
  if Z.land flags 3 =? SPIPROXY_PRIO_HIGH then 0
  else if Z.land flags 3 =? SPIPROXY_PRIO_LOW then 2 else 1.

Definition enqueue (c : nat) (h : hdr) (body : list Z) : D W unit :=
  let* g := getg in
  let* r := liftM (take_free c h (g_qs g)) in
  match r with
  | None => send_resp c h SPIPROXY_EBUSY [] 0
  | Some (i, qs) =>
      setg (set_g_qs (fun _ => qs)) ;;
      let* cl := get_client c in
      log_debug ("C" +:+ dec (c_id cl) +:+ "(" +:+ c_comm cl +:+ ") seq=" +:+ dec (h_seq h) +:+
        " REQ " +:+ type_name (h_type h) +:+ " prio=" +:+ dec (Z.land (h_flags h) 3) +:+
        " len=" +:+ dec (h_len h)) ;;
      let* src := liftM (buf_read body 0 (Z.to_nat (h_len h))) in
      let* g' := getg in
      let* qs' := liftM (link_tail (prio_class (h_flags h)) i src (g_qs g')) in
      setg (set_g_qs (fun _ => qs'))
  end.

Definition client_drop (c : nat) : D W unit :=
  let* g := getg in
  whenM (bool_decide (claim_owner (g_claim g) = Some c)) (claim_end true) ;;
  let* g1 := getg in
  let* qs := liftM (purge_client c (g_qs g1)) in
  setg (set_g_qs (fun _ => qs)) ;;
  let* cl := get_client c in
  emit (EvEpollDel (c_fd cl)) ;;
  emit (EvClose (c_fd cl)) ;;
  upd_client c (set_c_used (fun _ => false)) ;;
  log_debug ("C" +:+ dec (c_id cl) +:+ "(" +:+ c_comm cl +:+ ") EVT disconnect").

Definition client_frame (c : nat) (msg : list Z) (n : Z) : D W unit :=
  if n <? Z.of_nat hdr_size then send_resp c (Hdr 0 0 0 0 0) SPIPROXY_EINVAL [] 0 else
  let* b := liftM (buf_read msg 0 hdr_size) in
  let h := hdr_decode b in
  if negb (h_ver h =? SPIPROXY_VER) || negb (h_len h =? n - Z.of_nat hdr_size) ||
     (Z.of_nat SPIPROXY_MSG_MAX <? h_len h) then send_resp c h SPIPROXY_EINVAL [] 0 else
  upd_client c (set_c_n_msgs (fun k => u64 (k + 1))) ;;
  enqueue c h (drop hdr_size msg).

Definition client_msg (c : nat) : D W unit :=
  let* cl := get_client c in
  let* '(n, msg) := ask (fun w => w_recv w (c_fd cl)) in
  if n <=? 0 then client_drop c else client_frame c msg n.

(** ** Connections *)

(** First slot that is not in use, [MAX_CLIENTS] if there is none. *)
Fixpoint free_slot (cls : list client) : nat :=
  match cls with
  | [] => O
  | c :: cls' => if c_used c then S (free_slot cls') else O
  end.

Definition peer_comm (file : option string) : string :=
  let s := match file with Some t => first_line (COMM_PATH_MAX - 1) t | None => "" end in
  if bool_decide (s = ""%string) then "?" else s.

Definition accept_client : D W unit :=
  let* r := ask w_accept in
  match r with
  | None => returnM tt
  | Some a =>
      let* g := getg in
      let i := free_slot (g_cl g) in
      if (i =? MAX_CLIENTS)%nat then emit (EvClose (ac_fd a)) else
      setg (set_g_next_cid (fun n => u32 (n + 1))) ;;
      let id := u32 (g_next_cid g + 1) in
      let comm := peer_comm (ac_comm_file a) in
      let* cls := liftM (arr_set (g_cl g) i (Client (ac_fd a) true id (ac_pid a) comm 0 0 0)) in
      setg (set_g_cl (fun _ => cls)) ;;
      emit (EvEpollAdd (ac_fd a) i) ;;
      log_always ("client " +:+ dec id +:+ " connected (pid " +:+ dec_int (ac_pid a) +:+ ")") ;;
      log_debug ("C" +:+ dec id +:+ "(" +:+ comm +:+ ") EVT connect pid=" +:+ dec_int (ac_pid a))
  end.

(** ** The main loop *)

(** A ready descriptor: the listening socket or a client. *)
Definition handle_event (e : option nat) : D W unit :=
  match e with None => accept_client | Some c => client_msg c end.

(** Claims past their deadline are ended. *)
Definition expire_claim : D W unit :=
  let* g := getg in
  match claim_owner (g_claim g) with
  | None => returnM tt
  | Some i =>
      let* now := now_us in
      whenM (claim_deadline (g_claim g) <? now)
        (let* cl := get_client i in
         log_warn ("claim by client " +:+ dec (c_id cl) +:+ " expired") ;;
         log_debug ("C" +:+ dec (c_id cl) +:+ " CLAIM expired") ;;
         claim_end true)
  end.

(** The timeout passed to [epoll_wait]: -1 waits for ever. *)
Definition wait_timeout (g : glob) : Z :=
  if negb (n_queued (g_qs g) =? 0) then 0
  else match claim_owner (g_claim g) with Some _ => 100 | None => -1 end.

(** One turn of [while (!g.stop)] with the descriptors [epoll_wait] reports. *)
Definition loop_turn (fuel : nat) (ready : list (option nat)) : D W unit :=
  forM ready handle_event ;; expire_claim ;; drain_queues fuel 64.

End Daemon.
