(* ===== verification/Invariant.v ===== *)
(** * The invariant of the daemon and its bookkeeping

    [inv] is the well-formedness of the whole state: the queue structure and
    its items, the client table, the claim, the diagnostics.  [owes] adds the
    accounting of requests: every request is either still queued, being
    executed, or has been answered exactly once, to the client it came from. *)
From S2P Require Import Prelude Bytes Proto Fmt State Queue Log Spi Exec Mailbox Daemon.

(** ** Well-formedness *)

(** The command line of the daemon: the names it prints fit its text buffer. *)
Definition cfg_ok (cf : config) : Prop :=
  0 <= cf_pad cf <= SPI_PAD_MAX /\ - 2 ^ 31 <= cf_freq cf < 2 ^ 31 /\
  (String.length (cf_dev cf) + String.length (default "on" (cf_rst_line cf)) <= Z.to_nat 1024)%nat.

Definition item_ok (it : qitem) : Prop :=
  length (q_body it) = SPIPROXY_MSG_MAX /\ bytes_ok (q_body it) /\
  (q_c it < MAX_CLIENTS)%nat /\ hdr_ok (q_hdr it).

(** A pointer to a slot in use. *)
Definition connected (cls : list client) (c : nat) : Prop :=
  exists cl, cls !! c = Some cl /\ c_used cl = true.

Definition claim_wf (cls : list client) (cs : claim_state) : Prop :=
  length (claim_cleanup cs) = SPIPROXY_BATCH_MAX /\ Forall op_ok (claim_cleanup cs) /\
  0 <= claim_ncleanup cs <= Z.of_nat SPIPROXY_BATCH_MAX /\ is_u64 (claim_deadline cs) /\
  match claim_owner cs with
  | Some o => connected cls o
  | None => claim_ncleanup cs = 0 /\ claim_deadline cs = 0
  end.

(** The queues hold [qa], the free list [fa]; the items [busy] are executing. *)
Record inv (qa : list (list nat)) (fa busy : list nat) (g : glob) : Prop := {
  inv_diag : diag_ok g;
  inv_cl : cl_ok g;
  inv_cfg : cfg_ok (g_cfg g);
  inv_cid : is_u32 (g_next_cid g);
  inv_claim : claim_wf (g_cl g) (g_claim g);
  inv_rep : rep (g_qs g) qa fa busy;
  inv_items : Forall item_ok (pool (g_qs g));
  inv_live i : i ∈ busy ++ concat qa ->
    exists it, pool (g_qs g) !! i = Some it /\ connected (g_cl g) (q_c it) }.

Lemma inv_ctx qa fa busy g : inv qa fa busy g -> lctx_ok g -> ctx_ok g.
Proof. intros I Hl. split_and!; try apply I. done. Qed.

(** ** Requests and answers *)

(** Destination, type byte and sequence number of a response. *)
Definition answer : Type := Z * Z * Z.

Definition answer_of (e : event) : option answer :=
  match e with
  | EvSend fd msg _ => let h := hdr_decode msg in Some (fd, h_type h, h_seq h)
  | _ => None
  end.
Definition answers (ev : list event) : list answer := omap answer_of ev.

(** The answer a request with header [h] of the client in slot [c] is owed. *)
Definition key_of (cls : list client) (c : nat) (h : hdr) : answer :=
  (default 0 (c_fd <$> cls !! c), Z.lor (h_type h) SPIPROXY_RESP, h_seq h).

Definition req_key (g : glob) (i : nat) : answer :=
  match pool (g_qs g) !! i with
  | Some it => key_of (g_cl g) (q_c it) (q_hdr it)
  | None => (0, 0, 0)
  end.
Definition queued_keys (g : glob) (qa : list (list nat)) : list answer := req_key g <$> concat qa.

(** The message [send_resp] transmits. *)
Definition response (req : hdr) (x : spiproxy_status) (body : list Z) : list Z :=
  hdr_encode (Hdr SPIPROXY_VER (Z.lor (h_type req) SPIPROXY_RESP) (status_code x) (h_seq req)
                  (Z.of_nat (length body))) ++ body.

(** A datagram of the protocol: the response to a request, of a legal size. *)
Definition wf_message (msg : list Z) : Prop :=
  exists req x body, hdr_ok req /\ (length body <= SPIPROXY_MSG_MAX)%nat /\ msg = response req x body.

(** Every datagram sent so far is one. *)
Definition wire_ok (out : list event) : Prop :=
  forall fd msg sent, EvSend fd msg sent ∈ out -> wf_message msg.

Lemma wire_ok_app ev out :
  Forall (fun e => answer_of e = None) ev -> wire_ok out -> wire_ok (ev ++ out).
Proof.
  intros Hev H fd msg sent [Hin|Hin]%elem_of_app; [|by eapply H].
  rewrite Forall_forall in Hev. apply Hev in Hin. done.
Qed.

Lemma wire_ok_send fd msg sent out : wf_message msg -> wire_ok out -> wire_ok (EvSend fd msg sent :: out).
Proof. intros Hm H fd' msg' sent' [Heq|Hin]%elem_of_cons; [by simplify_eq|by eapply H]. Qed.

(** Only the statistics of a client may change. *)
Definition same_client (c c' : client) : Prop :=
  c_fd c' = c_fd c /\ c_used c' = c_used c /\ c_id c' = c_id c /\ c_pid c' = c_pid c /\
  c_comm c' = c_comm c.

#[export] Instance same_client_equiv : Equivalence same_client.
Proof. split; red; unfold same_client; intuition congruence. Qed.

(** What handling requests leaves alone; what it sends is well formed. *)
Definition frame {W} {WW : World W} (s s' : st W) : Prop :=
  g_cfg (st_g s') = g_cfg (st_g s) /\ g_next_cid (st_g s') = g_next_cid (st_g s) /\
  g_stop (st_g s') = g_stop (st_g s) /\ Forall2 same_client (g_cl (st_g s)) (g_cl (st_g s')) /\
  w_time (st_w s) <= w_time (st_w s') /\ (wire_ok (st_out s) -> wire_ok (st_out s')).

#[export] Instance same_clients_preorder : PreOrder (Forall2 same_client).
Proof. split; apply _. Qed.

Lemma same_clients_sym l l' : Forall2 same_client l l' -> Forall2 same_client l' l.
Proof. intros H. apply Forall2_flip. eapply Forall2_impl; [exact H|]. intros x y Hxy. by apply (symmetry (R := same_client)). Qed.

Lemma frame_trans {W} {WW : World W} (s1 s2 s3 : st W) : frame s1 s2 -> frame s2 s3 -> frame s1 s3.
Proof.
  intros (? & ? & ? & Hc1 & ? & ?) (? & ? & ? & Hc2 & ? & ?). split_and!; try congruence; [|lia|auto].
  by transitivity (g_cl (st_g s2)).
Qed.

Lemma same_clients_lookup l l' i c :
  Forall2 same_client l l' -> l !! i = Some c -> exists c', l' !! i = Some c' /\ same_client c c'.
Proof. intros H Hc. by eapply Forall2_lookup_l in H. Qed.

Lemma same_clients_connected l l' i :
  Forall2 same_client l l' -> connected l i -> connected l' i.
Proof.
  intros H (c & Hc & Hu). destruct (same_clients_lookup _ _ _ _ H Hc) as (c' & Hc' & He).
  exists c'. split; [done|]. destruct He as (_ & -> & _). done.
Qed.

Lemma same_clients_fd l l' i :
  Forall2 same_client l l' -> default 0 (c_fd <$> l' !! i) = default 0 (c_fd <$> l !! i).
Proof.
  intros H. destruct (l !! i) as [c|] eqn:Hc.
  - destruct (same_clients_lookup _ _ _ _ H Hc) as (c' & -> & He). cbn. apply He.
  - pose proof (Forall2_length _ _ _ H) as Hl. apply lookup_ge_None in Hc.
    rewrite (proj2 (lookup_ge_None l' i)) by lia. done.
Qed.

Lemma claim_wf_clients l l' cs : Forall2 same_client l l' -> claim_wf l cs -> claim_wf l' cs.
Proof.
  intros H (H1 & H2 & H3 & H4 & Ho). do 4 (split; [done|]).
  destruct (claim_owner cs); [by eapply same_clients_connected|done].
Qed.

Section Owes.
Context {W : Type} {WW : World W} {WO : WorldOk W WW}.

(** Ghost description of a run: its first state, all requests that were queued
    then, and a bound on the number of queued requests. *)
Record ghost := Ghost { gh_start : st W; gh_keys : list answer; gh_max : nat }.

(** [owes gh busy owed s]: since the start of the run, the requests split into
    those still queued, the answers sent, and the [owed] ones. *)
Definition owes (gh : ghost) (busy : list nat) (owed : list answer) (s : st W) : Prop :=
  exists qa fa ev, inv qa fa busy (st_g s) /\ frame (gh_start gh) s /\
    st_out s = ev ++ st_out (gh_start gh) /\
    gh_keys gh ≡ₚ owed ++ answers ev ++ queued_keys (st_g s) qa /\
    (length (concat qa) <= gh_max gh)%nat.

(** A run that starts now, with answers already owed. *)
Lemma owes_owing qa fa busy owed (s : st W) :
  inv qa fa busy (st_g s) ->
  owes (Ghost s (owed ++ queued_keys (st_g s) qa) (length (concat qa))) busy owed s.
Proof. intros I. by exists qa, fa, []. Qed.

Lemma owes_start qa fa busy (s : st W) :
  inv qa fa busy (st_g s) ->
  owes (Ghost s (queued_keys (st_g s) qa) (length (concat qa))) busy [] s.
Proof.
  intros I. by exists qa, fa, [].
Qed.

Lemma answers_none ev : Forall (fun e => answer_of e = None) ev -> answers ev = [].
Proof.
  unfold answers. induction 1 as [|e ev He Hev IH]; [done|]. cbn. by rewrite He.
Qed.

(** A step that keeps the structure and sends nothing. *)
Lemma owes_step gh busy owed (s s' : st W) ev :
  owes gh busy owed s ->
  (forall qa fa, inv qa fa busy (st_g s) -> inv qa fa busy (st_g s')) ->
  frame s s' -> (forall i, req_key (st_g s') i = req_key (st_g s) i) ->
  st_out s' = ev ++ st_out s -> Forall (fun e => answer_of e = None) ev ->
  owes gh busy owed s'.
Proof.
  intros (qa & fa & ev0 & I & F & Ho & Hk & Hm) Hinv HF Hkey Hout Hev.
  exists qa, fa, (ev ++ ev0). split; [auto|]. split; [by eapply frame_trans|].
  split; [by rewrite Hout, Ho, app_assoc|]. split; [|done].
  unfold answers. rewrite omap_app. fold (answers ev). rewrite (answers_none _ Hev). cbn [app].
  rewrite Hk. assert (queued_keys (st_g s') qa = queued_keys (st_g s) qa) as ->; [|done].
  apply list_fmap_ext. auto.
Qed.

(** Nothing but parts outside the invariant changes. *)
Lemma inv_same qa fa busy g g' :
  inv qa fa busy g -> diag_ok g' -> g_cl g' = g_cl g -> g_cfg g' = g_cfg g ->
  g_next_cid g' = g_next_cid g -> g_claim g' = g_claim g -> g_qs g' = g_qs g -> inv qa fa busy g'.
Proof.
  intros I Hd Hcl Hcfg Hcid Hclaim Hqs. split; unfold cl_ok; rewrite ?Hcl, ?Hcfg, ?Hcid, ?Hclaim, ?Hqs;
    done || apply I.
Qed.

Lemma req_key_same g g' i : g_cl g' = g_cl g -> g_qs g' = g_qs g -> req_key g' i = req_key g i.
Proof. unfold req_key. by intros -> ->. Qed.

Lemma frame_same (s s' : st W) :
  g_cfg (st_g s') = g_cfg (st_g s) -> g_next_cid (st_g s') = g_next_cid (st_g s) ->
  g_stop (st_g s') = g_stop (st_g s) -> g_cl (st_g s') = g_cl (st_g s) ->
  w_time (st_w s) <= w_time (st_w s') -> (wire_ok (st_out s) -> wire_ok (st_out s')) -> frame s s'.
Proof. intros ? ? ? Hc ? ?. split_and!; try done. by rewrite Hc. Qed.

Lemma op_event_quiet e : op_event e -> answer_of e = None.
Proof. destruct e; cbn; try done. by intros [?|?]. Qed.

Lemma owes_quiet gh busy owed (s s' : st W) :
  owes gh busy owed s -> qstep s s' -> owes gh busy owed s'.
Proof.
  intros H ((? & ? & ? & ? & ? & ? & ? & ?) & Hd & Ht & ev & Ho & Hev).
  assert (Forall (fun e => answer_of e = None) ev) as Hquiet
    by (eapply Forall_impl; [exact Hev|apply op_event_quiet]).
  eapply (owes_step _ _ _ s s' ev); [done| | | |done|done].
  - intros qa fa I. by apply (inv_same qa fa busy (st_g s)).
  - apply frame_same; try done. rewrite Ho. by apply wire_ok_app.
  - intros i. by apply req_key_same.
Qed.

(** Changes of the log context, the mailbox flag and the claim. *)
Lemma owes_lctx gh busy owed f (s : st W) :
  owes gh busy owed s -> owes gh busy owed (St (set_g_lctx f (st_g s)) (st_w s) (st_out s)).
Proof.
  intros H. eapply (owes_step _ _ _ s _ []); try done.
  intros qa fa I. apply (inv_same qa fa busy (st_g s)); try done. apply I.
Qed.

Lemma owes_inflight gh busy owed f (s : st W) :
  owes gh busy owed s -> owes gh busy owed (St (set_g_mb_inflight f (st_g s)) (st_w s) (st_out s)).
Proof.
  intros H. eapply (owes_step _ _ _ s _ []); try done.
  intros qa fa I. apply (inv_same qa fa busy (st_g s)); try done. apply I.
Qed.

Lemma inv_set_claim qa fa busy f g :
  inv qa fa busy g -> claim_wf (g_cl g) (f (g_claim g)) -> inv qa fa busy (set_g_claim f g).
Proof. intros I Hc. split; cbn; done || apply I. Qed.

Lemma owes_claim gh busy owed f (s : st W) :
  owes gh busy owed s ->
  (claim_wf (g_cl (st_g s)) (g_claim (st_g s)) -> claim_wf (g_cl (st_g s)) (f (g_claim (st_g s)))) ->
  owes gh busy owed (St (set_g_claim f (st_g s)) (st_w s) (st_out s)).
Proof.
  intros H Hf. eapply (owes_step _ _ _ s _ []); try done.
  intros qa fa I. apply inv_set_claim; [done|]. apply Hf, I.
Qed.

(** Events that are not responses. *)
Lemma owes_events gh busy owed w' ev (s : st W) :
  owes gh busy owed s -> w_time (st_w s) <= w_time w' ->
  Forall (fun e => answer_of e = None) ev -> owes gh busy owed (St (st_g s) w' (ev ++ st_out s)).
Proof.
  intros H Ht Hev. eapply (owes_step _ _ _ s _ ev); try done.
  apply frame_same; try done. by apply wire_ok_app.
Qed.

(** Statistics of a client. *)
Lemma same_clients_insert (l : list client) i c c' :
  l !! i = Some c -> same_client c c' -> Forall2 same_client l (<[i := c']> l).
Proof.
  intros Hc Hs. rewrite <-(list_insert_id l i c Hc) at 1. by apply Forall2_insert.
Qed.

Lemma inv_clients qa fa busy g l' :
  inv qa fa busy g -> Forall2 same_client (g_cl g) l' -> Forall client_ok l' ->
  inv qa fa busy (set_g_cl (fun _ => l') g).
Proof.
  intros I Hs Hok. split; cbn; try apply I.
  - split; [|done]. cbn. rewrite <-(Forall2_length _ _ _ Hs). apply I.
  - eapply claim_wf_clients; [done|apply I].
  - intros i Hi. destruct (inv_live _ _ _ _ I i Hi) as (it & Hit & Hc). exists it.
    split; [done|]. by eapply same_clients_connected.
Qed.

Lemma owes_client gh busy owed i c f (s : st W) :
  owes gh busy owed s -> g_cl (st_g s) !! i = Some c -> same_client c (f c) ->
  (client_ok c -> client_ok (f c)) ->
  owes gh busy owed (St (set_g_cl (fun cl => <[i := f c]> cl) (st_g s)) (st_w s) (st_out s)).
Proof.
  intros H Hc Hs Hok. pose proof (same_clients_insert _ _ _ _ Hc Hs) as Hsl.
  eapply (owes_step _ _ _ s _ []); try done.
  - intros qa fa I. apply (inv_clients qa fa busy (st_g s)); [done..|].
    pose proof (inv_cl _ _ _ _ I) as [_ Hall]. apply Forall_insert; [done|].
    apply Hok. by eapply Forall_lookup_1.
  - intros j. unfold req_key, key_of. cbn. destruct (pool _ !! j); [|done].
    by rewrite (same_clients_fd _ _ _ Hsl).
Qed.

(** Writing the body of an item back. *)
Lemma inv_set_body qa fa busy g i it body :
  inv qa fa busy g -> pool (g_qs g) !! i = Some it ->
  length body = SPIPROXY_MSG_MAX -> bytes_ok body ->
  inv qa fa busy (set_g_qs (set_pool (fun p => <[i := set_q_body (fun _ => body) it]> p)) g).
Proof.
  intros I Hi Hl Hb. split; cbn; try apply I.
  - apply rep_set_body; [apply I|done].
  - pose proof (inv_items _ _ _ _ I) as Hit. apply Forall_insert; [done|].
    pose proof (Forall_lookup_1 _ _ _ _ Hit Hi) as (_ & _ & ? & ?). by split_and!.
  - intros j Hj. destruct (inv_live _ _ _ _ I j Hj) as (jt & Hjt & Hc).
    destruct (decide (i = j)) as [<-|Hne].
    + rewrite list_lookup_insert_eq by (by eapply lookup_lt_Some). simplify_eq. eauto.
    + rewrite list_lookup_insert_ne by done. eauto.
Qed.

Lemma owes_body gh busy owed i it body (s : st W) :
  owes gh busy owed s -> pool (g_qs (st_g s)) !! i = Some it ->
  length body = SPIPROXY_MSG_MAX -> bytes_ok body ->
  owes gh busy owed
    (St (set_g_qs (set_pool (fun p => <[i := set_q_body (fun _ => body) it]> p)) (st_g s))
        (st_w s) (st_out s)).
Proof.
  intros H Hi Hl Hb. eapply (owes_step _ _ _ s _ []); try done.
  - intros qa fa I. by apply inv_set_body.
  - intros j. unfold req_key. cbn. destruct (decide (i = j)) as [<-|Hne].
    + rewrite list_lookup_insert_eq by (by eapply lookup_lt_Some). by rewrite Hi.
    + by rewrite list_lookup_insert_ne.
Qed.

(** Moving items between the lists. *)
Lemma item_ok_payload it it' : payload it' = payload it -> item_ok it -> item_ok it'.
Proof. unfold payload, item_ok. intros H. injection H as -> -> ->. done. Qed.

Lemma items_same qs qs' : same_payloads qs qs' -> Forall item_ok (pool qs) -> Forall item_ok (pool qs').
Proof.
  intros Hp Hall. apply Forall_lookup. intros i it Hi.
  destruct (lookup_same_payload qs qs' i it Hp Hi) as (it0 & Hi0 & He).
  eapply item_ok_payload; [exact He|]. by eapply Forall_lookup_1.
Qed.

Lemma lookup_payload qs qs' i it :
  same_payloads qs qs' -> pool qs !! i = Some it ->
  exists it', pool qs' !! i = Some it' /\ payload it' = payload it.
Proof.
  intros Hp Hi. destruct (lookup_same_payload qs' qs i it) as (it' & ? & ?); [|done|eauto].
  unfold same_payloads in *. congruence.
Qed.

Lemma inv_requeue qa fa busy qa' fa' busy' g qs' :
  inv qa fa busy g -> same_payloads (g_qs g) qs' -> rep qs' qa' fa' busy' ->
  (forall i, i ∈ busy' ++ concat qa' -> i ∈ busy ++ concat qa) ->
  inv qa' fa' busy' (set_g_qs (fun _ => qs') g).
Proof.
  intros I Hp HR Hin. split; cbn; try apply I; [done| |].
  - eapply items_same; [done|apply I].
  - intros i Hi. destruct (inv_live _ _ _ _ I i (Hin i Hi)) as (it & Hit & Hc).
    destruct (lookup_payload _ _ _ _ Hp Hit) as (it' & Hit' & He).
    exists it'. split; [done|]. unfold payload in He. injection He as -> _ _. done.
Qed.

Lemma req_key_payload g qs' i :
  same_payloads (g_qs g) qs' -> req_key (set_g_qs (fun _ => qs') g) i = req_key g i.
Proof.
  intros Hp. unfold req_key. cbn. destruct (pool (g_qs g) !! i) as [it|] eqn:Hi.
  - destruct (lookup_payload _ _ _ _ Hp Hi) as (it' & -> & He). unfold payload in He.
    injection He as -> -> _. done.
  - destruct (pool qs' !! i) as [it'|] eqn:Hi'; [|done].
    destruct (lookup_same_payload _ _ _ _ Hp Hi') as (? & ? & _). congruence.
Qed.

Lemma queued_keys_payload g qs' qa :
  same_payloads (g_qs g) qs' -> queued_keys (set_g_qs (fun _ => qs') g) qa = queued_keys g qa.
Proof. intros Hp. apply list_fmap_ext. intros. by apply req_key_payload. Qed.

(** The scheduler takes an item: its answer becomes owed. *)
Lemma owes_take gh busy owed (s : st W) elig :
  owes gh busy owed s ->
  match take_eligible elig (g_qs (st_g s)) with
  | Ok (Some i, qs') =>
      owes (Ghost (gh_start gh) (gh_keys gh) (gh_max gh - 1)) (i :: busy)
        (req_key (st_g s) i :: owed)
        (St (set_g_qs (fun _ => set_n_queued (fun n => n - 1) qs') (st_g s)) (st_w s) (st_out s)) /\
      eligb elig (pool (g_qs (st_g s))) i = true /\ (1 <= gh_max gh)%nat /\
      same_payloads (g_qs (st_g s)) qs'
  | Ok (None, _) => True
  | Fail _ => False
  end.
Proof.
  intros (qa & fa & ev & I & F & Ho & Hk & Hm).
  pose proof (take_eligible_refines elig _ qa fa busy (inv_rep _ _ _ _ I)) as Ht.
  pose proof (pick_spec (eligb elig (pool (g_qs (st_g s)))) qa) as Hp.
  destruct (pick _ qa) as [[i qa']|]; [|by rewrite Ht].
  destruct Ht as (qs' & -> & HR & Hpl). pose proof (chosen_perm _ _ _ _ Hp) as Hperm.
  assert (same_payloads (g_qs (st_g s)) (set_n_queued (fun n => n - 1) qs')) as Hpl' by done.
  pose proof (Permutation_length Hperm) as Hlen. cbn in Hlen.
  split; [|split_and!; [by destruct Hp as (? & ? & ? & ? & ? & ? & _)|lia|done]].
  exists qa', fa, ev. split_and!; try done.
  - eapply inv_requeue; [done..|]. intros j. rewrite !elem_of_app, Hperm, !elem_of_cons. naive_solver.
  - cbn [gh_keys st_g]. rewrite queued_keys_payload, Hk by done. unfold queued_keys.
    rewrite Hperm. cbn [fmap list_fmap]. solve_Permutation.
  - cbn. lia.
Qed.

(** A finished item goes back to the free list. *)
Lemma owes_release gh busy owed i (s : st W) :
  owes gh (i :: busy) owed s ->
  exists qs', release_item i (g_qs (st_g s)) = Ok qs' /\
    owes gh busy owed (St (set_g_qs (fun _ => qs') (st_g s)) (st_w s) (st_out s)).
Proof.
  intros (qa & fa & ev & I & F & Ho & Hk & Hm). destruct (inv_rep _ _ _ _ I) as [R T Hn].
  destruct (release_item_spec _ _ _ _ _ R) as (qs' & Hs & R' & Hqh & Hqt & Hn' & Hp).
  exists qs'. split; [done|]. exists qa, (i :: fa), ev. split_and!; try done.
  - eapply inv_requeue; [done..| |].
    + split; [done| |congruence]. intros q l Hl. rewrite Hqt. by apply T.
    + intros j. rewrite !elem_of_app, elem_of_cons. naive_solver.
  - cbn [st_g]. by rewrite queued_keys_payload.
Qed.

(** A response settles an answer. *)
Lemma owes_send gh busy k owed fd msg sent w' (s : st W) :
  owes gh busy (k :: owed) s -> w_time (st_w s) <= w_time w' -> wf_message msg ->
  answer_of (EvSend fd msg sent) = Some k ->
  owes gh busy owed (St (st_g s) w' (EvSend fd msg sent :: st_out s)).
Proof.
  intros (qa & fa & ev & I & F & Ho & Hk & Hm) Ht Hmsg Ha.
  exists qa, fa, (EvSend fd msg sent :: ev). split; [done|]. split.
  { eapply frame_trans; [exact F|]. apply frame_same; try done. by apply wire_ok_send. }
  split; [by cbn; rewrite Ho|]. split; [|done]. rewrite Hk. unfold answers. cbn [omap list_omap].
  rewrite Ha. cbn. solve_Permutation.
Qed.

Lemma owes_max gh busy owed m (s : st W) :
  owes (Ghost (gh_start gh) (gh_keys gh) m) busy owed s -> (m <= gh_max gh)%nat ->
  owes gh busy owed s.
Proof.
  intros (qa & fa & ev & I & F & Ho & Hk & Hm) Hle. exists qa, fa, ev. split_and!; try done.
  cbn in Hm. lia.
Qed.

End Owes.
