(* ===== verification/Handlers.v ===== *)
(** * Correctness of the request handlers

    Every handler keeps the invariant, stays inside its buffers and answers
    its request exactly once.  The statements are weakest preconditions for an
    arbitrary set of admitted faults that excludes out-of-bounds accesses, so
    they serve both the safety and the termination theorems. *)
From S2P Require Import Prelude Bytes Proto Fmt State Queue Log Spi Exec Mailbox Daemon Invariant.

Section Handlers.
Context {W : Type} {WW : World W} {WO : WorldOk W WW} {RG : Regs}
  {BE : Backend W} {BO : BackendOk W WW BE}.
Implicit Types (s : st W) (E : fault -> Prop).

(** Parts a response leaves alone. *)
Definition resp_keeps s s' : Prop :=
  g_mb_inflight (st_g s') = g_mb_inflight (st_g s) /\ g_lctx (st_g s') = g_lctx (st_g s) /\
  g_claim (st_g s') = g_claim (st_g s) /\ w_time (st_w s) <= w_time (st_w s').

(** The message was handed to the kernel, which took it or not, and only log
    lines followed. *)
Definition sent (fd : Z) (msg : list Z) s s' : Prop :=
  exists w ev, st_out s' = ev ++ EvSend fd msg (0 <=? snd (w_send w fd msg)) :: st_out s /\
    Forall is_log_event ev.

Lemma log_event_answer e : is_log_event e -> answer_of e = None.
Proof. by destruct e. Qed.

Lemma log_answers ev : Forall is_log_event ev -> answers ev = [].
Proof. intros H. apply answers_none. eapply Forall_impl; [exact H|apply log_event_answer]. Qed.

Lemma owes_logged gh busy owed w' ev s :
  owes gh busy owed s -> w_time (st_w s) <= w_time w' -> Forall is_log_event ev ->
  owes gh busy owed (St (st_g s) w' (ev ++ st_out s)).
Proof.
  intros H Ht Hev. apply owes_events; [done..|].
  eapply Forall_impl; [exact Hev|apply log_event_answer].
Qed.

Lemma lor_resp_u8 t : is_u8 t -> is_u8 (Z.lor t SPIPROXY_RESP).
Proof. unfold is_u8, SPIPROXY_RESP. intros H. apply (lor_bound _ _ 8); lia. Qed.

Lemma status_code_range x : 0 <= status_code x <= 6.
Proof. destruct x; cbn; lia. Qed.

(** The header of a response, as its receiver decodes it. *)
Lemma response_hdr_ok req x n :
  hdr_ok req -> 0 <= n < 2 ^ 32 ->
  hdr_ok (Hdr SPIPROXY_VER (Z.lor (h_type req) SPIPROXY_RESP) (status_code x) (h_seq req) n).
Proof.
  intros (_ & Ht & _ & Hs & _) Hn. pose proof (status_code_range x). unfold hdr_ok; cbn.
  split_and!; try done; try (unfold is_u8, is_u16, is_u32, SPIPROXY_VER; lia).
  by apply lor_resp_u8.
Qed.

Lemma response_hdr req x body rest :
  hdr_ok req -> Z.of_nat (length body) < 2 ^ 32 ->
  hdr_decode (response req x body ++ rest) =
  Hdr SPIPROXY_VER (Z.lor (h_type req) SPIPROXY_RESP) (status_code x) (h_seq req)
      (Z.of_nat (length body)).
Proof.
  intros Hh Hl. unfold response. rewrite <-app_assoc. apply hdr_decode_encode, response_hdr_ok; [done|lia].
Qed.

Lemma client_ok_stats c f :
  client_ok c -> client_ok (set_c_n_ops (fun n => u64 (f n)) c) /\
    client_ok (set_c_n_msgs (fun n => u64 (f n)) c) /\ client_ok (set_c_n_err (fun n => u64 (f n)) c).
Proof.
  intros (? & [? ?] & ? & ? & ? & ?). unfold client_ok. cbn. split_and!; auto with spid.
Qed.

Lemma wp_send_resp gh busy owed c cl h x body blen E Q s :
  owes gh busy (key_of (g_cl (st_g s)) c h :: owed) s -> g_cl (st_g s) !! c = Some cl -> hdr_ok h ->
  0 <= blen <= Z.of_nat SPIPROXY_MSG_MAX -> (Z.to_nat blen <= length body)%nat ->
  (forall s', owes gh busy owed s' -> resp_keeps s s' ->
     sent (c_fd cl) (response h x (take (Z.to_nat blen) body)) s s' -> Q tt s') ->
  wp E (send_resp c h x body blen) Q s.
Proof.
  intros HO Hcl Hh Hbl Hbody HQ. unfold send_resp.
  assert (Z.of_nat (length (w_stack (st_w s) MSG_BUF)) = 4108) as Hst.
  { by rewrite (proj1 (w_stack_bytes (st_w s) MSG_BUF)). }
  assert (Z.of_nat SPIPROXY_MSG_MAX = 4096) as Hmm by done. rewrite Hmm in Hbl. clear Hmm.
  set (src := take (Z.to_nat blen) body).
  assert (length src = Z.to_nat blen) as Hsrc by (unfold src; rewrite length_take; lia).
  wp_steps. set (hd := hdr_encode _).
  assert (length hd = 12%nat) as Hhd by apply length_hdr_encode.
  rewrite buf_write_0 by (rewrite Hhd; lia). apply rwp_ok. wp_steps.
  eapply (wp_mono _ _ (fun m s' => s' = s /\ m = (hd ++ src) ++ drop (12 + Z.to_nat blen) (w_stack (st_w s) MSG_BUF))).
  { destruct (Z.eqb_spec blen 0) as [H0|Hne].
    - apply wp_ret. split; [done|]. rewrite Hhd. destruct src; [|cbn in Hsrc; lia].
      rewrite app_nil_r, H0. done.
    - wp_steps. apply rwp_buf_read; [lia|]. rewrite drop_0. fold src. wp_steps.
      rewrite buf_write_at by (rewrite ?length_drop, ?Hhd, ?Hsrc; unfold hdr_size; lia).
      apply rwp_ok. split; [done|]. rewrite drop_drop, Hhd, Hsrc. done. }
  cbn beta. intros ? ? [-> ->]. wp_steps. eapply wp_get_client; [done|]. wp_steps.
  rewrite buf_read_prefix by (rewrite length_app, Hhd, Hsrc; done). apply rwp_ok. wp_steps.
  assert (hd ++ src = response h x src) as ->.
  { unfold response, hd. by rewrite Hsrc, Z2Nat.id by lia. }
  clear hd Hhd. apply wp_ask. intros w' rc Hw. wp_steps.
  pose proof (w_send_time (st_w s) (c_fd cl) (response h x src)) as Ht. rewrite Hw in Ht. cbn [fst] in Ht.
  set (ev := EvSend _ _ _). set (s1 := St (st_g s) w' (ev :: st_out s)).
  assert (owes gh busy owed s1) as H1.
  { eapply owes_send; [exact HO|done| |].
    { exists h, x, src. split; [done|]. split; [rewrite Hsrc; apply Nat2Z.inj_le; change (Z.of_nat SPIPROXY_MSG_MAX) with 4096; lia|done]. }
    cbn [answer_of]. rewrite <-(app_nil_r (response h x src)), response_hdr by (done || lia).
    cbn. unfold key_of. by rewrite Hcl. }
  eapply (wp_mono _ _ (fun _ s' => owes gh busy owed s' /\ resp_keeps s1 s' /\ st_out s' = st_out s1)).
  { apply wp_when; intros _; [|done]. eapply wp_upd_client; [done|]. split; [|done].
    apply owes_client; [done..|]. by apply client_ok_stats. }
  cbn beta. intros _ s2 (H2 & (Hk1 & Hk2 & Hk3 & Hk4) & Ho). apply wp_log_debug.
  intros w3 o3 Ht3 Ho3. change (st_w s1) with w' in Hk4.
  apply HQ; [by apply owes_logged|split_and!; try done; cbn; lia|].
  exists (st_w s), o3. split; [|done]. cbn [st_out]. rewrite Ho. fold src. cbn [st_out s1 ev]. by rewrite Hw.
Qed.

(** An error response without a body. *)
Lemma wp_send_empty gh busy owed c cl h x E Q s :
  owes gh busy (key_of (g_cl (st_g s)) c h :: owed) s -> g_cl (st_g s) !! c = Some cl -> hdr_ok h ->
  (forall s', owes gh busy owed s' -> resp_keeps s s' -> sent (c_fd cl) (response h x []) s s' -> Q tt s') ->
  wp E (send_resp c h x [] 0) Q s.
Proof. intros HO Hcl Hh HQ. eapply wp_send_resp; [done..|lia|cbn; lia|exact HQ]. Qed.

(** ** Claims *)

Lemma owes_inv gh busy owed s : owes gh busy owed s -> exists qa fa, inv qa fa busy (st_g s).
Proof. intros (qa & fa & _ & I & _). eauto. Qed.

Lemma owes_ctx gh busy owed s : owes gh busy owed s -> lctx_ok (st_g s) -> ctx_ok (st_g s).
Proof. intros (qa & fa & I)%owes_inv. by eapply inv_ctx. Qed.

(** Setting the claim table to what an operation left. *)
Lemma claim_wf_insert cls cs i o :
  claim_wf cls cs -> op_ok o -> claim_wf cls (set_claim_cleanup (fun l => <[i := o]> l) cs).
Proof.
  intros (Hl & Hall & Hn & Hd & Ho) Hok. split; cbn; [by rewrite length_insert|].
  split; [by apply Forall_insert|done].
Qed.

(** Only the cleanup table of the claim may differ. *)
Definition same_claim (cs cs' : claim_state) : Prop :=
  claim_owner cs' = claim_owner cs /\ claim_deadline cs' = claim_deadline cs /\
  claim_ncleanup cs' = claim_ncleanup cs.

(** Time passes; the client table, the queues and the mailbox flag stay as they
    are. *)
Definition same_tables s s' : Prop :=
  g_cl (st_g s') = g_cl (st_g s) /\ g_qs (st_g s') = g_qs (st_g s) /\
  g_mb_inflight (st_g s') = g_mb_inflight (st_g s) /\ w_time (st_w s) <= w_time (st_w s').

Lemma wp_run_cleanup gh busy owed i E s :
  owes gh busy owed s -> lctx_ok (st_g s) -> (i < SPIPROXY_BATCH_MAX)%nat ->
  wp E (run_cleanup i) (fun _ s' => owes gh busy owed s' /\ g_lctx (st_g s') = g_lctx (st_g s) /\
    same_tables s s' /\ same_claim (g_claim (st_g s)) (g_claim (st_g s'))) s.
Proof.
  intros HO Hlx Hi. destruct (owes_inv _ _ _ _ HO) as (qa & fa & I).
  pose proof (inv_claim _ _ _ _ I) as (Hl & Hall & _).
  destruct (lookup_lt_is_Some_2 (claim_cleanup (g_claim (st_g s))) i) as [o Ho]; [lia|].
  pose proof (Forall_lookup_1 _ _ _ _ Hall Ho) as Hok.
  unfold run_cleanup. wp_steps. eapply rwp_arr_get; [done|]. wp_steps.
  apply wp_exec_op; [by eapply owes_ctx|done|done|]. intros x v s1 _ Hv _ Hq _. wp_steps.
  pose proof (owes_quiet _ _ _ _ _ HO Hq) as H1.
  destruct Hq as ((_ & Hcl & _ & Hqs & Hc & Hm & Hlc & _) & _ & Ht & _).
  split; [|split_and!; cbn; try done; by rewrite Hc].
  apply owes_claim; [done|]. intros Hwf. apply claim_wf_insert; [done|]. by apply op_set_val_ok.
Qed.

(** After a claim ends the device is free, whatever happened to it. *)
Lemma wp_claim_end gh busy owed abnormal E Q s :
  owes gh busy owed s ->
  (forall s', owes gh busy owed s' -> (lctx_ok (st_g s) -> lctx_ok (st_g s')) ->
     same_tables s s' -> claim_owner (g_claim (st_g s')) = None -> Q tt s') ->
  wp E (claim_end abnormal) Q s.
Proof.
  intros HO HQ. destruct (owes_inv _ _ _ _ HO) as (qa & fa & I).
  pose proof (inv_claim _ _ _ _ I) as (Hl & Hall & Hn & Hd & Hown).
  pose proof (inv_cl _ _ _ _ I) as [Hcl _].
  unfold claim_end. wp_steps.
  eapply (wp_mono _ _ (fun r s' => s' = s /\
    match snd (fst r) with CommClient i => (i < MAX_CLIENTS)%nat | CommLit _ => True | CommNull => False end)).
  { destruct (claim_owner (g_claim (st_g s))) as [o|]; [|by apply wp_ret].
    destruct Hown as (cl & Hc & _). wp_steps. eapply wp_get_client; [done|]. apply wp_ret.
    split; [done|]. cbn. rewrite <-Hcl. by eapply lookup_lt_Some. }
  cbn beta. intros [[id comm] text] ? [-> Hcomm]. cbn [fst snd] in Hcomm.
  wp_steps. apply wp_log_debug. intros w1 o1 Ht1 Ho1. set (s1 := St (st_g s) w1 (o1 ++ st_out s)).
  assert (owes gh busy owed s1) as H1 by by apply owes_logged.
  apply wp_bind. eapply (wp_mono _ _ (fun _ s' => owes gh busy owed s' /\
    (lctx_ok (st_g s) -> lctx_ok (st_g s')) /\ same_tables s s')).
  { apply wp_when; intros _; [|done]. wp_steps. apply wp_log_msg. intros w2 o2 Ht2 Ho2.
    unfold set_lctx. wp_steps. set (s3 := St _ _ _).
    assert (owes gh busy owed s3) as H3
      by (apply (owes_lctx _ _ _ _ (St (st_g s) w2 _)); by apply (owes_logged _ _ _ _ _ s1)).
    assert (lctx_ok (st_g s3)) as Hlx by (unfold lctx_ok; cbn; by destruct comm).
    eapply (wp_for _ (fun s' => owes gh busy owed s' /\ lctx_ok (st_g s') /\
      same_tables s s')).
    - change (st_w s1) with w1 in Ht2. split_and!; [done..|]. split_and!; try done. cbn. lia.
    - intros k s4 Hk (H4 & Hlx4 & Hcl4 & Hqs4 & Hm4 & Ht4). apply elem_of_seq in Hk.
      eapply wp_mono; [apply (wp_run_cleanup gh busy owed); [done..|lia]|].
      cbn beta. intros _ s5 (H5 & Hx & (Hcl5 & Hqs5 & Hm5 & Ht5) & _). split; [done|].
      split; [unfold lctx_ok in *; by rewrite Hx|]. split_and!; congruence || lia.
    - intros s4 (H4 & Hlx4 & Ht4). wp_steps. split; [by apply owes_lctx|]. split; [|done].
      intros _. exact Hlx4. }
  cbn beta. intros _ s4 (H4 & Hlx4 & Ht4). wp_steps. apply HQ; [|done..].
  apply owes_claim; [done|]. intros (? & ? & _). split_and!; cbn; try done; unfold is_u64; lia.
Qed.

(** ** Requests *)

(** Item [i], a request of client [c] with header [h] and body [body], has been
    executing since [s0] and has not been answered. *)
Record at_item (gh : ghost) (busy : list nat) (owed : list answer) (i c : nat) (h : hdr)
    (body : list Z) (s0 s : st W) : Prop := {
  ai_owes : owes gh (i :: busy) (key_of (g_cl (st_g s)) c h :: owed) s;
  ai_lctx : lctx_ok (st_g s);
  ai_client : connected (g_cl (st_g s)) c;
  ai_item : is_Some (pool (g_qs (st_g s)) !! i);
  ai_hdr : hdr_ok h;
  ai_body : length body = SPIPROXY_MSG_MAX /\ bytes_ok body;
  ai_time : w_time (st_w s0) <= w_time (st_w s);
  ai_inflight : g_mb_inflight (st_g s) = true -> g_mb_inflight (st_g s0) = true }.

(** The request has been answered. *)
Definition answered (gh : ghost) (busy : list nat) (owed : list answer) (s0 : st W) (u : unit) s'
    : Prop :=
  owes gh busy owed s' /\ lctx_ok (st_g s') /\ w_time (st_w s0) <= w_time (st_w s') /\
  (g_mb_inflight (st_g s') = true -> g_mb_inflight (st_g s0) = true).

Section Item.
Context (gh : ghost (W := W)) (busy : list nat) (owed : list answer) (i c : nat) (h : hdr)
  (body : list Z) (s0 : st W).
Abbreviation item := (at_item gh busy owed i c h body s0).

Lemma item_same s s' :
  item s -> owes gh (i :: busy) (key_of (g_cl (st_g s)) c h :: owed) s' -> lctx_ok (st_g s') ->
  same_tables s s' -> item s'.
Proof.
  intros A HO Hlx (Hcl & Hqs & Hm & Ht). pose proof (ai_time _ _ _ _ _ _ _ _ _ A).
  split; rewrite ?Hcl, ?Hqs, ?Hm; done || lia || apply A.
Qed.

Lemma item_quiet s s' : item s -> qstep s s' -> item s'.
Proof.
  intros A Hq. pose proof Hq as ((_ & Hcl & _ & Hqs & _ & Hm & Hlx & _) & _ & Ht & _).
  eapply item_same; [done|eapply owes_quiet; [apply A|done]| |done].
  unfold lctx_ok. rewrite Hlx. apply A.
Qed.

Lemma item_logged s w' ev :
  item s -> w_time (st_w s) <= w_time w' -> Forall is_log_event ev ->
  item (St (st_g s) w' (ev ++ st_out s)).
Proof.
  intros A Ht Hev. eapply item_same; [done|apply owes_logged; [apply A|done..]|apply A|done].
Qed.

Lemma wp_reply x b blen E s :
  item s -> 0 <= blen <= Z.of_nat SPIPROXY_MSG_MAX -> (Z.to_nat blen <= length b)%nat ->
  wp E (send_resp c h x b blen) (answered gh (i :: busy) owed s0) s.
Proof.
  intros A Hbl Hb. destruct (ai_client _ _ _ _ _ _ _ _ _ A) as (cl & Hcl & _).
  pose proof (ai_time _ _ _ _ _ _ _ _ _ A).
  eapply wp_send_resp; [apply A|done|apply A|done..|].
  intros s' H' (Hk1 & Hk2 & _ & Ht) _. split; [done|]. unfold lctx_ok. rewrite Hk1, Hk2.
  split; [apply A|]. split; [lia|apply A].
Qed.

Lemma wp_reply_empty x E s :
  item s -> wp E (send_resp c h x [] 0) (answered gh (i :: busy) owed s0) s.
Proof. intros A. apply wp_reply; [done|lia|cbn; lia]. Qed.

Lemma wp_store_body body' E Q s :
  item s -> length body' = SPIPROXY_MSG_MAX -> bytes_ok body' ->
  (forall s', item s' -> Q tt s') -> wp E (store_body i body') Q s.
Proof.
  intros A Hl Hb HQ. unfold store_body. wp_steps. destruct (ai_item _ _ _ _ _ _ _ _ _ A) as [it Hit].
  eapply rwp_arr_get; [done|]. wp_steps. apply HQ. split; cbn; try apply A.
  - apply owes_body; [apply A|done..].
  - rewrite list_lookup_insert_eq; [done|]. by eapply lookup_lt_Some.
Qed.

Lemma wp_count_ops f E Q s :
  item s -> (forall s', item s' -> Q tt s') ->
  wp E (upd_client c (set_c_n_ops (fun n => u64 (f n)))) Q s.
Proof.
  intros A HQ. pose proof (ai_client _ _ _ _ _ _ _ _ _ A) as (cl & Hcl & Hu).
  eapply wp_upd_client; [done|]. apply HQ.
  assert (Forall2 same_client (g_cl (st_g s))
    (<[c := set_c_n_ops (fun n => u64 (f n)) cl]> (g_cl (st_g s)))) as Hs
    by (eapply same_clients_insert; [done|]; done).
  split; cbn; try apply A.
  - unfold key_of. rewrite (same_clients_fd _ _ _ Hs).
    apply owes_client; [apply A|done..|]. intros H. by apply client_ok_stats.
  - eapply same_clients_connected; [done|apply A].
Qed.

Lemma item_claim f g w o :
  item (St g w o) -> (claim_wf (g_cl g) (g_claim g) -> claim_wf (g_cl g) (f (g_claim g))) ->
  item (St (set_g_claim f g) w o).
Proof.
  intros A Hf. eapply item_same; [done| |apply A|done].
  apply (owes_claim _ _ _ f (St g w o)); [apply A|done].
Qed.

Lemma item_claim_wf s : item s -> claim_wf (g_cl (st_g s)) (g_claim (st_g s)).
Proof.
  intros A. destruct (owes_inv _ _ _ _ (ai_owes _ _ _ _ _ _ _ _ _ A)) as (qa & fa & I).
  exact (inv_claim _ _ _ _ I).
Qed.

Lemma item_slot s : item s -> (c < MAX_CLIENTS)%nat.
Proof.
  intros A. destruct (owes_inv _ _ _ _ (ai_owes _ _ _ _ _ _ _ _ _ A)) as (qa & fa & I).
  destruct (ai_client _ _ _ _ _ _ _ _ _ A) as (cl & Hcl & _). rewrite <-(proj1 (inv_cl _ _ _ _ I)).
  by eapply lookup_lt_Some.
Qed.

Lemma item_ctx s : item s -> ctx_ok (st_g s).
Proof. intros A. eapply owes_ctx; apply A. Qed.

(** An operation of the item. *)
Lemma wp_item_op o E Q s :
  item s -> op_ok o -> (forall x o' s', item s' -> op_ok o' -> Q (x, o') s') ->
  wp E (exec_op (Some c) o) Q s.
Proof.
  intros A Ho HQ. apply wp_exec_op; [by apply item_ctx|done|intros k [= <-]; by eapply item_slot|].
  intros x v s1 _ Hv _ Hq _. apply HQ; [by eapply item_quiet|by apply op_set_val_ok].
Qed.

End Item.

Lemma op_at_ok E body off Q :
  (off + op_size <= length body)%nat -> bytes_ok body ->
  (forall o, op_ok o -> Q o) -> rwp E (op_at body off) Q.
Proof.
  intros Hl Hb H. unfold op_at. apply rwp_bind, rwp_buf_read; [done|]. apply rwp_ok, H.
  auto with spid.
Qed.

Lemma splice_ok (body src : list Z) off :
  (off + length src <= length body)%nat -> bytes_ok body -> bytes_ok src ->
  length (take off body ++ src ++ drop (off + length src) body) = length body /\
  bytes_ok (take off body ++ src ++ drop (off + length src) body).
Proof. intros Hl Hb Hs. split; [by apply length_buf_splice|auto with spid]. Qed.

Lemma msg_max_big : Z.of_nat SPIPROXY_MSG_MAX = 4096.
Proof. done. Qed.

Section Cases.
Context (gh : ghost (W := W)) (busy : list nat) (owed : list answer) (i c : nat) (h : hdr)
  (body : list Z) (s0 : st W).
Abbreviation item := (at_item gh busy owed i c h body s0).
Abbreviation answered := (answered gh (i :: busy) owed s0).

Lemma item_body s : item s -> length body = SPIPROXY_MSG_MAX /\ bytes_ok body.
Proof. apply ai_body. Qed.

Lemma wp_exec_single write E s : item s -> wp E (exec_single i c h body write) answered s.
Proof.
  intros A. destruct (item_body s A) as [Hl Hb]. pose proof msg_max_big as Hmm.
  unfold exec_single. apply wp_if; intros _; [by eapply wp_reply_empty|]. wp_steps.
  apply op_at_ok; [unfold op_size; lia|done|]. intros o Ho. wp_steps.
  eapply wp_item_op; [done|by apply op_set_write_ok; [|unfold is_u8; destruct write; lia]|].
  intros x o' s1 A1 Ho'. wp_steps.
  assert (0 + length (op_encode o') <= length body)%nat as Hle
    by (rewrite length_op_encode; unfold op_size; lia).
  apply rwp_buf_write; [done|]. destruct (splice_ok body (op_encode o') 0 Hle Hb ltac:(auto with spid)) as [Hl' Hb'].
  wp_steps. eapply wp_store_body; [done|congruence|done|]. intros s2 A2. wp_steps.
  eapply (wp_count_ops _ _ _ _ _ _ _ _ (fun n => n + 1)); [done|]. intros s3 A3.
  eapply wp_reply; [done|unfold op_size; lia|]. rewrite Hl'. unfold op_size. lia.
Qed.

Lemma wp_batch_loop n k b E Q s :
  item s -> length b = length body -> bytes_ok b -> ((k + n) * op_size <= length body)%nat ->
  (forall x k' b' s', item s' -> length b' = length body -> bytes_ok b' -> Q (x, k', b') s') ->
  wp E (batch_loop n k c b) Q s.
Proof.
  revert k b s. induction n as [|n IH]; intros k b s A Hl Hb Hn HQ; cbn [batch_loop].
  { by apply wp_ret, HQ. }
  unfold op_size in Hn. wp_steps. apply op_at_ok; [unfold op_size; lia|done|]. intros o Ho. wp_steps.
  eapply wp_item_op; [done..|]. intros x o' s1 A1 Ho'. wp_steps.
  assert (k * op_size + length (op_encode o') <= length b)%nat as Hle
    by (rewrite length_op_encode; unfold op_size; lia).
  apply rwp_buf_write; [done|].
  destruct (splice_ok b (op_encode o') _ Hle Hb ltac:(auto with spid)) as [Hl' Hb'].
  destruct (decide (x = SPIPROXY_OK)).
  - apply IH; [done|congruence|done|unfold op_size; lia|done].
  - apply wp_ret, HQ; congruence || done.
Qed.

Lemma wp_exec_batch E s : item s -> wp E (exec_batch i c h body) answered s.
Proof.
  intros A. destruct (item_body s A) as [Hl Hb]. pose proof msg_max_big as Hmm.
  destruct (ai_hdr _ _ _ _ _ _ _ _ _ A) as (_ & _ & _ & _ & Hlen). unfold is_u32 in Hlen.
  unfold exec_batch. apply wp_if; intros Hchk; [by eapply wp_reply_empty|].
  apply orb_false_iff in Hchk as [[Hlo%Z.ltb_ge Hhi%Z.ltb_ge]%orb_false_iff Hmod%negb_false_iff%Z.eqb_eq].
  unfold op_size, SPIPROXY_BATCH_MAX in *. wp_steps.
  eapply wp_batch_loop; [done..|unfold op_size; dlia|]. intros x k b s1 A1 Hl1 Hb1. wp_steps.
  eapply wp_store_body; [done|congruence|done|]. intros s2 A2. wp_steps.
  eapply (wp_count_ops _ _ _ _ _ _ _ _ (fun n => n + Z.of_nat k)); [done|]. intros s3 A3.
  eapply wp_reply; [done|dlia|dlia].
Qed.

Lemma wp_exec_release E s : item s -> wp E (exec_release c h) answered s.
Proof.
  intros A. unfold exec_release. wp_steps. eapply (wp_mono _ _ (fun _ s' => item s')).
  - apply wp_when; intros _; [|done].
    eapply wp_claim_end; [apply A|]. intros s' H' Hlx Ht _.
    eapply item_same; [done..| |done]. apply Hlx, A.
  - cbn beta. intros _ s1 A1. by eapply wp_reply_empty.
Qed.

Lemma ops_decode_ok n l : bytes_ok l -> length (ops_decode n l) = n /\ Forall op_ok (ops_decode n l).
Proof.
  revert l. induction n as [|n IH]; intros l Hl; cbn [ops_decode length]; [by split|].
  destruct (IH (drop op_size l)) as [-> H]; [auto with spid|]. split; [done|].
  constructor; [auto with spid|done].
Qed.

Lemma wp_exec_claim E s : item s -> wp E (exec_claim c h body) answered s.
Proof.
  intros A. destruct (item_body s A) as [Hl Hb]. pose proof msg_max_big as Hmm.
  pose proof (ai_client _ _ _ _ _ _ _ _ _ A) as Hcon. destruct Hcon as (cl & Hcl & Hu).
  unfold exec_claim. apply wp_if; intros _; [by eapply wp_reply_empty|]. wp_steps.
  apply rwp_buf_read; [unfold claim_size; lia|]. set (cr := claim_decode _).
  assert (claim_ok cr) as (Hms & Hn & _) by (unfold cr; auto with spid). unfold is_u16 in Hn.
  apply wp_if; intros Hchk; [by eapply wp_reply_empty|].
  apply orb_false_iff in Hchk as [Hmax%Z.ltb_ge Hlen%negb_false_iff%Z.eqb_eq].
  unfold SPIPROXY_BATCH_MAX in Hmax.
  wp_steps. apply wp_if; intros _; [by eapply wp_reply_empty|]. wp_steps.
  eapply wp_get_client; [done|]. wp_steps.
  assert (item (St (set_g_claim (set_claim_owner (fun _ => Some c)) (st_g s)) (st_w s) (st_out s))) as A1.
  { apply item_claim; [by destruct s|]. intros (? & ? & ? & ? & _). do 4 (split; [done|]). cbn. by exists cl. }
  apply wp_log_debug. intros w2 o2 Ht2 Ho2. pose proof (item_logged _ _ _ _ _ _ _ _ _ _ _ A1 Ht2 Ho2) as A2.
  wp_steps. apply wp_now_time. intros w3 Ht3. cbn [st_w st_g st_out] in *.
  pose proof (item_logged _ _ _ _ _ _ _ _ _ w3 [] A2 ltac:(cbn; lia) ltac:(constructor)) as A3.
  wp_steps. apply rwp_buf_read; [unfold claim_size, op_size; lia|]. wp_steps. set (src := take _ _).
  assert (bytes_ok src) as Hsrc by (unfold src; auto with spid).
  destruct (ops_decode_ok (Z.to_nat (cl_ncleanup cr)) src Hsrc) as [Hol Hoa].
  destruct (item_claim_wf _ _ _ _ _ _ _ _ _ A3) as [Hwl _].
  eapply rwp_arr_fill; [exact Hol|refine (eq_ind_r (le _) _ Hwl); unfold SPIPROXY_BATCH_MAX; lia|]. wp_steps.
  eapply wp_reply_empty. apply item_claim; [apply item_claim; [apply item_claim; [exact A3|]|]|].
  - intros (? & ? & ? & _ & ?). do 3 (split; [done|]). split; [apply u64_range|done].
  - intros (? & ? & _ & ? & ?). do 2 (split; [done|]). split; [cbn [claim_ncleanup set_claim_ncleanup]; unfold SPIPROXY_BATCH_MAX; lia|done].
  - intros (Hcl0 & Hca & Hrest). split; [|split; [|done]]; cbn [claim_cleanup set_claim_cleanup].
    + rewrite length_app, length_drop, Hol, Hcl0. unfold SPIPROXY_BATCH_MAX. lia.
    + apply Forall_app_2; [done|by apply Forall_drop].
Qed.

(** ** Reset *)

Lemma item_reset s w' ev :
  item s -> w_time (st_w s) <= w_time w' -> Forall is_reset_event ev ->
  item (St (set_g_mb_inflight (fun _ => false) (st_g s)) w' (ev ++ st_out s)).
Proof.
  intros A Ht Hev. pose proof (ai_time _ _ _ _ _ _ _ _ _ A).
  split; cbn [st_g st_w g_mb_inflight set_g_mb_inflight]; try done; try lia; try apply A.
  apply (owes_inflight _ _ _ (fun _ => false) (St (st_g s) w' (ev ++ st_out s))).
  apply owes_events; [apply A|done|]. eapply Forall_impl; [exact Hev|]. by intros [].
Qed.

Lemma wp_exec_reset E s : item s -> wp E (exec_reset c h body) answered s.
Proof.
  intros A. destruct (item_body s A) as [Hl Hb]. pose proof msg_max_big as Hmm.
  destruct (ai_client _ _ _ _ _ _ _ _ _ A) as (cl & Hcl & Hu).
  unfold exec_reset. apply wp_if; intros _; [by eapply wp_reply_empty|].
  wp_steps. apply wp_if; intros _; [by eapply wp_reply_empty|]. wp_steps.
  apply rwp_buf_read; [unfold reset_size; lia|]. unfold clear_inflight. wp_steps.
  eapply wp_fault_mono; [|apply gpio_pulse_reset_ok]; [done|]. intros w1 o1 Ht1 Ho1.
  pose proof (item_reset s w1 o1 A Ht1 Ho1) as A1. cbn [st_g st_w st_out] in *.
  wp_steps. eapply wp_get_client; [done|]. wp_steps. apply wp_log_debug. intros w2 o2 Ht2 Ho2.
  eapply wp_reply_empty. exact (item_logged _ _ _ _ _ _ _ _ _ _ _ A1 Ht2 Ho2).
Qed.

End Cases.

(** ** The text buffer *)

Lemma snprintf_at_ok E txt len t Q :
  0 <= len <= Z.of_nat (length txt) ->
  (forall txt', length txt' = length txt -> Q (txt', len + Z.of_nat (String.length t))) ->
  rwp E (snprintf_at txt len t) Q.
Proof.
  intros Hlen HQ. unfold snprintf_at. rewrite (proj2 (Z.ltb_ge _ _)) by lia.
  set (room := (length txt - Z.to_nat len)%nat). set (out := if (room =? 0)%nat then _ else _).
  assert (length out <= room)%nat as Hout.
  { unfold out. destruct (Nat.eqb_spec room 0); [cbn; lia|].
    rewrite length_app, length_str_bytes. pose proof (trunc_length room t). cbn. lia. }
  apply rwp_bind, rwp_buf_write; [unfold room in *; lia|]. apply rwp_ok, HQ.
  apply length_buf_splice. unfold room in *. lia.
Qed.

(** Lengths of the lines. *)
Lemma trace_line_length e : te_ok e -> (String.length (trace_line e) <= 54)%nat.
Proof.
  intros (H1 & H2 & H3 & H4 & H5 & H6 & H7). unfold trace_line. rewrite !slen_app.
  pose proof (dec_u64_length _ H1). pose proof (dec_u32_length _ H2).
  assert (String.length (dec (te_slice e)) <= 1)%nat
    by (apply dec_length; unfold SLICE_COUNT in H3; cbn; lia).
  assert (String.length (hex 2 (te_mmd e)) = 2%nat) as ->
    by (apply hex_case_length; [unfold is_u8 in H5; cbn; lia|lia]).
  assert (String.length (hex 4 (te_reg e)) = 4%nat) as ->
    by (apply hex_case_length; [unfold is_u16 in H6; cbn; lia|lia]).
  assert (String.length (hex 8 (te_val e)) = 8%nat) as ->
    by (apply hex_case_length; [unfold is_u32 in H7; cbn; lia|lia]).
  assert (String.length (if te_write e =? 0 then "R" else "W") = 1%nat) as -> by by destruct (_ =? _).
  cbn [String.length nl]. lia.
Qed.

Lemma trace_lines_ok n ring w txt len E Q :
  length ring = TRACE_RING -> Forall te_ok ring -> Z.of_nat (length txt) = 4096 ->
  0 <= len <= 4096 ->
  (forall txt' len', length txt' = length txt -> 0 <= len' <= 4096 -> Q (txt', len')) ->
  rwp E (trace_lines n ring w txt len) Q.
Proof.
  intros Hr Hte. revert w txt len. induction n as [|n IH]; intros w txt len Htx Hlen HQ;
    cbn [trace_lines]; [by apply rwp_ok, HQ|].
  rewrite msg_max_big. unfold TRACE_LINE_MAX.
  destruct (Z.ltb_spec len (4096 - 64)) as [Hlt|]; [|by apply rwp_ok, HQ].
  destruct (lookup_lt_is_Some_2 ring (Z.to_nat (w mod Z.of_nat TRACE_RING))) as [e He].
  { rewrite Hr. apply ring_index. unfold TRACE_RING. lia. }
  apply rwp_bind. eapply rwp_arr_get; [done|]. apply rwp_bind, snprintf_at_ok; [lia|].
  intros txt' Hl'. pose proof (trace_line_length e (Forall_lookup_1 _ _ _ _ Hte He)).
  apply IH; [lia|lia|]. intros txt'' len'' Hl''. apply HQ. congruence.
Qed.

Lemma client_line_length cl : client_ok cl -> (String.length (client_line cl) <= 131)%nat.
Proof.
  intros (H1 & H2 & H3 & H4 & H5 & H6). unfold client_line. rewrite !slen_app.
  pose proof (dec_u32_length _ H1). pose proof (dec_int_length _ H2).
  pose proof (dec_u64_length _ H4). pose proof (dec_u64_length _ H5). pose proof (dec_u64_length _ H6).
  unfold COMM_PATH_MAX in H3. cbn [String.length nl]. lia.
Qed.

Lemma stats_clients_ok cls txt len E Q :
  Forall client_ok cls -> 0 <= len -> len + 131 * Z.of_nat (length cls) <= Z.of_nat (length txt) ->
  (forall txt' len', length txt' = length txt -> 0 <= len' <= Z.of_nat (length txt) -> Q (txt', len')) ->
  rwp E (stats_clients cls txt len) Q.
Proof.
  intros Hall. revert txt len. induction Hall as [|cl cls Hcl Hall IH]; intros txt len H0 Hlen HQ;
    cbn [stats_clients]; [apply rwp_ok, HQ; [done|]; cbn in Hlen; lia|].
  cbn [length] in Hlen. destruct (c_used cl).
  - apply rwp_bind, snprintf_at_ok; [lia|]. intros txt' Hl'.
    pose proof (client_line_length cl Hcl).
    apply IH; [lia|rewrite Hl'; lia|]. intros txt'' len'' Hl''. rewrite Hl'. apply HQ. congruence.
  - apply IH; [lia|lia|done].
Qed.

Lemma stats_line_length g cid :
  cfg_ok (g_cfg g) -> cnt_ok (g_cnt g) -> is_u32 cid -> 0 <= n_queued (g_qs g) <= 256 ->
  (String.length (stats_line g cid) <= Z.to_nat 1300)%nat.
Proof.
  intros (Hp & Hf & Hn) (H1 & H2 & H3 & H4) Hc Hq. unfold stats_line. rewrite !slen_app.
  pose proof (dec_u64_length _ H1). pose proof (dec_u64_length _ H2).
  pose proof (dec_u64_length _ H3). pose proof (dec_u64_length _ H4).
  pose proof (dec_u32_length _ Hc). pose proof (dec_int_length _ Hf).
  unfold SPI_PAD_MAX in Hp.
  pose proof (dec_int_length (cf_pad (g_cfg g)) ltac:(lia)).
  pose proof (dec_int_length (n_queued (g_qs g)) ltac:(lia)).
  pose proof (dec_int_length (bit (g_mb_inflight g)) ltac:(unfold bit; destruct (g_mb_inflight g); lia)).
  assert (String.length (if (0 <=? cf_rst_fd (g_cfg g))%Z then default "on" (cf_rst_line (g_cfg g)) else "off")
    <= String.length (default "on"%string (cf_rst_line (g_cfg g))) + 3)%nat by (destruct (_ <=? _); cbn [String.length]; lia).
  cbn [String.length nl]. lia.
Qed.

(** The queue counter stays within the pool. *)
Lemma inv_n_queued qa fa busy g : inv qa fa busy g -> 0 <= n_queued (g_qs g) <= 256.
Proof.
  intros I. destruct (inv_rep _ _ _ _ I) as [R _ ->].
  pose proof (Permutation_length (lrep_perm _ _ _ _ R)) as Hp.
  rewrite length_seq, !length_app in Hp. unfold MAX_QITEMS in Hp. lia.
Qed.

Section TextCases.
Context (gh : ghost (W := W)) (busy : list nat) (owed : list answer) (i c : nat) (h : hdr)
  (body : list Z) (s0 : st W).
Abbreviation item := (at_item gh busy owed i c h body s0).
Abbreviation answered := (answered gh (i :: busy) owed s0).

Lemma txt_length s : Z.of_nat (length (w_stack (st_w s) SPIPROXY_MSG_MAX)) = 4096.
Proof. by rewrite (proj1 (w_stack_bytes (st_w s) SPIPROXY_MSG_MAX)). Qed.

Lemma wp_exec_trace E s : item s -> wp E (exec_trace c h) answered s.
Proof.
  intros A. destruct (owes_inv _ _ _ _ (ai_owes _ _ _ _ _ _ _ _ _ A)) as (qa & fa & I).
  pose proof (inv_diag _ _ _ _ I) as (Hr & Hte & _). pose proof (txt_length s) as Htx.
  unfold exec_trace. wp_steps. apply trace_lines_ok; [done..|lia|].
  intros txt len Hl Hlen. wp_steps. rewrite u32_id by (unfold is_u32; lia).
  eapply wp_reply; [done|rewrite msg_max_big; lia|lia].
Qed.

Lemma wp_exec_stats E s : item s -> wp E (exec_stats c h) answered s.
Proof.
  intros A. destruct (owes_inv _ _ _ _ (ai_owes _ _ _ _ _ _ _ _ _ A)) as (qa & fa & I).
  pose proof (inv_diag _ _ _ _ I) as (_ & _ & _ & Hcnt & _). pose proof (txt_length s) as Htx.
  pose proof (inv_cl _ _ _ _ I) as [Hcl Hall].
  pose proof (inv_n_queued _ _ _ _ I) as Hq.
  unfold exec_stats. wp_steps.
  eapply (wp_mono _ _ (fun cid s' => s' = s /\ is_u32 cid)).
  { pose proof (inv_claim _ _ _ _ I) as (_ & _ & _ & _ & Hown).
    destruct (claim_owner _) as [o|]; [|apply wp_ret; split; [done|unfold is_u32; lia]].
    destruct Hown as (cl & Ho & _). wp_steps. eapply wp_get_client; [done|]. apply wp_ret.
    split; [done|]. eapply Forall_lookup_1 in Hall as (? & _); done. }
  cbn beta. intros cid ? [-> Hcid]. wp_steps.
  pose proof (stats_line_length (st_g s) cid (inv_cfg _ _ _ _ I) Hcnt Hcid Hq) as Hsl.
  apply snprintf_at_ok; [lia|]. intros txt1 Hl1. wp_steps.
  apply stats_clients_ok; [done|lia|rewrite Hl1, Hcl; unfold MAX_CLIENTS; lia|].
  intros txt2 len2 Hl2 Hlen2. wp_steps. rewrite u32_id by (unfold is_u32; lia).
  eapply wp_reply; [done|rewrite msg_max_big; lia|lia].
Qed.

End TextCases.

End Handlers.
