(* ===== verification/Scheduler.v ===== *)
(** * Correctness of the scheduler

    [exec_item] answers its request whatever its type, and [drain_queues]
    keeps the invariant and the accounting.  The mailbox transaction is used
    through its contract, which [drain_queues] with less fuel discharges. *)
From S2P Require Import Prelude Bytes Proto Fmt State Queue Log Spi Exec Mailbox Daemon Invariant.
From S2P Require Import Handlers.

Section Scheduler.
Context {W : Type} {WW : World W} {WO : WorldOk W WW} {RG : Regs}
  {BE : Backend W} {BO : BackendOk W WW BE}.
Implicit Types (s : st W) (E : fault -> Prop).

(** What the wait of a mailbox transaction relies on. *)
Definition drain_spec (gh : ghost) E (drain : nat -> D W unit) : Prop :=
  forall busy owed s, owes gh busy owed s -> lctx_ok (st_g s) ->
    wp E (drain 4%nat) (fun _ s' => owes gh busy owed s' /\ lctx_ok (st_g s') /\
      w_time (st_w s) <= w_time (st_w s')) s.

(** Fuel may run out, or there is enough for [n] nested requests. *)
Definition enough E (n fuel : nat) : Prop :=
  E OutOfFuel \/ (MB_POLL_DELAY_US (W := W) = 1000 /\ Z.of_nat n + POLL_FUEL <= Z.of_nat fuel).

Section Item.
Context (gh : ghost (W := W)) (busy : list nat) (owed : list answer) (i c : nat) (h : hdr)
  (body : list Z) (s0 : st W).
Abbreviation item := (at_item gh busy owed i c h body s0).
Abbreviation answered := (answered gh (i :: busy) owed s0).
Context (E : fault -> Prop) (fuel : nat) (drain : nat -> D W unit).
Context (Hdrain : drain_spec gh E drain) (Hfuel : enough E 0 fuel).

Definition unanswered (k : answer) s : Prop :=
  owes gh (i :: busy) (k :: owed) s /\ lctx_ok (st_g s).
Definition later s s' : Prop := w_time (st_w s) <= w_time (st_w s').

Instance item_contract k : DrainContract (unanswered k) later E drain.
Proof.
  split.
  - intros s [HO Hlx]. by eapply owes_ctx.
  - intros s s' [HO Hlx] Hq. split; [|apply Hq]. split; [by eapply owes_quiet|].
    destruct Hq as ((_ & _ & _ & _ & _ & _ & Hl & _) & _). unfold lctx_ok. by rewrite Hl.
  - intros s b [HO Hlx]. split; [|red; cbn; lia]. split; [by apply owes_inflight|done].
  - intros s us [HO Hlx]. pose proof (w_do_time (st_w s) (EvUsleep us)) as Ht. split; [|exact Ht].
    split; [|done]. apply (owes_events _ _ _ _ [EvUsleep us]); [done..|]. by repeat constructor.
  - unfold later. intros. lia.
  - done.
  - intros s [HO Hlx]. eapply wp_mono; [by apply Hdrain|]. cbn. intros _ s' (H1 & H2 & H3). done.
Qed.

(** The request is still ours after other requests were drained. *)
Lemma item_resume s s' :
  item s -> unanswered (key_of (g_cl (st_g s)) c h) s' -> later s s' ->
  (g_mb_inflight (st_g s') = true -> g_mb_inflight (st_g s) = true) -> item s'.
Proof.
  intros A [HO Hlx] Ht Hm. pose proof (ai_owes _ _ _ _ _ _ _ _ _ A) as H0.
  assert (Forall2 same_client (g_cl (st_g (gh_start gh))) (g_cl (st_g s))) as Hc0.
  { destruct H0 as (? & ? & ? & _ & (_ & _ & _ & ? & _) & _). done. }
  pose proof HO as (qa & fa & ev & I & (_ & _ & _ & Hc1 & _) & _).
  pose proof (ai_time _ _ _ _ _ _ _ _ _ A). unfold later in Ht.
  assert (key_of (g_cl (st_g s')) c h = key_of (g_cl (st_g s)) c h) as Hkey.
  { unfold key_of. by rewrite (same_clients_fd _ _ _ Hc0), (same_clients_fd _ _ _ Hc1). }
  split; try done; try apply A; [by rewrite Hkey| | |lia|].
  - eapply same_clients_connected; [exact Hc1|].
    eapply same_clients_connected; [apply same_clients_sym, Hc0|apply A].
  - destruct (inv_live _ _ _ _ I i) as (it & -> & _); [set_solver|done].
  - intros Hi. apply A. auto.
Qed.

Lemma wp_exec_mb_item s : item s -> wp E (exec_mb_item fuel drain i c h body) answered s.
Proof.
  intros A. destruct (ai_body _ _ _ _ _ _ _ _ _ A) as [Hl Hb]. pose proof msg_max_big as Hmm.
  unfold exec_mb_item. wp_steps. apply rwp_buf_read; [unfold mb_size; lia|]. set (m := mb_decode _).
  assert (mb_ok m) as Hm by (unfold m; auto with spid). wp_steps.
  destruct (w_stack_bytes (st_w s) (mb_size + Z.to_nat SPIPROXY_MB_MAX)) as [Hsl Hsb].
  apply wp_if; intros _; [by eapply wp_reply_empty|]. wp_steps.
  eapply wp_mono.
  { eapply (wp_exec_mailbox (unanswered (key_of (g_cl (st_g s)) c h)) later); [apply item_contract|..].
    - split; apply A.
    - done.
    - rewrite length_drop. unfold mb_size, SPIPROXY_MB_MAX. lia.
    - auto with spid.
    - done.
    - done.
    - destruct Hfuel as [?|[? ?]]; [by left|right]. split; [done|lia]. }
  cbn beta. intros [[[x m'] rlen] resp1] s1 (HO1 & Ht1 & Hi1 & Hm' & _ & Hr & Hrl & Hrb).
  pose proof (item_resume _ _ A HO1 Ht1 Hi1) as A1. wp_steps.
  set (m2 := mb_set_payload_len rlen m').
  assert (Z.of_nat (length resp1) = 1026) as Hrlz by by rewrite Hrl, Hsl. unfold SPIPROXY_MB_MAX in Hr.
  assert (0 + length (mb_encode m2) <= length body)%nat as Hle
    by (rewrite length_mb_encode; unfold mb_size; lia).
  apply rwp_buf_write; [done|]. destruct (splice_ok body (mb_encode m2) 0 Hle Hb ltac:(auto with spid)) as [Hl' Hb'].
  wp_steps. eapply wp_store_body; [done|congruence|done|]. intros s2 A2. wp_steps.
  assert (0 + length (mb_encode m2) <= length resp1)%nat as Hle2
    by (rewrite length_mb_encode; unfold mb_size; lia).
  apply rwp_buf_write; [done|]. destruct (splice_ok resp1 (mb_encode m2) 0 Hle2 Hrb ltac:(auto with spid)) as [Hl2 Hb2].
  unfold mb_size in *.
  eapply wp_reply; [done| |rewrite Hl2]; destruct (decide (x = SPIPROXY_OK)); unfold SPIPROXY_MSG_MAX; lia.
Qed.

End Item.

(** A request of any type, valid or not, is answered exactly once. *)
Lemma wp_exec_item gh busy owed i k E fuel drain s :
  owes gh (i :: busy) (k :: owed) s -> req_key (st_g s) i = k ->
  drain_spec gh E drain -> enough E 0 fuel ->
  wp E (exec_item fuel drain i) (answered gh (i :: busy) owed s) s.
Proof.
  intros HO Hk Hd Hf. destruct (owes_inv _ _ _ _ HO) as (qa & fa & I).
  destruct (inv_live _ _ _ _ I i) as (it & Hit & cl & Hcl & Hu); [set_solver|].
  pose proof (Forall_lookup_1 _ _ _ _ (inv_items _ _ _ _ I) Hit) as (Hbl & Hbb & Hc & Hh).
  unfold exec_item, exec_request. wp_steps. eapply rwp_arr_get; [done|]. wp_steps.
  eapply wp_get_client; [done|]. unfold set_lctx. wp_steps. set (s1 := St _ _ _).
  assert (at_item gh busy owed i (q_c it) (q_hdr it) (q_body it) s s1) as A.
  { split; cbn; try done.
    - unfold req_key in Hk. rewrite Hit in Hk. rewrite Hk. by apply owes_lctx.
    - by exists cl. }
  assert (forall E, wp E (send_resp (q_c it) (q_hdr it) SPIPROXY_ENOSYS [] 0)
    (answered gh (i :: busy) owed s) s1) as Hdefault by (intros; by eapply wp_reply_empty).
  destruct (type_of_code (h_type (q_hdr it))) as [[]|]; try apply Hdefault.
  - by eapply wp_exec_single.
  - by eapply wp_exec_single.
  - by eapply wp_exec_batch.
  - by eapply wp_exec_claim.
  - by eapply wp_exec_release.
  - by eapply wp_exec_mb_item.
  - by eapply wp_exec_stats.
  - by eapply wp_exec_trace.
  - by eapply wp_exec_reset.
Qed.

(** ** Draining *)

(** Guarantee of the scheduler to whoever calls it. *)
Definition drained (gh : ghost) (busy : list nat) (owed : list answer) (s0 : st W) (u : unit) s' : Prop :=
  owes gh busy owed s' /\ (lctx_ok (st_g s0) -> lctx_ok (st_g s')) /\
  w_time (st_w s0) <= w_time (st_w s') /\
  (g_mb_inflight (st_g s') = true -> g_mb_inflight (st_g s0) = true).

Definition gh_less (gh : ghost (W := W)) : ghost := Ghost (gh_start gh) (gh_keys gh) (gh_max gh - 1).

Lemma wp_drain_loop gh budget exec E busy owed s :
  owes gh busy owed s ->
  (forall i owed' k s1, (1 <= gh_max gh)%nat -> owes (gh_less gh) (i :: busy) (k :: owed') s1 ->
     req_key (st_g s1) i = k -> wp E (exec i) (answered (gh_less gh) (i :: busy) owed' s1) s1) ->
  wp E (drain_loop budget exec) (drained gh busy owed s) s.
Proof.
  intros HO Hex.
  enough (forall s1, drained gh busy owed s tt s1 -> wp E (drain_loop budget exec) (drained gh busy owed s) s1)
    as H by (apply H; by split_and!).
  induction budget as [|b IH]; intros s1 Hd; cbn [drain_loop]; [by apply wp_ret|].
  pose proof Hd as (H1 & Hlx & Ht & Hm). wp_steps.
  pose proof (owes_take gh busy owed s1 (item_eligible (claim_owner (g_claim (st_g s1)))) H1) as Htk.
  destruct (take_eligible _ _) as [[[i|] qs']|]; [|by apply rwp_ok|done].
  destruct Htk as (H2 & _ & Hmax & Hp). apply rwp_ok. wp_steps. set (s2 := St _ _ _) in *.
  eapply wp_mono; [eapply (Hex i); [done|exact H2|]|].
  { cbn. by rewrite req_key_payload. }
  cbn beta. intros _ s3 (H3 & Hlx3 & Ht3 & Hm3). wp_steps.
  destruct (owes_release _ _ _ _ _ H3) as (qs3 & -> & H4). apply rwp_ok. wp_steps. apply IH.
  change (w_time (st_w s2)) with (w_time (st_w s1)) in Ht3.
  split; [eapply owes_max; [exact H4|lia]|]. split; [done|]. split; [cbn; lia|]. cbn. auto.
Qed.

Lemma wp_drain_queues fuel : forall gh budget E busy owed s,
  owes gh busy owed s -> enough E (S (gh_max gh)) fuel ->
  wp E (drain_queues fuel budget) (drained gh busy owed s) s.
Proof.
  induction fuel as [|f IH]; intros gh budget E busy owed s HO Hf; cbn [drain_queues].
  { apply wp_fail. destruct Hf as [?|[_ Hf]]; [done|]. unfold POLL_FUEL in Hf. lia. }
  apply wp_drain_loop; [done|]. intros i owed' k s1 Hmax H1 Hk.
  eapply wp_exec_item; [done..| |].
  - intros busy2 owed2 s2 H2 Hlx2. eapply wp_mono.
    + apply IH; [exact H2|]. destruct Hf as [?|[? Hf]]; [by left|right]. split; [done|cbn; lia].
    + cbn beta. intros _ s3 (H3 & Hlx3 & Ht3 & _). split; [done|]. split; [auto|done].
  - destruct Hf as [?|[? Hf]]; [by left|right]. split; [done|lia].
Qed.

End Scheduler.
