(* ===== verification/Exclusive.v ===== *)
(** * Claims exclude other clients

    The scheduler is compared with one that checks, before each execution at
    every nesting level, that the request may touch the device: the two run
    identically from every state, so the check never fires. *)
From S2P Require Import Prelude Bytes Proto State Queue Log Spi Exec Mailbox Daemon.

(** ** The item the scheduler takes *)

Lemma loc_set_payloads qs pp v qs' : loc_set qs pp v = Ok qs' -> same_payloads qs qs'.
Proof.
  unfold loc_set, same_payloads. destruct pp as [q|i].
  - unfold arr_set. case_match; cbn; [|done]. by intros [= <-].
  - unfold arr_get, arr_set. destruct (pool qs !! i) as [it|] eqn:Hi; cbn; [|done].
    case_match; cbn; [|done]. intros [= <-]. cbn. by eapply insert_payload.
Qed.

Lemma unlink_payloads qs q pp i qs' : unlink qs q pp i = Ok qs' -> same_payloads qs qs'.
Proof.
  unfold unlink. destruct (arr_get (pool qs) i) as [it|]; cbn [res_bind]; [|done].
  destruct (loc_set qs pp (q_next it)) as [qs1|] eqn:H1; cbn [res_bind]; [|done].
  apply loc_set_payloads in H1. destruct (arr_get (qt qs1) q) as [tl|]; cbn [res_bind]; [|done].
  destruct (decide _); [|by intros [= <-]]. destruct (arr_get (qh qs1) q) as [h|]; cbn [res_bind]; [|done].
  destruct (walk_tail (walk_fuel qs1) (pool qs1) h) as [t|]; cbn [res_bind]; [|done].
  destruct (arr_set (qt qs1) q t); cbn [res_bind]; [|done]. by intros [= <-].
Qed.

(** The request in item [i] satisfies [elig]. *)
Definition request_ok (elig : nat -> hdr -> bool) (qs : qstate) (i : nat) : Prop :=
  exists it, pool qs !! i = Some it /\ elig (q_c it) (q_hdr it) = true.

Lemma request_ok_payloads elig qs qs' i : same_payloads qs qs' -> request_ok elig qs i -> request_ok elig qs' i.
Proof.
  intros Hp (it & Hi & He). destruct (lookup_same_payload qs' qs i it) as (it' & Hi' & Hpl);
    [unfold same_payloads in *; congruence|done|].
  exists it'. split; [done|]. unfold payload in Hpl. by injection Hpl as <- <- _.
Qed.

Lemma scan_queue_eligible fuel elig qs q i qs' : forall pp,
  scan_queue fuel elig qs q pp = Ok (Some i, qs') -> request_ok elig qs' i.
Proof.
  induction fuel as [|f IH]; intros pp; cbn [scan_queue]; [done|].
  destruct (loc_get qs pp) as [[j|]|]; cbn [res_bind]; [|done..].
  unfold arr_get at 1. destruct (pool qs !! j) as [it|] eqn:Hj; cbn [res_bind]; [|done].
  destruct (elig _ _) eqn:He; [|apply IH].
  destruct (unlink qs q pp j) as [qs1|] eqn:Hu; cbn [res_bind]; [|done]. intros [= <- <-].
  eapply request_ok_payloads; [by eapply unlink_payloads|]. by exists it.
Qed.

Lemma take_eligible_eligible elig qs i qs' :
  take_eligible elig qs = Ok (Some i, qs') -> request_ok elig qs' i.
Proof.
  unfold take_eligible. generalize 3%nat as n. intros n. generalize 0%nat as q. revert qs.
  induction n as [|n IH]; intros qs q; cbn [scan_classes]; [done|].
  destruct (scan_queue _ elig qs q _) as [[[j|] qs1]|] eqn:Hs; cbn [res_bind fst snd]; [| |done].
  - intros [= -> ->]. by eapply scan_queue_eligible.
  - apply IH.
Qed.

(** ** The checked scheduler *)

(** Requests that move data to or from the device. *)
Definition bus_request (h : hdr) : bool :=
  match type_of_code (h_type h) with
  | Some (SPIPROXY_READ | SPIPROXY_WRITE | SPIPROXY_BATCH | SPIPROXY_MAILBOX) => true
  | _ => false
  end.

(** Nobody, or the requester, holds the claim; or the request stays off the bus. *)
Definition may_run (g : glob) (it : qitem) : bool :=
  match claim_owner (g_claim g) with
  | None => true
  | Some o => bool_decide (q_c it = o) || negb (bus_request (q_hdr it))
  end.

Section Checked.
Context {W : Type} {WW : World W} {RG : Regs} {BE : Backend W}.
Implicit Types (s : st W).

Definition checked (exec : nat -> D W unit) (i : nat) : D W unit :=
  let* g := getg in
  let* it := liftM (arr_get (pool (g_qs g)) i) in
  if may_run g it then exec i else failM Oob.

Fixpoint drain_checked (fuel : nat) (budget : nat) : D W unit :=
  match fuel with
  | O => failM OutOfFuel
  | S f => drain_loop budget (checked (exec_item f (drain_checked f)))
  end.

Lemma type_bus h :
  (type_code SPIPROXY_CLAIM <=? h_type h) && negb (h_type h =? type_code SPIPROXY_MAILBOX) = true ->
  bus_request h = false.
Proof.
  intros [Hc%Z.leb_le Hm%negb_true_iff%Z.eqb_neq]%andb_true_iff. unfold bus_request. cbn in Hc, Hm.
  destruct (type_of_code (h_type h)) as [[]|] eqn:Ht; try done; exfalso;
    (destruct (h_type h) as [|p|p]; [done| |done]); cbn in Ht;
    repeat (destruct p as [p|p|]; try done; try lia).
Qed.

Lemma eligible_may_run g it :
  item_eligible (claim_owner (g_claim g)) (q_c it) (q_hdr it) = true -> may_run g it = true.
Proof.
  unfold item_eligible, may_run. destruct (claim_owner (g_claim g)) as [o|]; [|done].
  intros [->|H%type_bus]%orb_true_iff; [done|]. rewrite H. apply orb_true_r.
Qed.

(** Computations that behave alike from every state. *)
Definition same_run {A} (m1 m2 : D W A) : Prop := forall s, m1 s = m2 s.

Lemma same_bind {A B} (m1 m2 : D W A) (k1 k2 : A -> D W B) :
  same_run m1 m2 -> (forall a, same_run (k1 a) (k2 a)) -> same_run (bindM m1 k1) (bindM m2 k2).
Proof. intros Hm Hk s. unfold bindM. rewrite Hm. destruct (m2 s) as [[a s']|]; [apply Hk|done]. Qed.

Lemma same_if {A} (b : bool) (m1 m2 n1 n2 : D W A) :
  same_run m1 m2 -> same_run n1 n2 -> same_run (if b then m1 else n1) (if b then m2 else n2).
Proof. by destruct b. Qed.

Lemma same_refl {A} (m : D W A) : same_run m m.
Proof. done. Qed.

Context (d1 d2 : nat -> D W unit) (Hd : forall n, same_run (d1 n) (d2 n)).

Lemma mb_poll_same fuel slice t_end : forall v,
  same_run (mb_poll fuel d1 slice t_end v) (mb_poll fuel d2 slice t_end v).
Proof.
  induction fuel as [|f IH]; intros v; cbn [mb_poll]; [apply same_refl|].
  apply same_bind; [apply same_refl|]. intros [rc v1]. apply same_if; [apply same_refl|].
  apply same_if; [apply same_refl|]. apply same_bind; [apply same_refl|]. intros now.
  apply same_if; [apply same_refl|]. apply same_bind; [apply Hd|]. intros _.
  apply same_bind; [apply same_refl|]. intros _. apply IH.
Qed.

Lemma exec_mailbox_same fuel m payload resp :
  same_run (exec_mailbox fuel d1 m payload resp) (exec_mailbox fuel d2 m payload resp).
Proof.
  unfold exec_mailbox, mb_transact, mb_await. apply same_if; [apply same_refl|].
  do 3 (apply same_bind; [apply same_refl|]; intros ?).
  apply same_bind; [apply same_refl|]. intros [rc v]. do 2 (apply same_if; [apply same_refl|]).
  apply same_bind; [apply same_refl|]. intros _.
  apply same_bind; [apply same_refl|]. intros [rc1 v1]. apply same_if; [apply same_refl|].
  apply same_bind; [apply same_refl|]. intros [rc2 v2]. apply same_if; [apply same_refl|].
  apply same_bind; [apply same_refl|]. intros now.
  apply same_bind; [apply mb_poll_same|]. intros e. apply same_refl.
Qed.

Lemma exec_item_same fuel i : same_run (exec_item fuel d1 i) (exec_item fuel d2 i).
Proof.
  unfold exec_item, exec_request. do 4 (apply same_bind; [apply same_refl|]; intros ?).
  destruct (type_of_code _) as [[]|]; try apply same_refl. unfold exec_mb_item.
  do 2 (apply same_bind; [apply same_refl|]; intros ?). apply same_if; [apply same_refl|].
  apply same_bind; [apply exec_mailbox_same|]. intros ?. apply same_refl.
Qed.

End Checked.

Section Exclusion.
Context {W : Type} {WW : World W} {RG : Regs} {BE : Backend W}.
Implicit Types (s : st W).

Lemma bind_getg {A} (k : glob -> D W A) s : bindM getg k s = k (st_g s) s.
Proof. done. Qed.
Lemma bind_step {A B} (m : D W A) (k : A -> D W B) s :
  bindM m k s = match m s with Ok (a, s') => k a s' | Fail e => Fail e end.
Proof. done. Qed.
Lemma bind_setg {A} f (k : unit -> D W A) s :
  bindM (setg f) k s = k tt (St (f (st_g s)) (st_w s) (st_out s)).
Proof. done. Qed.
Lemma bind_lift {A B} (r : res A) (k : A -> D W B) s :
  bindM (liftM r) k s = match r with Ok a => k a s | Fail e => Fail e end.
Proof. unfold bindM, liftM. by destruct r. Qed.

Lemma checked_runs (e1 e2 : nat -> D W unit) i s :
  (forall i, same_run (e1 i) (e2 i)) ->
  request_ok (item_eligible (claim_owner (g_claim (st_g s)))) (g_qs (st_g s)) i ->
  e1 i s = checked e2 i s.
Proof.
  intros He (it & Hi & Hel). apply (eligible_may_run (st_g s)) in Hel.
  unfold checked, bindM, getg, liftM. rewrite (arr_get_ok _ _ _ Hi), Hel. apply He.
Qed.

Lemma drain_loop_checked budget (e1 e2 : nat -> D W unit) :
  (forall i, same_run (e1 i) (e2 i)) -> same_run (drain_loop budget e1) (drain_loop budget (checked e2)).
Proof.
  intros He. induction budget as [|b IH]; cbn [drain_loop]; [apply same_refl|].
  intros s. rewrite !bind_getg, !bind_lift.
  destruct (take_eligible _ _) as [[[i|] qs]|] eqn:Ht; [|done..].
  apply take_eligible_eligible in Ht. rewrite !bind_setg.
  rewrite (bind_step (e1 i)), (bind_step (checked e2 i)).
  rewrite (checked_runs e1 e2 i _ He) by exact Ht.
  destruct (checked e2 i _) as [[[] s2]|]; [|done].
  apply same_bind; [apply same_refl|]. intros g'. apply same_bind; [apply same_refl|]. intros qs'.
  apply same_bind; [apply same_refl|]. intros _. apply IH.
Qed.

(** C7: while a client holds the claim, no read, write, batch or mailbox
    request of another client is started: checking the claim before the
    execution of every request, in nested drains too, never makes a difference.
    A request that was started before the claim was granted is carried through:
    the mailbox transaction in whose wait the claim is granted
    ([claim_granted_during_mailbox] in QuirkExamples.v) still uses the bus. *)
Theorem claim_excludes_others fuel budget s :
  drain_queues fuel budget s = drain_checked fuel budget s.
Proof.
  revert budget s. induction fuel as [|f IH]; intros budget s; cbn [drain_queues drain_checked]; [done|].
  apply drain_loop_checked. intros i. apply exec_item_same. intros n. exact (IH n).
Qed.

End Exclusion.
