(* ===== verification/Atomic.v ===== *)
(** * Sequences of operations: batches and claim cleanups

    A batch runs its operations in order, without anything in between, up to
    the first that fails; an abnormal end of a claim runs exactly the cleanup
    operations, a normal one none. *)
From S2P Require Import Prelude Bytes Proto Fmt State Queue Log Spi Exec OpSpec Mailbox Daemon Invariant.
From S2P Require Import Handlers.

(** The [k]-th operation of a byte image. *)
Definition nth_op (body : list Z) (k : nat) : op := op_decode (take op_size (drop (k * op_size) body)).

Lemma op_at_nth body k :
  ((k + 1) * op_size <= length body)%nat -> op_at body (k * op_size) = Ok (nth_op body k).
Proof.
  intros H. unfold op_at, buf_read, op_size in *. rewrite (proj2 (Nat.leb_le _ _)) by lia. done.
Qed.

(** Writing operation [k] back leaves the others alone. *)
Lemma nth_op_store body k o body' :
  ((k + 1) * op_size <= length body)%nat -> op_ok o ->
  buf_write body (k * op_size) (op_encode o) = Ok body' ->
  length body' = length body /\ nth_op body' k = o /\
  drop ((k + 1) * op_size) body' = drop ((k + 1) * op_size) body /\
  take (k * op_size) body' = take (k * op_size) body.
Proof.
  intros Hl Ho. pose proof (length_op_encode o) as Hlo. unfold op_size in *.
  rewrite buf_write_ok by (rewrite Hlo; lia). generalize (op_decode_encode o [] Ho).
  rewrite app_nil_r. generalize dependent (op_encode o). intros enc Hlo Hdec [= <-].
  assert (length (take (k * 12) body) = (k * 12)%nat) as Ht by (rewrite length_take; lia).
  split; [apply length_buf_splice; lia|]. split; [|split].
  - unfold nth_op, op_size. rewrite drop_app_length' by lia. by rewrite take_app_length' by done.
  - rewrite app_assoc, drop_app_length' by (rewrite length_app; lia). f_equal. lia.
  - rewrite take_app_length' by lia. done.
Qed.

Lemma nth_op_take body body' j k :
  (j < k)%nat -> take (k * op_size) body' = take (k * op_size) body -> nth_op body' j = nth_op body j.
Proof.
  intros Hj H. unfold nth_op, op_size in *. rewrite !take_drop_commute.
  assert (forall l : list Z, take (j * 12 + 12) l = take (j * 12 + 12) (take (k * 12) l)) as Hl
    by (intros l; rewrite take_take; f_equal; lia).
  by rewrite (Hl body'), (Hl body), H.
Qed.

Lemma nth_op_drop body body' j k :
  (k <= j)%nat -> drop (k * op_size) body' = drop (k * op_size) body -> nth_op body' j = nth_op body j.
Proof.
  intros Hj H. unfold nth_op. do 2 f_equal. unfold op_size in *.
  replace (j * 12)%nat with (k * 12 + (j - k) * 12)%nat by lia. by rewrite <-!drop_drop, H.
Qed.

Section Batch.
Context {W : Type} {WW : World W} {WO : WorldOk W WW} {RG : Regs}
  {BE : Backend W} {BO : BackendOk W WW BE}.

(** The body after [k] operations ran: their values may have changed. *)
Definition ran_prefix (k0 k : nat) (b b' : list Z) : Prop :=
  length b' = length b /\ bytes_ok b' /\
  drop (k * op_size) b' = drop (k * op_size) b /\ take (k0 * op_size) b' = take (k0 * op_size) b /\
  forall j, (k0 <= j < k)%nat -> exists v, nth_op b' j = op_set_val v (nth_op b j).

Lemma op_set_val_twice v v' o : op_set_val v (op_set_val v' o) = op_set_val v o.
Proof. by destruct o. Qed.

Lemma ran_prefix_step k k' b b1 b' v :
  ((k + 1) * op_size <= length b)%nat -> (S k <= k')%nat ->
  length b1 = length b -> nth_op b1 k = op_set_val v (nth_op b k) ->
  drop ((k + 1) * op_size) b1 = drop ((k + 1) * op_size) b ->
  take (k * op_size) b1 = take (k * op_size) b ->
  ran_prefix (S k) k' b1 b' -> ran_prefix k k' b b'.
Proof.
  unfold ran_prefix, op_size. intros Hl Hk Hl1 Hop Hdrop Htake (Hl' & Hb' & Hd' & Ht' & Hj').
  split; [congruence|]. split; [done|]. split; [|split].
  - rewrite Hd'. replace (k' * 12)%nat with ((k + 1) * 12 + (k' * 12 - (k + 1) * 12))%nat by lia.
    by rewrite <-!drop_drop, Hdrop.
  - assert (forall l : list Z, take (k * 12) l = take (k * 12) (take (S k * 12) l)) as Htt
      by (intros l; rewrite take_take; f_equal; lia).
    by rewrite (Htt b'), Ht', <-Htt.
  - intros j Hj. destruct (decide (j = k)) as [->|Hne].
    + exists v. rewrite <-Hop. apply (nth_op_take _ _ _ (S k)); [lia|exact Ht'].
    + destruct (Hj' j) as [v' ->]; [lia|]. exists v'. f_equal.
      apply (nth_op_drop _ _ _ (k + 1)); [lia|exact Hdrop].
Qed.

Lemma nth_op_ok b k : bytes_ok b -> op_ok (nth_op b k).
Proof. intros. unfold nth_op. auto with spid. Qed.

(** Operations of client [c] one after the other, up to the first that fails: the
    status, and the operations with the results of those that ran; the others are
    not executed and stay as they are. *)
Inductive ops_run (c : nat) : list op -> st W -> spiproxy_status -> list op -> st W -> Prop :=
| run_end s : ops_run c [] s SPIPROXY_OK [] s
| run_next o ops s o' s1 x res s' :
    exec_op (Some c) o s = Ok ((SPIPROXY_OK, o'), s1) -> ops_run c ops s1 x res s' ->
    ops_run c (o :: ops) s x (o' :: res) s'
| run_stop o ops s x o' s1 :
    exec_op (Some c) o s = Ok ((x, o'), s1) -> x <> SPIPROXY_OK -> ops_run c (o :: ops) s x (o' :: ops) s1.

(** The bytes of consecutive operations. *)
Lemma nth_ops_bytes b n : forall k,
  ((k + n) * op_size <= length b)%nat -> bytes_ok b ->
  (nth_op b <$> seq k n) ≫= op_encode = take (n * op_size) (drop (k * op_size) b).
Proof.
  unfold op_size. induction n as [|n IH]; intros k Hl Hb; [done|]. cbn [seq fmap list_fmap mbind list_bind].
  change (op_encode (nth_op b k) ++ ((nth_op b <$> seq (S k) n) ≫= op_encode) = take (S n * 12) (drop (k * 12) b)).
  unfold nth_op at 1, op_size. rewrite op_encode_decode by (unfold op_size; rewrite ?length_take, ?length_drop; auto with spid lia).
  rewrite IH by (done || lia). replace (S n * 12)%nat with (12 + n * 12)%nat by lia.
  rewrite <-(take_take_drop (drop (k * 12) b)), drop_drop. do 3 f_equal. lia.
Qed.

(** The bytes after operation [k] was replaced by [o]. *)
Lemma stored_bytes b k o b1 n :
  ((k + S n) * op_size <= length b)%nat -> buf_write b (k * op_size) (op_encode o) = Ok b1 ->
  take ((k + S n) * op_size) b1 =
    take (k * op_size) b ++ op_encode o ++ take (n * op_size) (drop (S k * op_size) b).
Proof.
  pose proof (length_op_encode o) as Ho. unfold op_size in *. intros Hl. rewrite buf_write_ok by (rewrite Ho; lia).
  generalize dependent (op_encode o). intros enc Ho [= <-]. assert (length (take (k * 12) b) = (k * 12)%nat) as Ht by (rewrite length_take; lia).
  rewrite app_assoc. replace ((k + S n) * 12)%nat with (length (take (k * 12) b ++ enc) + n * 12)%nat
    by (rewrite length_app, Ht, Ho; lia).
  rewrite take_app_add, <-app_assoc, Ho. do 4 f_equal. lia.
Qed.

(** One operation more, before a run of the rest. *)
Lemma batch_next c b k n o' b1 b' x res (s s1 s2 : st W) :
  ((k + S n) * op_size <= length b)%nat -> op_ok o' -> buf_write b (k * op_size) (op_encode o') = Ok b1 ->
  exec_op (Some c) (nth_op b k) s = Ok ((SPIPROXY_OK, o'), s1) ->
  ops_run c (nth_op b1 <$> seq (S k) n) s1 x res s2 ->
  take ((S k + n) * op_size) b' = take (S k * op_size) b1 ++ (res ≫= op_encode) ->
  ops_run c (nth_op b <$> seq k (S n)) s x (o' :: res) s2 /\
  take ((k + S n) * op_size) b' = take (k * op_size) b ++ ((o' :: res) ≫= op_encode).
Proof.
  intros Hl Ho' Hb1 Hrun Hres Hby. unfold op_size in Hl.
  destruct (nth_op_store b k o' b1 ltac:(unfold op_size; lia) Ho' Hb1) as (_ & _ & Hd & _).
  cbn [seq fmap list_fmap]. split.
  - eapply run_next; [exact Hrun|]. replace (nth_op b <$> seq (S k) n) with (nth_op b1 <$> seq (S k) n); [exact Hres|].
    apply list_fmap_ext. intros _ j Hj%list_elem_of_lookup_2%elem_of_seq.
    apply (nth_op_drop _ _ _ (k + 1)); [lia|exact Hd].
  - rewrite <-Nat.add_succ_comm, Hby. cbn [mbind list_bind]. rewrite app_assoc. f_equal.
    pose proof (stored_bytes b k o' b1 0 ltac:(unfold op_size; lia) Hb1) as Hsb.
    rewrite Nat.add_1_r in Hsb. rewrite Hsb, take_0. by rewrite app_nil_r.
Qed.

Lemma wp_batch_prefix n c E Q : forall k b (s : st W),
  ctx_ok (st_g s) -> (c < MAX_CLIENTS)%nat -> ((k + n) * op_size <= length b)%nat -> bytes_ok b ->
  (forall x k' b' s', qstep s s' -> (k <= k' <= k + n)%nat -> (x = SPIPROXY_OK -> k' = k + n)%nat ->
     (x <> SPIPROXY_OK -> (k < k')%nat /\ exec_status (st_g s) (Some c) (nth_op b (k' - 1)) x) ->
     ran_prefix k k' b b' ->
     (exists res, ops_run c (nth_op b <$> seq k n) s x res s' /\
        take ((k + n) * op_size) b' = take (k * op_size) b ++ (res ≫= op_encode)) -> Q (x, k', b') s') ->
  wp E (batch_loop n k c b) Q s.
Proof.
  induction n as [|n IH]; intros k b s Hc Hi Hl Hb HQ; cbn [batch_loop].
  - apply wp_ret, HQ; [by apply qstep_refl|lia|lia|done|split_and!; try done; lia|].
    exists []. split; [constructor|]. by rewrite Nat.add_0_r, app_nil_r.
  - unfold op_size in Hl. wp_steps. rewrite op_at_nth by (unfold op_size; lia). apply rwp_ok.
    pose proof (nth_op_ok b k Hb) as Ho. wp_steps.
    eapply (wp_fault_mono (fun e => E e /\ True)); [tauto|].
    eapply wp_mono; [apply (wp_and E _ _ (fun r s1 => exists x v, r = (x, op_set_val v (nth_op b k)) /\
      exec_status (st_g s) (Some c) (nth_op b k) x /\ is_u32 v /\ qstep s s1)); [|apply wp_outcome]|].
    { apply wp_exec_op; [done..|by intros j [= <-]|]. eauto 10. }
    cbn beta. intros r s1 [(x & v & -> & Hx & Hv & H1) Hrun]. wp_steps.
    pose proof (op_set_val_ok v _ Ho Hv) as Ho'. set (o' := op_set_val v (nth_op b k)) in *.
    assert (exists b1, buf_write b (k * op_size) (op_encode o') = Ok b1) as [b1 Hb1].
    { rewrite buf_write_ok; [eauto|]. rewrite length_op_encode. unfold op_size. lia. }
    destruct (nth_op_store b k o' b1 ltac:(unfold op_size; lia) Ho' Hb1) as (Hl1 & Hop & Hd & Ht).
    assert (bytes_ok b1) as Hbb1.
    { rewrite buf_write_ok in Hb1 by (rewrite length_op_encode; unfold op_size; lia).
      assert (b1 = take (k * op_size) b ++ op_encode o' ++ drop (k * op_size + length (op_encode o')) b)
        as -> by congruence. auto with spid. }
    rewrite Hb1. apply rwp_ok. assert (ran_prefix (S k) (S k) b1 b1) as Hself by (split_and!; try done; lia).
    assert (ran_prefix k (S k) b b1) as Hone.
    { eapply (ran_prefix_step k (S k) b b1 b1 v); try done; unfold op_size in *; lia. }
    destruct (decide (x = SPIPROXY_OK)) as [->|Hne].
    + apply IH; [by eapply qstep_ctx|done|unfold op_size; lia|done|].
      intros x k' b' s2 H2 Hk Hok Hbad Hp (res & Hres & Hby).
      assert (ran_prefix k k' b b') as Hp'.
      { eapply ran_prefix_step; [..|exact Hp]; try done; unfold op_size in *; lia. }
      apply HQ; [by eapply qstep_trans|lia|intros Hx'; specialize (Hok Hx'); lia| |done|].
      2:{ exists (o' :: res). eapply batch_next; try done. }
      intros Hne. destruct (Hbad Hne) as [Hlt Hst]. split; [lia|].
      assert (nth_op b1 (k' - 1) = nth_op b (k' - 1)) as <-
        by (apply (nth_op_drop _ _ _ (k + 1)); [lia|exact Hd]).
      unfold exec_status, guarded in *. destruct H1 as ((_ & _ & _ & _ & _ & <- & _) & _). exact Hst.
    + apply wp_ret, HQ; [done|lia|done| |done|].
      * intros _. split; [lia|]. replace (S k - 1)%nat with k by lia. exact Hx.
      * exists (o' :: (nth_op b <$> seq (S k) n)). split; [by eapply run_stop|]. cbn [mbind list_bind].
        change (mbind op_encode ?l) with (l ≫= op_encode).
        rewrite (stored_bytes b k o' b1 n) by (done || unfold op_size; lia).
        rewrite nth_ops_bytes by (done || unfold op_size; lia). done.
Qed.

End Batch.

Section OnChip.
Context {W : Type} {WW : World W} {WO : WorldOk W WW} {RG : Regs} {RO : RegsOk RG}
  {CH : PipelinedChip W WW}.

(** Frames of a sequence of operations. *)
Definition ops_frames (pad : Z) (ops : list op) : list (list Z) := ops ≫= op_frames pad.

Lemma exec_op_frames c o E Q (s : st W) :
  ctx_ok (st_g s) -> valid_op o -> (forall i, c = Some i -> (i < MAX_CLIENTS)%nat) ->
  guarded (st_g s) c o = false ->
  (forall s', qstep s s' -> op_ok (op_result (st_w s) o) ->
     bus (st_out s') = bus (st_out s) ++ op_frames (cf_pad (g_cfg (st_g s))) o ->
     Q (SPIPROXY_OK, op_result (st_w s) o) s') ->
  wp E (exec_op c o) Q s.
Proof.
  intros Hc Hv Hi Hg HQ. pose proof Hc as ((Hr & _ & Hw & _) & _).
  destruct (ring_holds_some _ Hr Hw) as [l Hl]. eapply exec_op_effect; [done..|].
  intros ts s' Hq _ Hbus. apply HQ; [done| |done].
  destruct (op_transfer_on_chip o s Hv ltac:(apply Hc)) as (_ & _ & _ & _ & Hu).
  unfold op_result in *. destruct Hv as [Ho _]. destruct (is_write o); [done|].
  by apply op_set_val_ok.
Qed.

Lemma wp_batch_on_chip n c E Q : forall k b (s : st W),
  ctx_ok (st_g s) -> (c < MAX_CLIENTS)%nat -> ((k + n) * op_size <= length b)%nat -> bytes_ok b ->
  (forall j, (k <= j < k + n)%nat -> valid_op (nth_op b j) /\ guarded (st_g s) (Some c) (nth_op b j) = false) ->
  (forall b' s', bus (st_out s') =
     bus (st_out s) ++ ops_frames (cf_pad (g_cfg (st_g s))) (nth_op b <$> seq k n) ->
     Q (SPIPROXY_OK, (k + n)%nat, b') s') ->
  wp E (batch_loop n k c b) Q s.
Proof.
  induction n as [|n IH]; intros k b s Hc Hi Hl Hb Hops HQ; cbn [batch_loop].
  - rewrite Nat.add_0_r in HQ. apply wp_ret, HQ. by rewrite app_nil_r.
  - unfold op_size in Hl. destruct (Hops k) as [Hv Hg]; [lia|].
    wp_steps. rewrite op_at_nth by (unfold op_size; lia). apply rwp_ok. wp_steps.
    eapply exec_op_frames; [done..|by intros j [= <-]|done|]. intros s1 H1 Ho' Hbus. wp_steps.
    set (o' := op_result (st_w s) (nth_op b k)) in *.
    assert (exists b1, buf_write b (k * op_size) (op_encode o') = Ok b1) as [b1 Hb1].
    { rewrite buf_write_ok; [eauto|]. rewrite length_op_encode. unfold op_size. lia. }
    destruct (nth_op_store b k o' b1 ltac:(unfold op_size; lia) Ho' Hb1) as (Hl1 & _ & Hd & _).
    assert (bytes_ok b1) as Hbb1.
    { rewrite buf_write_ok in Hb1 by (rewrite length_op_encode; unfold op_size; lia).
      assert (b1 = take (k * op_size) b ++ op_encode o' ++ drop (k * op_size + length (op_encode o')) b)
        as -> by congruence. auto with spid. }
    assert (forall j, (k < j)%nat -> nth_op b1 j = nth_op b j) as Hsame
      by (intros j Hj; apply (nth_op_drop _ _ _ (k + 1)); [lia|exact Hd]).
    rewrite Hb1. apply rwp_ok. rewrite decide_True by done.
    pose proof H1 as ((Hcfg & _ & _ & _ & _ & Hm & _) & _).
    apply IH; [by eapply qstep_ctx|done|unfold op_size; lia|done| |].
    + intros j Hj. rewrite Hsame by lia. unfold guarded. rewrite Hm. apply Hops. lia.
    + intros b' s' Hbus'. rewrite Hcfg, Hbus in Hbus'. rewrite <-Nat.add_succ_comm in HQ. apply HQ.
      rewrite Hbus', <-app_assoc. cbn [seq fmap list_fmap ops_frames mbind list_bind].
      do 2 f_equal. unfold ops_frames. f_equal. apply list_fmap_ext.
      intros _ j Hj%list_elem_of_lookup_2%elem_of_seq. apply Hsame. lia.
Qed.

(** ** Claim cleanups *)

(** Loop invariant: [k] cleanup operations of the table [l0] have run since the
    bus history was [b0]; the rest of the table is untouched. *)
Definition cleaned (l0 : list op) (b0 : list (list Z)) (pad : Z) (k : nat) (s : st W) : Prop :=
  ctx_ok (st_g s) /\ cf_pad (g_cfg (st_g s)) = pad /\
  bus (st_out s) = b0 ++ ops_frames pad (take k l0) /\
  drop k (claim_cleanup (g_claim (st_g s))) = drop k l0.

Lemma wp_run_cleanup_bus l0 b0 pad k o E (s : st W) :
  cleaned l0 b0 pad k s -> l0 !! k = Some o -> valid_op o ->
  wp E (run_cleanup k) (fun _ s' => cleaned l0 b0 pad (S k) s') s.
Proof.
  intros (Hc & Hpad & Hbus & Hrest) Hk Hv. unfold run_cleanup. wp_steps.
  set (l := claim_cleanup (g_claim (st_g s))) in *.
  assert (l !! k = Some o) as Hlk.
  { rewrite <-(Nat.add_0_r k), <-lookup_drop, Hrest, lookup_drop, Nat.add_0_r. done. }
  assert (k < length l)%nat as Hlt by by eapply lookup_lt_Some.
  eapply rwp_arr_get; [exact Hlk|]. wp_steps.
  eapply exec_op_frames; [done..|by apply andb_false_r|]. intros s1 H1 Ho' Hbus1. wp_steps.
  pose proof H1 as ((Hcfg & _ & _ & _ & Hclaim & _) & _). split_and!.
  - cbn. pose proof (qstep_ctx _ _ H1 Hc) as (? & ? & ? & ?). by split_and!.
  - cbn. by rewrite Hcfg.
  - cbn [st_out]. rewrite Hbus1, Hbus, Hpad, <-app_assoc. f_equal. unfold ops_frames.
    rewrite (take_S_r _ _ _ Hk), bind_app. cbn [mbind list_bind]. by rewrite app_nil_r.
  - cbn [st_g g_claim set_g_claim claim_cleanup set_claim_cleanup]. rewrite Hclaim. fold l. rewrite drop_insert_lt by lia.
    rewrite <-(Nat.add_1_r k), <-!drop_drop, Hrest. done.
Qed.

Lemma seq_split_nth (n : nat) before k todo :
  seq 0 n = before ++ k :: todo -> k = length before /\ (k < n)%nat.
Proof.
  intros H. assert (seq 0 n !! length before = Some k) as Hk by by rewrite H, list_lookup_middle.
  apply lookup_seq in Hk. lia.
Qed.

(** Ending a claim from any well-formed state. *)
Lemma claim_end_bus (abnormal : bool) qa fa busy E Q (s : st W) :
  inv qa fa busy (st_g s) ->
  let cs := g_claim (st_g s) in
  let cleanup := take (Z.to_nat (claim_ncleanup cs)) (claim_cleanup cs) in
  Forall valid_op cleanup ->
  (forall s', claim_owner (g_claim (st_g s')) = None -> claim_ncleanup (g_claim (st_g s')) = 0 ->
     bus (st_out s') = bus (st_out s) ++
       (if abnormal then ops_frames (cf_pad (g_cfg (st_g s))) cleanup else []) -> Q tt s') ->
  wp E (claim_end abnormal) Q s.
Proof.
  intros I cs cleanup Hval HQ. pose proof (inv_claim _ _ _ _ I) as (Hl & _ & Hn & _ & Hown).
  pose proof (inv_cl _ _ _ _ I) as [Hcl _]. unfold claim_end. wp_steps. fold cs.
  eapply (wp_mono _ _ (fun r s' => s' = s /\
    match snd (fst r) with CommClient i => (i < MAX_CLIENTS)%nat | CommLit _ => True | CommNull => False end)).
  { fold cs in Hown. destruct (claim_owner cs) as [o|]; [|by apply wp_ret].
    destruct Hown as (cl & Hc & _). wp_steps. eapply wp_get_client; [done|]. apply wp_ret.
    split; [done|]. cbn. rewrite <-Hcl. by eapply lookup_lt_Some. }
  cbn beta. intros [[id comm] text] ? [-> Hcomm]. cbn [fst snd] in Hcomm.
  wp_steps. apply wp_log_debug. intros w1 o1 Ht1 Ho1. apply wp_bind.
  eapply (wp_mono _ _ (fun _ s' => bus (st_out s') = bus (st_out s) ++
    (if abnormal then ops_frames (cf_pad (g_cfg (st_g s))) cleanup else []))).
  2:{ cbn beta. intros _ s4 Hbus. wp_steps. by apply HQ. }
  apply wp_when; intros Hab.
  - apply andb_true_iff in Hab as [-> Hnz]. wp_steps. apply wp_log_msg. intros w2 o2 Ht2 Ho2.
    unfold set_lctx. wp_steps. cbn [st_out st_g st_w].
    eapply (wp_for_list _ (fun before => cleaned (claim_cleanup cs) (bus (st_out s)) (cf_pad (g_cfg (st_g s)))
      (length before))).
    + split_and!; try done.
      * split_and!; try apply I. unfold lctx_ok. cbn. by destruct comm.
      * cbn [st_out]. rewrite !bus_logs by done. by rewrite app_nil_r.
    + intros before k todo s' Hseq Hs'. destruct (seq_split_nth _ _ _ _ Hseq) as [-> Hk].
      rewrite length_app, Nat.add_1_r.
      destruct (lookup_lt_is_Some_2 (claim_cleanup cs) (length before)) as [o Ho]; [fold cs in Hl, Hn; lia|].
      apply (wp_run_cleanup_bus _ _ _ _ o); [done..|]. eapply Forall_lookup_1; [exact Hval|].
      unfold cleanup. rewrite lookup_take_lt; [done|]. exact Hk.
    + intros s' (_ & _ & Hbus & _). rewrite length_seq in Hbus. wp_steps. exact Hbus.
  - cbn [st_out]. rewrite bus_logs by done. destruct abnormal; cbn in Hab; [|by rewrite app_nil_r].
    apply negb_false_iff, Z.eqb_eq in Hab. unfold cleanup. rewrite Hab. by rewrite app_nil_r.
Qed.

(** an abnormal end of a claim (disconnect or timeout) sends exactly the
    frames of the registered cleanup operations, in order, even while a mailbox
    transaction is in flight; a normal release sends nothing.  Either way the
    device is free afterwards. *)
Theorem claim_end_cleanup (abnormal : bool) qa fa busy (s : st W) :
  inv qa fa busy (st_g s) ->
  let cs := g_claim (st_g s) in
  let cleanup := take (Z.to_nat (claim_ncleanup cs)) (claim_cleanup cs) in
  Forall valid_op cleanup ->
  exists s', claim_end abnormal s = Ok (tt, s') /\ claim_owner (g_claim (st_g s')) = None /\
    claim_ncleanup (g_claim (st_g s')) = 0 /\
    bus (st_out s') = bus (st_out s) ++
      (if abnormal then ops_frames (cf_pad (g_cfg (st_g s))) cleanup else []).
Proof.
  intros I cs cleanup Hval.
  pose proof (claim_end_bus abnormal qa fa busy (fun _ => False) (fun _ s' =>
    claim_owner (g_claim (st_g s')) = None /\ claim_ncleanup (g_claim (st_g s')) = 0 /\
    bus (st_out s') = bus (st_out s) ++
      (if abnormal then ops_frames (cf_pad (g_cfg (st_g s))) cleanup else [])) s I Hval ltac:(done)) as H.
  unfold wp in H. destruct (claim_end abnormal s) as [[[] s']|]; [|done]. eauto.
Qed.

End OnChip.
