(* ===== verification/TextReader.v ===== *)
(** * Reading the daemon's texts

    The texts of STATS and TRACE are for people and scripts: lines of words.
    Here is such a script: it splits a text into lines and words and reads the
    numbers back, knowing nothing of how the daemon prints them.  A text means
    what this reader gets out of it. *)
From S2P Require Import Prelude Bytes Fmt ParseUint State.

(** ** Lines and words *)

(** The pieces of a text between the characters [c]. *)
Fixpoint split_on (c : ascii) (t : string) : list string :=
  match t with
  | EmptyString => [""%string]
  | String a t' =>
      if Ascii.eqb a c then ""%string :: split_on c t'
      else match split_on c t' with w :: ws => String a w :: ws | [] => [String a ""] end
  end.

Definition newline : ascii := Ascii.ascii_of_nat 10.
Definition words (line : string) : list string := split_on " "%char line.
Definition lines (t : string) : list string := removelast (split_on newline t).

(** ** Numbers *)

Definition read_number (b : Z) (t : string) : option Z :=
  match scan_digits b t 0 0 with
  | (v, S _, EmptyString) => Some v
  | _ => None
  end.
Definition read_int (t : string) : option Z :=
  match t with
  | String "-" t' => Z.opp <$> read_number 10 t'
  | _ => read_number 10 t
  end.

(** ** TRACE *)

Definition read_dir (t : string) : option Z :=
  match t with String "R" "" => Some 0 | String "W" "" => Some 1 | _ => None end.

(** One operation: time, client, direction, slice, MMD, register, value. *)
Definition read_trace_line (line : string) : option trace_ent :=
  match words line with
  | [ts; String "c" cid; dir; slice; mmd; reg; val] =>
      ts ← read_number 10 ts; cid ← read_number 10 cid; w ← read_dir dir;
      slice ← read_number 10 slice; mmd ← read_number 16 mmd;
      reg ← read_number 16 reg; val ← read_number 16 val;
      Some (TraceEnt ts cid slice w mmd reg val)
  | _ => None
  end.
Definition read_trace (t : string) : option (list trace_ent) := mapM read_trace_line (lines t).

(** ** STATS *)

Fixpoint strip_prefix (p t : string) : option string :=
  match p, t with
  | EmptyString, _ => Some t
  | String a p', String b t' => if Ascii.eqb a b then strip_prefix p' t' else None
  | _, EmptyString => None
  end.

(** The value of the word [key=value]. *)
Fixpoint value_of (key : string) (ws : list string) : option string :=
  match ws with
  | [] => None
  | w :: ws' => match strip_prefix (key +:+ "=") w with Some v => Some v | None => value_of key ws' end
  end.
Definition number_of (key : string) (ws : list string) : option Z := v ← value_of key ws; read_int v.

Record client_report := ClientReport {
  cr_id : Z; cr_comm : string; cr_pid : Z; cr_msgs : Z; cr_ops : Z; cr_err : Z }.
Record stats_report := StatsReport {
  sr_dev : string; sr_freq : Z; sr_pad : Z; sr_rst : string;
  sr_reads : Z; sr_writes : Z; sr_io_err : Z; sr_warns : Z;
  sr_queued : Z; sr_claim : Z; sr_mb_inflight : Z;
  sr_clients : list client_report }.

Definition read_client_line (line : string) : option client_report :=
  match words line with
  | "client" :: name :: "pid" :: pid :: ws =>
      match split_on "("%char name with
      | [id; rest] =>
          match split_on ")"%char rest with
          | [comm; ""] =>
              id ← read_number 10 id; pid ← read_int pid; msgs ← number_of "msgs" ws;
              ops ← number_of "ops" ws; err ← number_of "err" ws;
              Some (ClientReport id comm pid msgs ops err)
          | _ => None
          end
      | _ => None
      end
  | _ => None
  end%string.

Definition read_stats (t : string) : option stats_report :=
  match lines t with
  | [] => None
  | head :: cls =>
      let ws := words head in
      dev ← value_of "dev" ws; freq ← number_of "freq" ws; pad ← number_of "pad" ws;
      rst ← value_of "rst" ws; reads ← number_of "reads" ws; writes ← number_of "writes" ws;
      io_err ← number_of "io_err" ws; warns ← number_of "warns" ws; queued ← number_of "queued" ws;
      claim ← number_of "claim" ws; mb ← number_of "mb_inflight" ws; cs ← mapM read_client_line cls;
      Some (StatsReport dev freq pad rst reads writes io_err warns queued claim mb cs)
  end.

(** ** Texts without a character *)

Definition char_free (c : ascii) (t : string) : Prop := Forall (fun a => a <> c) (String.list_ascii_of_string t).

Lemma char_free_app c t u : char_free c (t +:+ u) <-> char_free c t /\ char_free c u.
Proof.
  unfold char_free. rewrite <-Forall_app. f_equiv. induction t as [|a t IH]; [done|]. cbn. by rewrite <-IH.
Qed.

Lemma split_on_free c t : char_free c t -> split_on c t = [t].
Proof.
  induction t as [|a t IH]; intros H; [done|]. apply Forall_cons in H as [Ha H]. cbn -[Ascii.eqb].
  destruct (Ascii.eqb_spec a c); [done|]. by rewrite IH.
Qed.

Lemma split_on_app c t u : char_free c t -> split_on c (t +:+ String c u) = t :: split_on c u.
Proof.
  induction t as [|a t IH]; intros H.
  { change (""%string +:+ String c u) with (String c u). cbn [split_on]. by rewrite Ascii.eqb_refl. }
  apply Forall_cons in H as [Ha H]. change (String a t +:+ ?v) with (String a (t +:+ v)). cbn [split_on]. destruct (Ascii.eqb_spec a c); [done|]. by rewrite IH.
Qed.

(** Lines that end with a newline. *)
Fixpoint unlines (l : list string) : string :=
  match l with [] => "" | t :: l' => t +:+ nl +:+ unlines l' end.

Lemma lines_unlines l : Forall (char_free newline) l -> lines (unlines l) = l.
Proof.
  unfold lines. assert (forall t, split_on newline t <> []) as Hne
    by (intros [|a t]; cbn; [done|]; destruct (Ascii.eqb a newline); [done|]; by destruct (split_on newline t)).
  induction 1 as [|t l Ht Hl IH]; [done|]. cbn [unlines nl app]. change (nl +:+ unlines l) with (String newline (unlines l)).
  rewrite split_on_app by done. rewrite <-IH at 2. destruct (split_on newline (unlines l)) as [|w ws] eqn:He; [by destruct (Hne _ He)|].
  done.
Qed.

(** Words with a blank between them. *)
Fixpoint unwords (l : list string) : string :=
  match l with [] => "" | [t] => t | t :: l' => t +:+ " " +:+ unwords l' end.

Lemma words_unwords l : l <> [] -> Forall (char_free " "%char) l -> words (unwords l) = l.
Proof.
  unfold words. intros Hne H. induction H as [|t l Ht Hl IH]; [done|].
  destruct l as [|u l]; [by apply split_on_free|].
  change (unwords (t :: u :: l)) with (t +:+ String " " (unwords (u :: l))).
  rewrite split_on_app by done. by rewrite IH.
Qed.

(** ** Printed numbers are read back *)

Lemma digits_free b t ds c :
  Forall2 (fun a d => digit_in b a = Some d) (String.list_ascii_of_string t) ds ->
  digit_in b c = None -> char_free c t.
Proof.
  intros H Hc. unfold char_free. induction H as [|a d l ds Ha _ IH]; [constructor|].
  constructor; [congruence|done].
Qed.

Lemma read_number_digits b t ds :
  Forall2 (fun a d => digit_in b a = Some d) (String.list_ascii_of_string t) ds -> ds <> [] ->
  read_number b t = Some (digits_value b ds).
Proof.
  intros H Hne. unfold read_number. rewrite (scan_digits_all b t ds 0 0 H). by destruct ds.
Qed.

Lemma read_number_dec n : 0 <= n -> read_number 10 (dec n) = Some n.
Proof.
  intros Hn. destruct (dec_digits n Hn) as (ds & HF & Hne & <- & _). by apply read_number_digits.
Qed.

Lemma hex_case_digits w n :
  0 <= n -> exists ds, Forall2 (fun c d => digit_in 16 c = Some d) (String.list_ascii_of_string (hex w n)) ds /\
    ds <> [] /\ digits_value 16 ds = n.
Proof.
  intros Hn. destruct (digits_scan (digit_fuel n) false 16 n "" []) as (ds & HF & Hv & Hne & _);
    [lia|done|unfold digit_fuel; lia|constructor|]. rewrite app_nil_r in HF.
  unfold hex, hex_case. set (t := digits _ _ _ _ _) in *. generalize (w - String.length t)%nat. intros k.
  induction k as [|k (ds' & HF' & Hne' & Hv')]; [by exists ds|]. exists (0 :: ds'). cbn.
  split; [by constructor|]. split; [done|]. unfold digits_value in *. cbn. exact Hv'.
Qed.

Lemma read_number_hex w n : 0 <= n -> read_number 16 (hex w n) = Some n.
Proof.
  intros Hn. destruct (hex_case_digits w n Hn) as (ds & HF & Hne & <-). by apply read_number_digits.
Qed.

Lemma dec_head n : 0 <= n -> exists a t, dec n = String a t /\ a <> "-"%char.
Proof.
  intros Hn. destruct (dec_digits n Hn) as (ds & HF & Hne & _). destruct (dec n) as [|a t]; [by inversion HF; subst|].
  exists a, t. split; [done|]. cbn in HF. apply Forall2_cons_inv_l in HF as (d & ? & Hd & _).
  apply digit_in_not_special in Hd as (_ & Hm & _). by apply Ascii.eqb_neq.
Qed.

Lemma read_int_dec n : 0 <= n -> read_int (dec n) = Some n.
Proof.
  intros Hn. pose proof (read_number_dec n Hn) as Hr. destruct (dec_head n Hn) as (a & t & Hd & Ha). rewrite Hd in *.
  unfold read_int. rewrite Hr. destruct a as [[] [] [] [] [] [] [] []]; try done.
Qed.

Lemma read_int_dec_int n : read_int (dec_int n) = Some n.
Proof.
  unfold dec_int. destruct (Z.ltb_spec n 0); [|by apply read_int_dec].
  change (Z.opp <$> read_number 10 (dec (- n)) = Some n). rewrite read_number_dec by lia. cbn. f_equal. lia.
Qed.

(** Neither blanks nor newlines nor brackets in numbers. *)
Lemma dec_free c n : 0 <= n -> digit_in 10 c = None -> char_free c (dec n).
Proof. intros Hn Hc. destruct (dec_digits n Hn) as (ds & HF & _). by eapply digits_free. Qed.
Lemma hex_free c w n : 0 <= n -> digit_in 16 c = None -> char_free c (hex w n).
Proof. intros Hn Hc. destruct (hex_case_digits w n Hn) as (ds & HF & _). by eapply digits_free. Qed.
Lemma dec_int_free c n : c <> "-"%char -> digit_in 10 c = None -> char_free c (dec_int n).
Proof.
  intros Hm Hc. unfold dec_int. destruct (Z.ltb_spec n 0); [|by apply dec_free].
  apply Forall_cons. split; [congruence|]. apply dec_free; [lia|done].
Qed.
