(* ===== verification/TextSpec.v ===== *)
(** * The STATS and TRACE texts

    What the two diagnostic requests answer: the text is complete (never cut
    by the 4096-byte buffer), and a reader that only knows lines, words and
    numbers (TextReader.v) gets back from it exactly the counters and connected
    clients, respectively the newest operations. *)
From S2P Require Import Prelude Bytes Proto Fmt ParseUint State Queue Log Spi Exec OpSpec Mailbox Daemon Invariant.
From S2P Require Import Handlers TextReader.

(** Appending a text that fits. *)
Lemma snprintf_at_fits txt len t :
  0 <= len -> len + Z.of_nat (String.length t) < Z.of_nat (length txt) ->
  exists txt', snprintf_at txt len t = Ok (txt', len + Z.of_nat (String.length t)) /\
    length txt' = length txt /\
    take (Z.to_nat len + String.length t) txt' = take (Z.to_nat len) txt ++ str_bytes t.
Proof.
  intros H0 Hfit. unfold snprintf_at. rewrite (proj2 (Z.ltb_ge _ _)) by lia.
  rewrite (proj2 (Nat.eqb_neq _ _)) by lia. rewrite trunc_id by lia.
  assert (length (str_bytes t ++ [0]) = S (String.length t)) as Hl
    by (rewrite length_app, length_str_bytes; cbn; lia).
  rewrite buf_write_ok by lia. cbn [res_bind]. eexists. split; [done|]. split.
  - apply length_buf_splice. lia.
  - rewrite <-app_assoc, app_assoc. apply take_app_length'.
    rewrite length_app, length_take, length_str_bytes. lia.
Qed.

Fixpoint concat_lines (l : list string) : string :=
  match l with [] => "" | t :: l' => t +:+ concat_lines l' end.

Lemma concat_lines_length l k :
  Forall (fun t => (String.length t <= k)%nat) l -> (String.length (concat_lines l) <= length l * k)%nat.
Proof. induction 1 as [|t l Ht Hl IH]; cbn; [lia|]. rewrite slen_app. lia. Qed.

(** ** The lines of TRACE are read back *)

(** An operation as the text shows it: every write is a write. *)
Definition shown_ent (e : trace_ent) : trace_ent :=
  TraceEnt (te_ts e) (te_cid e) (te_slice e) (if te_write e =? 0 then 0 else 1) (te_mmd e) (te_reg e) (te_val e).

Definition trace_words (e : trace_ent) : list string :=
  [dec (te_ts e); "c" +:+ dec (te_cid e); if (te_write e =? 0)%Z then "R" else "W"; dec (te_slice e);
   hex 2 (te_mmd e); hex 4 (te_reg e); hex 8 (te_val e)].

Lemma char_free_lit c a t : Ascii.eqb a c = false -> char_free c t -> char_free c (String a t).
Proof. intros Ha Ht. apply Forall_cons. split; [by apply Ascii.eqb_neq|done]. Qed.

(** Numbers by the lemmas, literal characters by computation. *)
Ltac char_free_text :=
  repeat first
    [ apply char_free_app; split
    | apply dec_free; [lia|reflexivity] | apply hex_free; [lia|reflexivity] | apply dec_int_free; [discriminate|reflexivity]
    | apply char_free_lit; [reflexivity|] | exact (List.Forall_nil _) ].

Lemma trace_words_free c e :
  te_ok e -> digit_in 16 c = None -> digit_in 10 c = None -> Ascii.eqb "c" c = false -> Ascii.eqb "R" c = false ->
  Ascii.eqb "W" c = false -> Forall (char_free c) (trace_words e).
Proof.
  intros (? & ? & ? & ? & ? & ? & ?) H16 H10 Hc HR HW. unfold is_u64, is_u32, is_u16, is_u8 in *.
  unfold trace_words. rewrite !Forall_cons, Forall_nil. split_and!; [..|done].
  - by apply dec_free; [lia|].
  - apply char_free_lit; [done|]. apply dec_free; [lia|done].
  - destruct (te_write e =? 0); by repeat constructor; apply Ascii.eqb_neq.
  - by apply dec_free; [lia|].
  - by apply hex_free; [lia|].
  - by apply hex_free; [lia|].
  - by apply hex_free; [lia|].
Qed.

Lemma unwords_free c l : Ascii.eqb " " c = false -> Forall (char_free c) l -> char_free c (unwords l).
Proof.
  intros Hc. induction 1 as [|t l Ht Hl IH]; [constructor|]. destruct l as [|u l]; [done|].
  change (unwords (t :: u :: l)) with (t +:+ (" " +:+ unwords (u :: l))). apply char_free_app. split; [done|].
  by apply char_free_lit.
Qed.

Lemma trace_line_words e : trace_line e = unwords (trace_words e) +:+ nl.
Proof. unfold trace_line, trace_words. cbn [unwords]. by rewrite !append_assoc. Qed.

Lemma read_trace_line_shown e : te_ok e -> read_trace_line (unwords (trace_words e)) = Some (shown_ent e).
Proof.
  intros Hok. unfold read_trace_line. rewrite words_unwords by (done || by apply trace_words_free).
  destruct Hok as (? & ? & ? & ? & ? & ? & ?). unfold is_u64, is_u32, is_u16, is_u8 in *.
  unfold trace_words. change ("c" +:+ dec (te_cid e)) with (String "c" (dec (te_cid e))). cbn beta iota.
  rewrite !read_number_dec, !read_number_hex by lia. unfold shown_ent.
  by destruct (te_write e =? 0).
Qed.

Lemma concat_unlines {A} (f : A -> string) (g : A -> string) l :
  (forall x, f x = g x +:+ nl) -> concat_lines (f <$> l) = unlines (g <$> l).
Proof.
  intros H. induction l as [|x l IH]; [done|]. cbn [fmap list_fmap concat_lines unlines].
  rewrite <-IH, H. by rewrite append_assoc.
Qed.

Lemma read_trace_text l :
  Forall te_ok l -> read_trace (concat_lines (trace_line <$> l)) = Some (shown_ent <$> l).
Proof.
  intros Hl. rewrite (concat_unlines _ (unwords ∘ trace_words)) by apply trace_line_words.
  unfold read_trace. rewrite lines_unlines.
  - induction Hl as [|e l He Hl IH]; [done|]. cbn [fmap list_fmap mapM]. cbn [compose].
    rewrite read_trace_line_shown by done. cbn. by rewrite IH.
  - apply Forall_fmap. eapply Forall_impl; [exact Hl|]. intros e He.
    apply (unwords_free newline (trace_words e)); [done|]. by apply trace_words_free.
Qed.

(** The [n] entries of the ring from write index [w] on. *)
Definition ring_window (ring : list trace_ent) (w : Z) (n : nat) : list trace_ent :=
  (fun k => default (TraceEnt 0 0 0 0 0 0 0)
     (ring !! Z.to_nat ((w + Z.of_nat k) mod Z.of_nat TRACE_RING))) <$> seq 0 n.

Lemma ring_window_S ring w n :
  ring_window ring w (S n) =
  default (TraceEnt 0 0 0 0 0 0 0) (ring !! Z.to_nat (w mod Z.of_nat TRACE_RING)) ::
  ring_window ring (w + 1) n.
Proof.
  unfold ring_window. cbn [seq fmap list_fmap]. rewrite Z.add_0_r. f_equal.
  rewrite <-fmap_S_seq, <-list_fmap_compose. apply list_fmap_ext. intros _ k _. cbn [compose].
  do 4 f_equal. lia.
Qed.

Lemma ring_window_ok ring w n : length ring = TRACE_RING -> Forall te_ok ring -> Forall te_ok (ring_window ring w n).
Proof.
  intros Hl Hok. apply Forall_fmap, Forall_true. intros k. cbn.
  destruct (lookup_lt_is_Some_2 ring (Z.to_nat ((w + Z.of_nat k) mod Z.of_nat TRACE_RING))) as [e He].
  { rewrite Hl. apply ring_index. unfold TRACE_RING. lia. }
  rewrite He. by eapply Forall_lookup_1.
Qed.

Lemma trace_lines_text ring n : forall w txt len,
  length ring = TRACE_RING -> Forall te_ok ring -> Z.of_nat (length txt) = 4096 ->
  0 <= len -> len + 54 * Z.of_nat n <= 4032 ->
  exists txt', trace_lines n ring w txt len =
      Ok (txt', len + Z.of_nat (String.length (concat_lines (trace_line <$> ring_window ring w n)))) /\
    length txt' = length txt /\
    take (Z.to_nat len + String.length (concat_lines (trace_line <$> ring_window ring w n))) txt' =
      take (Z.to_nat len) txt ++ str_bytes (concat_lines (trace_line <$> ring_window ring w n)).
Proof.
  induction n as [|n IH]; intros w txt len Hr Hok Htx H0 Hlen.
  { exists txt. cbn. by rewrite Z.add_0_r, Nat.add_0_r, app_nil_r. }
  rewrite ring_window_S. cbn [trace_lines fmap list_fmap concat_lines].
  assert (Z.of_nat SPIPROXY_MSG_MAX - TRACE_LINE_MAX = 4032) as -> by done.
  rewrite (proj2 (Z.ltb_lt _ _)) by lia.
  destruct (lookup_lt_is_Some_2 ring (Z.to_nat (w mod Z.of_nat TRACE_RING))) as [e He].
  { rewrite Hr. apply ring_index. unfold TRACE_RING. lia. }
  rewrite (arr_get_ok _ _ _ He), He. cbn [res_bind from_option id].
  pose proof (trace_line_length e (Forall_lookup_1 _ _ _ _ Hok He)) as Hle.
  destruct (snprintf_at_fits txt len (trace_line e)) as (txt1 & -> & Hl1 & Ht1); [lia|lia|]. cbn [res_bind].
  destruct (IH (w + 1) txt1 (len + Z.of_nat (String.length (trace_line e)))) as (txt2 & -> & Hl2 & Ht2);
    [done|done|congruence|lia|lia|].
  set (rest := concat_lines _) in *. exists txt2. rewrite slen_app, str_bytes_app.
  split; [by rewrite Nat2Z.inj_add, Z.add_assoc|]. split; [congruence|].
  rewrite app_assoc, <-Ht1.
  replace (Z.to_nat (len + Z.of_nat (String.length (trace_line e)))) with
    (Z.to_nat len + String.length (trace_line e))%nat in Ht2 by lia.
  rewrite <-Ht2. f_equal. lia.
Qed.

(** The newest [n] operations, oldest first, are a window of the ring. *)
Lemma ring_window_recent g l n :
  ring_holds g l -> (n <= length l)%nat -> (n <= TRACE_RING)%nat ->
  ring_window (g_ring g) (Z.of_nat (length l) - Z.of_nat n) n = reverse (take n l).
Proof.
  intros (_ & _ & Hl) Hn Hr. apply list_eq. intros k. unfold ring_window. rewrite list_lookup_fmap.
  destruct (decide (k < n)%nat) as [Hk|Hk].
  - rewrite lookup_seq_lt by done. cbn.
    destruct (lookup_lt_is_Some_2 l (n - 1 - k)) as [e He]; [lia|].
    rewrite reverse_lookup by (rewrite length_take; lia). rewrite length_take.
    replace (n `min` length l)%nat with n by lia. rewrite lookup_take_lt by lia.
    replace (n - S k)%nat with (n - 1 - k)%nat by lia. rewrite He.
    pose proof (Hl (n - 1 - k)%nat e ltac:(lia) He) as Hx.
    replace (Z.of_nat (length l) - Z.of_nat n + Z.of_nat k) with
      (Z.of_nat (length l) - 1 - Z.of_nat (n - 1 - k)) by lia.
    by rewrite Hx.
  - rewrite lookup_seq_ge by lia. symmetry. apply lookup_ge_None. rewrite length_reverse, length_take. lia.
Qed.

(** The lines of the connected clients. *)
Definition used_clients (cls : list client) : list client :=
  filter (fun cl => c_used cl = true) cls.

Lemma stats_clients_text cls : forall txt len,
  Forall client_ok cls -> 0 <= len -> len + 131 * Z.of_nat (length cls) < Z.of_nat (length txt) ->
  let lines := concat_lines (client_line <$> used_clients cls) in
  exists txt', stats_clients cls txt len = Ok (txt', len + Z.of_nat (String.length lines)) /\
    length txt' = length txt /\
    (String.length lines <= 131 * length cls)%nat /\
    take (Z.to_nat len + String.length lines) txt' = take (Z.to_nat len) txt ++ str_bytes lines.
Proof.
  induction cls as [|cl cls IH]; intros txt len Hok H0 Hlen; cbn [stats_clients].
  { exists txt. cbn. rewrite Z.add_0_r, Nat.add_0_r, app_nil_r. split_and!; try done. }
  apply Forall_cons in Hok as [Hcl Hok]. cbn [length] in Hlen. unfold used_clients.
  rewrite filter_cons. destruct (c_used cl).
  - rewrite decide_True by done. fold (used_clients cls). cbn [fmap list_fmap concat_lines].
    pose proof (client_line_length cl Hcl) as Hle.
    destruct (snprintf_at_fits txt len (client_line cl)) as (txt1 & -> & Hl1 & Ht1); [lia|lia|]. cbn [res_bind].
    destruct (IH txt1 (len + Z.of_nat (String.length (client_line cl)))) as (txt2 & -> & Hl2 & Hm & Ht2);
      [done|lia|lia|].
    set (rest := concat_lines _) in *. exists txt2. rewrite slen_app, str_bytes_app.
    split; [by rewrite Nat2Z.inj_add, Z.add_assoc|]. split; [congruence|]. split; [cbn [length]; lia|].
    rewrite app_assoc, <-Ht1.
    replace (Z.to_nat (len + Z.of_nat (String.length (client_line cl)))) with
      (Z.to_nat len + String.length (client_line cl))%nat in Ht2 by lia.
    rewrite <-Ht2. f_equal. lia.
  - rewrite decide_False by done. destruct (IH txt len) as (txt' & H1 & H2 & H3 & H4); [done|lia|lia|].
    exists txt'. split; [done|]. split; [done|]. split; [cbn [length]; unfold used_clients in H3; lia|done].
Qed.

(** ** The lines of STATS are read back *)

(** The number [STATS] reports as the holder of the claim. *)
Definition claim_id (g : glob) : Z :=
  match claim_owner (g_claim g) with Some i => default 0 (c_id <$> g_cl g !! i) | None => 0 end.
Definition rst_name (cf : config) : string :=
  if 0 <=? cf_rst_fd cf then default "on"%string (cf_rst_line cf) else "off".

(** The daemon's state as STATS should report it. *)
Definition client_facts (cl : client) : client_report :=
  ClientReport (c_id cl) (c_comm cl) (c_pid cl) (c_n_msgs cl) (c_n_ops cl) (c_n_err cl).
Definition stats_facts (g : glob) : stats_report :=
  let cf := g_cfg g in let n := g_cnt g in
  StatsReport (cf_dev cf) (cf_freq cf) (cf_pad cf) (rst_name cf)
    (n_reads n) (n_writes n) (n_io_err n) (n_warns n)
    (n_queued (g_qs g)) (claim_id g) (bit (g_mb_inflight g)) (client_facts <$> used_clients (g_cl g)).

(** The words of the lines, as keys and values. *)
Definition field (kv : string * string) : string := kv.1 +:+ "=" +:+ kv.2.
Definition report_words (r : stats_report) : list string :=
  field <$> [("dev", sr_dev r); ("freq", dec_int (sr_freq r)); ("pad", dec_int (sr_pad r)); ("rst", sr_rst r);
    ("reads", dec (sr_reads r)); ("writes", dec (sr_writes r)); ("io_err", dec (sr_io_err r));
    ("warns", dec (sr_warns r)); ("queued", dec_int (sr_queued r)); ("claim", dec (sr_claim r));
    ("mb_inflight", dec_int (sr_mb_inflight r))]%string.
Definition client_words (c : client_report) : list string :=
  ["client"%string; dec (cr_id c) +:+ "(" +:+ cr_comm c +:+ ")"; "pid"%string; dec_int (cr_pid c);
   field ("msgs"%string, dec (cr_msgs c)); field ("ops"%string, dec (cr_ops c)); field ("err"%string, dec (cr_err c))].
Definition report_text (r : stats_report) : string :=
  unlines (unwords (report_words r) :: (unwords ∘ client_words <$> sr_clients r)).

(** Names that cannot be mistaken for something else. *)
Definition plain_name (t : string) : Prop := char_free " " t /\ char_free newline t.
Definition plain_comm (t : string) : Prop := plain_name t /\ char_free "(" t /\ char_free ")" t.
Definition plain_report (r : stats_report) : Prop :=
  plain_name (sr_dev r) /\ plain_name (sr_rst r) /\ Forall (fun c => plain_comm (cr_comm c)) (sr_clients r).

(** The ranges of the printed numbers. *)
Definition client_range (c : client_report) : Prop := 0 <= cr_id c /\ 0 <= cr_msgs c /\ 0 <= cr_ops c /\ 0 <= cr_err c.
Definition report_range (r : stats_report) : Prop :=
  0 <= sr_reads r /\ 0 <= sr_writes r /\ 0 <= sr_io_err r /\ 0 <= sr_warns r /\ 0 <= sr_claim r /\
  Forall client_range (sr_clients r).

Lemma field_free c k v : char_free c k -> Ascii.eqb "=" c = false -> char_free c v -> char_free c (field (k, v)).
Proof. intros Hk Hc Hv. unfold field. apply char_free_app. split; [done|]. by apply char_free_lit. Qed.

Ltac free_words :=
  repeat first
    [ assumption | apply field_free | apply char_free_lit; [reflexivity|] | apply char_free_app; split
    | apply dec_free; [lia|reflexivity] | apply dec_int_free; [discriminate|reflexivity]
    | reflexivity | exact (List.Forall_nil _) ].

Lemma report_words_free c r :
  c = " "%char \/ c = newline -> plain_report r -> report_range r -> Forall (char_free c) (report_words r).
Proof.
  intros Hc ([Hd1 Hd2] & [Hr1 Hr2] & _) (? & ? & ? & ? & ? & _). unfold report_words.
  cbn [fmap list_fmap]. rewrite !Forall_cons, Forall_nil. destruct Hc as [-> | ->]; split_and!; free_words; done.
Qed.

Lemma client_words_free c r :
  c = " "%char \/ c = newline -> plain_comm (cr_comm r) -> client_range r -> Forall (char_free c) (client_words r).
Proof.
  intros Hc ([H1 H2] & H3 & H4) (? & ? & ? & ?). unfold client_words. rewrite !Forall_cons, Forall_nil.
  destruct Hc as [-> | ->]; split_and!; free_words; done.
Qed.

Lemma read_client_words r :
  plain_comm (cr_comm r) -> client_range r -> read_client_line (unwords (client_words r)) = Some r.
Proof.
  intros Hp Hr. unfold read_client_line. rewrite words_unwords by (done || apply client_words_free; auto).
  destruct Hp as (_ & Ho & Hc). destruct Hr as (H1 & H2 & H3 & H4). unfold client_words. cbn beta iota.
  change (dec (cr_id r) +:+ "(" +:+ cr_comm r +:+ ")") with (dec (cr_id r) +:+ String "(" (cr_comm r +:+ ")")).
  rewrite (split_on_app "("%char (dec (cr_id r)) (cr_comm r +:+ ")")) by (apply dec_free; [done|reflexivity]).
  rewrite (split_on_free "("%char) by (apply char_free_app; split; [done|by apply char_free_lit; [|constructor]]).
  rewrite (split_on_app ")"%char (cr_comm r) "") by done. cbn [split_on].
  rewrite read_number_dec, read_int_dec_int by done. unfold number_of.
  change (value_of "msgs" _) with (Some (dec (cr_msgs r))). change (value_of "ops" _) with (Some (dec (cr_ops r))).
  change (value_of "err" _) with (Some (dec (cr_err r))). cbn [mbind option_bind].
  rewrite !read_int_dec by done. by destruct r.
Qed.

Lemma mapM_read {A B} (f : string -> option B) (w : A -> string) (g : A -> B) l :
  Forall (fun x => f (w x) = Some (g x)) l -> mapM f (w <$> l) = Some (g <$> l).
Proof. induction 1 as [|x l Hx _ IH]; [done|]. cbn. by rewrite Hx, IH. Qed.

Lemma read_report_text r : plain_report r -> report_range r -> read_stats (report_text r) = Some r.
Proof.
  intros Hp Hr. pose proof Hp as (Hd & Hrs & Hcs). pose proof Hr as (? & ? & ? & ? & ? & Hcr).
  assert (Forall (fun c => plain_comm (cr_comm c) /\ client_range c) (sr_clients r)) as Hall
    by (apply Forall_and; by split).
  unfold read_stats, report_text. rewrite lines_unlines.
  2:{ apply Forall_cons. split; [apply unwords_free; [done|]; apply report_words_free; auto|].
      apply Forall_fmap. eapply Forall_impl; [exact Hall|]. intros c [? ?].
      apply (unwords_free newline (client_words c)); [done|]. apply client_words_free; auto. }
  rewrite words_unwords by (done || apply report_words_free; auto).
  rewrite (mapM_read _ _ id), list_fmap_id.
  2:{ eapply Forall_impl; [exact Hall|]. intros c [? ?]. by apply read_client_words. }
  unfold number_of. change (value_of "dev" _) with (Some (sr_dev r)). change (value_of "rst" _) with (Some (sr_rst r)).
  change (value_of "freq" _) with (Some (dec_int (sr_freq r))). change (value_of "pad" _) with (Some (dec_int (sr_pad r))).
  change (value_of "reads" _) with (Some (dec (sr_reads r))). change (value_of "writes" _) with (Some (dec (sr_writes r))).
  change (value_of "io_err" _) with (Some (dec (sr_io_err r))). change (value_of "warns" _) with (Some (dec (sr_warns r))).
  change (value_of "queued" _) with (Some (dec_int (sr_queued r))). change (value_of "claim" _) with (Some (dec (sr_claim r))).
  change (value_of "mb_inflight" _) with (Some (dec_int (sr_mb_inflight r))). cbn [mbind option_bind].
  rewrite !read_int_dec, !read_int_dec_int by done. by destruct r.
Qed.

(** The text of STATS. *)
Definition stats_text (g : glob) : string :=
  stats_line g (claim_id g) +:+ concat_lines (client_line <$> used_clients (g_cl g)).

Lemma stats_text_report g : stats_text g = report_text (stats_facts g).
Proof.
  unfold stats_text, report_text. cbn [unlines]. rewrite <-append_assoc. f_equal.
  - unfold stats_line, rst_name, stats_facts, report_words, field.
    cbn [fmap list_fmap unwords fst snd sr_dev sr_freq sr_pad sr_rst sr_reads sr_writes sr_io_err sr_warns sr_queued
      sr_claim sr_mb_inflight]. by rewrite !append_assoc.
  - rewrite (concat_unlines _ (unwords ∘ client_words ∘ client_facts)); [cbn [sr_clients stats_facts]; by rewrite <-!list_fmap_compose|].
    intros cl. unfold client_line, client_facts, client_words, field.
    cbn [compose unwords fst snd cr_id cr_comm cr_pid cr_msgs cr_ops cr_err]. by rewrite !append_assoc.
Qed.

Lemma stats_facts_range qa fa busy g : inv qa fa busy g -> report_range (stats_facts g).
Proof.
  intros I. pose proof (inv_diag _ _ _ _ I) as (_ & _ & _ & (? & ? & ? & ?) & _).
  pose proof (inv_cl _ _ _ _ I) as [_ Hall]. unfold is_u64 in *. unfold report_range, stats_facts.
  cbn [sr_reads sr_writes sr_io_err sr_warns sr_claim sr_clients]. split_and!; try lia.
  - unfold claim_id. destruct (claim_owner _) as [o|]; [|done]. destruct (g_cl g !! o) as [co|] eqn:Ho; [|done].
    pose proof (Forall_lookup_1 _ _ _ _ Hall Ho) as (Hid & _). cbn. apply Hid.
  - apply Forall_fmap. unfold used_clients. apply Forall_forall. intros cl [_ Hin]%list_elem_of_filter.
    rewrite Forall_forall in Hall. destruct (Hall _ Hin) as (? & _ & _ & ? & ? & ?). unfold is_u32, is_u64 in *.
    unfold client_range. cbn. lia.
Qed.

Section Texts.
Context {W : Type} {WW : World W} {WO : WorldOk W WW} {RG : Regs}
  {BE : Backend W} {BO : BackendOk W WW BE}.

(** A response sent from any well-formed state. *)
Lemma wp_sent qa fa busy c cl h x body blen E (s : st W) :
  inv qa fa busy (st_g s) -> g_cl (st_g s) !! c = Some cl -> hdr_ok h ->
  0 <= blen <= Z.of_nat SPIPROXY_MSG_MAX -> (Z.to_nat blen <= length body)%nat ->
  wp E (send_resp c h x body blen)
    (fun _ s' => sent (c_fd cl) (response h x (take (Z.to_nat blen) body)) s s') s.
Proof.
  intros I Hcl Hh Hb Hl. eapply (wp_send_resp _ busy []); [|done..].
  exact (owes_owing qa fa busy [key_of (g_cl (st_g s)) c h] s I).
Qed.

Lemma wp_text qa fa busy c cl h x body (n : nat) E (s : st W) :
  inv qa fa busy (st_g s) -> g_cl (st_g s) !! c = Some cl -> hdr_ok h ->
  Z.of_nat n <= 4096 -> (n <= length body)%nat ->
  wp E (send_resp c h x body (Z.of_nat n)) (fun _ s' => sent (c_fd cl) (response h x (take n body)) s s') s.
Proof.
  intros I Hcl Hh Hn Hl. pose proof (wp_sent qa fa busy c cl h x body (Z.of_nat n) E s) as H.
  rewrite Nat2Z.id, msg_max_big in H. apply H; done || lia.
Qed.

(** The recorded operations are in range. *)
Lemma recent_ok qa fa busy g l : inv qa fa busy g -> ring_holds g l -> Forall te_ok (reverse (take 64 l)).
Proof.
  intros I Hr. pose proof (inv_diag _ _ _ _ I) as (Hrl & Hte & _). set (n := (64 `min` length l)%nat).
  assert (take 64 l = take n l) as -> by (unfold n; destruct (decide (64 <= length l)%nat);
    [by rewrite Nat.min_l|rewrite Nat.min_r, !take_ge by lia; done]).
  rewrite <-(ring_window_recent g l n Hr) by (unfold n, TRACE_RING; lia). by apply ring_window_ok.
Qed.

Lemma wp_trace_text qa fa busy c cl h l E (s : st W) :
  inv qa fa busy (st_g s) -> g_cl (st_g s) !! c = Some cl -> hdr_ok h ->
  ring_holds (st_g s) l -> Z.of_nat (length l) < 2 ^ 32 ->
  let t := concat_lines (trace_line <$> reverse (take (Z.to_nat TRACE_TAIL_MAX) l)) in
  (String.length t <= SPIPROXY_MSG_MAX)%nat /\
  wp E (exec_trace c h) (fun _ s' => sent (c_fd cl) (response h SPIPROXY_OK (str_bytes t)) s s') s.
Proof.
  intros I Hcl Hh Hr Hl. pose proof (inv_diag _ _ _ _ I) as (Hrl & Hte & _).
  pose proof Hr as (_ & Hw & _). rewrite u32_id in Hw by (unfold is_u32; lia).
  set (n := (64 `min` length l)%nat).
  assert (take (Z.to_nat TRACE_TAIL_MAX) l = take n l) as ->.
  { unfold n. change (Z.to_nat TRACE_TAIL_MAX) with 64%nat.
    destruct (decide (64 <= length l)%nat); [by rewrite Nat.min_l|].
    rewrite Nat.min_r by lia. rewrite !take_ge by lia. done. }
  rewrite <-(ring_window_recent (st_g s) l n Hr) by (unfold n, TRACE_RING; lia).
  set (txt0 := w_stack (st_w s) SPIPROXY_MSG_MAX).
  pose proof (txt_length s) as Htx. fold txt0 in Htx.
  destruct (trace_lines_text (g_ring (st_g s)) n (Z.of_nat (length l) - Z.of_nat n) txt0 0)
    as (txt1 & Heq & Hl1 & Ht1); [done|done|done|lia|unfold n; lia|].
  pose proof (concat_lines_length (trace_line <$> ring_window (g_ring (st_g s))
    (Z.of_nat (length l) - Z.of_nat n) n) 54) as Hlen.
  rewrite length_fmap in Hlen. unfold ring_window in Hlen at 3. rewrite length_fmap, length_seq in Hlen.
  specialize (Hlen ltac:(apply Forall_fmap; eapply Forall_impl; [by apply ring_window_ok|apply trace_line_length])).
  set (t := concat_lines _) in *. rewrite Z.add_0_l in Heq. cbn [Z.to_nat Nat.add take app] in Ht1.
  rewrite take_0 in Ht1. cbn [app] in Ht1.
  assert (Z.of_nat (String.length t) <= 4096) as Ht by (unfold n in Hlen; lia).
  cbn zeta. fold t. split; [apply Nat2Z.inj_le; exact Ht|].
  unfold exec_trace. wp_steps. unfold TRACE_TAIL_MAX.
  assert (Z.to_nat (g_ring_w (st_g s) - (if 64 <? g_ring_w (st_g s) then g_ring_w (st_g s) - 64 else 0)) = n /\
    (if 64 <? g_ring_w (st_g s) then g_ring_w (st_g s) - 64 else 0) = Z.of_nat (length l) - Z.of_nat n) as [-> ->].
  { rewrite Hw. unfold n. destruct (Z.ltb_spec 64 (Z.of_nat (length l))); lia. }
  fold txt0. rewrite Heq. apply rwp_ok. cbn beta iota.
  rewrite u32_id by (unfold is_u32, n in *; lia). rewrite <-Ht1.
  apply (wp_text qa fa busy); [done..|unfold n in *; lia|unfold n in *; lia].
Qed.

(** C34: a TRACE request answers the newest operations of the op log, at most
    64 of them, oldest first, as long as fewer than 2^32 operations have been
    executed: reading the answer line by line gives back their times, clients,
    directions, slices, MMDs, registers and values. *)
Theorem trace_lists_recent qa fa busy c cl h l (s : st W) :
  inv qa fa busy (st_g s) -> g_cl (st_g s) !! c = Some cl -> hdr_ok h ->
  ring_holds (st_g s) l -> Z.of_nat (length l) < 2 ^ 32 ->
  exists t s', exec_trace c h s = Ok (tt, s') /\ sent (c_fd cl) (response h SPIPROXY_OK (str_bytes t)) s s' /\
    read_trace t = Some (shown_ent <$> reverse (take 64 l)).
Proof.
  intros I Hcl Hh Hr Hl. destruct (wp_trace_text qa fa busy c cl h l (fun _ => False) s) as [_ H]; try done.
  eexists. apply wp_unit in H as (s' & Hs & Hsent). exists s'. split; [done|]. split; [exact Hsent|].
  apply read_trace_text. by eapply recent_ok.
Qed.

Lemma wp_stats_text qa fa busy c cl h E (s : st W) :
  inv qa fa busy (st_g s) -> g_cl (st_g s) !! c = Some cl -> hdr_ok h ->
  (String.length (stats_text (st_g s)) <= SPIPROXY_MSG_MAX)%nat /\
  wp E (exec_stats c h) (fun _ s' => sent (c_fd cl) (response h SPIPROXY_OK (str_bytes (stats_text (st_g s)))) s s') s.
Proof.
  intros I Hcl Hh. pose proof (inv_diag _ _ _ _ I) as (_ & _ & _ & Hcnt & _).
  pose proof (inv_cl _ _ _ _ I) as [Hlen Hall]. pose proof (txt_length s) as Htx.
  assert (is_u32 (claim_id (st_g s))) as Hid.
  { unfold claim_id. destruct (claim_owner _) as [o|]; [|unfold is_u32; lia].
    destruct (g_cl (st_g s) !! o) as [co|] eqn:Ho; cbn; [|unfold is_u32; lia].
    by eapply Forall_lookup_1 in Hall as (? & _). }
  pose proof (stats_line_length (st_g s) (claim_id (st_g s)) (inv_cfg _ _ _ _ I) Hcnt Hid
    (inv_n_queued _ _ _ _ I)) as Hsl.
  set (t := stats_line _ _) in *. set (txt0 := w_stack (st_w s) SPIPROXY_MSG_MAX) in *.
  destruct (snprintf_at_fits txt0 0 t) as (txt1 & Heq1 & Hl1 & Ht1); [lia|lia|].
  destruct (stats_clients_text (g_cl (st_g s)) txt1 (0 + Z.of_nat (String.length t)))
    as (txt2 & Heq2 & Hl2 & Hm2 & Ht2); [done|lia|rewrite Hl1, Hlen; unfold MAX_CLIENTS; lia|].
  set (ls := concat_lines _) in *. rewrite Z.add_0_l, Nat2Z.id in *. 
  change (Z.to_nat 0) with 0%nat in Ht1. rewrite Nat.add_0_l, take_0, app_nil_l in Ht1.
  rewrite Ht1, <-str_bytes_app in Ht2.
  rewrite Hlen in Hm2. unfold MAX_CLIENTS in Hm2.
  unfold stats_text. fold t ls. split; [rewrite slen_app; apply Nat2Z.inj_le; rewrite msg_max_big; lia|].
  unfold exec_stats. wp_steps.
  eapply (wp_mono _ _ (fun cid s' => s' = s /\ cid = claim_id (st_g s))).
  { unfold claim_id. pose proof (inv_claim _ _ _ _ I) as (_ & _ & _ & _ & Hown).
    destruct (claim_owner _) as [o|]; [|by apply wp_ret]. destruct Hown as (co & Ho & _).
    wp_steps. eapply wp_get_client; [done|]. apply wp_ret. by rewrite Ho. }
  cbn beta. intros cid ? [-> ->]. wp_steps. fold t txt0. rewrite Heq1. apply rwp_ok. wp_steps.
  rewrite Heq2. apply rwp_ok. cbn beta iota. rewrite <-Nat2Z.inj_add.
  rewrite u32_id by (unfold is_u32; lia). rewrite <-Ht2.
  apply (wp_text qa fa busy); [done..|lia|lia].
Qed.

(** C35: a STATS request answers one line with the configuration and the counters
    and one line per connected client in slot order, as [key=value] words; the
    text is complete, whatever the values.  If the names contain no blanks,
    newlines or brackets, reading it gives back the daemon's counters, queue
    length, claim holder and the statistics of every connected client. *)
Theorem stats_lists_clients qa fa busy c cl h (s : st W) :
  inv qa fa busy (st_g s) -> g_cl (st_g s) !! c = Some cl -> hdr_ok h ->
  exists t s', exec_stats c h s = Ok (tt, s') /\ sent (c_fd cl) (response h SPIPROXY_OK (str_bytes t)) s s' /\
    t = report_text (stats_facts (st_g s)) /\
    (plain_report (stats_facts (st_g s)) -> read_stats t = Some (stats_facts (st_g s))).
Proof.
  intros I Hcl Hh. destruct (wp_stats_text qa fa busy c cl h (fun _ => False) s I Hcl Hh) as [_ H].
  apply wp_unit in H as (s' & Hs & Hsent). exists (stats_text (st_g s)), s'. rewrite stats_text_report in *.
  do 3 (split; [done|]). intros Hp. apply read_report_text; [done|by eapply stats_facts_range].
Qed.

End Texts.
