(* ===== verification/MainLoop.v ===== *)
(** * Correctness of reception, connections and the main loop *)
From S2P Require Import Prelude Bytes Proto Fmt State Queue Log Spi Exec Mailbox Daemon Invariant.
From S2P Require Import Handlers Scheduler.

(** The state of the daemon between two events: well formed, nothing executing,
    no mailbox transaction in flight. *)
Definition idle {W} (s : st W) : Prop :=
  (exists qa fa, inv qa fa [] (st_g s)) /\ g_mb_inflight (st_g s) = false.

Section MainLoop.
Context {W : Type} {WW : World W} {WO : WorldOk W WW} {RG : Regs}
  {BE : Backend W} {BO : BackendOk W WW BE}.
Implicit Types (s : st W) (E : fault -> Prop).

(** ** Reception *)

Lemma prio_class_range flags : (prio_class flags < 3)%nat.
Proof. unfold prio_class. repeat case_match; lia. Qed.

(** The items after a request was stored into item [i]. *)
Definition stored_at (qs qs' : qstate) (i c : nat) (h : hdr) (body : list Z) : Prop :=
  (payload <$> pool qs') = <[i := (c, h, body)]> (payload <$> pool qs) /\ (i < length (pool qs))%nat.

Lemma stored_lookup qs qs' i c h body j :
  stored_at qs qs' i c h body ->
  payload <$> pool qs' !! j =
    if decide (j = i) then Some (c, h, body) else payload <$> pool qs !! j.
Proof.
  intros [Hp Hi]. rewrite <-!list_lookup_fmap, Hp. destruct (decide (j = i)) as [->|Hne].
  - apply list_lookup_insert_eq. by rewrite length_fmap.
  - by rewrite list_lookup_insert_ne by done.
Qed.

Lemma payload_some (pl : list qitem) j p :
  payload <$> pl !! j = Some p ->
  exists it, pl !! j = Some it /\ q_c it = p.1.1 /\ q_hdr it = p.1.2 /\ q_body it = p.2.
Proof. destruct (pl !! j) as [it|]; [|done]. intros [= <-]. by exists it. Qed.

Lemma item_ok_iff it :
  item_ok it <-> length (payload it).2 = SPIPROXY_MSG_MAX /\ bytes_ok (payload it).2 /\
    ((payload it).1.1 < MAX_CLIENTS)%nat /\ hdr_ok (payload it).1.2.
Proof. done. Qed.

Lemma items_stored qs qs' i c h body :
  stored_at qs qs' i c h body -> Forall item_ok (pool qs) ->
  length body = SPIPROXY_MSG_MAX -> bytes_ok body -> (c < MAX_CLIENTS)%nat -> hdr_ok h ->
  Forall item_ok (pool qs').
Proof.
  intros Hs Hall Hl Hb Hc Hh. apply Forall_lookup. intros j it Hj. rewrite item_ok_iff.
  pose proof (stored_lookup _ _ _ _ _ _ j Hs) as H. rewrite Hj in H. cbn [fmap option_fmap option_map] in H.
  destruct (decide (j = i)) as [_|_].
  - apply (inj Some) in H. rewrite H. done.
  - destruct (pool qs !! j) as [it0|] eqn:Hj0; [|done]. apply (inj Some) in H. rewrite H.
    exact (proj1 (item_ok_iff it0) (Forall_lookup_1 _ _ _ _ Hall Hj0)).
Qed.

Lemma req_key_stored g qs' i c h body j :
  stored_at (g_qs g) qs' i c h body ->
  req_key (set_g_qs (fun _ => qs') g) j = if decide (j = i) then key_of (g_cl g) c h else req_key g j.
Proof.
  intros Hs. pose proof (stored_lookup _ _ _ _ _ _ j Hs) as H. unfold req_key. cbn.
  destruct (decide (j = i)) as [_|_].
  - destruct (payload_some _ _ _ H) as (it & -> & -> & -> & _). done.
  - destruct (pool (g_qs g) !! j) as [it0|]; cbn in H.
    + destruct (payload_some _ _ _ H) as (it & -> & -> & -> & _). done.
    + by destruct (pool qs' !! j).
Qed.

(** The queue structure with one more request. *)
Lemma inv_link qa fa g c h body i q l qs' :
  inv qa (i :: fa) [] g -> stored_at (g_qs g) qs' i c h body ->
  rep qs' (<[q := l ++ [i]]> qa) fa [] -> qa !! q = Some l ->
  length body = SPIPROXY_MSG_MAX -> bytes_ok body -> connected (g_cl g) c -> hdr_ok h ->
  inv (<[q := l ++ [i]]> qa) fa [] (set_g_qs (fun _ => qs') g).
Proof.
  intros I Hs R2 Hl Hbl Hbb Hc Hh. split; cbn [g_qs set_g_qs g_cl]; try apply I; [done| |].
  - eapply items_stored; [done|apply I|done..| |done]. destruct Hc as (cl & Hcl & _).
    rewrite <-(proj1 (inv_cl _ _ _ _ I)). by eapply lookup_lt_Some.
  - intros j. cbn [app]. rewrite (concat_insert qa _ _ _ Hl).
    pose proof (stored_lookup _ _ _ _ _ _ j Hs) as Hj. destruct (decide (j = i)) as [_|Hne].
    + destruct (payload_some _ _ _ Hj) as (it & Hit & Hic & _). cbn in Hic. rewrite <-Hic in Hc. eauto.
    + intros Hin. destruct (inv_live _ _ _ _ I j) as (it0 & Hj0 & Hc0).
      { cbn [app]. rewrite (concat_delete qa _ _ Hl). set_solver. }
      rewrite Hj0 in Hj. destruct (payload_some _ _ _ Hj) as (it & Hit & Hic & _). cbn in Hic.
      rewrite <-Hic in Hc0. eauto.
Qed.

(** Linking a request into its class: its answer is accounted for in the queue. *)
Lemma owes_link gh owed qa fa ev c h src i it s :
  inv qa (i :: fa) [] (st_g s) -> frame (gh_start gh) s ->
  st_out s = ev ++ st_out (gh_start gh) ->
  gh_keys gh ≡ₚ (key_of (g_cl (st_g s)) c h :: owed) ++ answers ev ++ queued_keys (st_g s) qa ->
  (MAX_QITEMS <= gh_max gh)%nat -> connected (g_cl (st_g s)) c -> hdr_ok h ->
  pool (g_qs (st_g s)) !! i = Some it -> (length src <= SPIPROXY_MSG_MAX)%nat -> bytes_ok src ->
  exists qs1 qs2, take_free c h (g_qs (st_g s)) = Ok (Some (i, qs1)) /\
    link_tail (prio_class (h_flags h)) i src qs1 = Ok qs2 /\
    owes gh [] owed (St (set_g_qs (fun _ => qs2) (st_g s)) (st_w s) (st_out s)).
Proof.
  intros I F Ho Hk Hmax Hc Hh Hit Hlen Hb. pose proof (inv_rep _ _ _ _ I) as R.
  pose proof (Forall_lookup_1 _ _ _ _ (inv_items _ _ _ _ I) Hit) as (Hbl & Hbb & _ & _).
  destruct (lookup_lt_is_Some_2 qa (prio_class (h_flags h))) as [l Hl].
  { rewrite (lrep_qa _ _ _ _ (rep_lrep _ _ _ _ R)). apply prio_class_range. }
  destruct (take_free_spec c h _ _ _ _ _ R) as (qs1 & it' & Hit' & Htf & R1 & Hp1). simplify_eq.
  assert (i < length (pool (g_qs (st_g s))))%nat as Hil by by eapply lookup_lt_Some.
  destruct (link_tail_spec qs1 qa fa [] (prio_class (h_flags h)) l i (QItem None c h (q_body it)) src R1 Hl)
    as (qs2 & Hlt & R2 & Hp2);
    [by rewrite Hp1, list_lookup_insert_eq|done|by cbn; rewrite Hbl|].
  assert (stored_at (g_qs (st_g s)) qs2 i c h (src ++ drop (length src) (q_body it))) as Hs.
  { split; [|done]. rewrite Hp2, Hp1, list_fmap_insert. cbn. by rewrite list_insert_insert_eq. }
  exists qs1, qs2. split; [done|]. split; [done|].
  eexists _, fa, ev. split; [|split; [done|split; [done|split]]].
  - eapply inv_link; [done..| |auto with spid|done|done]. rewrite length_app, length_drop, Hbl. lia.
  - cbn [st_g]. rewrite Hk. unfold queued_keys. rewrite (concat_insert qa _ _ _ Hl), (concat_delete qa _ _ Hl).
    rewrite !fmap_app. cbn [fmap list_fmap]. rewrite (req_key_stored _ _ _ _ _ _ i Hs), decide_True by done.
    assert (forall l' : list nat, i ∉ l' -> req_key (set_g_qs (fun _ => qs2) (st_g s)) <$> l' = req_key (st_g s) <$> l') as Hne.
    { intros l' Hi. apply list_fmap_ext. intros k j Hj%list_elem_of_lookup_2.
      rewrite (req_key_stored _ _ _ _ _ _ j Hs), decide_False; [done|]. by intros ->. }
    pose proof (lrep_nodup (rep_lrep _ _ _ _ R)) as Hnd. cbn in Hnd. apply NoDup_cons in Hnd as [Hni _].
    rewrite (concat_delete qa _ _ Hl), !not_elem_of_app in Hni. destruct Hni as (_ & Hn1 & Hn2).
    rewrite !Hne by done. solve_Permutation.
  - pose proof (Permutation_length (lrep_perm _ _ _ _ (rep_lrep _ _ _ _ R2))) as Hlen2.
    rewrite length_seq, !length_app in Hlen2. cbn [length] in Hlen2. lia.
Qed.

(** Time passes; claim, mailbox flag and log context stay. *)
Definition undisturbed s s' : Prop :=
  g_mb_inflight (st_g s') = g_mb_inflight (st_g s) /\ g_claim (st_g s') = g_claim (st_g s).

Lemma wp_enqueue gh owed c h body E Q s :
  owes gh [] (key_of (g_cl (st_g s)) c h :: owed) s -> connected (g_cl (st_g s)) c -> hdr_ok h ->
  (MAX_QITEMS <= gh_max gh)%nat -> h_len h <= Z.of_nat SPIPROXY_MSG_MAX ->
  (Z.to_nat (h_len h) <= length body)%nat -> bytes_ok body ->
  (forall s', owes gh [] owed s' -> undisturbed s s' -> Q tt s') ->
  wp E (enqueue c h body) Q s.
Proof.
  intros HO Hc Hh Hmax Hlen Hbody Hb HQ. pose proof Hc as (cl & Hcl & Hu).
  pose proof HO as (qa & fa & ev & I & _). pose proof (inv_rep _ _ _ _ I) as R.
  unfold enqueue. wp_steps. destruct fa as [|i fa].
  - pose proof (lrep_free _ _ _ _ (rep_lrep _ _ _ _ R)) as Hf. cbn in Hf.
    unfold take_free. rewrite Hf. apply rwp_ok.
    eapply wp_send_empty; [done..|]. intros s' H' (Hk1 & _ & Hk3 & _) _. by apply HQ.
  - destruct (lrep_item (rep_lrep _ _ _ _ R) i) as [it Hit]; [set_solver|].
    destruct (take_free_spec c h _ _ _ _ _ R) as (qs1 & _ & _ & Htf & _). rewrite Htf. apply rwp_ok.
    wp_steps. eapply wp_get_client; [done|]. wp_steps. apply wp_log_debug. intros w2 o2 Ht2 Ho2.
    wp_steps. apply rwp_buf_read; [done|]. rewrite drop_0. wp_steps. set (src := take _ _).
    assert (bytes_ok src) as Hsb by (unfold src; auto with spid).
    assert (length src <= SPIPROXY_MSG_MAX)%nat as Hsl by (unfold src; rewrite length_take; lia).
    pose proof (owes_logged gh [] _ w2 o2 s HO Ht2 Ho2) as HO2.
    clear I R Hit. destruct HO2 as (qa2 & fa2 & ev2 & I2 & F2 & Hout2 & Hk2 & _). cbn [st_g] in *.
    destruct fa2 as [|j fa2].
    { exfalso. pose proof (lrep_free _ _ _ _ (rep_lrep _ _ _ _ (inv_rep _ _ _ _ I2))) as Hf. cbn in Hf.
      unfold take_free in Htf. rewrite Hf in Htf. done. }
    destruct (lrep_item (rep_lrep _ _ _ _ (inv_rep _ _ _ _ I2)) j) as [jt Hjt]; [set_solver|].
    destruct (owes_link gh owed qa2 fa2 ev2 c h src j jt (St (st_g s) w2 (o2 ++ st_out s)))
      as (qs1' & qs2 & Htf' & Hlt & H'); [done..|].
    cbn [st_g] in Htf'. rewrite Htf in Htf'. simplify_eq. cbn [g_qs set_g_qs]. rewrite Hlt. apply rwp_ok.
    wp_steps. by apply HQ.
Qed.

(** The header the daemon sees in a datagram of [n] bytes. *)
Definition frame_hdr (msg : list Z) (n : Z) : hdr :=
  if n <? Z.of_nat hdr_size then Hdr 0 0 0 0 0 else hdr_decode (take hdr_size msg).

Lemma frame_hdr_ok msg n : bytes_ok msg -> hdr_ok (frame_hdr msg n).
Proof.
  intros Hb. unfold frame_hdr. destruct (_ <? _); [|auto with spid].
  unfold hdr_ok, is_u8, is_u16, is_u32. cbn. lia.
Qed.

(** A datagram is answered with an error or becomes a queued request. *)
Lemma wp_client_frame gh owed c msg n E Q s :
  owes gh [] (key_of (g_cl (st_g s)) c (frame_hdr msg n) :: owed) s ->
  connected (g_cl (st_g s)) c -> (MAX_QITEMS <= gh_max gh)%nat ->
  n <= Z.of_nat (length msg) -> length msg = MSG_BUF -> bytes_ok msg ->
  (forall s', owes gh [] owed s' -> undisturbed s s' -> Q tt s') ->
  wp E (client_frame c msg n) Q s.
Proof.
  intros HO Hc Hmax Hn Hl Hb HQ. pose proof Hc as (cl & Hcl & Hu).
  pose proof (frame_hdr_ok msg n Hb) as Hh. unfold client_frame, frame_hdr in *.
  assert (Z.of_nat (length msg) = 4108) as Hlz by by rewrite Hl.
  destruct (Z.ltb_spec n (Z.of_nat hdr_size)) as [Hlt|Hge].
  { eapply wp_send_empty; [done..|]. intros s' H' (Hk1 & _ & Hk3 & _) _. by apply HQ. }
  unfold hdr_size in Hge. wp_steps. apply rwp_buf_read; [unfold hdr_size; lia|]. rewrite drop_0.
  set (h := hdr_decode _) in *. apply wp_if; intros Hchk.
  { eapply wp_send_empty; [done..|]. intros s' H' (Hk1 & _ & Hk3 & _) _. by apply HQ. }
  apply orb_false_iff in Hchk as [[_ Hlen%negb_false_iff%Z.eqb_eq]%orb_false_iff Hmsg%Z.ltb_ge].
  unfold hdr_size in Hlen. wp_steps. eapply wp_upd_client; [done|].
  set (f := set_c_n_msgs _). set (s1 := St _ _ _).
  assert (Forall2 same_client (g_cl (st_g s)) (g_cl (st_g s1))) as Hs
    by (eapply same_clients_insert; [done|]; done).
  eapply (wp_enqueue gh owed); [| |done..|rewrite length_drop; unfold hdr_size; lia|auto with spid|].
  - unfold key_of. rewrite (same_clients_fd _ _ _ Hs).
    apply owes_client; [done..|]. intros H. by apply client_ok_stats.
  - by eapply same_clients_connected.
  - intros s' H' [Hm' Hc']. by apply HQ.
Qed.

(** ** Connections *)

(** Neither the configuration nor the stop flag changes. *)
Definition steady s s' : Prop := g_cfg (st_g s') = g_cfg (st_g s) /\ g_stop (st_g s') = g_stop (st_g s).

Lemma steady_trans s1 s2 s3 : steady s1 s2 -> steady s2 s3 -> steady s1 s3.
Proof. unfold steady. intuition congruence. Qed.

Lemma owes_steady gh busy owed s : owes gh busy owed s -> steady (gh_start gh) s.
Proof. by intros (qa & fa & ev & _ & (? & _ & ? & _) & _). Qed.

(** Every other connection survives, and no new one appears. *)
Definition others_stay (c : nat) s s' : Prop :=
  forall c', c' <> c -> (connected (g_cl (st_g s)) c' <-> connected (g_cl (st_g s')) c').

Lemma queued_keys_length g qa : length (queued_keys g qa) = length (concat qa).
Proof. apply length_fmap. Qed.

(** Ending a claim between events answers nobody. *)
Lemma wp_idle_claim_end abnormal E Q s :
  idle s ->
  (forall s' ev, idle s' -> same_tables s s' -> claim_owner (g_claim (st_g s')) = None ->
     st_out s' = ev ++ st_out s -> answers ev = [] -> steady s s' -> Q tt s') ->
  wp E (claim_end abnormal) Q s.
Proof.
  intros [(qa & fa & I) Hm] HQ. eapply wp_claim_end; [by apply (owes_start qa fa)|].
  intros s' Hs _ Ht Hown. pose proof (owes_steady _ _ _ _ Hs) as Hst.
  destruct Hs as (qa' & fa' & ev & I' & _ & Ho & Hk & _). cbn in Ho, Hk. apply (HQ s' ev); try done.
  - split; [by exists qa', fa'|]. destruct Ht as (_ & _ & -> & _). done.
  - apply nil_length_inv. apply Permutation_length in Hk. rewrite length_app, !queued_keys_length in Hk.
    destruct Ht as (_ & Hqs & _). pose proof (rep_count _ _ _ _ (inv_rep _ _ _ _ I)) as H1.
    pose proof (rep_count _ _ _ _ (inv_rep _ _ _ _ I')) as H2. rewrite Hqs in H2. lia.
Qed.

Lemma inv_purge qa fa g c :
  inv qa fa [] g ->
  exists qs' fa', purge_client c (g_qs g) = Ok qs' /\
    inv (keep c (pool (g_qs g)) <$> qa) fa' [] (set_g_qs (fun _ => qs') g) /\
    (forall i it, i ∈ concat (keep c (pool (g_qs g)) <$> qa) -> pool qs' !! i = Some it -> q_c it <> c).
Proof.
  intros I. destruct (purge_client_refines c _ _ _ _ (inv_rep _ _ _ _ I)) as (qs' & fa' & Hp & R' & _ & Hs).
  assert (forall i, i ∈ concat (keep c (pool (g_qs g)) <$> qa) ->
    i ∈ concat qa /\ ~ owned_by (pool (g_qs g)) c i) as Hin.
  { intros i Hi. apply list_elem_of_In, in_concat in Hi as (l & Hl & Hi).
    apply list_elem_of_In, list_elem_of_fmap in Hl as (l0 & -> & Hl0).
    apply list_elem_of_In, list_elem_of_filter in Hi as [Hno Hi]. split; [|done].
    apply list_elem_of_In, in_concat. exists l0. by rewrite <-!list_elem_of_In. }
  exists qs', fa'. split; [done|]. split.
  - eapply inv_requeue; [done..|]. intros i. cbn. intros Hi. by apply Hin.
  - intros i it [_ Hno]%Hin Hit Hc. apply Hno.
    rewrite <-(owned_same _ _ _ _ Hs). by apply (owned_lookup _ _ _ _ Hit).
Qed.

(** Marking the slot free once nothing refers to it. *)
Lemma inv_disconnect qa fa g c cl :
  inv qa fa [] g -> g_cl g !! c = Some cl -> claim_owner (g_claim g) <> Some c ->
  (forall i it, i ∈ concat qa -> pool (g_qs g) !! i = Some it -> q_c it <> c) ->
  inv qa fa [] (set_g_cl (fun l => <[c := set_c_used (fun _ => false) cl]> l) g).
Proof.
  intros I Hcl Hown Hno. pose proof (inv_cl _ _ _ _ I) as [Hlen Hall].
  assert (forall c', c' <> c -> connected (g_cl g) c' ->
    connected (<[c := set_c_used (fun _ => false) cl]> (g_cl g)) c') as Hother.
  { intros c' Hne (cl' & Hc' & Hu'). exists cl'. by rewrite list_lookup_insert_ne by done. }
  split; cbn; try apply I.
  - split; cbn; [by rewrite length_insert|]. apply Forall_insert; [done|].
    exact (Forall_lookup_1 _ _ _ _ Hall Hcl).
  - destruct (inv_claim _ _ _ _ I) as (? & ? & ? & ? & Ho). do 4 (split; [done|]).
    destruct (claim_owner (g_claim g)) as [o|]; [|done]. apply Hother; [congruence|done].
  - intros i Hi. destruct (inv_live _ _ _ _ I i Hi) as (it & Hit & Hc). exists it.
    split; [done|]. apply Hother; [|done]. by eapply Hno.
Qed.

Lemma wp_client_drop c E Q s :
  idle s -> connected (g_cl (st_g s)) c ->
  (forall s' ev, idle s' -> others_stay c s s' -> ~ connected (g_cl (st_g s')) c ->
     claim_owner (g_claim (st_g s')) <> Some c ->
     st_out s' = ev ++ st_out s -> answers ev = [] -> steady s s' -> Q tt s') ->
  wp E (client_drop c) Q s.
Proof.
  intros HI Hc HQ. unfold client_drop. wp_steps.
  eapply (wp_mono _ _ (fun _ s1 => idle s1 /\ g_cl (st_g s1) = g_cl (st_g s) /\
    claim_owner (g_claim (st_g s1)) <> Some c /\ steady s s1 /\
    exists ev, st_out s1 = ev ++ st_out s /\ answers ev = [])).
  { apply wp_when; intros Hown.
    - apply wp_idle_claim_end; [done|]. intros s1 ev H1 [Hcl _] Hn Ho Ha Hst. rewrite Hn. eauto 10.
    - apply bool_decide_eq_false in Hown. do 4 (split; [done|]). by exists []. }
  cbn beta. intros _ s1 ([(qa & fa & I) Hm] & Hcl & Hown & Hst & ev & Ho & Ha). wp_steps.
  destruct (inv_purge qa fa _ c I) as (qs' & fa' & -> & I2 & Hno). apply rwp_ok. wp_steps.
  destruct Hc as (cl & Hc & Hu).
  eapply wp_get_client; [cbn; by rewrite Hcl|]. wp_steps.
  eapply wp_upd_client; [cbn; by rewrite Hcl|]. apply wp_log_debug. intros w3 o3 Ht3 Ho3.
  cbn [st_g st_w st_out] in *.
  assert (c < length (g_cl (st_g s)))%nat as Hlt by by eapply lookup_lt_Some.
  eapply (HQ _ (o3 ++ [EvClose (c_fd cl); EvEpollDel (c_fd cl)] ++ ev)).
  - split; [|done]. eexists _, fa'. apply inv_disconnect; [exact I2|by cbn; rewrite Hcl|done|].
    intros i it Hi Hit. by eapply Hno.
  - intros c' Hne. cbn. unfold connected. by rewrite Hcl, list_lookup_insert_ne by done.
  - cbn. rewrite Hcl. intros (cl' & Hc' & Hu'). rewrite list_lookup_insert_eq in Hc' by done.
    by simplify_eq.
  - done.
  - cbn. by rewrite Ho, <-!app_assoc.
  - unfold answers. rewrite !omap_app. fold (answers o3) (answers ev). rewrite Ha.
    by rewrite log_answers.
  - exact Hst.
Qed.

Lemma first_line_length n t : (String.length (first_line n t) <= n)%nat.
Proof.
  revert t. induction n as [|n IH]; intros [|a t]; cbn; try lia.
  destruct (_ || _); cbn; [lia|]. specialize (IH t). lia.
Qed.

Lemma peer_comm_length file : (String.length (peer_comm file) < COMM_PATH_MAX)%nat.
Proof.
  unfold peer_comm, COMM_PATH_MAX. case_bool_decide; [cbn; lia|].
  destruct file as [t|]; [|cbn; lia]. pose proof (first_line_length (20 - 1) t). lia.
Qed.

Lemma free_slot_spec cls :
  (free_slot cls = length cls /\ Forall (fun c => c_used c = true) cls) \/
  exists c, cls !! free_slot cls = Some c /\ c_used c = false.
Proof.
  induction cls as [|c cls IH]; cbn; [by left|]. destruct (c_used c) eqn:Hu.
  - destruct IH as [[Hl Hall]|IH]; [left|by right]. split; [lia|by constructor].
  - right. by exists c.
Qed.

(** A new connection takes a free slot. *)
Lemma inv_new_client qa fa g i c0 cl :
  inv qa fa [] g -> g_cl g !! i = Some c0 -> c_used c0 = false -> client_ok cl ->
  inv qa fa [] (set_g_cl (fun _ => <[i := cl]> (g_cl g)) g).
Proof.
  intros I Hi Hu Hok. pose proof (inv_cl _ _ _ _ I) as [Hlen Hall].
  assert (forall c', connected (g_cl g) c' -> connected (<[i := cl]> (g_cl g)) c') as Hkeep.
  { intros c' (cl' & Hc' & Hu'). exists cl'. rewrite list_lookup_insert_ne; [done|]. congruence. }
  split; cbn; try apply I.
  - split; cbn; [by rewrite length_insert|by apply Forall_insert].
  - destruct (inv_claim _ _ _ _ I) as (? & ? & ? & ? & Ho). do 4 (split; [done|]).
    destruct (claim_owner (g_claim g)); [by apply Hkeep|done].
  - intros j Hj. destruct (inv_live _ _ _ _ I j Hj) as (it & Hit & Hc). eauto.
Qed.

Lemma inv_connect qa fa g i c0 cl :
  inv qa fa [] g -> g_cl g !! i = Some c0 -> c_used c0 = false -> client_ok cl ->
  inv qa fa [] (set_g_cl (fun _ => <[i := cl]> (g_cl g)) (set_g_next_cid (fun n => u32 (n + 1)) g)).
Proof.
  intros I Hi Hu Hok. pose proof (inv_new_client _ _ _ _ _ _ I Hi Hu Hok) as I'.
  split; try apply I'. apply u32_range.
Qed.

Lemma wp_accept_client E Q s :
  idle s ->
  (forall s' ev, idle s' ->
     (forall c, connected (g_cl (st_g s)) c -> connected (g_cl (st_g s')) c) ->
     st_out s' = ev ++ st_out s -> answers ev = [] -> steady s s' -> Q tt s') ->
  wp E accept_client Q s.
Proof.
  intros [(qa & fa & I) Hm] HQ. pose proof (inv_cl _ _ _ _ I) as [Hlen Hall].
  unfold accept_client. wp_steps. apply wp_ask. intros w1 r Hw.
  assert (idle (St (st_g s) w1 (st_out s))) as H1 by (split; [by exists qa, fa|done]).
  destruct r as [a|]; [|apply wp_ret; by apply (HQ _ [])]. wp_steps.
  pose proof (w_accept_pid (st_w s) a) as Hpid. rewrite Hw in Hpid. specialize (Hpid eq_refl).
  destruct (Nat.eqb_spec (free_slot (g_cl (st_g s))) MAX_CLIENTS) as [Hfull|Hfree].
  { wp_steps. apply (HQ _ [EvClose (ac_fd a)]); done. }
  destruct (free_slot_spec (g_cl (st_g s))) as [[Hfs _]|(c0 & Hc0 & Hu0)]; [congruence|].
  wp_steps. apply rwp_arr_set; [by eapply lookup_lt_Some|]. wp_steps.
  set (cl := Client _ _ _ _ _ _ _ _).
  assert (client_ok cl) as Hcl.
  { unfold client_ok, cl. cbn. pose proof (peer_comm_length (ac_comm_file a)).
    split_and!; try done; try apply u32_range; unfold is_u64; lia. }
  apply wp_log_msg. intros w3 o3 Ht3 Ho3. apply wp_log_debug. intros w4 o4 Ht4 Ho4.
  cbn [st_g st_w st_out] in *.
  eapply (HQ _ (o4 ++ o3 ++ [EvEpollAdd (ac_fd a) (free_slot (g_cl (st_g s)))])).
  - split; [|done]. exists qa, fa. by apply (inv_connect qa fa _ _ c0).
  - intros c' (cl' & Hc' & Hu'). exists cl'. cbn. rewrite list_lookup_insert_ne; [done|]. congruence.
  - cbn. by rewrite <-!app_assoc.
  - unfold answers. rewrite !omap_app. fold (answers o3) (answers o4).
    rewrite (log_answers o4), (log_answers o3) by done. done.
  - done.
Qed.

(** ** One turn of the loop *)

Lemma concat_bound qa fa busy g : inv qa fa busy g -> (length (concat qa) <= MAX_QITEMS)%nat.
Proof.
  intros I. pose proof (Permutation_length (lrep_perm _ _ _ _ (rep_lrep _ _ _ _ (inv_rep _ _ _ _ I)))) as H.
  rewrite length_seq, !length_app in H. lia.
Qed.

(** Bookkeeping from an idle state, with answers owed for datagrams just read. *)
Lemma owes_begin qa fa owed s :
  inv qa fa [] (st_g s) ->
  owes (Ghost s (owed ++ queued_keys (st_g s) qa) MAX_QITEMS) [] owed s.
Proof.
  intros I. exists qa, fa, []. split; [done|]. split; [done|]. split; [done|]. split; [done|].
  by eapply concat_bound.
Qed.

Lemma owes_idle gh owed s :
  owes gh [] owed s -> g_mb_inflight (st_g s) = false -> idle s.
Proof. intros (qa & fa & ev & I & _) Hm. split; [by exists qa, fa|done]. Qed.

Lemma same_clients_iff cls cls' c :
  Forall2 same_client cls cls' -> connected cls c <-> connected cls' c.
Proof.
  intros Hs. split; [by apply same_clients_connected|]. by apply same_clients_connected, same_clients_sym.
Qed.

Lemma owes_others gh owed s :
  owes gh [] owed s -> forall c, connected (g_cl (st_g (gh_start gh))) c -> connected (g_cl (st_g s)) c.
Proof.
  intros (qa & fa & ev & _ & (_ & _ & _ & Hc & _) & _) c. by apply same_clients_connected.
Qed.

(** Idle, and nothing but well-formed datagrams on the wire. *)
Definition orderly s : Prop := idle s /\ wire_ok (st_out s).

Lemma answers_nil_wire ev out : answers ev = [] -> wire_ok out -> wire_ok (ev ++ out).
Proof.
  intros Ha. apply wire_ok_app. unfold answers in Ha. induction ev as [|e ev IH]; [done|]. cbn in Ha.
  destruct (answer_of e) eqn:He; [done|]. constructor; auto.
Qed.

Lemma owes_wire gh busy owed s : owes gh busy owed s -> wire_ok (st_out (gh_start gh)) -> wire_ok (st_out s).
Proof. by intros (qa & fa & ev & _ & (_ & _ & _ & _ & _ & Hw) & _). Qed.

Lemma wp_client_msg c E s :
  orderly s -> connected (g_cl (st_g s)) c ->
  wp E (client_msg c) (fun _ s' => orderly s' /\ others_stay c s s' /\ steady s s') s.
Proof.
  intros [HI Hwire] Hc. pose proof Hc as (cl & Hcl & Hu). unfold client_msg. wp_steps.
  eapply wp_get_client; [done|]. wp_steps. apply wp_ask. intros w1 [n msg] Hw.
  pose proof (w_recv_buf (st_w s) (c_fd cl)) as Hr. rewrite Hw in Hr. destruct Hr as (Hn & Hl & Hb).
  set (s1 := St (st_g s) w1 (st_out s)). assert (idle s1) as H1 by by destruct HI.
  apply wp_if; intros _.
  - eapply wp_client_drop; [done|done|]. intros s' ev H' Ho _ _ Hout Ha Hst. split; [|done]. split; [done|].
    rewrite Hout. by apply answers_nil_wire.
  - destruct H1 as [(qa & fa & I) Hm].
    eapply wp_client_frame; [by apply (owes_begin qa fa [_])|done|done|rewrite Hl; lia|done|done|].
    intros s' H' [Hm' _]. split; [split; [by eapply owes_idle; [|congruence]|by apply (owes_wire _ _ _ _ H')]|].
    split; [|by apply (owes_steady _ _ _ _ H')]. intros c' _. destruct H' as (? & ? & ? & _ & (_ & _ & _ & Hs & _) & _). by apply same_clients_iff.
Qed.

Lemma wp_expire_claim E s : orderly s -> wp E expire_claim (fun _ s' => orderly s' /\ steady s s') s.
Proof.
  intros [HI Hwire]. unfold expire_claim. wp_steps. pose proof HI as [(qa & fa & I) Hm].
  pose proof (inv_claim _ _ _ _ I) as (_ & _ & _ & _ & Hown).
  destruct (claim_owner (g_claim (st_g s))) as [o|]; [|by apply wp_ret].
  destruct Hown as (cl & Hcl & _). wp_steps. apply wp_now_time. intros w1 Ht1.
  apply wp_when; intros _; [|by destruct HI]. wp_steps. eapply wp_get_client; [done|]. wp_steps.
  apply wp_log_msg. intros w2 o2 Ht2 Ho2. apply wp_bind, wp_log_debug. intros w3 o3 Ht3 Ho3.
  apply wp_idle_claim_end; [split; [by exists qa, fa|done]|]. intros s' ev H' _ _ Hout Ha Hst. split; [split; [done|]|done].
  rewrite Hout. apply answers_nil_wire; [done|]. cbn [st_out]. by do 2 (apply answers_nil_wire; [by apply log_answers|]).
Qed.

Lemma wp_handle_events ready E s :
  orderly s -> NoDup ready -> (forall c, Some c ∈ ready -> connected (g_cl (st_g s)) c) ->
  wp E (forM ready handle_event) (fun _ s' => orderly s' /\ steady s s') s.
Proof.
  intros HI Hnd Hc.
  eapply (wp_for_list _ (fun before s' => (orderly s' /\ steady s s') /\
    forall c, Some c ∈ ready -> Some c ∉ before -> connected (g_cl (st_g s')) c)).
  - split; [done|]. auto.
  - intros before e todo s1 -> [[H1 Hst1] Hc1]. apply NoDup_app in Hnd as (_ & Hd & Hnd).
    destruct e as [c|]; cbn [handle_event].
    + eapply wp_mono; [apply wp_client_msg; [done|]|].
      * apply Hc1; [set_solver|]. intros Hin. apply (Hd _ Hin). set_solver.
      * cbn beta. intros _ s2 (H2 & Ho & Hst). split; [split; [done|by eapply steady_trans]|]. intros c' Hin Hnot.
        apply Ho; [set_solver|]. apply Hc1; set_solver.
    + destruct H1 as [H1 Hw1]. apply wp_accept_client; [done|]. intros s2 ev H2 Ho Hout Ha Hst. split.
      * split; [|by eapply steady_trans]. split; [done|]. rewrite Hout. by apply answers_nil_wire.
      * intros c' Hin Hnot. apply Ho, Hc1; set_solver.
  - by intros s' [H' _].
Qed.

Lemma wp_loop_turn fuel ready E s :
  orderly s -> NoDup ready -> (forall c, Some c ∈ ready -> connected (g_cl (st_g s)) c) ->
  enough (W := W) E (S MAX_QITEMS) fuel ->
  wp E (loop_turn fuel ready) (fun _ s' => orderly s' /\ steady s s') s.
Proof.
  intros HI Hnd Hc Hf. unfold loop_turn. apply wp_bind.
  eapply wp_mono; [by apply wp_handle_events|]. cbn beta. intros _ s1 [H1 Hst1].
  apply wp_bind. eapply wp_mono; [by apply wp_expire_claim|]. cbn beta.
  intros _ s2 [[[(qa & fa & I) Hm] Hw] Hst2].
  eapply wp_mono; [eapply wp_drain_queues; [by apply (owes_begin qa fa [])|exact Hf]|].
  cbn beta. intros _ s3 (H3 & _ & _ & Hm3).
  split; [|eapply steady_trans; [exact Hst1|eapply steady_trans; [exact Hst2|by apply (owes_steady _ _ _ _ H3)]]].
  split; [|by apply (owes_wire _ _ _ _ H3)].
  eapply owes_idle; [exact H3|]. destruct (g_mb_inflight (st_g s3)); [|done]. rewrite Hm3 in Hm; done.
Qed.

End MainLoop.
