(* ===== verification/RequestSpec.v ===== *)
(** * What each request does

    Functional specifications of the handlers on every branch: single
    operations, claims and their expiry, hardware resets, new connections. *)
From S2P Require Import Prelude Bytes Proto Fmt State Queue Log Spi Exec OpSpec Mailbox Daemon Invariant.
From S2P Require Import Handlers Atomic TextSpec MainLoop.

(** The one answer between two states. *)
Definition replied {W} {WW : World W} (fd : Z) (msg : list Z) (s s' : st W) : Prop :=
  exists ev1 w ev2, st_out s' = ev1 ++ EvSend fd msg (0 <=? snd (w_send w fd msg)) :: ev2 ++ st_out s /\
    answers ev1 = [] /\ answers ev2 = [].

Lemma sent_replied {W} {WW : World W} fd msg (s s1 s' : st W) ev :
  st_out s1 = ev ++ st_out s -> answers ev = [] -> sent fd msg s1 s' -> replied fd msg s s'.
Proof.
  intros Ho Ha (ok & ev1 & Ho1 & Hl). exists ev1, ok, ev. rewrite Ho1, Ho.
  split; [done|]. split; [by apply log_answers|done].
Qed.

(** What a claim request asks for. *)
Definition claim_body (body : list Z) : claim_req := claim_decode (take claim_size body).
Definition claim_sized (h : hdr) (body : list Z) : Prop :=
  let n := cl_ncleanup (claim_body body) in
  Z.of_nat claim_size <= h_len h /\ n <= Z.of_nat SPIPROXY_BATCH_MAX /\
  h_len h = Z.of_nat claim_size + n * Z.of_nat op_size.

Section Requests.
Context {W : Type} {WW : World W} {WO : WorldOk W WW} {RG : Regs}
  {BE : Backend W} {BO : BackendOk W WW BE}.
Implicit Types (s : st W).

(** The claim table after a grant at time [t]. *)
Definition granted (c : nat) (body : list Z) (t : Z) (new : claim_state) : Prop :=
  let cr := claim_body body in let n := Z.to_nat (cl_ncleanup cr) in
  claim_owner new = Some c /\ claim_deadline new = u64 (t + cl_max_ms cr * 1000) /\
  claim_ncleanup new = cl_ncleanup cr /\
  take n (claim_cleanup new) = ops_decode n (take (n * op_size) (drop claim_size body)).

(** How a claim request of client [c] ends with status [x]. *)
Definition claim_outcome (c : nat) (h : hdr) (body : list Z) s (x : spiproxy_status) s' : Prop :=
  let owner := claim_owner (g_claim (st_g s)) in
  match x with
  | SPIPROXY_EINVAL => ~ claim_sized h body /\ g_claim (st_g s') = g_claim (st_g s)
  | SPIPROXY_EBUSY => claim_sized h body /\ (exists o, owner = Some o /\ o <> c) /\
      g_claim (st_g s') = g_claim (st_g s)
  | SPIPROXY_OK => claim_sized h body /\ (owner = None \/ owner = Some c) /\
      exists t, w_time (st_w s) <= t <= w_time (st_w s') /\ granted c body t (g_claim (st_g s'))
  | _ => False
  end.

Lemma claim_body_ok body : bytes_ok body -> claim_ok (claim_body body).
Proof. intros. unfold claim_body. auto with spid. Qed.

(** A request that is refused at once. *)
Lemma wp_refuse qa fa busy c cl h x (P : spiproxy_status -> st W -> Prop) E s :
  inv qa fa busy (st_g s) -> g_cl (st_g s) !! c = Some cl -> hdr_ok h ->
  (forall s', g_claim (st_g s') = g_claim (st_g s) -> P x s') ->
  wp E (send_resp c h x [] 0)
    (fun _ s' => exists x, replied (c_fd cl) (response h x []) s s' /\ P x s') s.
Proof.
  intros I Hcl Hh HP.
  eapply (wp_send_empty _ busy []); [by apply (owes_owing qa fa busy [_])|done|done|].
  intros s' _ (_ & _ & Hc & _) Hs. exists x. split; [|by apply HP]. by apply (sent_replied _ _ s s s' []).
Qed.

(** The table a grant leaves is well formed. *)
Lemma granted_wf cls cs c body t :
  claim_wf cls cs -> connected cls c -> bytes_ok body ->
  cl_ncleanup (claim_body body) <= Z.of_nat SPIPROXY_BATCH_MAX ->
  let n := Z.to_nat (cl_ncleanup (claim_body body)) in
  claim_wf cls (ClaimState (Some c) (u64 t)
    (ops_decode n (take (n * op_size) (drop claim_size body)) ++ drop n (claim_cleanup cs))
    (cl_ncleanup (claim_body body))).
Proof.
  intros (Hl & Hall & _) Hc Hb Hn n. destruct (claim_body_ok body Hb) as (_ & Hr & _). unfold is_u16 in Hr.
  destruct (ops_decode_ok n (take (n * op_size) (drop claim_size body))) as [Hol Hoa]; [auto with spid|].
  unfold claim_wf. cbn [claim_cleanup claim_ncleanup claim_deadline claim_owner].
  split; [rewrite length_app, length_drop, Hol, Hl; unfold SPIPROXY_BATCH_MAX in *; lia|].
  split; [apply Forall_app_2; [done|by apply Forall_drop]|].
  split; [lia|]. split; [apply u64_range|done].
Qed.

(** C22: a claim request of the wrong size is refused with EINVAL and one for a
    device that another client holds with EBUSY, leaving the claim as it is;
    any other is granted: the client owns the device until the deadline it
    asked for, its cleanup operations are registered in order, and the answer
    is OK.  Extending one's own claim is a grant. *)
Theorem claim_request_outcome qa fa busy c cl h body s :
  inv qa fa busy (st_g s) -> g_cl (st_g s) !! c = Some cl -> c_used cl = true -> hdr_ok h ->
  length body = SPIPROXY_MSG_MAX -> bytes_ok body ->
  exists x s', exec_claim c h body s = Ok (tt, s') /\ replied (c_fd cl) (response h x []) s s' /\
    claim_outcome c h body s x s'.
Proof.
  intros I Hcl Hu Hh Hl Hb. pose proof msg_max_big as Hmm.
  enough (wp (fun _ => False) (exec_claim c h body) (fun _ s' =>
    exists x, replied (c_fd cl) (response h x []) s s' /\ claim_outcome c h body s x s') s) as H.
  { destruct (wp_returns _ _ _ H) as ([] & s' & ? & x & ? & ?). by exists x, s'. }
  unfold exec_claim. apply wp_if; intros Hsz.
  { eapply wp_refuse; [done..|]. intros s' Hc. split; [unfold claim_sized; lia|done]. }
  apply Z.ltb_ge in Hsz. wp_steps. apply rwp_buf_read; [unfold claim_size; lia|]. rewrite drop_0.
  fold (claim_body body). pose proof (claim_body_ok body Hb) as (_ & Hr & _). unfold is_u16 in Hr.
  apply wp_if; intros Hchk.
  { eapply wp_refuse; [done..|]. intros s' Hc. split; [|done]. unfold claim_sized.
    apply orb_true_iff in Hchk as [?%Z.ltb_lt|?%negb_true_iff%Z.eqb_neq]; lia. }
  apply orb_false_iff in Hchk as [Hmax%Z.ltb_ge Hlen%negb_false_iff%Z.eqb_eq].
  assert (claim_sized h body) as Hok by by split_and!. unfold claim_size, op_size in Hlen.
  wp_steps. apply wp_if; intros Hown.
  { eapply wp_refuse; [done..|]. intros s' Hc. split; [done|]. split; [|done].
    destruct (claim_owner _) as [o|]; [|done]. apply bool_decide_eq_true in Hown. eauto. }
  assert (claim_owner (g_claim (st_g s)) = None \/ claim_owner (g_claim (st_g s)) = Some c) as Hfree.
  { destruct (claim_owner _) as [o|]; [right|by left]. apply bool_decide_eq_false, dec_stable in Hown.
    by rewrite Hown. }
  wp_steps. eapply wp_get_client; [done|]. wp_steps. apply wp_log_debug. intros w2 o2 Ht2 Ho2.
  cbn [st_g st_w st_out] in *. wp_steps. apply wp_now_time. intros w3 Ht3. wp_steps.
  apply rwp_buf_read; [unfold claim_size, op_size; unfold SPIPROXY_BATCH_MAX in Hmax; lia|]. wp_steps.
  destruct (inv_claim _ _ _ _ I) as [Hwl _].
  eapply rwp_arr_fill; [apply ops_decode_ok; auto with spid|refine (eq_ind_r (le _) _ Hwl); lia|]. wp_steps.
  set (s3 := St _ _ _).
  assert (inv qa fa busy (st_g s3)) as I3.
  { apply (inv_set_claim qa fa busy (fun cs => ClaimState (Some c)
      (u64 (w_time w2 + cl_max_ms (claim_body body) * 1000)) _ _) (st_g s)); [done|].
    exact (granted_wf (g_cl (st_g s)) (g_claim (st_g s)) c body _ (inv_claim _ _ _ _ I)
      (ex_intro _ cl (conj Hcl Hu)) Hb Hmax). }
  eapply (wp_send_empty _ busy []); [by apply (owes_owing qa fa busy [_])|done|done|].
  intros s' _ (_ & _ & Hc & Ht) Hs. exists SPIPROXY_OK. split.
  { eapply (sent_replied _ _ s s3 s' o2); [done|by apply log_answers|done]. }
  split; [done|]. split; [done|]. exists (w_time w2). change (st_w s3) with w3 in Ht. cbn [st_w] in Ht3. split; [lia|].
  unfold granted. rewrite Hc. split; [done|]. split; [done|]. split; [done|].
  cbn [s3 st_g g_claim set_g_claim claim_cleanup set_claim_cleanup].
  set (n := Z.to_nat _). destruct (ops_decode_ok n (take (n * op_size) (drop claim_size body))) as [Hol _];
    [auto with spid|]. by rewrite take_app_length'.
Qed.

(** ** New connections *)

Lemma free_slot_first cls j cl :
  (j < free_slot cls)%nat -> cls !! j = Some cl -> c_used cl = true.
Proof.
  revert j. induction cls as [|c cls IH]; intros j; cbn; [lia|]. destruct (c_used c) eqn:Hu; [|lia].
  destruct j as [|j]; cbn; [by intros _ [= <-]|]. intros Hj. apply IH. lia.
Qed.

(** an accepted connection takes the first free slot, under the next client
    number and with cleared statistics; no other slot, queue or claim changes.
    With all slots taken the connection is closed and nothing changes. *)
Theorem accept_takes_first_free_slot qa fa busy a w' s :
  inv qa fa busy (st_g s) -> w_accept (st_w s) = (w', Some a) ->
  exists s', accept_client s = Ok (tt, s') /\
    ((Forall (fun cl => c_used cl = true) (g_cl (st_g s)) /\ st_g s' = st_g s /\
        st_out s' = EvClose (ac_fd a) :: st_out s) \/
     exists i, (forall j cl, (j < i)%nat -> g_cl (st_g s) !! j = Some cl -> c_used cl = true) /\
       (exists cl, g_cl (st_g s) !! i = Some cl /\ c_used cl = false) /\
       let id := u32 (g_next_cid (st_g s) + 1) in
       st_g s' = set_g_cl (fun l => <[i := Client (ac_fd a) true id (ac_pid a)
                                             (peer_comm (ac_comm_file a)) 0 0 0]> l)
                   (set_g_next_cid (fun _ => id) (st_g s))).
Proof.
  intros I Hw. pose proof (inv_cl _ _ _ _ I) as [Hlen _].
  apply wp_unit. unfold accept_client. apply wp_bind, wp_ask. rewrite Hw. intros ? ? [= <- <-]. wp_steps.
  destruct (free_slot_spec (g_cl (st_g s))) as [[Hfs Hall]|(c0 & Hc0 & Hu0)].
  { rewrite (proj2 (Nat.eqb_eq _ _)) by congruence. wp_steps. by left. }
  assert (free_slot (g_cl (st_g s)) < MAX_CLIENTS)%nat as Hlt by (rewrite <-Hlen; by eapply lookup_lt_Some).
  rewrite (proj2 (Nat.eqb_neq _ _)) by lia. wp_steps. apply rwp_arr_set; [lia|]. wp_steps.
  apply wp_log_msg. intros w3 o3 _ _. apply wp_log_debug. intros w4 o4 _ _. right.
  exists (free_slot (g_cl (st_g s))). split; [by apply free_slot_first|]. split; [by exists c0|].
  by destruct (st_g s).
Qed.

(** ** Hardware reset *)

(** C36: with a reset line a RESET request of the right size pulses it (high for
    the assert time, then low for the settle time, zero meaning the default),
    drops the mailbox guard and answers OK; without a line it answers ENOSYS
    and with the wrong size EINVAL, and the line is not touched. *)
Theorem reset_request_outcome qa fa busy c cl h body s :
  inv qa fa busy (st_g s) -> g_cl (st_g s) !! c = Some cl -> hdr_ok h ->
  length body = SPIPROXY_MSG_MAX -> bytes_ok body ->
  let rq := reset_decode (take reset_size body) in
  let fd := cf_rst_fd (g_cfg (st_g s)) in
  exists s', exec_reset (BE := hw_backend) c h body s = Ok (tt, s') /\
    if negb (h_len h =? Z.of_nat reset_size) then sent (c_fd cl) (response h SPIPROXY_EINVAL []) s s'
    else if fd <? 0 then sent (c_fd cl) (response h SPIPROXY_ENOSYS []) s s'
    else g_mb_inflight (st_g s') = false /\ exists ok ev1 ev2,
      Forall is_log_event ev1 /\ Forall is_log_event ev2 /\
      st_out s' = ev1 ++ EvSend (c_fd cl) (response h SPIPROXY_OK []) ok :: ev2 ++
        [EvUsleep (if rs_deassert_us rq =? 0 then RST_DEASSERT_US else rs_deassert_us rq);
         EvGpioSet fd 0;
         EvUsleep (if rs_assert_us rq =? 0 then RST_ASSERT_US else rs_assert_us rq);
         EvGpioSet fd 1] ++ st_out s.
Proof.
  intros I Hcl Hh Hl Hb rq fd. pose proof msg_max_big as Hmm. apply wp_unit. unfold exec_reset.
  destruct (h_len h =? Z.of_nat reset_size); cbn [negb].
  2:{ eapply (wp_sent qa fa busy); [done..|lia|cbn; lia]. }
  wp_steps. fold fd. destruct (fd <? 0). { eapply (wp_sent qa fa busy); [done..|lia|cbn; lia]. }
  wp_steps. apply rwp_buf_read; [unfold reset_size; lia|]. rewrite drop_0. fold rq.
  unfold clear_inflight. cbn [gpio_pulse_reset hw_backend]. unfold hw_gpio_pulse_reset, gpio_set.
  wp_steps. eapply wp_get_client; [done|]. wp_steps. apply wp_log_debug. intros w2 o2 _ Ho2.
  eapply (wp_send_empty _ busy []); [eapply (owes_owing qa fa busy [_])|done|done|].
  { apply (inv_same qa fa busy (st_g s)); [exact I|apply I|reflexivity..]. }
  intros s' _ (Hm & _) (ok & ev & Ho & Hev). split; [done|].
  eexists _, ev, o2. by split_and!.
Qed.

End Requests.

(** ** Requests that carry register operations *)

Section Operations.
Context {W : Type} {WW : World W} {WO : WorldOk W WW} {RG : Regs}
  {BE : Backend W} {BO : BackendOk W WW BE}.
Implicit Types (s : st W).

Lemma qstep_inv qa fa busy s s' : inv qa fa busy (st_g s) -> qstep s s' -> inv qa fa busy (st_g s').
Proof.
  intros I ((? & ? & ? & ? & ? & ? & ? & ?) & Hd & _). by apply (inv_same qa fa busy (st_g s)).
Qed.

Lemma qstep_answers s s' : qstep s s' -> exists ev, st_out s' = ev ++ st_out s /\ answers ev = [].
Proof.
  intros (_ & _ & _ & ev & Ho & Hev). exists ev. split; [done|]. apply answers_none.
  eapply Forall_impl; [exact Hev|apply op_event_quiet].
Qed.

(** Counting an operation for a client keeps the invariant. *)
Lemma inv_count_ops qa fa busy c cl f g :
  inv qa fa busy g -> g_cl g !! c = Some cl ->
  inv qa fa busy (set_g_cl (fun l => <[c := set_c_n_ops (fun n => u64 (f n)) cl]> l) g).
Proof.
  intros I Hcl. apply (inv_clients qa fa busy g); [done|by eapply same_clients_insert|].
  pose proof (inv_cl _ _ _ _ I) as [_ Hall]. apply Forall_insert; [done|].
  apply client_ok_stats. by eapply Forall_lookup_1.
Qed.

(** The end of such a request: store the body, count, answer. *)
Lemma wp_finish qa fa busy i it c cl h x body f n E s s1 :
  inv qa fa busy (st_g s) -> qstep s s1 -> pool (g_qs (st_g s)) !! i = Some it ->
  g_cl (st_g s) !! c = Some cl -> hdr_ok h -> length body = SPIPROXY_MSG_MAX -> bytes_ok body ->
  0 <= n <= Z.of_nat SPIPROXY_MSG_MAX ->
  wp E (store_body i body ;; upd_client c (set_c_n_ops (fun n => u64 (f n))) ;; send_resp c h x body n)
    (fun _ s' => replied (c_fd cl) (response h x (take (Z.to_nat n) body)) s s' /\
       bus (st_out s') = bus (st_out s1)) s1.
Proof.
  intros I H1 Hi Hcl Hh Hl Hb Hn. pose proof msg_max_big as Hmm.
  pose proof (qstep_inv _ _ _ _ _ I H1) as I1. pose proof (qstep_answers _ _ H1) as (ev & Hout & Ha).
  destruct H1 as ((_ & Hc1 & _ & Hq1 & _) & _).
  unfold store_body. wp_steps. eapply rwp_arr_get; [by rewrite Hq1|]. wp_steps.
  eapply wp_upd_client; [cbn; by rewrite Hc1|]. set (s2 := St _ _ _).
  assert (inv qa fa busy (st_g s2)) as I2.
  { apply (inv_count_ops _ _ _ _ _ f); [|cbn; by rewrite Hc1].
    apply inv_set_body; [done|by rewrite Hq1|done..]. }
  assert (g_cl (st_g s2) !! c = Some (set_c_n_ops (fun n => u64 (f n)) cl)) as Hcl2.
  { cbn. rewrite Hc1. apply list_lookup_insert_eq. by eapply lookup_lt_Some. }
  eapply wp_mono; [eapply (wp_sent qa fa busy); [exact I2|exact Hcl2|done|done|lia]|].
  cbn beta. intros _ s' Hs. split.
  - eapply (sent_replied _ _ s s2 s' ev); [exact Hout|done|exact Hs].
  - destruct Hs as (ok & ev' & Ho3 & Hev'). by rewrite Ho3, bus_logs.
Qed.

(** The sizes a batch may have: 1 to 64 whole operations. *)
Definition batch_sized (h : hdr) : bool :=
  let n := h_len h / Z.of_nat op_size in
  (1 <=? n) && (n <=? Z.of_nat SPIPROXY_BATCH_MAX) && (h_len h mod Z.of_nat op_size =? 0).
Definition batch_count (h : hdr) : nat := Z.to_nat (h_len h / Z.of_nat op_size).

Lemma batch_sized_spec h :
  batch_sized h = true -> h_len h = Z.of_nat (batch_count h * op_size) /\ (batch_count h <= 64)%nat.
Proof.
  unfold batch_sized, batch_count. rewrite !andb_true_iff, !Z.leb_le, Z.eqb_eq.
  unfold op_size, SPIPROXY_BATCH_MAX. intros [[? ?] ?]. dlia.
Qed.

Lemma exec_batch_eq i c h body :
  exec_batch i c h body =
  if negb (batch_sized h) then send_resp c h SPIPROXY_EINVAL [] 0 else
  let* '(x, k, body') := batch_loop (batch_count h) 0 c body in
  store_body i body' ;;
  upd_client c (set_c_n_ops (fun n => u64 (n + Z.of_nat k))) ;;
  send_resp c h x body' (h_len h).
Proof.
  unfold exec_batch, batch_sized, batch_count. rewrite !negb_andb, !Z.leb_antisym, !negb_involutive. done.
Qed.

(** C20: a BATCH request that is not 1 to 64 whole operations is refused with
    EINVAL and touches nothing.  Otherwise its n operations are executed in order,
    nothing in between, up to the first that fails: the status is OK when all
    succeed and that of the failed operation otherwise, and the operations after
    it are not executed.  The one answer carries that status and all operations,
    those that ran with their results, the others as they came; no frame goes over
    the bus after the run. *)
Theorem batch_runs_prefix qa fa busy i it c cl h body s :
  inv qa fa busy (st_g s) -> lctx_ok (st_g s) -> pool (g_qs (st_g s)) !! i = Some it ->
  g_cl (st_g s) !! c = Some cl -> hdr_ok h -> length body = SPIPROXY_MSG_MAX -> bytes_ok body ->
  exists s', exec_batch i c h body s = Ok (tt, s') /\
    if batch_sized h then
      exists x res s1, ops_run c (nth_op body <$> seq 0 (batch_count h)) s x res s1 /\
        replied (c_fd cl) (response h x (res ≫= op_encode)) s s' /\
        bus (st_out s') = bus (st_out s1)
    else sent (c_fd cl) (response h SPIPROXY_EINVAL []) s s'.
Proof.
  intros I Hlx Hi Hcl Hh Hl Hb. pose proof msg_max_big as Hmm. apply wp_unit. rewrite exec_batch_eq.
  apply wp_if; intros Hsz.
  { apply negb_true_iff in Hsz. rewrite Hsz. eapply (wp_sent qa fa busy c cl h SPIPROXY_EINVAL [] 0); done || lia. }
  apply negb_false_iff in Hsz. rewrite Hsz. destruct (batch_sized_spec h Hsz) as [Hlen Hmax].
  pose proof (inv_cl _ _ _ _ I) as [Hcll _]. pose proof (lookup_lt_Some _ _ _ Hcl) as Hlt.
  unfold op_size in Hlen. apply wp_bind, wp_batch_prefix; [by eapply inv_ctx|lia|unfold op_size; lia|done|].
  intros x k b' s1 H1 Hk Hok Hbad Hp (res & Hrun & Hby). cbn beta iota.
  eapply wp_mono; [eapply (wp_finish qa fa busy i it c cl h x b' (fun n => n + Z.of_nat k)); try done|].
  - destruct Hp as [-> _]. done.
  - apply Hp.
  - lia.
  - cbn beta. intros _ s' [Hr Hbus]. exists x, res, s1. rewrite Hlen, Nat2Z.id in Hr.
    split; [exact Hrun|]. split; [|exact Hbus]. unfold op_size in Hby. cbn [Nat.add] in Hby. by rewrite Hby in Hr.
Qed.

End Operations.

(** ** Requests on the chip *)

Section OnChip.
Context {W : Type} {WW : World W} {WO : WorldOk W WW} {RG : Regs} {RO : RegsOk RG}
  {CH : PipelinedChip W WW}.
Implicit Types (s : st W).

Lemma wp_single_on_chip qa fa busy i it c cl h body (write : bool) E s :
  inv qa fa busy (st_g s) -> lctx_ok (st_g s) -> pool (g_qs (st_g s)) !! i = Some it ->
  g_cl (st_g s) !! c = Some cl -> hdr_ok h -> length body = SPIPROXY_MSG_MAX -> bytes_ok body ->
  h_len h = Z.of_nat op_size ->
  let o := op_set_write (if write then 1 else 0) (nth_op body 0) in
  valid_op o -> guarded (st_g s) (Some c) o = false ->
  wp E (exec_single i c h body write) (fun _ s' =>
    replied (c_fd cl) (response h SPIPROXY_OK (op_encode (op_result (st_w s) o))) s s' /\
    bus (st_out s') = bus (st_out s) ++ op_frames (cf_pad (g_cfg (st_g s))) o) s.
Proof.
  intros I Hlx Hi Hcl Hh Hl Hb Hlen o Hv Hg. pose proof msg_max_big as Hmm.
  unfold exec_single. rewrite (proj2 (Z.eqb_eq _ _) Hlen). cbn [negb]. wp_steps.
  assert (op_at body 0 = Ok (nth_op body 0)) as ->
    by (apply (op_at_nth body 0); unfold op_size; lia).
  apply rwp_ok. fold o. wp_steps.
  pose proof (inv_cl _ _ _ _ I) as [Hcll _].
  eapply exec_op_frames; [by eapply inv_ctx|done|intros j [= <-]; rewrite <-Hcll; by eapply lookup_lt_Some|done|].
  intros s1 H1 Ho' Hbus. wp_steps. set (o' := op_result (st_w s) o) in *.
  rewrite buf_write_0 by (rewrite length_op_encode; unfold op_size; lia). apply rwp_ok.
  rewrite length_op_encode. set (body' := op_encode o' ++ drop op_size body).
  assert (length body' = SPIPROXY_MSG_MAX /\ bytes_ok body') as [Hl' Hb'].
  { unfold body'. rewrite length_app, length_op_encode, length_drop. split; [unfold op_size; lia|auto with spid]. }
  assert (take (Z.to_nat (Z.of_nat op_size)) body' = op_encode o') as <-
    by (unfold body'; by rewrite Nat2Z.id, take_app_length' by by rewrite length_op_encode).
  rewrite <-Hbus. eapply (wp_finish qa fa busy i it c cl h SPIPROXY_OK body' (fun n => n + 1)); try done.
Qed.

(** a READ or WRITE request for a register of the chip sends exactly the
    frames of the operation and is answered once, with OK and the operation as
    executed: for a read, with the value the chip holds in that register. *)
Theorem single_request_on_chip qa fa busy i it c cl h body (write : bool) s :
  inv qa fa busy (st_g s) -> lctx_ok (st_g s) -> pool (g_qs (st_g s)) !! i = Some it ->
  g_cl (st_g s) !! c = Some cl -> hdr_ok h -> length body = SPIPROXY_MSG_MAX -> bytes_ok body ->
  h_len h = Z.of_nat op_size ->
  let o := op_set_write (if write then 1 else 0) (nth_op body 0) in
  valid_op o -> guarded (st_g s) (Some c) o = false ->
  exists s', exec_single i c h body write s = Ok (tt, s') /\
    replied (c_fd cl) (response h SPIPROXY_OK (op_encode (op_result (st_w s) o))) s s' /\
    bus (st_out s') = bus (st_out s) ++ op_frames (cf_pad (g_cfg (st_g s))) o.
Proof. intros. apply wp_unit. by eapply wp_single_on_chip. Qed.

(** C21: a BATCH of admitted operations succeeds as a whole: it is answered once
    with OK and all its operations, which differ from the request in their
    values only, and the bus carries the frames of its operations in order with
    nothing in between. *)
Theorem batch_on_chip qa fa busy i it c cl h body s :
  inv qa fa busy (st_g s) -> lctx_ok (st_g s) -> pool (g_qs (st_g s)) !! i = Some it ->
  g_cl (st_g s) !! c = Some cl -> hdr_ok h -> length body = SPIPROXY_MSG_MAX -> bytes_ok body ->
  batch_sized h = true ->
  (forall j, (j < batch_count h)%nat ->
     valid_op (nth_op body j) /\ guarded (st_g s) (Some c) (nth_op body j) = false) ->
  exists body' s', exec_batch i c h body s = Ok (tt, s') /\
    replied (c_fd cl) (response h SPIPROXY_OK (take (batch_count h * op_size) body')) s s' /\
    ran_prefix 0 (batch_count h) body body' /\
    bus (st_out s') =
      bus (st_out s) ++ ops_frames (cf_pad (g_cfg (st_g s))) (nth_op body <$> seq 0 (batch_count h)).
Proof.
  intros I Hlx Hi Hcl Hh Hl Hb Hsz Hops. pose proof msg_max_big as Hmm.
  destruct (batch_sized_spec h Hsz) as [Hlen Hmax]. unfold op_size in Hlen.
  pose proof (inv_cl _ _ _ _ I) as [Hcll _]. pose proof (lookup_lt_Some _ _ _ Hcl) as Hlt.
  pose proof (inv_ctx _ _ _ _ I Hlx) as Hc.
  assert (wp (fun _ => False) (exec_batch i c h body) (fun _ s' => exists body',
    replied (c_fd cl) (response h SPIPROXY_OK (take (batch_count h * op_size) body')) s s' /\
    ran_prefix 0 (batch_count h) body body' /\ bus (st_out s') = bus (st_out s) ++
      ops_frames (cf_pad (g_cfg (st_g s))) (nth_op body <$> seq 0 (batch_count h))) s) as H;
    [|destruct (wp_returns _ _ _ H) as ([] & s' & Heq & body' & Hs'); by exists body', s'].
  rewrite exec_batch_eq, Hsz. cbn [negb].
  apply wp_bind, (wp_fault_mono (fun _ => False /\ False)); [tauto|]. eapply wp_mono.
  - apply wp_and.
    + eapply (wp_batch_prefix (batch_count h) c _ (fun '(x, k, b') s1 => qstep s s1 /\
        (x = SPIPROXY_OK -> k = batch_count h) /\ ran_prefix 0 k body b') 0 body s);
        [done|lia|unfold op_size; lia|done|]. intros x k b' s1 H1 _ Hok _ Hp _. by split_and!.
    + eapply (wp_batch_on_chip (batch_count h) c _ (fun '(x, _, _) s1 => x = SPIPROXY_OK /\
        bus (st_out s1) = bus (st_out s) ++ ops_frames (cf_pad (g_cfg (st_g s)))
          (nth_op body <$> seq 0 (batch_count h))) 0 body s);
        [done|lia|unfold op_size; lia|done|intros; apply Hops; lia|]. intros b' s1 Hbus. by split.
  - intros [[x k] b'] s1 [(H1 & Hok & Hp) [-> Hbus]]. cbn beta iota. rewrite (Hok eq_refl) in Hp.
    eapply wp_mono; [eapply (wp_finish qa fa busy i it c cl h SPIPROXY_OK b' (fun n => n + Z.of_nat k)); try done|].
    + destruct Hp as [-> _]. done.
    + apply Hp.
    + lia.
    + cbn beta. intros _ s' [Hr Hb2]. exists b'. rewrite Hlen, Nat2Z.id in Hr. rewrite Hb2. by split_and!.
Qed.

(** C23: a claim ends when, and only when, its deadline has passed: the
    registered cleanup operations are sent to the chip in order and the device
    is free; before that nothing happens. *)
Theorem claim_expires_at_deadline qa fa o s :
  inv qa fa [] (st_g s) -> claim_owner (g_claim (st_g s)) = Some o ->
  let cs := g_claim (st_g s) in
  let cleanup := take (Z.to_nat (claim_ncleanup cs)) (claim_cleanup cs) in
  Forall valid_op cleanup ->
  exists s', expire_claim s = Ok (tt, s') /\
    if claim_deadline cs <? w_time (st_w s) then
      claim_owner (g_claim (st_g s')) = None /\
      bus (st_out s') = bus (st_out s) ++ ops_frames (cf_pad (g_cfg (st_g s))) cleanup
    else st_g s' = st_g s /\ st_out s' = st_out s.
Proof.
  intros I Hown cs cleanup Hval. apply wp_unit. unfold expire_claim. wp_steps. rewrite Hown.
  pose proof (inv_claim _ _ _ _ I) as (_ & _ & _ & _ & Hc). rewrite Hown in Hc.
  destruct Hc as (cl & Hcl & _). wp_steps. apply wp_now_time. intros w1 _. fold cs.
  destruct (claim_deadline cs <? w_time (st_w s)); cbn [whenM]; [|by apply wp_ret].
  wp_steps. eapply wp_get_client; [done|]. wp_steps. apply wp_log_msg. intros w2 o2 _ Ho2.
  apply wp_bind, wp_log_debug. intros w3 o3 _ Ho3.
  eapply (claim_end_bus true qa fa []); [exact I|exact Hval|]. cbn [st_g st_w st_out].
  intros s' Hn _ Hbus. split; [done|]. rewrite Hbus. by rewrite !bus_logs by done.
Qed.

(** C24: when the holder of the claim disconnects, its cleanup operations are
    sent to the chip in order and the device is free. *)
Theorem disconnect_runs_cleanup qa fa c cl s :
  inv qa fa [] (st_g s) -> g_cl (st_g s) !! c = Some cl -> claim_owner (g_claim (st_g s)) = Some c ->
  let cs := g_claim (st_g s) in
  let cleanup := take (Z.to_nat (claim_ncleanup cs)) (claim_cleanup cs) in
  g_mb_inflight (st_g s) = false -> Forall valid_op cleanup ->
  exists s', client_drop c s = Ok (tt, s') /\ claim_owner (g_claim (st_g s')) = None /\
    bus (st_out s') = bus (st_out s) ++ ops_frames (cf_pad (g_cfg (st_g s))) cleanup.
Proof.
  intros I Hcl Hown cs cleanup Hm Hval. apply wp_unit. unfold client_drop. wp_steps.
  rewrite bool_decide_eq_true_2 by done. cbn [whenM].
  assert (idle s) as HI by (split; [by exists qa, fa|done]).
  assert (wp (fun _ => False) (claim_end true) (fun _ s' => idle s' /\ same_tables s s' /\
    claim_owner (g_claim (st_g s')) = None) s) as H1 by by apply wp_idle_claim_end.
  assert (wp (fun _ => False) (claim_end true) (fun _ s' => bus (st_out s') = bus (st_out s) ++
    ops_frames (cf_pad (g_cfg (st_g s))) cleanup) s) as H2 by by apply (claim_end_bus true qa fa []).
  eapply wp_fault_mono; [|eapply wp_mono; [exact (wp_and _ _ _ _ _ s H1 H2)|]]; [by intros e [? _]|].
  cbn beta. intros _ s1 [([(qa1 & fa1 & I1) _] & (Hc1 & _) & Hn) Hbus]. wp_steps.
  destruct (inv_purge qa1 fa1 _ c I1) as (qs' & fa' & -> & _ & _). apply rwp_ok. wp_steps.
  eapply wp_get_client; [cbn; by rewrite Hc1|]. wp_steps.
  eapply wp_upd_client; [cbn; by rewrite Hc1|]. apply wp_log_debug. intros w3 o3 _ Ho3.
  split; [done|]. cbn [st_out]. rewrite bus_logs by done. exact Hbus.
Qed.

End OnChip.
