(* ===== verification/Calm.v ===== *)
(** * Steps that leave the registers alone

    What the daemon does between two writes of a register: it reads registers,
    writes log lines, sleeps, looks at the clock, talks to its clients.  [within]
    says that a computation does nothing to the environment but steps of given
    kinds; the kinds tell a wait from a look, and traffic on the bus from traffic
    with the clients. *)
From stdpp Require Import relations.
From S2P Require Import Prelude Bytes Proto Fmt State Queue Log Spi Exec Mailbox Daemon Invariant.

(** ** Kinds of steps *)

Inductive act :=
| ActRead       (* a read frame on the bus *)
| ActLog        (* a log line *)
| ActSleep      (* usleep *)
| ActClock      (* clock_gettime *)
| ActHost       (* send, epoll_ctl, close *)
| ActSock.      (* recv, accept *)

Definition is_host_event (e : event) : Prop :=
  match e with EvEpollAdd _ _ | EvEpollDel _ | EvClose _ => True | _ => False end.

Section Steps.
Context {W : Type} {WW : World W}.

Inductive calm_step (w : W) : act -> W -> Prop :=
| calm_read tx f : bytes_ok tx -> frame_decode tx = Some f -> fr_write f = false ->
    calm_step w ActRead (fst (w_spi w tx))
| calm_log e : is_log_event e -> calm_step w ActLog (w_do w e)
| calm_sleep us : calm_step w ActSleep (w_do w (EvUsleep us))
| calm_clock : calm_step w ActClock (fst (w_clock w))
| calm_send fd msg : calm_step w ActHost (fst (w_send w fd msg))
| calm_host e : is_host_event e -> calm_step w ActHost (w_do w e)
| calm_recv fd : calm_step w ActSock (fst (w_recv w fd))
| calm_accept : calm_step w ActSock (fst (w_accept w)).
Definition calm1 (w w' : W) : Prop := exists a, calm_step w a w'.

(** Any number of steps of the kinds [P]. *)
Definition by_acts (P : act -> bool) : W -> W -> Prop :=
  rtc (fun w w' => exists a, P a = true /\ calm_step w a w').

Lemma by_acts_weaken (P Q : act -> bool) w w' :
  (forall a, P a = true -> Q a = true) -> by_acts P w w' -> by_acts Q w w'.
Proof. intros H. apply rtc_subrel. intros w1 w2 (a & Ha & Hs). exists a. auto. Qed.

Lemma by_acts_once (P : act -> bool) a w w' : P a = true -> calm_step w a w' -> by_acts P w w'.
Proof. intros Ha Hs. apply rtc_once. by exists a. Qed.

End Steps.

(** All steps; those of a quick look (no sleep, no clients); those off the bus
    (no frame, no sleep); those that take nothing from a socket; those off the bus
    that take nothing from a socket; log lines and looks at the clock. *)
Definition any_act (a : act) : bool := true.
Definition quick (a : act) : bool := match a with ActRead | ActLog | ActClock => true | _ => false end.
Definition off_bus (a : act) : bool := match a with ActRead | ActSleep => false | _ => true end.
Definition one_way (a : act) : bool := match a with ActSock => false | _ => true end.
Definition unread (a : act) : bool := off_bus a && one_way a.
Definition diary (a : act) : bool := match a with ActLog | ActClock => true | _ => false end.
Abbreviation calm := (by_acts any_act).
Abbreviation brisk := (by_acts quick).

Lemma by_acts_calm {W} {WW : World W} (P : act -> bool) w w' : by_acts P w w' -> calm w w'.
Proof. by apply by_acts_weaken. Qed.

(** ** Plain storage *)

(** Registers that are plain storage (not status bits, not clear-on-read
    counters, not registers the MCU writes) change only by a write frame of
    their own: not by reads, not by the passing of time, not by writes to other
    plain registers. *)
Class StorageChip (W : Type) (WW : World W) (CH : PipelinedChip W WW) : Prop := {
  sc_reg_u32 w s m r : is_u32 (chip_reg w s m r);
  sc_keeps w w' s m r : calm1 w w' -> chip_storage s m r = true -> chip_reg w' s m r = chip_reg w s m r;
  sc_write_keeps w tx f s m r :
    bytes_ok tx -> frame_decode tx = Some f -> fr_write f = true ->
    chip_storage (fr_slice f) (fr_mmd f) (fr_reg f) = true ->
    (s, m, r) <> (fr_slice f, fr_mmd f, fr_reg f) -> chip_storage s m r = true ->
    chip_reg (fst (w_spi w tx)) s m r = chip_reg w s m r }.

Lemma calm_regs {W} {WW : World W} {CH : PipelinedChip W WW} {SC : StorageChip W WW CH} (P : act -> bool) w w' sl m r :
  by_acts P w w' -> chip_storage sl m r = true -> chip_reg w' sl m r = chip_reg w sl m r.
Proof.
  intros H Hr. induction H as [|w w1 w2 (a & _ & H1) _ IH]; [done|]. rewrite IH. apply sc_keeps; [by exists a|done].
Qed.

(** ** Computations made of such steps *)

Section Within.
Context {W : Type} {WW : World W} (P : act -> bool).
Implicit Types (s : st W).

Definition within {A} (m : D W A) : Prop :=
  forall s, wp (fun _ => True) m (fun _ s' => by_acts P (st_w s) (st_w s')) s.

Lemma within_bind {A B} (m : D W A) (k : A -> D W B) :
  within m -> (forall a, within (k a)) -> within (bindM m k).
Proof.
  intros Hm Hk s. apply wp_bind. eapply wp_mono; [apply Hm|]. cbn. intros a s1 H1.
  eapply wp_mono; [apply Hk|]. cbn. intros b s2 H2. by etrans.
Qed.
Lemma within_ret {A} (a : A) : within (returnM a).
Proof. intros s. apply wp_ret. reflexivity. Qed.
Lemma within_getg : within getg.
Proof. intros s. apply wp_getg. reflexivity. Qed.
Lemma within_setg f : within (setg f).
Proof. intros s. apply wp_setg. reflexivity. Qed.
Lemma within_lift {A} (r : res A) : within (liftM r).
Proof. intros s. apply wp_lift. destruct r; [apply rwp_ok; reflexivity|done]. Qed.
Lemma within_fail {A} e : within (failM (A := A) e).
Proof. by intros s. Qed.
Lemma within_stack n : within (stack_array n).
Proof. intros s. apply wp_stack. reflexivity. Qed.
Lemma within_note e : within (note e).
Proof. intros s. apply wp_note. reflexivity. Qed.

Lemma within_ask {A} (f : W -> W * A) a :
  P a = true -> (forall w, calm_step w a (fst (f w))) -> within (ask f).
Proof.
  intros Ha Hf s. apply wp_ask. intros w' x Hw. apply (by_acts_once P a); [done|].
  pose proof (Hf (st_w s)) as H. by rewrite Hw in H.
Qed.
Lemma within_clock : P ActClock = true -> within (ask w_clock).
Proof. intros H. apply (within_ask _ ActClock H). constructor. Qed.
Lemma within_send fd msg : P ActHost = true -> within (ask (fun w => w_send w fd msg)).
Proof. intros H. apply (within_ask _ ActHost H). constructor. Qed.
Lemma within_recv fd : P ActSock = true -> within (ask (fun w => w_recv w fd)).
Proof. intros H. apply (within_ask _ ActSock H). constructor. Qed.
Lemma within_accept : P ActSock = true -> within (ask w_accept).
Proof. intros H. apply (within_ask _ ActSock H). constructor. Qed.

Lemma within_emit e a : P a = true -> (forall w, calm_step w a (w_do w e)) -> within (emit e).
Proof. intros Ha He s. apply wp_emit. by apply (by_acts_once P a). Qed.
Lemma within_syslog priority line : P ActLog = true -> within (emit (EvSyslog priority line)).
Proof. intros H. apply (within_emit _ ActLog H). by constructor. Qed.
Lemma within_trace line : P ActLog = true -> within (emit (EvTrace line)).
Proof. intros H. apply (within_emit _ ActLog H). by constructor. Qed.
Lemma within_host e : P ActHost = true -> is_host_event e -> within (emit e).
Proof. intros H He. apply (within_emit _ ActHost H). by constructor. Qed.

End Within.

(** Structural search through a computation. *)
Create HintDb calm.
#[export] Hint Resolve within_ret within_getg within_setg within_lift within_fail within_stack within_note
  within_clock within_send within_recv within_accept within_syslog within_trace within_host : calm.
#[export] Hint Extern 1 (_ = true) => reflexivity : calm.
#[export] Hint Extern 1 (is_host_event _) => exact I : calm.
Ltac solve_within :=
  repeat first
    [ progress cbn beta iota
    | solve [auto with calm]
    | match goal with |- within _ (bindM _ _) => apply within_bind; [|intros] end
    | match goal with |- within _ (whenM _ _) => unfold whenM end
    | match goal with |- within _ (match ?x with _ => _ end) => destruct x end ].

(** ** Parts of the daemon *)

(** Logging, the op log, lint. *)
Section Logging.
Context {W : Type} {WW : World W} {RG : Regs} (P : act -> bool) (PL : P ActLog = true) (PC : P ActClock = true).

#[local] Hint Resolve PL PC : calm.

Lemma within_trace_v priority line : within P (W := W) (trace_v priority line).
Proof. unfold trace_v. solve_within. Qed.
Lemma within_get_client i : within P (W := W) (get_client i).
Proof. unfold get_client. solve_within. Qed.
#[local] Hint Resolve within_trace_v within_get_client : calm.
Lemma within_lctx_comm : within P (W := W) lctx_comm.
Proof. unfold lctx_comm. solve_within. Qed.
Lemma within_now_us : within P (W := W) now_us.
Proof. unfold now_us. solve_within. Qed.
Lemma within_upd_client i f : within P (W := W) (upd_client i f).
Proof. unfold upd_client. solve_within. Qed.
Lemma within_log_msg priority line : within P (W := W) (log_msg priority line).
Proof. unfold log_msg. solve_within. Qed.
Lemma within_log_debug line : within P (W := W) (log_debug line).
Proof. unfold log_debug, log_trace. solve_within. Qed.
#[local] Hint Resolve within_lctx_comm within_now_us within_upd_client within_log_msg within_log_debug : calm.
Lemma within_warn_line line : within P (W := W) (warn_line line).
Proof. unfold warn_line, log_warn. solve_within. Qed.
#[local] Hint Resolve within_warn_line : calm.

Lemma within_trace_add c o : within P (W := W) (trace_add c o).
Proof. unfold trace_add. solve_within. Qed.
Lemma within_rmw_scan n i now o : within P (W := W) (rmw_scan n i now o).
Proof. revert i. induction n as [|n IH]; intros i; cbn [rmw_scan]; solve_within. Qed.
#[local] Hint Resolve within_rmw_scan : calm.
Lemma within_lint_op o : within P (W := W) (lint_op o).
Proof. unfold lint_op, lint_page, page_owner_store, lint_cor, lint_rmw. solve_within. Qed.
Lemma within_op_log o rc : within P (W := W) (op_log o rc).
Proof. unfold op_log. solve_within. Qed.
Lemma within_store_body i body : within P (W := W) (store_body i body).
Proof. unfold store_body. solve_within. Qed.

End Logging.
#[export] Hint Resolve within_trace_v within_get_client within_lctx_comm within_now_us within_upd_client
  within_log_msg within_log_debug within_warn_line within_trace_add within_lint_op within_op_log
  within_store_body : calm.

(** Answers, reception of a request, connections. *)
Section Clients.
Context {W : Type} {WW : World W} {RG : Regs} (P : act -> bool)
  (PL : P ActLog = true) (PC : P ActClock = true) (PH : P ActHost = true).

#[local] Hint Resolve PL PC PH : calm.

Lemma within_send_resp c h x body blen : within P (W := W) (send_resp c h x body blen).
Proof. unfold send_resp. solve_within. Qed.
#[local] Hint Resolve within_send_resp : calm.
Lemma within_enqueue c h body : within P (W := W) (enqueue c h body).
Proof. unfold enqueue. solve_within. Qed.
#[local] Hint Resolve within_enqueue : calm.
Lemma within_client_frame c msg n : within P (W := W) (client_frame c msg n).
Proof. unfold client_frame. solve_within. Qed.
Lemma within_accept_client : P ActSock = true -> within P (W := W) accept_client.
Proof. intros PS. unfold accept_client, log_always. solve_within. Qed.

End Clients.
#[export] Hint Resolve within_send_resp within_enqueue within_client_frame within_accept_client : calm.
