(* ===== verification/MailboxSpec.v ===== *)
(** * Mailbox transactions against the MCU

    A specification of the MCU behind the mailbox (it answers the packet in the
    command window once the doorbell rings, in its own time) and the theorem
    that a transaction delivers the request packet intact and returns exactly
    what a reference decoder reads from the answer. *)
From stdpp Require Import relations.
From S2P Require Import Prelude Bytes Proto Crc16 State Queue Log Spi Exec OpSpec Mailbox Daemon.
From S2P Require Import Invariant Handlers Scheduler MainLoop RequestSpec Calm.

(** ** Reference decoder of a response packet *)

(** Length field of a packet: bytes 2 and 3, little-endian. *)
Definition pkt_len (p : list Z) : Z := le_decode (take 2 (drop 2 p)).

Definition len_ok (len : Z) : Prop :=
  MB_HDR_LEN + MB_CRC_LEN <= len <= MB_HDR_LEN + SPIPROXY_MB_MAX + MB_CRC_LEN.
#[export] Instance len_ok_dec len : Decision (len_ok len).
Proof. unfold len_ok. apply _. Defined.

(** Status, command byte and data of a response; [old] is the command byte of
    the request, which an error leaves in place. *)
Definition mb_reference (old : Z) (p : list Z) : spiproxy_status * Z * list Z :=
  let n := Z.to_nat (pkt_len p) in
  if decide (len_ok (pkt_len p)) then
    if crc16_ccitt (take (n - 2) p) =? le_decode (take 2 (drop (n - 2) p)) then
      (SPIPROXY_OK, default 0 (p !! 0%nat), take (n - 6) (drop 4 p))
    else (SPIPROXY_ECRC, old, [])
  else (SPIPROXY_EINVAL, old, []).

(** A packet whose length field, if acceptable at all, is its length. *)
Definition framed (p : list Z) : Prop :=
  (4 <= length p)%nat /\ bytes_ok p /\ (len_ok (pkt_len p) -> pkt_len p = Z.of_nat (length p)).

(** ** The MCU *)

Section Windows.
Context {W : Type} {WW : World W} {CH : PipelinedChip W WW}.

Definition mb_reg (w : W) (slice reg : Z) : Z := chip_reg w slice LAN80XX_MMD_GLOBAL reg.

(** The bytes of [n] words of a window. *)
Definition window (w : W) (slice base : Z) (n : nat) : list Z :=
  seq 0 n ≫= fun i => le_encode 4 (mb_reg w slice (base + Z.of_nat i)).

Definition answered_flag (w : W) (slice : Z) : bool :=
  negb (Z.land (mb_reg w slice MB_FLAG) MB_F_RESP =? 0).

End Windows.

(** What the firmware and the register file promise.  [serves w slice req]: the
    MCU of [slice] is working on the packet [req] or has answered it. *)
Class MailboxChip (W : Type) (WW : World W) (CH : PipelinedChip W WW) := {
  mc_store :: StorageChip W WW CH;
  mc_mcu : list Z -> list Z;
  mc_serves : W -> Z -> list Z -> Prop;
  mc_storage slice reg :
    MB_CMD_ADDR <= reg < MB_RESP_ADDR \/ reg = MB_MCU_MASK ->
    chip_storage slice LAN80XX_MMD_GLOBAL reg = true;
  mc_doorbell w tx slice req n :
    bytes_ok tx -> frame_decode tx = Some (Frame true slice LAN80XX_MMD_GLOBAL MB_FLAG MB_SET_REQ) ->
    pkt_len req = Z.of_nat (length req) -> (n <= 256)%nat ->
    take (length req) (window w slice MB_CMD_ADDR n) = req ->
    mc_serves (fst (w_spi w tx)) slice req;
  mc_serves_calm w w' slice req : calm1 w w' -> mc_serves w slice req -> mc_serves w' slice req;
  mc_answer w slice req : mc_serves w slice req -> answered_flag w slice = true ->
    take (length (mc_mcu req)) (window w slice MB_RESP_ADDR 256) = mc_mcu req;
  mc_answer_stays w w' slice req : calm1 w w' -> mc_serves w slice req ->
    answered_flag w slice = true -> answered_flag w' slice = true }.

(** ** Windows *)

Section WindowLemmas.
Context {W : Type} {WW : World W} {CH : PipelinedChip W WW}.

Lemma window_S w slice base n :
  window w slice base (S n) =
  window w slice base n ++ le_encode 4 (mb_reg w slice (base + Z.of_nat n)).
Proof. unfold window. rewrite seq_S, bind_app. cbn. by rewrite ?app_nil_r. Qed.

Lemma length_window w slice base n : length (window w slice base n) = (4 * n)%nat.
Proof.
  induction n as [|n IH]; [done|]. rewrite window_S, length_app, length_le_encode, IH. lia.
Qed.

Lemma window_ext w w' slice base base' n :
  (forall i, (i < n)%nat -> mb_reg w' slice (base' + Z.of_nat i) = mb_reg w slice (base + Z.of_nat i)) ->
  window w' slice base' n = window w slice base n.
Proof.
  induction n as [|n IH]; intros H; [done|]. rewrite !window_S, IH, H by auto with lia. done.
Qed.

Lemma window_take w slice base n m : (n <= m)%nat -> window w slice base n = take (4 * n) (window w slice base m).
Proof.
  intros Hle. induction m as [|m IH].
  { replace n with 0%nat by lia. done. }
  destruct (decide (n = S m)) as [->|Hne]; [by rewrite take_ge by (rewrite length_window; lia)|].
  rewrite window_S, take_app_le by (rewrite length_window; lia). apply IH. lia.
Qed.

(** The bytes of one word. *)
Lemma window_word w slice base n i :
  (i < n)%nat -> take 4 (drop (4 * i) (window w slice base n)) = le_encode 4 (mb_reg w slice (base + Z.of_nat i)).
Proof.
  intros Hi. assert (window w slice base (S i) = take (4 * S i) (window w slice base n)) as H
    by (apply window_take; lia).
  rewrite window_S in H. rewrite take_drop_commute.
  replace (4 * i + 4)%nat with (4 * S i)%nat by lia. rewrite <-H, drop_app_length'; [done|].
  rewrite length_window. lia.
Qed.

Lemma window_ok w slice base n : bytes_ok (window w slice base n).
Proof.
  induction n as [|n IH]; [constructor|]. rewrite window_S. apply bytes_ok_app; [done|apply le_encode_ok].
Qed.

End WindowLemmas.

(** Words of a packet buffer. *)
Lemma word_bytes v : [u8 v; u8 (Z.shiftr v 8); u8 (Z.shiftr v 16); u8 (Z.shiftr v 24)] = le_encode 4 v.
Proof.
  unfold u8. rewrite !Z.shiftr_div_pow2 by lia. cbn [le_encode]. do 3 f_equal; [|f_equal]; dlia.
Qed.

Lemma pkt_word_decode pkt i :
  (i + 4 <= length pkt)%nat -> bytes_ok pkt -> pkt_word pkt i = Ok (le_decode (take 4 (drop i pkt))).
Proof.
  intros Hl Hb. unfold pkt_word, buf_get.
  assert (forall k, (k < 4)%nat -> exists b, pkt !! (i + k)%nat = Some b /\ is_u8 b) as Hk.
  { intros k Hk. destruct (lookup_lt_is_Some_2 pkt (i + k)) as [b Hbk]; [lia|]. exists b. split; [done|].
    by eapply Forall_lookup_1. }
  destruct (Hk 0%nat) as (b0 & H0 & R0); [lia|]. destruct (Hk 1%nat) as (b1 & H1 & R1); [lia|].
  destruct (Hk 2%nat) as (b2 & H2 & R2); [lia|]. destruct (Hk 3%nat) as (b3 & H3 & R3); [lia|].
  rewrite Nat.add_0_r in H0. rewrite H0, H1, H2, H3. cbn [res_bind].
  assert (take 4 (drop i pkt) = [b0; b1; b2; b3]) as ->.
  { apply list_eq. intros k. destruct (decide (k < 4)%nat).
    - rewrite lookup_take_lt, lookup_drop by lia.
      destruct k as [|[|[|[|k]]]]; [by rewrite Nat.add_0_r|done..|lia].
    - rewrite lookup_take_ge by lia. by rewrite (proj2 (lookup_ge_None [b0; b1; b2; b3] k)) by (cbn; lia). }
  cbn [le_decode]. unfold is_u8 in *. f_equal.
  rewrite u32_id by (unfold is_u32; rewrite Z.shiftl_mul_pow2; lia).
  rewrite (Z.lor_comm _ (Z.shiftl b3 24)), (Z.lor_comm _ (Z.shiftl b2 16)), (Z.lor_comm _ (Z.shiftl b1 8)).
  rewrite (lor_shiftl_add b0 b1 8) by lia. rewrite (lor_shiftl_add _ b2 16) by lia.
  rewrite (lor_shiftl_add _ b3 24) by lia. lia.
Qed.

Lemma pkt_store_encode pkt i v : pkt_store pkt i v = buf_write pkt i (le_encode 4 v).
Proof. unfold pkt_store. by rewrite word_bytes. Qed.

(** ** Register accesses *)

Section Calm.
Context {W : Type} {WW : World W} {WO : WorldOk W WW} {RG : Regs} {RO : RegsOk RG}
  {CH : PipelinedChip W WW} {MC : MailboxChip W WW CH}.
Implicit Types (s : st W) (E : fault -> Prop).

Lemma brisk_mb_log dir write slice reg val rc : within quick (W := W) (mb_log dir write slice reg val rc).
Proof. unfold mb_log, log_debug, log_trace. solve_within. Qed.

Lemma brisk_hw_read slice mmd reg old s :
  0 <= slice < 4 -> 0 <= mmd < 32 -> is_u16 reg -> pad_ok (st_g s) ->
  wp (fun _ => True) (hw_spi_read_reg slice mmd reg old) (fun _ s' => brisk (st_w s) (st_w s')) s.
Proof.
  intros Hs Hm Hr Hpad. unfold pad_ok, SPI_PAD_MAX in Hpad. unfold hw_spi_read_reg. wp_steps.
  set (len := (SPI_BYTES + Z.to_nat (cf_pad (g_cfg (st_g s))))%nat).
  assert (len <= SPI_BUF_MAX)%nat as Hlen by (unfold len, SPI_BYTES, SPI_BUF_MAX; lia).
  assert (forall m r w w' rc rx, 0 <= m < 32 -> is_u16 r ->
    w_spi w (take len (spi_fill false (spi_addr slice m r) 0)) = (w', (rc, rx)) -> brisk w w') as Hcalm.
  { intros m r w w' rc rx Hmm Hrr Hx. apply (by_acts_once quick ActRead); [done|].
    pose proof (calm_read w _ _ (spi_fill_ok false (spi_addr slice m r) 0 len)
      (spi_fill_decode false slice m r 0 len Hs Hmm Hrr ltac:(unfold is_u32; lia) ltac:(unfold len; lia))
      eq_refl) as H. by rewrite Hx in H. }
  apply wp_ioctl_spi; [by rewrite length_spi_fill|]. intros w1 rc1 rx1 Hx1.
  apply Hcalm in Hx1; [|done..]. apply wp_if; intros _; wp_steps; [done|].
  apply wp_ioctl_spi; [by rewrite length_spi_fill|]. intros w2 rc2 rx2 Hx2.
  apply Hcalm in Hx2; [|unfold LAN80XX_MMD_GLOBAL; lia|apply device_id_reg_u16].
  assert (brisk (st_w s) w2) as H2 by (etrans; [exact Hx1|exact Hx2]).
  apply wp_if; intros _; wp_steps; [done|].
  do 4 (unfold buf_get at 1; destruct (rx2 !! _); [|done]; apply rwp_ok; wp_steps). done.
Qed.

(** A read of a mailbox register. *)
Lemma mb_rd_chip slice reg old E Q s :
  ctx_ok (st_g s) -> 0 <= slice < 4 -> is_u16 reg ->
  (forall s', qstep s s' -> brisk (st_w s) (st_w s') -> Q (0, mb_reg (st_w s) slice reg) s') ->
  wp E (mb_rd slice reg old) Q s.
Proof.
  intros Hc Hs Hr HQ. assert (0 <= LAN80XX_MMD_GLOBAL < 32) as Hm by (unfold LAN80XX_MMD_GLOBAL; lia).
  assert (pad_ok (st_g s)) as Hpad by apply Hc.
  assert (wp (fun _ => True) (mb_rd slice reg old)
    (fun r s' => r = (0, mb_reg (st_w s) slice reg) /\ brisk (st_w s) (st_w s')) s) as H2.
  { unfold mb_rd. apply wp_bind. cbn [spi_read_reg hw_backend].
    destruct (hw_read_latched slice LAN80XX_MMD_GLOBAL reg old s Hs Hm Hr Hpad) as (w1 & Heq).
    pose proof (brisk_hw_read slice LAN80XX_MMD_GLOBAL reg old s Hs Hm Hr Hpad) as Hcalm.
    unfold wp in Hcalm |- *. rewrite Heq in *. cbn [st_w] in Hcalm. fold (mb_reg (st_w s) slice reg).
    change (wp (fun _ => True) (mb_log "R" false slice reg (mb_reg (st_w s) slice reg) 0 ;;
      returnM (0, mb_reg (st_w s) slice reg)) (fun r s' => r = (0, mb_reg (st_w s) slice reg) /\
      brisk (st_w s) (st_w s')) (St (count_read (st_g s)) w1 (on_bus (read_frames (cf_pad (g_cfg (st_g s))) slice
        LAN80XX_MMD_GLOBAL reg) (st_out s)))).
    apply wp_bind. eapply wp_mono; [apply brisk_mb_log|]. cbn beta. intros _ s2 H2. apply wp_ret.
    split; [done|]. etrans; [exact Hcalm|exact H2]. }
  eapply wp_fault_mono; [|eapply wp_mono; [exact (wp_and (fun _ => False) _ _ (fun _ s' => qstep s s') _ s
    (quiet_mb_rd slice reg old _ s Hc) H2)|]]; [by intros e [? _]|].
  cbn beta. intros r s' [Hq [-> Hcalm]]. by apply HQ.
Qed.

(** A write of a mailbox register: its frame, then only calm steps. *)
Lemma mb_wr_chip slice reg val E Q s :
  ctx_ok (st_g s) -> 0 <= slice < 4 -> is_u16 reg -> is_u32 val ->
  (forall s' tx, qstep s s' -> bytes_ok tx ->
     frame_decode tx = Some (Frame true slice LAN80XX_MMD_GLOBAL reg val) ->
     brisk (fst (w_spi (st_w s) tx)) (st_w s') ->
     (chip_storage slice LAN80XX_MMD_GLOBAL reg = true ->
        mb_reg (fst (w_spi (st_w s) tx)) slice reg = val) -> Q 0 s') ->
  wp E (mb_wr slice reg val) Q s.
Proof.
  intros Hc Hs Hr Hv HQ. assert (0 <= LAN80XX_MMD_GLOBAL < 32) as Hm by (unfold LAN80XX_MMD_GLOBAL; lia).
  set (tx := write_frame slice LAN80XX_MMD_GLOBAL reg val).
  assert (bytes_ok tx) as Hb by apply spi_fill_ok.
  assert (frame_decode tx = Some (Frame true slice LAN80XX_MMD_GLOBAL reg val)) as Hf
    by (apply spi_fill_decode; done).
  destruct (chip_transfer (st_w s) tx _ Hb Hf) as (w1 & rc1 & a0 & a1 & a2 & ar & Hx & Hrc & Hst).
  cbn in Hst.
  assert (wp (fun _ => True) (mb_wr slice reg val) (fun r s' => r = 0 /\ brisk w1 (st_w s')) s) as H2.
  { unfold mb_wr. cbn [spi_write_reg hw_backend]. unfold hw_spi_write_reg. wp_steps.
    apply wp_ioctl_spi; [rewrite length_spi_fill; unfold SPI_BYTES, SPI_BUF_MAX; lia|].
    intros w' rc rx Hx'. fold (write_frame slice LAN80XX_MMD_GLOBAL reg val) in Hx'. fold tx in Hx'.
    rewrite Hx in Hx'. simplify_eq. apply wp_if; [lia|]; intros _. wp_steps.
    eapply wp_mono; [apply brisk_mb_log|]. cbn beta. intros _ s2 H2. by apply wp_ret. }
  eapply wp_fault_mono; [|eapply wp_mono; [exact (wp_and (fun _ => False) _ _ (fun _ s' => qstep s s') _ s
    (quiet_mb_wr slice reg val _ s Hc) H2)|]]; [by intros e [? _]|].
  cbn beta. intros r s' [Hq [-> Hcalm]]. apply (HQ s' tx); rewrite ?Hx; done.
Qed.

End Calm.

(** ** The phases of a transaction *)

Section Transaction.
Context {W : Type} {WW : World W} {WO : WorldOk W WW} {RG : Regs} {RO : RegsOk RG}
  {CH : PipelinedChip W WW} {MC : MailboxChip W WW CH}.
Implicit Types (s : st W) (E : fault -> Prop).

Lemma calm_serves (P : act -> bool) w w' slice req : by_acts P w w' -> mc_serves w slice req -> mc_serves w' slice req.
Proof.
  induction 1 as [|w w1 w2 (a & _ & H1) _ IH]; [done|]. intros H. apply IH. eapply mc_serves_calm; [by exists a|done].
Qed.

Lemma calm_answered (P : act -> bool) w w' slice req :
  by_acts P w w' -> mc_serves w slice req -> answered_flag w slice = true ->
  mc_serves w' slice req /\ answered_flag w' slice = true.
Proof.
  induction 1 as [|w w1 w2 (a & _ & H1) _ IH]; [done|]. assert (calm1 w w1) as Hc by by exists a. intros Hs Ha.
  apply IH; [by eapply mc_serves_calm|by eapply mc_answer_stays].
Qed.

(** Registers of the command window and the interrupt mask. *)
Lemma host_reg reg : MB_CMD_ADDR <= reg < MB_RESP_ADDR \/ reg = MB_MCU_MASK -> is_u16 reg.
Proof. unfold is_u16, MB_CMD_ADDR, MB_RESP_ADDR, MB_MCU_MASK. lia. Qed.

(** A stored write changes its own register and no other of the host's. *)
Lemma wp_mb_store slice reg val E Q s :
  ctx_ok (st_g s) -> 0 <= slice < 4 -> is_u32 val ->
  MB_CMD_ADDR <= reg < MB_RESP_ADDR \/ reg = MB_MCU_MASK ->
  (forall s', qstep s s' -> mb_reg (st_w s') slice reg = val ->
     (forall r, r <> reg -> MB_CMD_ADDR <= r < MB_RESP_ADDR ->
        mb_reg (st_w s') slice r = mb_reg (st_w s) slice r) -> Q 0 s') ->
  wp E (mb_wr slice reg val) Q s.
Proof.
  intros Hc Hs Hv Hr HQ. pose proof (host_reg reg Hr) as Hu.
  pose proof (mc_storage slice reg Hr) as Hst.
  apply mb_wr_chip; [done..|]. intros s' tx Hq Hb Hf Hcalm Hval. apply HQ; [done| |].
  - unfold mb_reg in *. rewrite (calm_regs _ _ _ _ _ _ Hcalm Hst). by apply Hval.
  - intros r Hne Hrr. pose proof (mc_storage slice r ltac:(by left)) as Hmr. unfold mb_reg.
    rewrite (calm_regs _ _ _ _ _ _ Hcalm Hmr).
    apply (sc_write_keeps _ _ _ _ _ _ Hb Hf eq_refl Hst); [|done]. cbn. congruence.
Qed.

Lemma write_words_chip n slice pkt E Q : forall i v s,
  ctx_ok (st_g s) -> 0 <= slice < 4 -> (4 * (i + n) <= length pkt)%nat -> (i + n <= 256)%nat ->
  bytes_ok pkt -> window (st_w s) slice MB_CMD_ADDR i = take (4 * i) pkt ->
  (forall v' s', qstep s s' ->
     window (st_w s') slice MB_CMD_ADDR (i + n) = take (4 * (i + n)) pkt -> Q (0, v') s') ->
  wp E (write_words n i slice pkt v) Q s.
Proof.
  induction n as [|n IH]; intros i v s Hc Hs Hl Hn Hb Hw HQ; cbn [write_words].
  { rewrite Nat.add_0_r in HQ. apply wp_ret, HQ; [by apply qstep_refl|done]. }
  wp_steps. rewrite pkt_word_decode by (done || lia). apply rwp_ok. wp_steps.
  set (word := le_decode _).
  assert (length (take 4 (drop (4 * i) pkt)) = 4%nat) as Hl4 by (rewrite length_take, length_drop; lia).
  assert (is_u32 word) as Hword.
  { pose proof (le_decode_range (take 4 (drop (4 * i) pkt)) ltac:(auto with spid)) as H.
    rewrite Hl4 in H. exact H. }
  assert (le_encode 4 word = take 4 (drop (4 * i) pkt)) as Henc.
  { pose proof (le_encode_decode (take 4 (drop (4 * i) pkt)) ltac:(auto with spid)) as H.
    rewrite Hl4 in H. exact H. }
  apply wp_mb_store; [done..|unfold MB_CMD_ADDR, MB_RESP_ADDR; lia|].
  intros s1 H1 Hval Hkeep. cbn [Z.eqb].
  apply IH; [by eapply qstep_ctx|done|lia|lia|done| |].
  - rewrite window_S, Hval, Henc.
    rewrite (window_ext (st_w s) (st_w s1) slice MB_CMD_ADDR), Hw.
    + rewrite take_drop_commute. replace (4 * i + 4)%nat with (4 * S i)%nat by lia.
      rewrite <-(take_drop (4 * i) (take (4 * S i) pkt)) at 2. rewrite take_take. f_equal. f_equal. lia.
    + intros j Hj. apply Hkeep; unfold MB_CMD_ADDR, MB_RESP_ADDR; lia.
  - intros v' s2 H2 Hw2. rewrite Nat.add_succ_r in HQ. apply HQ; [by eapply qstep_trans|done].
Qed.

Lemma ring_doorbell_chip slice req n v E Q s :
  ctx_ok (st_g s) -> 0 <= slice < 4 -> (n <= 256)%nat -> pkt_len req = Z.of_nat (length req) ->
  take (length req) (window (st_w s) slice MB_CMD_ADDR n) = req ->
  (forall v' s', qstep s s' -> mc_serves (st_w s') slice req -> Q (0, v') s') ->
  wp E (ring_doorbell slice v) Q s.
Proof.
  intros Hc Hs Hn Hlen Hreq HQ. unfold ring_doorbell. wp_steps.
  apply mb_rd_chip; [done..|unfold is_u16, MB_MCU_MASK; lia|]. intros s1 H1 Hcalm. wp_steps. cbn [Z.eqb negb].
  set (v1 := mb_reg _ _ _). pose proof (sc_reg_u32 (st_w s) slice LAN80XX_MMD_GLOBAL MB_MCU_MASK) as Hv1.
  wp_steps. apply wp_mb_store; [by eapply qstep_ctx|done| |by right|].
  { unfold is_u32 in *. apply (lor_bound _ _ 32); [lia|exact Hv1|lia]. }
  intros s2 H2 _ Hkeep. wp_steps. cbn [Z.eqb negb]. wp_steps. pose proof (qstep_trans _ _ _ H1 H2) as H02.
  apply mb_wr_chip; [by eapply qstep_ctx|done|unfold is_u16, MB_FLAG; lia|unfold is_u32, MB_SET_REQ; lia|].
  intros s3 tx H3 Hb Hf Hcalm3 _. wp_steps. apply HQ; [by eapply qstep_trans|].
  eapply calm_serves; [exact Hcalm3|]. eapply (mc_doorbell _ _ _ _ n); [done..|].
  rewrite <-Hreq at 2. f_equal. rewrite (window_ext (st_w s1) (st_w s2) slice MB_CMD_ADDR); [apply window_ext|].
  - intros i Hi. eapply calm_regs; [done|]. apply mc_storage. unfold MB_CMD_ADDR, MB_RESP_ADDR. lia.
  - intros i Hi. apply Hkeep; unfold MB_CMD_ADDR, MB_RESP_ADDR, MB_MCU_MASK; lia.
Qed.

(** What stays as it was while the daemon waits. *)
Definition waiting s0 s : Prop :=
  ctx_ok (st_g s) /\ g_qs (st_g s) = g_qs (st_g s0) /\ g_claim (st_g s) = g_claim (st_g s0).

Lemma waiting_quiet s0 s s' : waiting s0 s -> qstep s s' -> waiting s0 s'.
Proof.
  intros (Hc & Hq & Hcl) H. split; [by eapply qstep_ctx|].
  destruct H as ((_ & _ & _ & -> & -> & _) & _). done.
Qed.

(** The MCU of [slice] was seen not to have answered [req]; right after, without
    a pause, the clock was past [t_end], and that was at [w]. *)
Definition overdue (slice : Z) (req : list Z) (t_end : Z) (w : W) : Prop :=
  exists w1, mc_serves w1 slice req /\ answered_flag w1 slice = false /\ brisk w1 w /\ t_end < w_time w.

(** With nothing to drain, the wait ends with the MCU's answer or a timeout. *)
Lemma mb_poll_chip fuel drain slice t_end req Q s0 : forall v s,
  (forall s', waiting s0 s' -> drain 4%nat s' = Ok (tt, s')) ->
  waiting s0 s -> 0 <= slice < 4 -> mc_serves (st_w s) slice req ->
  (forall e s', waiting s0 s' -> w_time (st_w s) <= w_time (st_w s') -> mc_serves (st_w s') slice req ->
     (match e with PollReady _ => answered_flag (st_w s') slice = true
               | PollTimeout => overdue slice req t_end (st_w s') | PollIoErr => False end) -> Q e s') ->
  wp (fun e => e = OutOfFuel) (mb_poll fuel drain slice t_end v) Q s.
Proof.
  induction fuel as [|f IH]; intros v s Hd HP Hs Hserv HQ; cbn [mb_poll]; [by apply wp_fail|].
  pose proof HP as (Hc & _). wp_steps.
  apply mb_rd_chip; [done..|unfold is_u16, MB_FLAG; lia|]. intros s1 H1 Hcalm. wp_steps. cbn [Z.eqb negb].
  pose proof (waiting_quiet _ _ _ HP H1) as HP1. pose proof (calm_serves _ _ _ _ _ Hcalm Hserv) as Hs1.
  apply wp_if; intros Hflag.
  { apply wp_ret, HQ; [done|by apply qstep_time|done|]. by eapply calm_answered. }
  wp_steps. apply wp_now_clock. intros w2 -> Ht2. wp_steps. set (s2 := St _ _ _).
  assert (brisk (st_w s1) (st_w s2)) as Hc2 by (apply (by_acts_once quick ActClock); [done|constructor]).
  pose proof (qstep_time _ _ H1) as Ht1. pose proof (calm_serves _ _ _ _ _ Hc2 Hs1) as Hs2. assert (waiting s0 s2) as HP2 by done.
  apply wp_if; intros Hlate.
  { apply wp_ret, HQ; [done|cbn [st_w s2]; lia|done|]. exists (st_w s). split; [done|]. split; [exact Hflag|].
    split; [by etrans|]. apply Z.ltb_lt in Hlate. cbn [st_w s2]. lia. }
  wp_steps. unfold wp at 1. rewrite (Hd _ HP2). wp_steps.
  pose proof (w_do_time (st_w s2) (EvUsleep MB_POLL_DELAY_US)) as Ht3.
  apply IH; [done|done|done| |].
  - eapply (calm_serves any_act); [apply (by_acts_once any_act ActSleep); [done|constructor]|exact Hs2].
  - intros e s' HP' Ht'. apply HQ; [done|]. cbn [st_w s2] in *. lia.
Qed.

(** ** The response *)

(** The buffer holds the packet up to byte [n]. *)
Definition agree (buf p : list Z) (n : nat) : Prop :=
  forall k, (k < n)%nat -> (k < length p)%nat -> buf !! k = p !! k.

(** Storing a word of the window extends the part that agrees. *)
Lemma agree_store buf p i win v buf' :
  agree buf p (4 * i) -> take (length p) win = p -> take 4 (drop (4 * i) win) = le_encode 4 v ->
  pkt_store buf (4 * i) v = Ok buf' -> agree buf' p (4 * S i) /\ length buf' = length buf.
Proof.
  intros Ha Hp Hw. rewrite pkt_store_encode. unfold buf_write.
  destruct (Nat.leb_spec (4 * i + length (le_encode 4 v)) (length buf)) as [Hle|]; [|done].
  intros H. assert (buf' = take (4 * i) buf ++ le_encode 4 v ++ drop (4 * i + length (le_encode 4 v)) buf)
    as -> by congruence. clear H. rewrite length_le_encode in *. split.
  - intros k Hk Hkp. destruct (decide (k < 4 * i)%nat) as [Hlt|Hge].
    + rewrite lookup_app_l by (rewrite length_take; lia). rewrite lookup_take_lt by lia. by apply Ha.
    + rewrite lookup_app_r by (rewrite length_take; lia). rewrite length_take, Nat.min_l by lia.
      rewrite lookup_app_l by (rewrite length_le_encode; lia). rewrite <-Hw, lookup_take_lt, lookup_drop by lia.
      replace (4 * i + (k - 4 * i))%nat with k by lia. rewrite <-Hp. by rewrite lookup_take_lt.
  - rewrite !length_app, length_take, length_drop, length_le_encode. lia.
Qed.

Lemma agree_take buf p n :
  agree buf p n -> (length p <= n)%nat -> (length p <= length buf)%nat -> take (length p) buf = p.
Proof.
  intros Ha Hn Hl. apply list_eq. intros k. destruct (decide (k < length p)%nat).
  - rewrite lookup_take_lt by done. apply Ha; lia.
  - rewrite lookup_take_ge by lia. symmetry. apply lookup_ge_None. lia.
Qed.

Lemma pkt_store_returns buf i v : (i + 4 <= length buf)%nat -> exists buf', pkt_store buf i v = Ok buf'.
Proof. intros H. rewrite pkt_store_encode, buf_write_ok by (rewrite length_le_encode; lia). eauto. Qed.

(** The MCU of [slice] has answered [req]. *)
Definition answering (w : W) (slice : Z) (req : list Z) : Prop :=
  mc_serves w slice req /\ answered_flag w slice = true.

Lemma calm_answering (P : act -> bool) w w' slice req : by_acts P w w' -> answering w slice req -> answering w' slice req.
Proof. intros H [? ?]. by eapply calm_answered. Qed.

Lemma read_words_chip n slice req E Q : forall i pkt v s,
  let p := mc_mcu req in
  ctx_ok (st_g s) -> 0 <= slice < 4 -> answering (st_w s) slice req ->
  (4 * (i + n) <= length pkt)%nat -> (i + n <= 256)%nat -> agree pkt p (4 * i) ->
  (forall pkt' s', qstep s s' -> answering (st_w s') slice req -> agree pkt' p (4 * (i + n)) ->
     length pkt' = length pkt -> Q (0, pkt') s') ->
  wp E (read_words n i slice pkt v) Q s.
Proof.
  induction n as [|n IH]; intros i pkt v s p Hc Hs Ha Hl Hn Hag HQ; cbn [read_words].
  { rewrite Nat.add_0_r in HQ. apply wp_ret, HQ; [by apply qstep_refl|done..]. }
  wp_steps. apply mb_rd_chip; [done..|unfold is_u16, MB_RESP_ADDR; lia|]. intros s1 H1 Hcalm. wp_steps.
  cbn [Z.eqb]. wp_steps. set (word := mb_reg _ _ _).
  destruct (pkt_store_returns pkt (4 * i) word) as [pkt' Hst]; [lia|].
  destruct (agree_store pkt p i (window (st_w s) slice MB_RESP_ADDR 256) word pkt') as [Hag' Hl'];
    [done|by apply mc_answer; apply Ha|apply window_word; lia|done|].
  rewrite Hst. apply rwp_ok.
  apply IH; [by eapply qstep_ctx|done|by eapply calm_answering|lia|lia|done|].
  intros pkt2 s2 H2 Ha2 Hag2 Hl2. rewrite Nat.add_succ_r in HQ.
  apply HQ; [by eapply qstep_trans|done|done|congruence].
Qed.

(** The header word carries the length. *)
Lemma header_len p v :
  is_u32 v -> take 4 p = le_encode 4 v -> u16 (Z.shiftr v 16) = pkt_len p.
Proof.
  intros Hv Hp. unfold pkt_len.
  assert (take 2 (drop 2 p) = drop 2 (take 4 p)) as -> by (by rewrite take_drop_commute).
  rewrite Hp. cbn [le_encode drop le_decode]. rewrite Z.shiftr_div_pow2 by lia.
  unfold u16, is_u32 in *. dlia.
Qed.

(** The result a caller sees for a reference result. *)
Definition delivers (m : mb) (resp : list Z) (ref : spiproxy_status * Z * list Z)
    (r : spiproxy_status * mb * Z * list Z) : Prop :=
  let '(x, cmd, data) := ref in
  exists resp', r = (x, mb_set_cmd cmd m, Z.of_nat (length data), resp') /\
    resp' = take mb_size resp ++ data ++ drop (mb_size + length data) resp.

Lemma delivers_error m resp x : delivers m resp (x, mb_cmd m, []) (x, m, 0, resp).
Proof.
  exists resp. split; [by destruct m|]. cbn [length app]. by rewrite Nat.add_0_r, take_drop.
Qed.


Lemma header_word w slice req :
  answering w slice req -> (4 <= length (mc_mcu req))%nat ->
  take 4 (mc_mcu req) = le_encode 4 (mb_reg w slice MB_RESP_ADDR).
Proof.
  intros [Hs Ha] Hl. pose proof (mc_answer _ _ _ Hs Ha) as Hp. rewrite <-Hp, take_take, Nat.min_l by done.
  pose proof (window_word w slice MB_RESP_ADDR 256 0 ltac:(lia)) as Hw.
  rewrite Nat.mul_0_r, drop_0, Z.add_0_r in Hw. exact Hw.
Qed.

(** The checksum bytes of a packet of length [n]. *)
Lemma crc_field p n :
  length p = n -> (6 <= n)%nat -> bytes_ok p ->
  exists lo hi, p !! (n - 2)%nat = Some lo /\ p !! (n - 1)%nat = Some hi /\
    Z.lor lo (u16 (Z.shiftl hi 8)) = le_decode (take 2 (drop (n - 2) p)).
Proof.
  intros Hn H6 Hb.
  destruct (lookup_lt_is_Some_2 p (n - 2)) as [lo Hlo]; [lia|].
  destruct (lookup_lt_is_Some_2 p (n - 1)) as [hi Hhi]; [lia|]. exists lo, hi. do 2 (split; [done|]).
  pose proof (Forall_lookup_1 _ _ _ _ Hb Hlo) as Rlo. pose proof (Forall_lookup_1 _ _ _ _ Hb Hhi) as Rhi.
  unfold is_u8 in Rlo, Rhi. rewrite (drop_S p lo (n - 2)), (drop_S p hi (S (n - 2))) by
    (done || by replace (S (n - 2)) with (n - 1)%nat by lia). rewrite !firstn_cons, take_0. cbn [le_decode].
  rewrite u16_id by (unfold is_u16; rewrite Z.shiftl_mul_pow2 by lia; lia).
  rewrite Z.lor_comm, lor_shiftl_add by lia. lia.
Qed.

(** The check and the copy at the end, once the packet is in the buffer, give
    what the reference decoder reads. *)
Lemma mb_check_reference m p rest resp :
  framed p -> len_ok (pkt_len p) -> length resp = (mb_size + Z.to_nat SPIPROXY_MB_MAX)%nat ->
  exists r, mb_check m (p ++ rest) resp (pkt_len p) = Ok r /\
    delivers m resp (mb_reference (mb_cmd m) p) r.
Proof.
  intros (_ & Hb & Hlen) Hok Hrl. specialize (Hlen Hok). pose proof Hok as Hok'.
  assert (Z.of_nat (length resp) = 1026) as Hrlz by by rewrite Hrl.
  unfold len_ok, MB_HDR_LEN, MB_CRC_LEN, SPIPROXY_MB_MAX in Hok'.
  unfold mb_check, mb_reference, MB_HDR_LEN, MB_CRC_LEN. rewrite (decide_True _ _ Hok).
  set (n := Z.to_nat (pkt_len p)). assert (length p = n) as Hn by (unfold n; lia).
  destruct (crc_field p n Hn ltac:(lia) Hb) as (lo & hi & Hlo & Hhi & <-).
  destruct (lookup_lt_is_Some_2 p 0) as [cmd Hcmd]; [lia|].
  unfold buf_get. rewrite !lookup_app_l, Hlo, Hhi, Hcmd by lia. cbn [res_bind].
  change (Z.to_nat 2) with 2%nat. change (Z.to_nat 4) with 4%nat.
  unfold buf_read. rewrite (proj2 (Nat.leb_le _ _)) by (rewrite length_app; lia).
  rewrite drop_0, take_app_le by lia. cbn [res_bind].
  destruct (_ =? _); cbn [negb]; [|eexists; split; [done|apply delivers_error]].
  rewrite u16_id by (unfold is_u16; lia).
  assert (Z.to_nat (pkt_len p - 4 - 2) = (n - 6)%nat) as -> by (unfold n; lia).
  rewrite (proj2 (Nat.leb_le _ _)) by (rewrite length_app; lia). cbn [res_bind].
  rewrite drop_app_le, take_app_le by (rewrite ?length_drop; lia). set (data := take (n - 6) (drop 4 p)).
  assert (length data = (n - 6)%nat) as Hd by (unfold data; rewrite length_take, length_drop; lia).
  rewrite buf_write_ok by (unfold mb_size; lia). eexists. split; [done|].
  eexists. split; [|done]. cbn [default]. do 3 f_equal. lia.
Qed.

(** The response phase returns what the reference decoder reads. *)
Lemma mb_response_chip m req pkt resp v E Q s :
  ctx_ok (st_g s) -> 0 <= mb_slice m < 4 -> answering (st_w s) (mb_slice m) req -> framed (mc_mcu req) ->
  length pkt = MB_PKT_SIZE -> length resp = (mb_size + Z.to_nat SPIPROXY_MB_MAX)%nat ->
  (forall r s', g_mb_inflight (st_g s') = false ->
     delivers m resp (mb_reference (mb_cmd m) (mc_mcu req)) r -> Q r s') ->
  wp E (mb_response m pkt resp v) Q s.
Proof.
  intros Hc Hs Ha Hfr Hpl Hrl HQ. pose proof Hfr as (H4 & Hb & Hlen). set (p := mc_mcu req) in *.
  assert (Z.of_nat (length pkt) = 1027) as Hplz by by rewrite Hpl.
  pose proof (header_word _ _ _ Ha H4) as Hhead. fold p in Hhead. unfold mb_response. wp_steps.
  apply mb_rd_chip; [done..|unfold is_u16, MB_RESP_ADDR; lia|]. intros s1 H1 Hcalm. wp_steps.
  cbn [Z.eqb negb]. set (v1 := mb_reg _ _ _) in *. pose proof (sc_reg_u32 (st_w s) (mb_slice m)
    LAN80XX_MMD_GLOBAL MB_RESP_ADDR : is_u32 v1) as Hv1. rewrite (header_len p v1 Hv1 Hhead).
  pose proof (calm_answering _ _ _ _ _ Hcalm Ha) as Ha1. pose proof (qstep_ctx _ _ H1 Hc) as Hc1.
  apply wp_if; intros Hrange.
  { wp_steps. apply wp_mb_wr; [done|]. intros rc s2 _ H2. unfold clear_inflight. wp_steps. apply HQ; [done|].
    unfold mb_reference. rewrite decide_False; [apply delivers_error|]. unfold len_ok.
    apply orb_true_iff in Hrange as [?%Z.ltb_lt|?%Z.ltb_lt]; lia. }
  apply orb_false_iff in Hrange as [Hlo%Z.ltb_ge Hhi%Z.ltb_ge].
  assert (len_ok (pkt_len p)) as Hok by done. specialize (Hlen Hok).
  unfold MB_HDR_LEN, MB_CRC_LEN, SPIPROXY_MB_MAX in Hlo, Hhi. rewrite round4_spec by lia. wp_steps.
  destruct (pkt_store_returns pkt (4 * 0) v1) as [pkt1 Hst]; [lia|].
  destruct (agree_store pkt p 0 (window (st_w s) (mb_slice m) MB_RESP_ADDR 256) v1 pkt1) as [Hag Hl1];
    [by intros k Hk; lia|by apply mc_answer; apply Ha| |done|].
  { rewrite (window_word (st_w s) (mb_slice m) MB_RESP_ADDR 256 0) by lia. by rewrite Z.add_0_r. }
  rewrite Nat.mul_0_r in Hst. rewrite Hst. apply rwp_ok. wp_steps.
  eapply (read_words_chip _ (mb_slice m) req); [done|done|done|dlia|dlia|exact Hag|].
  intros pkt2 s2 H2 Ha2 Hag2 Hl2. wp_steps. cbn [Z.eqb negb]. wp_steps.
  apply wp_mb_wr; [by eapply qstep_ctx|]. intros rc s3 _ H3. unfold clear_inflight. apply wp_bind, wp_setg.
  assert (take (length p) pkt2 = p) as Htk by (eapply agree_take; [exact Hag2|dlia|lia]).
  rewrite <-(take_drop (length p) pkt2), Htk. set (s4 := St _ _ _).
  destruct (mb_check_reference m p (drop (length p) pkt2) resp) as (r & -> & Hd); [done..|].
  apply wp_lift, rwp_ok. by apply HQ.
Qed.

End Transaction.

(** ** The whole transaction *)

Section RoundTrip.
Context {W : Type} {WW : World W} {WO : WorldOk W WW} {RG : Regs} {RO : RegsOk RG}
  {CH : PipelinedChip W WW} {MC : MailboxChip W WW CH}.
Implicit Types (s : st W).

(** Draining empty queues does nothing. *)
Lemma drain_empty f fa busy n s :
  rep (g_qs (st_g s)) [[]; []; []] fa busy -> drain_queues (S f) n s = Ok (tt, s).
Proof.
  intros HR. destruct n as [|n]; [done|]. cbn [drain_queues drain_loop].
  pose proof (take_eligible_refines (item_eligible (claim_owner (g_claim (st_g s)))) _ _ _ _ HR) as H.
  cbn [pick split_first] in H. unfold bindM at 1, getg at 1.
  unfold bindM at 1, liftM at 1. rewrite H. done.
Qed.

(** Nobody else is served during a transaction with empty queues: queues,
    clients and claim stay as they are and nothing is answered. *)
Record undisturbed (fa busy : list nat) s0 s : Prop := {
  ud_inv : inv [[]; []; []] fa busy (st_g s);
  ud_lctx : lctx_ok (st_g s);
  ud_qs : g_qs (st_g s) = g_qs (st_g s0);
  ud_claim : g_claim (st_g s) = g_claim (st_g s0);
  ud_clients : g_cl (st_g s) = g_cl (st_g s0);
  ud_out : exists ev, st_out s = ev ++ st_out s0 /\ answers ev = [] }.

Lemma undisturbed_refl fa busy s :
  inv [[]; []; []] fa busy (st_g s) -> lctx_ok (st_g s) -> undisturbed fa busy s s.
Proof. intros I Hl. split; try done. by exists []. Qed.

Lemma undisturbed_quiet fa busy s0 s s' : undisturbed fa busy s0 s -> qstep s s' -> undisturbed fa busy s0 s'.
Proof.
  intros [I Hl Hq Hc Hcl (ev & Ho & Ha)] H. pose proof (qstep_inv _ _ _ _ _ I H) as I'.
  destruct (qstep_answers _ _ H) as (ev' & Ho' & Ha').
  destruct H as ((_ & Hcl' & _ & Hq' & Hc' & _ & Hl' & _) & _). split; try congruence.
  - unfold lctx_ok. by rewrite Hl'.
  - exists (ev' ++ ev). rewrite Ho', Ho, app_assoc. split; [done|]. unfold answers in *. by rewrite omap_app, Ha', Ha.
Qed.

Instance undisturbed_contract f fa busy s0 :
  DrainContract (undisturbed fa busy s0) later (fun _ => False) (drain_queues (S f)).
Proof.
  unfold later. split.
  - intros s [I Hl _ _ _ _]. by eapply inv_ctx.
  - intros s s' HP Hq. split; [by eapply undisturbed_quiet|apply Hq].
  - intros s b [I ? ? ? ? ?]. split; [|cbn; lia]. split; try done. apply (inv_same _ _ _ (st_g s)); try done. apply I.
  - intros s us [? ? ? ? ? (ev & Ho & Ha)]. split; [|apply w_do_time]. split; try done.
    exists (EvUsleep us :: ev). cbn [st_out]. by rewrite Ho.
  - intros. lia.
  - done.
  - intros s HP. pose proof HP as [I Hl Hq Hc _ _]. unfold wp.
    rewrite (drain_empty f fa busy _ s); [split; [done|lia]|apply I].
Qed.

Lemma mb_request_len m payload :
  0 <= mb_payload_len m <= SPIPROXY_MB_MAX -> (Z.to_nat (mb_payload_len m) <= length payload)%nat ->
  pkt_len (mb_request m payload) = Z.of_nat (length (mb_request m payload)).
Proof.
  intros Hm Hp. rewrite length_mb_request by done. unfold pkt_len, mb_request, mb_frame, mb_head.
  cbn [drop app take le_decode]. unfold MB_HDR_LEN, MB_CRC_LEN. rewrite Z.mul_0_r, Z.add_0_r.
  pose proof (Z_div_mod_eq_full (4 + mb_payload_len m + 2) 256). lia.
Qed.

Lemma request_window w slice m payload rest n :
  window w slice MB_CMD_ADDR n = take (4 * n) (mb_request m payload ++ rest) ->
  (length (mb_request m payload) <= 4 * n)%nat ->
  take (length (mb_request m payload)) (window w slice MB_CMD_ADDR n) = mb_request m payload.
Proof. intros -> Hl. rewrite take_take, Nat.min_l by done. by rewrite take_app_length. Qed.

(** The wait of a request, in microseconds. *)
Definition mb_patience (m : mb) : Z :=
  (if mb_timeout_ms m =? 0 then MB_TIMEOUT_MS else mb_timeout_ms m) * 1000.

(** A transaction that began at [w] and ended at [w'] gave up in time: the last
    look at the flag found no answer of the MCU, at [w2], right after it, the
    clock was past the wait (or at the end of its range), and then the request
    was withdrawn. *)
Definition timed_out (m : mb) (req : list Z) (w w' : W) : Prop :=
  exists w1 w2 tx, mc_serves w1 (mb_slice m) req /\ answered_flag w1 (mb_slice m) = false /\ brisk w1 w2 /\
    (w_time w + mb_patience m < w_time w2 \/ w_time w2 = TIME_MAX) /\
    frame_decode tx = Some (Frame true (mb_slice m) LAN80XX_MMD_GLOBAL MB_FLAG MB_CLR_REQ) /\
    calm (fst (w_spi w2 tx)) w'.

(** How a transaction that got through to the MCU ends: with its answer, or
    with a timeout. *)
Definition mb_outcome (m : mb) (req resp : list Z) (r : spiproxy_status * mb * Z * list Z) s s' : Prop :=
  delivers m resp (mb_reference (mb_cmd m) (mc_mcu req)) r \/
  r = (SPIPROXY_ETIMEDOUT, m, 0, resp) /\ timed_out m req (st_w s) (st_w s').

Lemma patience_bound m : mb_ok m -> 0 <= mb_patience m < 2 ^ 42.
Proof. intros (_ & _ & _ & Ht). unfold mb_patience, MB_TIMEOUT_MS, is_u32 in *. case_match; lia. Qed.

(** The deadline does not wrap unless the clock stands at its end. *)
Lemma deadline_passed (w0 wt w2 : W) p :
  0 <= p < 2 ^ 42 -> w_time w0 <= w_time wt -> w_time wt <= w_time w2 ->
  u64 (w_time wt + p) < w_time w2 -> w_time w0 + p < w_time w2 \/ w_time w2 = TIME_MAX.
Proof.
  intros Hp H0 H1 Hd. pose proof (w_time_range wt) as Hr. pose proof (w_time_range w2) as Hr2.
  destruct Hr as [Hr|Hr]; [|unfold TIME_MAX in *; lia]. rewrite u64_id in Hd by (unfold is_u64; lia). lia.
Qed.

Lemma exec_mailbox_chip fuel f fa busy m payload resp s :
  rep (g_qs (st_g s)) [[]; []; []] fa busy -> ctx_ok (st_g s) -> mb_ok m -> mb_slice m < SLICE_COUNT ->
  mb_payload_len m <= SPIPROXY_MB_MAX -> (Z.to_nat SPIPROXY_MB_MAX <= length payload)%nat ->
  bytes_ok payload -> length resp = (mb_size + Z.to_nat SPIPROXY_MB_MAX)%nat ->
  Z.land (mb_reg (st_w s) (mb_slice m) MB_FLAG) MB_F_BUSY = 0 ->
  framed (mc_mcu (mb_request m payload)) ->
  wp (fun e => e = OutOfFuel) (exec_mailbox fuel (drain_queues (S f)) m payload resp)
    (fun r s' => g_mb_inflight (st_g s') = false /\ mb_outcome m (mb_request m payload) resp r s s') s.
Proof.
  intros HR Hc Hm Hsl Hpl Hpay Hpb Hrl Hbusy Hfr. pose proof Hm as (Hms & Hmc & Hmp & Hmt).
  unfold exec_mailbox, mb_transact, mb_await. rewrite (proj2 (Z.ltb_ge _ _) Hpl), (proj2 (Z.leb_gt _ _) Hsl). cbn [orb].
  unfold is_u8, is_u16, SLICE_COUNT in *. assert (0 <= mb_slice m < 4) as Hs by lia.
  wp_steps. destruct (w_stack_bytes (st_w s) MB_PKT_SIZE) as [Hsk Hskb].
  assert (Z.to_nat (mb_payload_len m) <= length payload)%nat as Hpl' by lia.
  rewrite mb_packet_ok by (done || lia). apply rwp_ok. set (pkt := mb_request m payload ++ _). wp_steps.
  pose proof (length_mb_request m payload Hpl') as Hreql.
  assert (length pkt = MB_PKT_SIZE) as Hpk.
  { unfold pkt. rewrite length_app, Hreql, length_drop, Hsk.
    unfold MB_PKT_SIZE, SPIPROXY_MB_MAX, MB_HDR_LEN, MB_CRC_LEN in *. lia. }
  assert (Z.of_nat (length pkt) = 1027) as Hpkz by by rewrite Hpk.
  assert (bytes_ok pkt) as Hpkb by (apply bytes_ok_app; [by apply mb_request_ok|auto with spid]).
  apply mb_rd_chip; [done..|unfold is_u16, MB_FLAG; lia|]. intros s1 H1 Hcalm1. wp_steps. cbn [Z.eqb negb].
  rewrite Hbusy. cbn [Z.eqb negb]. wp_steps. set (s2 := St _ _ _).
  assert (ctx_ok (st_g s2)) as Hc2 by (pose proof (qstep_ctx _ _ H1 Hc) as (? & ? & ? & ?); by split_and!).
  unfold MB_HDR_LEN, MB_CRC_LEN, SPIPROXY_MB_MAX in *. rewrite u16_id, round4_spec by (unfold is_u16; lia).
  set (n := Z.to_nat _). assert (length (mb_request m payload) <= 4 * n /\ n <= 256)%nat as [Hn1 Hn2]
    by (rewrite Hreql; unfold n; dlia).
  eapply (write_words_chip n (mb_slice m) pkt); [done|done|lia|lia|done|done|].
  intros v3 s3 H3 Hwin. wp_steps. cbn [Z.eqb negb Nat.add] in *. wp_steps. pose proof (qstep_ctx _ _ H3 Hc2) as Hc3.
  eapply (ring_doorbell_chip (mb_slice m) (mb_request m payload) n); [done|done|lia| | |].
  { apply mb_request_len; [unfold SPIPROXY_MB_MAX; lia|done]. }
  { by eapply request_window. }
  intros v4 s4 H4 Hserv. wp_steps. cbn [Z.eqb negb]. wp_steps. apply wp_now_clock. intros w5 -> Ht5. wp_steps.
  set (s5 := St _ _ _).
  assert (brisk (st_w s4) (st_w s5)) as Hc5 by (apply (by_acts_once quick ActClock); [done|constructor]).
  assert (waiting s s5) as HP5.
  { eapply (waiting_quiet _ s4 s5); [eapply (waiting_quiet _ s3); [eapply (waiting_quiet _ s2); [|done]|done]|].
    - split; [done|]. destruct H1 as ((_ & _ & _ & Hq1 & Hcl1 & _) & _). done.
    - pose proof (qstep_ctx _ _ H4 Hc3) as Hc4. apply qstep_diag; [done|apply Hc4|cbn [st_w s5]; lia]. }
  pose proof (qstep_time _ _ H1) as Htm1. pose proof (qstep_time _ _ H3) as Htm3.
  pose proof (qstep_time _ _ H4) as Htm4. cbn [st_w s2] in Htm3.
  apply (mb_poll_chip _ _ _ _ (mb_request m payload) _ s);
    [intros s' (_ & Hq' & _); eapply drain_empty; rewrite Hq'; exact HR|done|done|by eapply calm_serves|].
  intros e s6 HP6 Ht6 Hs6 He. destruct e as [v6| |]; [|done|].
  - apply (mb_response_chip m (mb_request m payload)); try done; [apply HP6|]. intros r s7 Hi Hd. by split; [|left].
  - wp_steps. apply mb_wr_chip; [apply HP6|done|unfold is_u16, MB_FLAG; lia|unfold is_u32, MB_CLR_REQ; lia|].
    intros s7 tx _ _ Hf Hc7 _. unfold clear_inflight. wp_steps.
    split; [done|right]. split; [done|]. destruct He as (w1 & Hw1 & Hfl & Hb & Hlate).
    exists w1, (st_w s6), tx. do 3 (split; [done|]). split; [|split; [done|by eapply by_acts_calm]].
    apply (deadline_passed (st_w s) (st_w s4)); [by apply patience_bound|lia|cbn [st_w s5] in Ht6; lia|exact Hlate].
Qed.

(** A mailbox call with nothing else to do: an idle MCU, empty queues, and the
    caller's buffers. *)
Record mb_call (fa busy : list nat) (m : mb) (payload resp : list Z) s : Prop := {
  mc_inv : inv [[]; []; []] fa busy (st_g s);
  mc_lctx : lctx_ok (st_g s);
  mc_mb : mb_ok m;
  mc_slice : mb_slice m < SLICE_COUNT;
  mc_len : mb_payload_len m <= SPIPROXY_MB_MAX;
  mc_payload : (Z.to_nat SPIPROXY_MB_MAX <= length payload)%nat /\ bytes_ok payload;
  mc_resp : length resp = (mb_size + Z.to_nat SPIPROXY_MB_MAX)%nat /\ bytes_ok resp;
  mc_idle : Z.land (mb_reg (st_w s) (mb_slice m) MB_FLAG) MB_F_BUSY = 0 }.

Lemma exec_mailbox_returns fuel f fa busy m payload resp s :
  mb_call fa busy m payload resp s -> framed (mc_mcu (mb_request m payload)) ->
  POLL_FUEL <= Z.of_nat fuel ->
  exists r s', exec_mailbox fuel (drain_queues (S f)) m payload resp s = Ok (r, s') /\
    undisturbed fa busy s s' /\ g_mb_inflight (st_g s') = false /\
    mb_outcome m (mb_request m payload) resp r s s'.
Proof.
  intros [I Hlx Hm Hsl Hpl [Hpay Hpb] [Hrl Hrb] Hbusy] Hfr Hf. pose proof (inv_rep _ _ _ _ I) as HR.
  pose proof (inv_ctx _ _ _ _ I Hlx) as Hc.
  pose proof (exec_mailbox_chip fuel f fa busy m payload resp s HR Hc Hm Hsl Hpl Hpay Hpb Hrl Hbusy Hfr) as H1.
  pose proof (undisturbed_contract f fa busy s) as DC.
  pose proof (wp_exec_mailbox (undisturbed fa busy s) later (fun _ => False) (drain_queues (S f)) fuel m payload resp s
    (undisturbed_refl _ _ _ I Hlx) Hm Hpay Hpb Hrl Hrb ltac:(right; done)) as H2.
  unfold wp in H1, H2. destruct (exec_mailbox fuel (drain_queues (S f)) m payload resp s) as [[r s']|]; [|done].
  exists r, s'. destruct r as [[[x m'] rlen] resp']. destruct H2 as (HP & _). by split_and!; try apply H1.
Qed.

(** C14: with an idle mailbox and empty queues, a mailbox transaction returns: it
    delivers the request packet (header, payload, CRC) to the MCU through the
    command window and hands back exactly what the reference decoder reads
    from the MCU's answer -- its command byte and data when the CRC is right,
    ECRC when it is wrong, EINVAL for an impossible length.  It reports
    ETIMEDOUT only when its last look at the flag found no answer and the clock,
    read right after it, was past the requested wait (default 500 ms) counted from
    the call, and then withdraws the request.  The mailbox guard is dropped in every case. *)
Theorem mailbox_round_trip fuel f fa busy m payload resp s :
  mb_call fa busy m payload resp s -> framed (mc_mcu (mb_request m payload)) ->
  POLL_FUEL <= Z.of_nat fuel ->
  exists r s', exec_mailbox fuel (drain_queues (S f)) m payload resp s = Ok (r, s') /\
    g_mb_inflight (st_g s') = false /\ mb_outcome m (mb_request m payload) resp r s s'.
Proof.
  intros Hcall Hfr Hf. destruct (exec_mailbox_returns fuel f _ _ _ _ _ _ Hcall Hfr Hf) as (r & s' & ? & _ & ?).
  by exists r, s'.
Qed.

End RoundTrip.

(** ** Packets *)

Lemma length_mb_frame body : length (mb_frame body) = (length body + 2)%nat.
Proof. unfold mb_frame. by rewrite length_app. Qed.

Lemma frame_crc body rest :
  le_decode (take 2 (drop (length body) (mb_frame body ++ rest))) = crc16_ccitt body.
Proof.
  unfold mb_frame. rewrite <-app_assoc, drop_app_length. cbn [app]. rewrite !firstn_cons, take_0.
  cbn [le_decode]. pose proof (Z_div_mod_eq_full (crc16_ccitt body) 256). lia.
Qed.

(** Decoding a framed body whose length field is right. *)
Lemma mb_reference_frame old cmd fl len_lo len_hi data :
  let body := cmd :: fl :: len_lo :: len_hi :: data in
  Z.of_nat (length (mb_frame body)) <= 1024 -> len_lo + 256 * len_hi = Z.of_nat (length (mb_frame body)) ->
  mb_reference old (mb_frame body) = (SPIPROXY_OK, cmd, data).
Proof.
  intros body Hmax Hlen. unfold mb_reference.
  assert (pkt_len (mb_frame body) = Z.of_nat (length (mb_frame body))) as Hp.
  { unfold pkt_len. change (take 2 (drop 2 (mb_frame body))) with [len_lo; len_hi]. cbn [le_decode]. lia. }
  assert (length (mb_frame body) = (length data + 6)%nat) as Hl
    by (rewrite length_mb_frame; cbn [length body]; lia).
  rewrite Hp, decide_True by (unfold len_ok, MB_HDR_LEN, MB_CRC_LEN, SPIPROXY_MB_MAX; lia).
  rewrite Nat2Z.id, Hl. replace (length data + 6 - 2)%nat with (length body) by (cbn [length body]; lia).
  assert (take (length body) (mb_frame body) = body) as -> by (unfold mb_frame; by rewrite take_app_length).
  pose proof (frame_crc body []) as Hc. rewrite app_nil_r in Hc. rewrite Hc, Z.eqb_refl.
  change (mb_frame body !! 0%nat) with (Some cmd). cbn [default from_option id]. f_equal.
  change (drop 4 (mb_frame body)) with (data ++ [crc16_ccitt body mod 256; crc16_ccitt body / 256]).
  replace (length data + 6 - 6)%nat with (length data) by lia. by rewrite take_app_length.
Qed.

(** C32: the request packet of every command and payload up to the maximum is
    well formed: the reference decoder accepts it and recovers the command and
    exactly the payload, whatever the buffer held before. *)
Theorem mb_packet_roundtrip m payload pkt old :
  0 <= mb_payload_len m <= SPIPROXY_MB_MAX ->
  (Z.to_nat (mb_payload_len m) <= length payload)%nat -> length pkt = MB_PKT_SIZE ->
  exists p rest, mb_packet m payload pkt = Ok (p ++ rest) /\
    mb_reference old p = (SPIPROXY_OK, mb_cmd m, take (Z.to_nat (mb_payload_len m)) payload).
Proof.
  intros Hm Hp Hl. eexists _, _. split; [by apply mb_packet_ok|]. unfold mb_request, mb_head. cbn [app].
  set (len := MB_HDR_LEN + mb_payload_len m + MB_CRC_LEN).
  assert (Z.of_nat (length (mb_frame (mb_cmd m :: 255 :: len mod 256 :: len / 256 ::
    take (Z.to_nat (mb_payload_len m)) payload))) = len) as Hlen.
  { rewrite length_mb_frame. cbn [length]. rewrite length_take. unfold len, MB_HDR_LEN, MB_CRC_LEN. lia. }
  apply mb_reference_frame; rewrite Hlen; [unfold len, MB_HDR_LEN, MB_CRC_LEN, SPIPROXY_MB_MAX in *; lia|].
  pose proof (Z_div_mod_eq_full len 256). lia.
Qed.

(** The two checksum bytes of a packet. *)
Definition crc_bytes (body : list Z) : list Z := [crc16_ccitt body mod 256; crc16_ccitt body / 256].

(** [body'] is [body], a packet without its checksum, after a burst of up to
    sixteen wrong bits that spared the length field. *)
Definition burst_hit (body body' : list Z) : Prop :=
  bytes_ok body /\ bytes_ok body' /\ length body = length body' /\ (4 <= length body')%nat /\
  len_ok (pkt_len body') /\ pkt_len body' = Z.of_nat (length body' + 2) /\
  exists b k, 0 < b < 2 ^ 16 /\ 0 <= k /\ Z.lxor (be_value body) (be_value body') = Z.shiftl b k.

Lemma pkt_len_app body rest : (4 <= length body)%nat -> pkt_len (body ++ rest) = pkt_len body.
Proof. intros H. unfold pkt_len. by rewrite drop_app_le, take_app_le by (rewrite ?length_drop; lia). Qed.

Lemma burst_reference body body' old :
  burst_hit body body' -> mb_reference old (body' ++ crc_bytes body) = (SPIPROXY_ECRC, old, []).
Proof.
  intros (Hb & Hb' & Hlen & H4 & Hok & Hpl & b & k & Hbb & Hk & Hx).
  pose proof (burst_changes_crc body body' b k Hb Hb' Hlen Hbb Hk Hx) as Hne.
  unfold mb_reference. rewrite pkt_len_app, decide_True, Hpl, Nat2Z.id by done.
  replace (length body' + 2 - 2)%nat with (length body') by lia. rewrite take_app_length, drop_app_length.
  cbn [crc_bytes take le_decode]. pose proof (Z_div_mod_eq_full (crc16_ccitt body) 256).
  rewrite (proj2 (Z.eqb_neq _ _)); [done|]. lia.
Qed.

Lemma burst_framed body body' : burst_hit body body' -> framed (body' ++ crc_bytes body).
Proof.
  intros (Hb & Hb' & Hlen & H4 & Hok & Hpl & _). pose proof (crc16_range body) as Hr. unfold is_u16 in Hr.
  unfold framed. rewrite pkt_len_app, length_app by done. split; [lia|]. split; [|by rewrite Hpl].
  apply bytes_ok_app; [done|]. repeat constructor; unfold is_u8; dlia.
Qed.

Section Corrupted.
Context {W : Type} {WW : World W} {WO : WorldOk W WW} {RG : Regs} {RO : RegsOk RG}
  {CH : PipelinedChip W WW} {MC : MailboxChip W WW CH}.

(** C33: when a burst of up to sixteen wrong bits outside the length field and
    the checksum hits the MCU's answer, the transaction ends with ECRC (or with
    ETIMEDOUT when the MCU has not answered in time: the last look finds no answer
    and the clock is past the wait), reports no data and leaves the caller's
    command byte and buffer as they are. *)
Theorem corrupted_response_detected fuel f fa busy m payload resp body body' (s : st W) :
  mb_call fa busy m payload resp s -> POLL_FUEL <= Z.of_nat fuel ->
  burst_hit body body' -> mc_mcu (mb_request m payload) = body' ++ crc_bytes body ->
  exists x s', exec_mailbox fuel (drain_queues (S f)) m payload resp s = Ok ((x, m, 0, resp), s') /\
    g_mb_inflight (st_g s') = false /\
    (x = SPIPROXY_ECRC \/
     x = SPIPROXY_ETIMEDOUT /\ timed_out m (mb_request m payload) (st_w s) (st_w s')).
Proof.
  intros Hcall Hf Hb Hmcu. pose proof (burst_framed _ _ Hb) as Hfr. rewrite <-Hmcu in Hfr.
  destruct (exec_mailbox_returns fuel f fa busy m payload resp s Hcall Hfr Hf) as (r & s' & Heq & _ & Hi & Hr).
  destruct Hr as [Hr|[-> Hr]]; [|by exists SPIPROXY_ETIMEDOUT, s'; split_and!; [..|right]].
  rewrite Hmcu, burst_reference in Hr by done. destruct Hr as (resp' & -> & ->).
  exists SPIPROXY_ECRC, s'. split_and!; [|done|by left]. rewrite Heq. cbn [length app].
  by rewrite Nat.add_0_r, take_drop; destruct m.
Qed.

End Corrupted.
