(* ===== verification/Retain.v ===== *)
(** * Registers keep what is written

    After the frame of a write, nothing the daemon does to finish the request
    (op log, lint, event log, statistics, the answer) touches a register: the
    register still holds the value when the request has been answered.  Neither
    does a register request touch the claim or the mailbox flag. *)
From stdpp Require Import relations.
From S2P Require Import Prelude Bytes Proto Fmt State Queue Log Spi Exec OpSpec Mailbox Daemon Invariant.
From S2P Require Import Handlers Atomic MainLoop RequestSpec Calm MailboxSpec.

Section Retain.
Context {W : Type} {WW : World W} {WO : WorldOk W WW} {RG : Regs} {RO : RegsOk RG}
  {CH : PipelinedChip W WW} {SC : StorageChip W WW CH}.
Implicit Types (s : st W).

(** The chip holds the value an operation wrote. *)
Definition holds_op (w : W) (o : op) : Prop :=
  chip_reg w (op_slice o) (op_mmd o) (op_reg o) = op_val o.

(** The register is plain storage: it keeps what is written, and nothing but a
    write changes it. *)
Definition plain_reg (o : op) : Prop := chip_storage (op_slice o) (op_mmd o) (op_reg o) = true.

#[export] Instance plain_reg_dec o : Decision (plain_reg o).
Proof. unfold plain_reg. apply _. Defined.

Lemma wp_any {A} (m : D W A) s : wp (fun _ => True) m (fun _ _ => True) s.
Proof. unfold wp. by destruct (m s) as [[]|]. Qed.

Lemma holds_within {A} P (m : D W A) o s :
  within P m -> plain_reg o -> holds_op (st_w s) o -> wp (fun _ => True) m (fun _ s' => holds_op (st_w s') o) s.
Proof.
  intros Hm Hp H. eapply wp_mono; [apply Hm|]. cbn beta. intros _ s' Hc. unfold holds_op in *.
  by rewrite (calm_regs _ _ _ _ _ _ Hc Hp).
Qed.

Lemma exec_op_stores c o s :
  valid_op o -> is_write o = true -> plain_reg o -> guarded (st_g s) c o = false ->
  wp (fun _ => True) (exec_op c o) (fun r s' => r = (SPIPROXY_OK, o) /\ holds_op (st_w s') o) s.
Proof.
  intros ((Hs & _ & Hm & _ & Hr & _ & Hv) & Hsl & Hmm) Hw Hp Hg. unfold exec_op, guarded in *.
  rewrite (proj2 (Z.leb_gt _ _) Hsl). wp_steps. rewrite Hg. wp_steps. unfold op_transfer. rewrite Hw.
  cbn [spi_write_reg hw_backend]. unfold is_u8, SLICE_COUNT in *.
  destruct (hw_write_stored (op_slice o) (op_mmd o) (op_reg o) (op_val o) s) as (w' & Heq & Hst); [lia|lia|done..|].
  apply wp_bind. eapply wp_eq; [exact Heq|]. cbn beta. wp_steps. set (s1 := St _ _ _).
  assert (holds_op (st_w s1) o) as H1 by by apply Hst, Hp.
  change (0 =? 0) with true. cbn [whenM]. clearbody s1.
  do 3 (eapply wp_mono; [apply (holds_within any_act _ o s1); [solve_within|done|done]|]; clear dependent s1;
    cbn beta; intros _ s1 H1; wp_steps). done.
Qed.

(** C17: on the chip an admitted operation succeeds; a read returns the value the
    addressed register has at that moment, a write leaves its value in the
    register (if that is plain storage), the bus carries exactly the frames of
    the operation, and the operation becomes the newest entry of the op log, under
    the id of its client. *)
Theorem exec_op_on_chip c o l s :
  ctx_ok (st_g s) -> valid_op o -> (forall i, c = Some i -> (i < MAX_CLIENTS)%nat) ->
  guarded (st_g s) c o = false -> ring_holds (st_g s) l ->
  exists ts s', exec_op c o s = Ok ((SPIPROXY_OK, op_result (st_w s) o), s') /\
    ring_holds (st_g s') (op_entry ts (caller_id (st_g s) c) (op_result (st_w s) o) :: l) /\
    bus (st_out s') = bus (st_out s) ++ op_frames (cf_pad (g_cfg (st_g s))) o /\
    (is_write o = true -> chip_storage (op_slice o) (op_mmd o) (op_reg o) = true ->
       chip_reg (st_w s') (op_slice o) (op_mmd o) (op_reg o) = op_val o).
Proof.
  intros Hc Hv Hi Hg Hr.
  pose proof (exec_op_effect c o l (fun _ => False) (fun r s' => r = (SPIPROXY_OK, op_result (st_w s) o) /\
    exists ts, ring_holds (st_g s') (op_entry ts (caller_id (st_g s) c) (op_result (st_w s) o) :: l) /\
    bus (st_out s') = bus (st_out s) ++ op_frames (cf_pad (g_cfg (st_g s))) o) s Hc Hv Hi Hg Hr) as H.
  pose proof (exec_op_stores c o s Hv) as Hst. unfold wp in H, Hst.
  destruct (exec_op c o s) as [[r s']|]; [|by destruct H; eauto].
  destruct H as (-> & ts & H1 & H2); [by eauto|]. exists ts, s'. do 3 (split; [done|]).
  intros Hw Hp. by apply Hst.
Qed.

(** A WRITE request. *)
Lemma exec_single_stores i c h body s :
  h_len h = Z.of_nat op_size -> (op_size <= length body)%nat ->
  let o := op_set_write 1 (nth_op body 0) in
  valid_op o -> plain_reg o -> guarded (st_g s) (Some c) o = false ->
  wp (fun _ => True) (exec_single i c h body true) (fun _ s' => holds_op (st_w s') o) s.
Proof.
  intros Hlen Hl o Hv Hp Hg. unfold exec_single. rewrite (proj2 (Z.eqb_eq _ _) Hlen). cbn [negb]. wp_steps.
  assert (op_at body 0 = Ok (nth_op body 0)) as -> by (apply (op_at_nth body 0); lia).
  apply rwp_ok. fold o. wp_steps. eapply wp_mono; [by apply exec_op_stores|]. cbn beta. intros [x o'] s1 [[= -> ->] H1].
  apply (holds_within any_act _ o); [solve_within|done|done].
Qed.

End Retain.

(** ** Parts of the state a computation spares *)

(** A part of the environment that only recv, accept and close may change. *)
Record host_part {W X} {WW : World W} (k : W -> X) : Prop := {
  hp_spi w tx : k (fst (w_spi w tx)) = k w;
  hp_clock w : k (fst (w_clock w)) = k w;
  hp_send w fd msg : k (fst (w_send w fd msg)) = k w;
  hp_do w e : (forall fd, e <> EvClose fd) -> k (w_do w e) = k w }.

(** The computation leaves the part [f] of the daemon and the part [k] of the
    environment as they are. *)
Definition spares {W A X Y} (f : glob -> X) (k : W -> Y) (m : D W A) : Prop :=
  forall s, wp (fun _ => True) m (fun _ s' => f (st_g s') = f (st_g s) /\ k (st_w s') = k (st_w s)) s.

Section Spares.
Context {W : Type} {WW : World W} {X Y : Type} (f : glob -> X) (k : W -> Y) (HK : host_part k).

Lemma spares_bind {A B} (m : D W A) (n : A -> D W B) :
  spares f k m -> (forall a, spares f k (n a)) -> spares f k (bindM m n).
Proof.
  intros Hm Hn s. apply wp_bind. eapply wp_mono; [apply Hm|]. cbn. intros a s1 [H1 K1].
  eapply wp_mono; [apply Hn|]. cbn. intros b s2 [H2 K2]. split; congruence.
Qed.
Lemma spares_ret {A} (a : A) : spares f k (returnM a).
Proof. by intros s. Qed.
Lemma spares_fail {A} e : spares f k (failM (A := A) e).
Proof. by intros s. Qed.
Lemma spares_getg : spares f k getg.
Proof. by intros s. Qed.
Lemma spares_setg h : (forall g, f (h g) = f g) -> spares f k (setg h).
Proof. intros H s. apply wp_setg. split; [apply H|done]. Qed.
Lemma spares_lift {A} (r : res A) : spares f k (liftM r).
Proof. intros s. apply wp_lift. by destruct r. Qed.
Lemma spares_ask {A} (h : W -> W * A) : (forall w, k (fst (h w)) = k w) -> spares f k (ask h).
Proof. intros H s. apply wp_ask. intros w' a Hw. split; [done|]. rewrite <-(H (st_w s)). by rewrite Hw. Qed.
Lemma spares_spi tx : spares f k (ask (fun w => w_spi w tx)).
Proof. apply spares_ask. intros w. by apply hp_spi. Qed.
Lemma spares_clock : spares f k (ask w_clock).
Proof. apply spares_ask. intros w. by apply hp_clock. Qed.
Lemma spares_send fd msg : spares f k (ask (fun w => w_send w fd msg)).
Proof. apply spares_ask. intros w. by apply hp_send. Qed.
Lemma spares_emit e : (forall fd, e <> EvClose fd) -> spares f k (emit e).
Proof. intros He s. apply wp_emit. split; [done|by apply hp_do]. Qed.
Lemma spares_note e : spares f k (note e).
Proof. by intros s. Qed.
Lemma spares_stack n : spares f k (stack_array n).
Proof. by intros s. Qed.

End Spares.

Create HintDb spares.
#[export] Hint Resolve spares_ret spares_fail spares_getg spares_lift spares_spi spares_clock spares_send
  spares_emit spares_note spares_stack : spares.
#[export] Hint Extern 1 (forall fd, _ <> EvClose fd) => discriminate : spares.
Ltac solve_spares :=
  repeat first
    [ progress cbn beta iota
    | solve [auto with spares]
    | apply spares_setg; done
    | match goal with |- spares _ _ (bindM _ _) => apply spares_bind; [|intros] end
    | match goal with |- spares _ _ (whenM _ _) => unfold whenM end
    | match goal with |- spares _ _ (match ?x with _ => _ end) => destruct x end ].

(** The claim and the mailbox flag. *)
Definition claim_flag (g : glob) : claim_state * bool := (g_claim g, g_mb_inflight g).

Section Register.
Context {W : Type} {WW : World W} {RG : Regs} {Y : Type} (k : W -> Y) (HK : host_part k).

#[local] Hint Resolve HK : spares.

Lemma spares_lctx_comm : spares claim_flag k lctx_comm.
Proof. unfold lctx_comm, get_client. solve_spares. Qed.
Lemma spares_trace_v priority line : spares claim_flag k (trace_v priority line).
Proof. unfold trace_v. solve_spares. Qed.
Lemma spares_upd_client i f : spares claim_flag k (upd_client i f).
Proof. unfold upd_client. solve_spares. Qed.
#[local] Hint Resolve spares_lctx_comm spares_trace_v spares_upd_client : spares.
Lemma spares_warn_line line : spares claim_flag k (warn_line line).
Proof. unfold warn_line, log_warn, log_msg. solve_spares. Qed.
#[local] Hint Resolve spares_warn_line : spares.

Lemma spares_trace_add c o : spares claim_flag k (trace_add c o).
Proof. unfold trace_add, get_client, now_us. solve_spares. Qed.
Lemma spares_rmw_scan n i now o : spares claim_flag k (rmw_scan n i now o).
Proof. revert i. induction n as [|n IH]; intros i; cbn [rmw_scan]; solve_spares. Qed.
#[local] Hint Resolve spares_trace_add spares_rmw_scan : spares.
Lemma spares_lint_op o : spares claim_flag k (lint_op o).
Proof. unfold lint_op, now_us, lint_page, page_owner_store, lint_cor, lint_rmw. solve_spares. Qed.
Lemma spares_op_log o rc : spares claim_flag k (op_log o rc).
Proof. unfold op_log, log_debug, log_trace. solve_spares. Qed.
#[local] Hint Resolve spares_lint_op spares_op_log : spares.

Lemma spares_op_transfer o : spares claim_flag k (op_transfer o).
Proof.
  unfold op_transfer. cbn [spi_write_reg spi_read_reg hw_backend].
  unfold hw_spi_write_reg, hw_spi_read_reg, ioctl_spi. solve_spares.
Qed.
#[local] Hint Resolve spares_op_transfer : spares.
Lemma spares_exec_op c o : spares claim_flag k (exec_op c o).
Proof. unfold exec_op. solve_spares. Qed.
Lemma spares_send_resp c h x body blen : spares claim_flag k (send_resp c h x body blen).
Proof. unfold send_resp, get_client, log_debug, log_trace. solve_spares. Qed.
#[local] Hint Resolve spares_exec_op spares_send_resp : spares.
Lemma spares_exec_single i c h body write : spares claim_flag k (exec_single i c h body write).
Proof. unfold exec_single, store_body. solve_spares. Qed.

End Register.

(** ** A register request on the chip *)

Section Single.
Context {W : Type} {WW : World W} {WO : WorldOk W WW} {RG : Regs} {RO : RegsOk RG}
  {CH : PipelinedChip W WW} {SC : StorageChip W WW CH}.
Implicit Types (s : st W).

(** All it does: the answer, the frames, and for a write the register's value. *)
Definition single_done (fd : Z) (h : hdr) (write : bool) (o : op) (w : W) s s' : Prop :=
  replied fd (response h SPIPROXY_OK (op_encode (op_result w o))) s s' /\
  bus (st_out s') = bus (st_out s) ++ op_frames (cf_pad (g_cfg (st_g s))) o /\
  claim_flag (st_g s') = claim_flag (st_g s) /\
  (forall Y (k : W -> Y), host_part k -> k (st_w s') = k (st_w s)) /\
  (write = true -> plain_reg o -> holds_op (st_w s') o).

Lemma wp_single_effect qa fa busy i it c cl h body (write : bool) E s :
  inv qa fa busy (st_g s) -> lctx_ok (st_g s) -> pool (g_qs (st_g s)) !! i = Some it ->
  g_cl (st_g s) !! c = Some cl -> hdr_ok h -> length body = SPIPROXY_MSG_MAX -> bytes_ok body ->
  h_len h = Z.of_nat op_size ->
  let o := op_set_write (if write then 1 else 0) (nth_op body 0) in
  valid_op o -> guarded (st_g s) (Some c) o = false ->
  wp E (exec_single i c h body write) (fun _ s' => single_done (c_fd cl) h write o (st_w s) s s') s.
Proof.
  intros I Hlx Hi Hcl Hh Hl Hb Hlen o Hv Hg. pose proof msg_max_big as Hmm.
  assert (wp (fun _ => True) (exec_single i c h body write)
    (fun _ s' => write = true -> plain_reg o -> holds_op (st_w s') o) s) as H3.
  { destruct write; [|eapply wp_mono; [apply wp_any|done]].
    destruct (decide (plain_reg o)) as [Hp|Hn]; [|eapply wp_mono; [apply wp_any|done]].
    eapply wp_mono; [apply exec_single_stores; try done; unfold op_size; lia|]. by cbn beta. }
  eapply (wp_fault_mono (fun e => E e /\ (True /\ True))); [tauto|]. eapply wp_mono.
  - apply wp_and; [by eapply wp_single_on_chip|]. apply wp_and; [apply wp_outcome|exact H3].
  - cbn beta. intros u s' [[H1 H2] [H4 H5]].
    assert (forall Y (k : W -> Y), host_part k -> claim_flag (st_g s') = claim_flag (st_g s) /\ k (st_w s') = k (st_w s)) as Hsp.
    { intros Y k HK. pose proof (spares_exec_single k HK i c h body write s) as H. unfold wp in H. by rewrite H4 in H. }
    split_and!; [done|done|apply (Hsp unit (fun _ => tt)); by split| |done]. intros Y k HK. by apply Hsp.
Qed.

End Single.
