(* ===== verification/Wire.v ===== *)
(** * A client process on the daemon's socket

    The world with one more process in it: the connection it opens waits to be
    accepted, the datagrams it sends wait to be received, and when it exits the
    daemon finds the end of the connection.  Everything else is the world as it
    was, so whatever holds of the chip in the one holds in the other. *)
From stdpp Require Import relations.
From S2P Require Import Prelude Bytes Proto State Log Spi Exec Calm MailboxSpec.

Record wired (W : Type) := Wired {
  wr_host : W;
  wr_pending : option accepted;      (* the connection in the queue of the listening socket *)
  wr_conn : option Z;                (* the daemon's descriptor of the accepted connection *)
  wr_dgrams : list (list Z);         (* sent by the process and not received yet *)
  wr_hup : bool }.                   (* the process has closed its end *)
Arguments Wired {W} wr_host wr_pending wr_conn wr_dgrams wr_hup.
Arguments wr_host {W} w.
Arguments wr_pending {W} w.
Arguments wr_conn {W} w.
Arguments wr_dgrams {W} w.
Arguments wr_hup {W} w.

Section World.
Context {W : Type} {WW : World W}.

Definition set_host (h : W) (w : wired W) : wired W :=
  Wired h (wr_pending w) (wr_conn w) (wr_dgrams w) (wr_hup w).

(** recv on the connection: the oldest datagram at the start of the buffer, the
    rest of which is as it was; 0 at the end of the connection; EAGAIN. *)
Definition wired_recv (w : wired W) (fd : Z) : wired W * (Z * list Z) :=
  if bool_decide (wr_conn w = Some fd) then
    let buf := w_stack (wr_host w) MSG_BUF in
    match wr_dgrams w with
    | m :: rest =>
        let m' := u8 <$> take MSG_BUF m in
        (Wired (wr_host w) (wr_pending w) (wr_conn w) rest (wr_hup w),
         (Z.of_nat (length m'), m' ++ drop (length m') buf))
    | [] => (w, (if wr_hup w then 0 else -1, buf))
    end
  else let '(h, r) := w_recv (wr_host w) fd in (set_host h w, r).

(** The kernel reports the process id as a pid_t. *)
Definition as_pid (z : Z) : Z := (z + 2 ^ 31) mod 2 ^ 32 - 2 ^ 31.

Definition wired_accept (w : wired W) : wired W * option accepted :=
  match wr_pending w with
  | Some a =>
      (Wired (wr_host w) None (Some (ac_fd a)) (wr_dgrams w) (wr_hup w),
       Some (Accepted (ac_fd a) (as_pid (ac_pid a)) (ac_comm_file a)))
  | None => let '(h, r) := w_accept (wr_host w) in (set_host h w, r)
  end.

(** close on the connection ends it. *)
Definition wired_do (w : wired W) (e : event) : wired W :=
  let conn := match e with
              | EvClose fd => if bool_decide (wr_conn w = Some fd) then None else wr_conn w
              | _ => wr_conn w
              end in
  Wired (w_do (wr_host w) e) (wr_pending w) conn (wr_dgrams w) (wr_hup w).

#[export] Instance wired_world : World (wired W) := {|
  w_time w := w_time (wr_host w);
  w_spi w tx := let '(h, r) := w_spi (wr_host w) tx in (set_host h w, r);
  w_clock w := let '(h, r) := w_clock (wr_host w) in (set_host h w, r);
  w_send w fd msg := let '(h, r) := w_send (wr_host w) fd msg in (set_host h w, r);
  w_recv := wired_recv;
  w_accept := wired_accept;
  w_do := wired_do;
  w_undef w := w_undef (wr_host w);
  w_stack w := w_stack (wr_host w) |}.

Lemma as_pid_range z : - 2 ^ 31 <= as_pid z < 2 ^ 31.
Proof. unfold as_pid. pose proof (Z.mod_pos_bound (z + 2 ^ 31) (2 ^ 32) eq_refl). lia. Qed.
Lemma as_pid_id z : - 2 ^ 31 <= z < 2 ^ 31 -> as_pid z = z.
Proof. intros H. unfold as_pid. rewrite Z.mod_small by lia. lia. Qed.

Lemma wired_spi w tx : fst (w_spi w tx) = set_host (fst (w_spi (wr_host w) tx)) w.
Proof. cbn. by destruct (w_spi (wr_host w) tx). Qed.
Lemma wired_clock w : fst (w_clock w) = set_host (fst (w_clock (wr_host w))) w.
Proof. cbn. by destruct (w_clock (wr_host w)). Qed.
Lemma wired_send w fd msg : fst (w_send w fd msg) = set_host (fst (w_send (wr_host w) fd msg)) w.
Proof. cbn. by destruct (w_send (wr_host w) fd msg). Qed.

#[export] Instance wired_world_ok {WO : WorldOk W WW} : WorldOk (wired W) wired_world.
Proof.
  split; cbn [w_time w_spi w_clock w_send w_recv w_accept w_do w_undef w_stack wired_world].
  - intros w tx. pose proof (w_spi_rx (wr_host w) tx) as H. by destruct (w_spi (wr_host w) tx).
  - intros w fd. unfold wired_recv. case_bool_decide.
    + destruct (w_stack_bytes (wr_host w) MSG_BUF) as [Hl Hb]. destruct (wr_dgrams w) as [|m rest]; cbn [snd].
      { split; [destruct (wr_hup w); lia|done]. }
      set (m' := u8 <$> _). assert (length m' <= MSG_BUF)%nat as Hm by (unfold m'; rewrite length_fmap, length_take; lia).
      change MSG_BUF with (Z.to_nat 4108) in *. split; [lia|]. split; [rewrite length_app, length_drop; lia|].
      apply bytes_ok_app; [|auto with spid]. apply Forall_fmap, Forall_true. intros. apply u8_range.
    + pose proof (w_recv_buf (wr_host w) fd) as H1. by destruct (w_recv (wr_host w) fd) as [h [n buf]].
  - intros w a. unfold wired_accept. destruct (wr_pending w) as [b|]; cbn [snd].
    + intros [= <-]. apply as_pid_range.
    + pose proof (w_accept_pid (wr_host w) a) as H. by destruct (w_accept (wr_host w)).
  - intros w. apply w_undef_u32.
  - intros w. apply w_time_range.
  - intros w. pose proof (w_clock_reads (wr_host w)) as H. by destruct (w_clock (wr_host w)) as [h [sec nsec]].
  - intros w tx. pose proof (w_spi_time (wr_host w) tx) as H. by destruct (w_spi (wr_host w) tx).
  - intros w fd msg. pose proof (w_send_time (wr_host w) fd msg) as H. by destruct (w_send (wr_host w) fd msg).
  - intros w e. apply w_do_time.
  - intros w us. apply w_usleep_time.
  - intros w n. apply w_stack_bytes.
Qed.

(** ** The chip behind it *)

#[export] Instance wired_chip {CH : PipelinedChip W WW} : PipelinedChip (wired W) wired_world.
Proof.
  refine {| chip_reg w := chip_reg (wr_host w); chip_storage := chip_storage; chip_latch w := chip_latch (wr_host w) |}.
  - intros w. apply chip_latch_u32.
  - intros w tx f Hb Hf. destruct (chip_transfer (wr_host w) tx f Hb Hf) as (h & rc & b0 & b1 & b2 & rest & Hx & H).
    exists (set_host h w), rc, b0, b1, b2, rest. cbn [w_spi wired_world]. by rewrite Hx.
Defined.

(** A step is a step of the world behind, or none of it. *)
Lemma wired_step w a w' : calm_step w a w' -> wr_host w' = wr_host w \/ calm_step (wr_host w) a (wr_host w').
Proof.
  destruct 1 as [tx f Hb Hf Hw|e He|us| |fd msg|e He|fd|].
  - right. rewrite wired_spi. by econstructor.
  - right. by constructor.
  - right. constructor.
  - right. rewrite wired_clock. constructor.
  - right. rewrite wired_send. constructor.
  - right. by constructor.
  - cbn [w_recv wired_world]. unfold wired_recv. case_bool_decide; [left; by destruct (wr_dgrams w)|right].
    pose proof (calm_recv (wr_host w) fd) as H1. by destruct (w_recv (wr_host w) fd).
  - cbn [w_accept wired_world]. unfold wired_accept. destruct (wr_pending w); [by left|right].
    pose proof (calm_accept (wr_host w)) as H1. by destruct (w_accept (wr_host w)).
Qed.

Lemma wired_by_acts (P : act -> bool) w w' : by_acts P w w' -> by_acts P (wr_host w) (wr_host w').
Proof.
  induction 1 as [|w w1 w2 (a & Ha & Hs) _ IH]; [reflexivity|]. apply wired_step in Hs as [<-|Hs]; [done|].
  etrans; [by apply (by_acts_once P a)|done].
Qed.

#[export] Instance wired_storage {CH : PipelinedChip W WW} {SC : StorageChip W WW CH} :
  StorageChip (wired W) wired_world wired_chip.
Proof.
  split; cbn [chip_reg chip_storage wired_chip].
  - intros w. exact (sc_reg_u32 (W := W) (wr_host w)).
  - intros w w' s m r (a & Hs) Hr. apply wired_step in Hs as [->|Hs]; [done|]. apply sc_keeps; [by exists a|done].
  - intros w tx f s m r Hb Hf Hw Hst Hne Hr. rewrite wired_spi. by eapply sc_write_keeps.
Qed.

#[export] Instance wired_mailbox {CH : PipelinedChip W WW} {MC : MailboxChip W WW CH} :
  MailboxChip (wired W) wired_world wired_chip.
Proof.
  refine {| mc_store := wired_storage; mc_mcu := mc_mcu; mc_serves w := mc_serves (wr_host w) |}.
  - exact (mc_storage (W := W)).
  - intros w tx slice req n Hb Hf Hl Hn Hw. rewrite wired_spi. by eapply (mc_doorbell (W := W)).
  - intros w w' slice req (a & Hs) H. apply wired_step in Hs as [->|Hs]; [done|].
    eapply (mc_serves_calm (W := W)); [by exists a|done].
  - intros w. exact (mc_answer (W := W) (wr_host w)).
  - intros w w' slice req (a & Hs) H Hf. apply wired_step in Hs as [He|Hs].
    + unfold answered_flag, mb_reg in *. cbn [chip_reg wired_chip] in *. by rewrite He.
    + eapply (mc_answer_stays (wr_host w) (wr_host w') slice req); [by exists a|done..].
Defined.

(** A timeout there is a timeout here. *)
Lemma wired_timed_out {CH : PipelinedChip W WW} {MC : MailboxChip W WW CH} m req w w' :
  timed_out m req w w' -> timed_out m req (wr_host w) (wr_host w').
Proof.
  intros (w1 & w2 & tx & Hs & Hf & Hb & Ht & Hx & Hc). exists (wr_host w1), (wr_host w2), tx.
  split; [done|]. split; [done|]. split; [by apply wired_by_acts|]. split; [done|]. split; [done|].
  apply wired_by_acts in Hc. by rewrite wired_spi in Hc.
Qed.

(** ** What the daemon does to the connection *)

(** Nothing but recv and accept takes from it. *)
Lemma wired_dgrams (P : act -> bool) w w' :
  P ActSock = false -> by_acts P w w' -> wr_dgrams w' = wr_dgrams w /\ wr_hup w' = wr_hup w.
Proof.
  intros HP. induction 1 as [|w w1 w2 (a & Ha & Hs) _ IH]; [done|]. destruct IH as [-> ->].
  destruct Hs; rewrite ?wired_spi, ?wired_clock, ?wired_send; try done; congruence.
Qed.

(** Log lines and looks at the clock do not touch it at all. *)
Lemma wired_diary w w' : by_acts diary w w' -> w' = set_host (wr_host w') w.
Proof.
  induction 1 as [w|w w1 w2 (a & Ha & Hs) _ IH]; [by destruct w|]. rewrite IH.
  destruct Hs as [| e He | | | | | |]; try done; [by destruct e|]. rewrite wired_clock. done.
Qed.

End World.
