(* ===== verification/Sim.v ===== *)
(** * A simulated environment

    A concrete chip with delayed reads and a clear-on-read counter, a mailbox whose MCU echoes every
    request, a clock, and scripted datagrams: it satisfies every hypothesis on
    the environment, so the theorems of the development apply to it. *)
From S2P Require Import Prelude Bytes Proto Fmt State Log Spi Exec Calm MailboxSpec.

Record sim := Sim {
  sm_regs : list (Z * Z * Z * Z);      (* writes, newest first: slice, mmd, reg, value *)
  sm_latch : Z;                        (* answer to the previous request *)
  sm_time : N;
  sm_inbox : list (list Z);            (* datagrams still to be received *)
  sm_conns : list accepted }.          (* connections still to be accepted *)

(** Last value written to a register, 0 before that. *)
Fixpoint reg_lookup (l : list (Z * Z * Z * Z)) (slice mmd reg : Z) : Z :=
  match l with
  | [] => 0
  | (s, m, r, v) :: l' =>
      if (s =? slice) && (m =? mmd) && (r =? reg) then v else reg_lookup l' slice mmd reg
  end.

Definition sim_reg (w : sim) (slice mmd reg : Z) : Z := u32 (reg_lookup (sm_regs w) slice mmd reg).

(** The MCU answers a doorbell at once with the request itself, except for a
    command over a noisy line, whose answer always arrives with one bit of its
    second data byte flipped. *)
Definition NOISY_CMD : Z := 0x7f.
Definition noisy_packet : list Z := [0x10; 0xff; 9; 0; 0xaa; 0xba; 0xcc; 28; 154].
Definition noisy_words (slice : Z) : list (Z * Z * Z * Z) :=
  (fun '(i, v) => (slice, LAN80XX_MMD_GLOBAL, MB_RESP_ADDR + i, v)) <$>
    [(0, 0x0009ff10); (1, 0x1cccbaaa); (2, 0x9a)].

Definition mcu_echo (regs : list (Z * Z * Z * Z)) (slice : Z) : list (Z * Z * Z * Z) :=
  (slice, LAN80XX_MMD_GLOBAL, MB_FLAG, MB_F_RESP) ::
  ((fun i => (slice, LAN80XX_MMD_GLOBAL, MB_RESP_ADDR + Z.of_nat i,
              reg_lookup regs slice LAN80XX_MMD_GLOBAL (MB_CMD_ADDR + Z.of_nat i))) <$> seq 0 256) ++ regs.

Definition sim_noisy (regs : list (Z * Z * Z * Z)) (slice : Z) : bool :=
  u32 (reg_lookup regs slice LAN80XX_MMD_GLOBAL MB_CMD_ADDR) mod 256 =? NOISY_CMD.

Definition mcu_answer (regs : list (Z * Z * Z * Z)) (slice : Z) : list (Z * Z * Z * Z) :=
  (if sim_noisy regs slice then noisy_words slice else []) ++ mcu_echo regs slice.

Definition sim_mcu (req : list Z) : list Z :=
  if bool_decide (req !! 0%nat = Some NOISY_CMD) then noisy_packet else req.

Definition is_flag (mmd reg : Z) : bool := (mmd =? LAN80XX_MMD_GLOBAL) && (reg =? MB_FLAG).

Definition sim_write (regs : list (Z * Z * Z * Z)) (slice mmd reg val : Z) : list (Z * Z * Z * Z) :=
  if is_flag mmd reg then
    if val =? MB_SET_REQ then mcu_answer regs slice else (slice, mmd, reg, 0) :: regs
  else (slice, mmd, reg, val) :: regs.

(** A counter that a read clears. *)
Definition is_counter (mmd reg : Z) : bool := (mmd =? LAN80XX_MMD_HOST_PCS) && (reg =? 0x21).

Definition sim_read (regs : list (Z * Z * Z * Z)) (slice mmd reg : Z) : list (Z * Z * Z * Z) :=
  if is_counter mmd reg then (slice, mmd, reg, 0) :: regs else regs.

Definition latch_bytes (v : Z) : list Z :=
  [0; 0; 0; u8 (Z.shiftr v 24); u8 (Z.shiftr v 16); u8 (Z.shiftr v 8); u8 v] ++ replicate 15 0.

Definition sim_spi (w : sim) (tx : list Z) : sim * (Z * list Z) :=
  match frame_decode tx with
  | None => (w, (-1, replicate 22 0))
  | Some f =>
      let regs := if fr_write f then sim_write (sm_regs w) (fr_slice f) (fr_mmd f) (fr_reg f) (fr_data f)
                  else sim_read (sm_regs w) (fr_slice f) (fr_mmd f) (fr_reg f) in
      let latch := if fr_write f then 0 else sim_reg w (fr_slice f) (fr_mmd f) (fr_reg f) in
      (Sim regs latch (sm_time w) (sm_inbox w) (sm_conns w),
       (Z.of_nat (length tx), latch_bytes (u32 (sm_latch w))))
  end.

Definition sim_now (w : sim) : Z :=
  if (Z.of_N (sm_time w) <? 2 ^ 63) then Z.of_N (sm_time w) else TIME_MAX.

Definition sim_do (w : sim) (e : event) : sim :=
  match e with
  | EvUsleep us => Sim (sm_regs w) (sm_latch w) (sm_time w + Z.to_N us) (sm_inbox w) (sm_conns w)
  | _ => w
  end.

(** A datagram lands at the start of the receive buffer. *)
Definition sim_recv (w : sim) (fd : Z) : sim * (Z * list Z) :=
  match sm_inbox w with
  | [] => (w, (0, replicate (Z.to_nat 4108) 0))
  | m :: rest =>
      let m' := u8 <$> take (Z.to_nat 4108) m in
      (Sim (sm_regs w) (sm_latch w) (sm_time w) rest (sm_conns w),
       (Z.of_nat (length m'), m' ++ replicate (Z.to_nat 4108 - length m') 0))
  end.

Definition sim_accept (w : sim) : sim * option accepted :=
  match sm_conns w with
  | [] => (w, None)
  | a :: rest =>
      (Sim (sm_regs w) (sm_latch w) (sm_time w) (sm_inbox w) rest,
       Some (Accepted (ac_fd a) (ac_pid a mod 2 ^ 31) (ac_comm_file a)))
  end.

#[export] Instance sim_world : World sim := {|
  w_time := sim_now;
  w_spi := sim_spi;
  w_clock w := (w, (sim_now w / USEC_PER_SEC, sim_now w mod USEC_PER_SEC * 1000));
  w_send w fd msg := (w, Z.of_nat (length msg));
  w_recv := sim_recv;
  w_accept := sim_accept;
  w_do := sim_do;
  w_undef w := 0xdeadbeef;
  w_stack w n := replicate n 0xa5 |}.

Lemma latch_bytes_ok v : length (latch_bytes v) = 22%nat /\ bytes_ok (latch_bytes v).
Proof.
  split; [done|]. unfold latch_bytes. apply bytes_ok_app; [|apply Forall_replicate; unfold is_u8; lia].
  repeat (constructor; [apply u8_range || (unfold is_u8; lia)|]). constructor.
Qed.

Lemma sim_now_mono w w' : (sm_time w <= sm_time w')%N -> sim_now w <= sim_now w'.
Proof. intros H. unfold sim_now, TIME_MAX. repeat case_match; lia. Qed.

#[export] Instance sim_world_ok : WorldOk sim sim_world.
Proof.
  split; cbn [w_time w_spi w_clock w_send w_recv w_accept w_do w_undef w_stack sim_world].
  - intros w tx. unfold sim_spi. destruct (frame_decode tx); cbn [fst snd]; [apply latch_bytes_ok|].
    split; [done|]. apply Forall_replicate. unfold is_u8. lia.
  - intros w fd. unfold sim_recv. destruct (sm_inbox w) as [|m rest]; cbn [snd].
    + split; [lia|]. split; [apply length_replicate|]. apply Forall_replicate. unfold is_u8. lia.
    + set (m' := u8 <$> _). assert (length m' <= Z.to_nat 4108)%nat as Hl
        by (unfold m'; rewrite length_fmap, length_take; lia).
      split; [lia|]. split; [rewrite length_app, length_replicate; lia|].
      apply bytes_ok_app; [|apply Forall_replicate; unfold is_u8; lia].
      apply Forall_fmap, Forall_true. intros. apply u8_range.
  - intros w a. unfold sim_accept. destruct (sm_conns w) as [|b rest]; cbn [snd]; [done|].
    intros [= <-]. cbn [ac_pid]. pose proof (Z.mod_pos_bound (ac_pid b) (2 ^ 31) eq_refl). lia.
  - intros w. unfold is_u32. lia.
  - intros w. unfold sim_now, TIME_MAX. case_match; lia.
  - intros w. assert (0 <= sim_now w) by (unfold sim_now, TIME_MAX; case_match; lia).
    unfold USEC_PER_SEC. split; [dlia|]. split; [dlia|]. split; [done|].
    rewrite Z.div_mul by lia. dlia.
  - intros w tx. apply sim_now_mono. unfold sim_spi. by destruct (frame_decode tx).
  - intros w fd msg. done.
  - intros w e. apply sim_now_mono. destruct e; cbn; lia.
  - intros w us Hus. unfold sim_now, sim_do, TIME_MAX. cbn [sm_time]. rewrite N2Z.inj_add, Z2N.id by done.
    destruct (Z.ltb_spec (Z.of_N (sm_time w)) (2 ^ 63)), (Z.ltb_spec (Z.of_N (sm_time w) + us) (2 ^ 63)); lia.
  - intros w n. split; [apply length_replicate|]. apply Forall_replicate. unfold is_u8. lia.
Qed.

(** Registers of the simulated build. *)
#[export] Instance sim_regs : Regs := {|
  LAN80XX_MCU_IO_MNGT_MISC_DEVICE_ID_REG := 0x0;
  LAN80XX_MCU_IO_MNGT_MISC_DEVICE_SILICON_REVISION_REG := 0x1;
  LAN80XX_MCU_IO_MNGT_MISC_DEVICE_FEATURE_DISABLE_REG := 0x2;
  LAN80XX_HOST_PCS25G_STATUS1 := 0x1;
  LAN80XX_HOST_PCS25G_BASER_STATUS1 := 0x20;
  LAN80XX_HOST_PCS25G_BASER_STATUS2 := 0x21;
  LAN80XX_LINE_PCS25G_STATUS1 := 0x1 |}.

#[export] Instance sim_regs_ok : RegsOk sim_regs.
Proof. split. unfold is_u16. cbn. lia. Qed.

Lemma frame_decode_ranges tx f : bytes_ok tx -> frame_decode tx = Some f -> is_u32 (fr_data f).
Proof.
  destruct tx as [|b0 [|b1 [|b2 [|d3 [|d4 [|d5 [|d6 rest]]]]]]]; try done.
  intros Hb [= <-]. unfold bytes_ok in Hb. rewrite !Forall_cons in Hb. unfold is_u8 in Hb.
  cbn. unfold is_u32. lia.
Qed.

#[export] Instance sim_chip : PipelinedChip sim sim_world.
Proof.
  refine {| chip_reg := sim_reg; chip_storage s m r := negb (is_flag m r) && negb (is_counter m r);
            chip_latch w := u32 (sm_latch w) |}.
  - intros w. apply u32_range.
  - intros w tx f Hb Hf. cbn [w_spi sim_world]. unfold sim_spi. rewrite Hf.
    eexists _, _, 0, 0, 0, _. split; [reflexivity|]. split.
    { destruct tx; [done|]. cbn [length]. lia. }
    destruct (fr_write f).
    + intros [Hst%negb_true_iff _]%andb_true_iff. unfold sim_reg, sim_write. cbn [sm_regs]. rewrite Hst.
      cbn [reg_lookup]. rewrite !Z.eqb_refl. cbn. apply u32_id. by eapply frame_decode_ranges.
    + cbn [sm_latch]. unfold sim_reg. rewrite u32_id; [done|apply u32_range].
Defined.

(** ** The echoing MCU *)

Lemma sim_calm w w' sl m r : calm1 w w' -> is_counter m r = false -> sim_reg w' sl m r = sim_reg w sl m r.
Proof.
  unfold sim_reg. intros (a & Hs) Hc. destruct Hs as [tx f _ Hf Hw|e He|us| |fd msg|e He|fd|];
    cbn [w_spi w_do w_clock w_send w_recv w_accept sim_world]; try done; try by destruct e.
  - unfold sim_spi. rewrite Hf, Hw. cbn [fst sm_regs]. unfold sim_read.
    destruct (is_counter (fr_mmd f) (fr_reg f)) eqn:Hf'; [|done]. cbn [reg_lookup].
    destruct (Z.eqb_spec (fr_mmd f) m), (Z.eqb_spec (fr_reg f) r); rewrite ?andb_false_r; try done. congruence.
  - unfold sim_recv. by destruct (sm_inbox w).
  - unfold sim_accept. by destruct (sm_conns w).
Qed.

(** The doorbell copies the command window. *)
Lemma echo_lookup regs slice (f : nat -> Z) i k n :
  (k <= i < k + n)%nat ->
  reg_lookup (((fun i => (slice, LAN80XX_MMD_GLOBAL, MB_RESP_ADDR + Z.of_nat i, f i)) <$> seq k n) ++ regs)
    slice LAN80XX_MMD_GLOBAL (MB_RESP_ADDR + Z.of_nat i) = f i.
Proof.
  revert k. induction n as [|n IH]; intros k Hk; [lia|]. cbn [seq fmap list_fmap app reg_lookup].
  rewrite !Z.eqb_refl. cbn [andb]. destruct (Z.eqb_spec (MB_RESP_ADDR + Z.of_nat k) (MB_RESP_ADDR + Z.of_nat i)).
  - by replace k with i by lia.
  - apply IH. lia.
Qed.

Lemma echo_word regs slice i :
  (i < 256)%nat ->
  reg_lookup (mcu_echo regs slice) slice LAN80XX_MMD_GLOBAL (MB_RESP_ADDR + Z.of_nat i) =
  reg_lookup regs slice LAN80XX_MMD_GLOBAL (MB_CMD_ADDR + Z.of_nat i).
Proof.
  intros Hi. unfold mcu_echo. cbn [reg_lookup]. rewrite !Z.eqb_refl. cbn [andb].
  destruct (Z.eqb_spec MB_FLAG (MB_RESP_ADDR + Z.of_nat i)) as [H|_].
  { unfold MB_FLAG, MB_RESP_ADDR in H. lia. }
  apply (echo_lookup regs slice (fun i => reg_lookup regs slice LAN80XX_MMD_GLOBAL (MB_CMD_ADDR + Z.of_nat i))). lia.
Qed.

(** What the answer window holds. *)
Lemma answer_flagged w w' slice : sm_regs w' = mcu_answer (sm_regs w) slice -> answered_flag w' slice = true.
Proof.
  intros Hr. unfold answered_flag, mb_reg. cbn [chip_reg sim_chip]. unfold sim_reg. rewrite Hr.
  unfold mcu_answer. destruct (sim_noisy (sm_regs w) slice);
    cbn [noisy_words fmap list_fmap app mcu_echo reg_lookup]; rewrite !Z.eqb_refl; done.
Qed.

Lemma request_head w slice req n :
  take (length req) (window w slice MB_CMD_ADDR n) = req -> req <> [] ->
  req !! 0%nat = Some (u32 (reg_lookup (sm_regs w) slice LAN80XX_MMD_GLOBAL MB_CMD_ADDR) mod 256).
Proof.
  intros Hw Hne. assert (0 < length req)%nat as Hl by (destruct req; cbn; [done|lia]).
  rewrite <-Hw, lookup_take_lt by done. destruct n as [|n]; [by rewrite <-Hw in Hne; destruct (length req)|].
  unfold window. cbn [seq mbind list_bind]. rewrite Z.add_0_r. done.
Qed.

Lemma noisy_window w w' slice :
  sm_regs w' = mcu_answer (sm_regs w) slice -> sim_noisy (sm_regs w) slice = true ->
  take (length noisy_packet) (window w' slice MB_RESP_ADDR 256) = noisy_packet.
Proof.
  intros Hr Hn. unfold mcu_answer in Hr. rewrite Hn in Hr.
  assert (take (length noisy_packet) (window w' slice MB_RESP_ADDR 3) =
    take (length noisy_packet) (window w' slice MB_RESP_ADDR 256)) as <-.
  { rewrite (window_take w' slice MB_RESP_ADDR 3 256) by lia. by rewrite take_take. }
  unfold window, mb_reg. cbn [seq mbind list_bind chip_reg sim_chip]. unfold sim_reg. rewrite Hr.
  cbn [noisy_words fmap list_fmap app reg_lookup]. rewrite !Z.eqb_refl. reflexivity.
Qed.

Lemma echo_window w w' slice req n :
  sm_regs w' = mcu_echo (sm_regs w) slice -> (n <= 256)%nat ->
  take (length req) (window w slice MB_CMD_ADDR n) = req ->
  take (length req) (window w' slice MB_RESP_ADDR 256) = req.
Proof.
  intros Hregs Hn Hw. rewrite <-Hw at 2. assert (length req <= 4 * n)%nat as Hle.
  { rewrite <-Hw, length_take, length_window. lia. }
  rewrite (window_take w slice MB_CMD_ADDR n 256), take_take, Nat.min_l by lia. f_equal.
  apply window_ext. intros i Hi. unfold mb_reg. cbn [chip_reg sim_chip]. unfold sim_reg.
  rewrite Hregs. by rewrite echo_word.
Qed.

Definition sim_serves (w : sim) (slice : Z) (req : list Z) : Prop :=
  answered_flag w slice = true /\
  take (length (sim_mcu req)) (window w slice MB_RESP_ADDR 256) = sim_mcu req.

Lemma sim_serves_calm w w' slice req : calm1 w w' -> sim_serves w slice req -> sim_serves w' slice req.
Proof.
  intros Hc [Hf Hw]. split.
  - unfold answered_flag, mb_reg in *. cbn [chip_reg sim_chip] in *. by rewrite (sim_calm _ _ _ _ _ Hc).
  - rewrite <-Hw at 2. f_equal. apply window_ext. intros i _. by apply (sim_calm _ _ _ _ _ Hc).
Qed.

#[export] Instance sim_storage : StorageChip sim sim_world sim_chip.
Proof.
  split.
  - intros. apply u32_range.
  - intros w w' s m r Hc [_ Hn%negb_true_iff]%andb_true_iff. exact (sim_calm _ _ _ _ _ Hc Hn).
  - intros w tx f s m r _ Hf Hw [Hst%negb_true_iff _]%andb_true_iff Hne _.
    cbn [chip_reg sim_chip w_spi sim_world]. unfold sim_spi, sim_reg. rewrite Hf, Hw. cbn [fst sm_regs].
    unfold sim_write. rewrite Hst. cbn [reg_lookup].
    destruct (Z.eqb_spec (fr_slice f) s), (Z.eqb_spec (fr_mmd f) m), (Z.eqb_spec (fr_reg f) r); cbn [andb]; congruence.
Qed.

(** A read of the counter clears it; the class does not ask it to stay. *)
Example counter_cleared :
  let w := Sim [(1, LAN80XX_MMD_HOST_PCS, 0x21, 7)] 0 0 [] [] in
  let w' := fst (w_spi w (take SPI_BYTES (spi_fill false (spi_addr 1 LAN80XX_MMD_HOST_PCS 0x21) 0))) in
  chip_reg w 1 LAN80XX_MMD_HOST_PCS 0x21 = 7 /\ chip_reg w' 1 LAN80XX_MMD_HOST_PCS 0x21 = 0 /\
  chip_latch w' = 7.
Proof. vm_compute. done. Qed.

#[export] Instance sim_mailbox : MailboxChip sim sim_world sim_chip.
Proof.
  refine {| mc_store := sim_storage; mc_mcu := sim_mcu; mc_serves := sim_serves |}.
  - intros slice reg H. cbn [chip_storage sim_chip]. unfold is_flag.
    rewrite (proj2 (Z.eqb_neq reg MB_FLAG)); [by rewrite andb_false_r|].
    unfold MB_CMD_ADDR, MB_RESP_ADDR, MB_MCU_MASK, MB_FLAG in *. lia.
  - intros w tx slice req n _ Hf Hlen Hn Hw. cbn [w_spi sim_world]. unfold sim_spi. rewrite Hf.
    cbn [fst fr_write fr_slice fr_mmd fr_reg fr_data]. set (w' := Sim _ _ _ _ _).
    assert (sm_regs w' = mcu_answer (sm_regs w) slice) as Hregs by done.
    split; [by apply (answer_flagged w)|]. destruct (decide (req = [])) as [->|Hne]; [done|].
    unfold sim_mcu. rewrite (request_head w slice req n Hw Hne).
    destruct (sim_noisy (sm_regs w) slice) eqn:Hnz.
    + rewrite bool_decide_eq_true_2 by (apply Z.eqb_eq in Hnz; by rewrite <-Hnz).
      by apply (noisy_window w).
    + rewrite bool_decide_eq_false_2 by (apply Z.eqb_neq in Hnz; by intros [=]).
      apply (echo_window w w' slice req n); [|done..]. unfold mcu_answer in Hregs. by rewrite Hnz in Hregs.
  - exact sim_serves_calm.
  - intros w slice req [_ Hw] _. exact Hw.
  - intros w w' slice req Hc Hs _. apply (sim_serves_calm w w' slice req Hc Hs).
Defined.
