(* ===== verification/Main.v ===== *)
(** * Start-up ([main] of lan80xx_spid.c)

    Option parsing, the initial state, the search for the reset line, the
    start-up sequence, and the main loop as a transition system. *)
From S2P Require Import Prelude Bytes Proto Fmt ParseUint State Queue Log Spi Exec Mailbox Daemon.
From S2P Require Import Invariant Handlers Scheduler MainLoop.

(** ** The command line *)

(** What [getopt] reports; any other letter is [OptHelp]. *)
Inductive opt :=
| OptDev (arg : string)     (* -d *)
| OptSock (arg : string)    (* -s *)
| OptPad (arg : string)     (* -p *)
| OptFreq (arg : string)    (* -f *)
| OptReset (arg : string)   (* -r *)
| OptLog (arg : string)     (* -L *)
| OptHelp.

Definition INT_MAX : Z := 2 ^ 31 - 1.

(** [g.dev] may be NULL until -d is seen. *)
Record settings := Settings { se_dev : option string; se_cfg : config }.

Definition default_settings : settings :=
  Settings None (Config "" SPIPROXY_SOCK 1 5000000 None (-1) false false).

Definition set_cfg (f : config -> config) (s : settings) : settings :=
  Settings (se_dev s) (f (se_cfg s)).

(** One option; [None] is the early [return EXIT_FAILURE].  [fopens] tells
    whether the log file can be created. *)
Definition take_option (fopens : string -> bool) (s : settings) (o : opt) : option settings :=
  match o with
  | OptDev a => Some (Settings (Some a) (se_cfg s))
  | OptSock a => Some (set_cfg (set_cf_sock (fun _ => a)) s)
  | OptPad a => v ← parse_uint a 10 0 SPI_PAD_MAX; Some (set_cfg (set_cf_pad (fun _ => v)) s)
  | OptFreq a => v ← parse_uint a 10 1 INT_MAX; Some (set_cfg (set_cf_freq (fun _ => v)) s)
  | OptReset a => Some (set_cfg (set_cf_rst_line (fun _ => Some a)) s)
  | OptLog a =>
      if bool_decide (a = "-"%string) || fopens a
      then Some (set_cfg (set_cf_log (fun _ => true)) s) else None
  | OptHelp => None
  end.

Fixpoint take_options (fopens : string -> bool) (s : settings) (l : list opt) : option settings :=
  match l with
  | [] => Some s
  | o :: l' => s' ← take_option fopens s o; take_options fopens s' l'
  end.

(** The configuration the daemon starts with; [log_open] hands the log file to
    log.c. *)
Definition daemon_config (fopens : string -> bool) (l : list opt) : option config :=
  s ← take_options fopens default_settings l;
  d ← se_dev s;
  Some (set_cf_trace (fun _ => cf_log (se_cfg s)) (set_cf_dev (fun _ => d) (se_cfg s))).

(** ** The initial state *)

Definition zero_client : client := Client 0 false 0 0 "" 0 0 0.
Definition zero_op : op := Op 0 0 0 0 0 0 0.
Definition zero_trace : trace_ent := TraceEnt 0 0 0 0 0 0 0.
Definition zero_lint : lint_state :=
  LintState (replicate (Z.to_nat SLICE_COUNT) (replicate SIDE_COUNT (Owner 0 "")))
    (replicate SIDE_COUNT (Cor 0 "" 0)) (replicate RD_RING_COUNT (RdEnt 0 0 0 0 "" 0)) 0.

(** Static storage is zero; the free list is linked. *)
Definition init_glob (cf : config) : glob :=
  Glob cf (replicate MAX_CLIENTS zero_client) 0 init_qs
    (ClaimState None 0 (replicate SPIPROXY_BATCH_MAX zero_op) 0) false
    (replicate TRACE_RING zero_trace) 0 (Counters 0 0 0 0) (LogCtx 0 CommNull 0 "") zero_lint false.

(** ** The reset line *)

(** What the GPIO character devices answer: the chip's label, the names of its
    lines (an ioctl that fails gives none), the descriptor of a line request. *)
Record gpiochip := Gpiochip {
  gc_name : string;
  gc_lines : list (option string);
  gc_request : nat -> option Z }.

Section Main.
Context {W : Type} {WW : World W} {RG : Regs} {BE : Backend W}.

(** First line of a chip with that name. *)
Fixpoint find_line (lines : list (option string)) (name : string) (off : nat) : option nat :=
  match lines with
  | [] => None
  | l :: lines' =>
      if bool_decide (l = Some name) then Some off else find_line lines' name (S off)
  end.

(** The chips from [/dev/gpiochip<k>] on, [n] of them left. *)
Fixpoint gpio_scan (n k : nat) (chips : nat -> option gpiochip) (name : string) : D W Z :=
  match n with
  | O => returnM (-1)
  | S n' =>
      match chips k with
      | None => gpio_scan n' (S k) chips name
      | Some ch =>
          match find_line (gc_lines ch) name 0 with
          | None => gpio_scan n' (S k) chips name
          | Some off =>
              match gc_request ch off with
              | Some fd =>
                  if 0 <=? fd then
                    log_always ("reset GPIO '" +:+ name +:+ "' = " +:+ gc_name ch +:+ " line " +:+
                                dec (Z.of_nat off)) ;;
                    returnM fd
                  else gpio_scan n' (S k) chips name
              | None => gpio_scan n' (S k) chips name
              end
          end
      end
  end.

Definition gpio_open_line_by_name (chips : nat -> option gpiochip) (name : string) : D W Z :=
  let* fd := gpio_scan 64 0 chips name in
  whenM (fd <? 0) (log_error ("reset GPIO '" +:+ name +:+ "' not found on any gpiochip")) ;;
  returnM fd.

(** ** Start-up *)

(** Outcome of the system calls whose failure ends the program. *)
Record boot := Boot { bt_open : bool; bt_flock : bool; bt_listen : bool; bt_strerror : string }.

Definition check_device_id : D W unit :=
  let* '(rc, id) := spi_read_reg 0 LAN80XX_MMD_GLOBAL LAN80XX_MCU_IO_MNGT_MISC_DEVICE_ID_REG 0 in
  let* g := getg in
  if negb (rc =? 0) || negb (Z.land id 0xff00 =? 0x8000)
  then log_warn ("DEVICE_ID read " +:+ hex_alt id +:+ " -- PHY not answering?")
  else log_always (cf_dev (g_cfg g) +:+ ": LAN80xx DEVICE_ID " +:+ hex_alt6 id).

(** Size of [sun_path], into which the socket's path is copied. *)
Definition SUN_PATH : nat := 108.

(** From [log_open] to the main loop; [false] is an early exit. *)
Definition main_start (b : boot) (chips : nat -> option gpiochip) : D W bool :=
  let* g := getg in
  let cf := g_cfg g in
  if negb (bt_open b) then log_error (cf_dev cf +:+ ": " +:+ bt_strerror b) ;; returnM false else
  if negb (bt_flock b)
  then log_error (cf_dev cf +:+ ": already locked (another owner?)") ;; returnM false else
  emit (EvSpiMode 0) ;;
  check_device_id ;;
  match cf_rst_line cf with
  | Some name =>
      let* fd := gpio_open_line_by_name chips name in
      setg (set_g_cfg (set_cf_rst_fd (fun _ => fd)))
  | None => returnM tt
  end ;;
  emit (EvUnlink (cf_sock cf)) ;;
  emit (EvBind (trunc SUN_PATH (cf_sock cf))) ;;
  if negb (bt_listen b) then log_error (cf_sock cf +:+ ": " +:+ bt_strerror b) ;; returnM false else
  log_always ("lan80xx-spid: " +:+ cf_dev cf +:+ " @" +:+ dec_int (cf_freq cf) +:+ " Hz pad " +:+
    dec_int (cf_pad cf) +:+ ", socket " +:+ cf_sock cf) ;;
  returnM true.

Definition on_sig : D W unit := setg (set_g_stop (fun _ => true)).

(** ** The main loop *)

(** One [epoll_wait]: how the environment moves on while it blocks for the given
    timeout, what is readable then (or an interrupted call), and whether a signal
    arrives before the loop is tested again. *)
Inductive wait_result := WaitIntr | WaitReady (fds : list (option nat)).
Record wait := Wait { wt_env : Z -> W -> W; wt_result : wait_result; wt_signal : bool }.

(** Registered are the listening socket and the connections; each is reported at
    most once, and at most eight in one call. *)
Definition registered (g : glob) (e : option nat) : bool :=
  match e with None => true | Some c => default false (c_used <$> g_cl g !! c) end.
Definition epoll_events (g : glob) (r : wait_result) : list (option nat) :=
  match r with
  | WaitIntr => []
  | WaitReady fds => take 8 (filter (fun e => registered g e = true) (remove_dups fds))
  end.

(** [while (!g.stop)] over successive waits; [false] when they are used up and
    the daemon waits on.  Nothing in a turn reads the flag a signal sets. *)
Fixpoint main_loop (fuel : nat) (waits : list wait) : D W bool :=
  let* g := getg in
  if g_stop g then returnM true else
  match waits with
  | [] => returnM false
  | wt :: waits' =>
      modifyM (fun s => St (st_g s) (wt_env wt (wait_timeout g) (st_w s)) (st_out s)) ;;
      loop_turn fuel (epoll_events g (wt_result wt)) ;;
      whenM (wt_signal wt) on_sig ;;
      main_loop fuel waits'
  end.

End Main.

(** ** The start-up establishes the invariant *)

Definition ranges_ok (cf : config) : Prop :=
  0 <= cf_pad cf <= SPI_PAD_MAX /\ 1 <= cf_freq cf <= INT_MAX.

Lemma take_option_ranges fopens s o s' :
  take_option fopens s o = Some s' -> ranges_ok (se_cfg s) -> ranges_ok (se_cfg s').
Proof.
  destruct o as [a|a|a|a|a|a|]; cbn [take_option]; intros H [Hp Hf]; try (by simplify_eq).
  - destruct (parse_uint a 10 0 SPI_PAD_MAX) as [v|] eqn:Hv; simplify_eq/=.
    split; [by apply parse_uint_range in Hv|done].
  - destruct (parse_uint a 10 1 INT_MAX) as [v|] eqn:Hv; simplify_eq/=.
    split; [done|by apply parse_uint_range in Hv].
  - destruct (_ || _); by simplify_eq.
Qed.

Lemma take_options_ranges fopens l s s' :
  take_options fopens s l = Some s' -> ranges_ok (se_cfg s) -> ranges_ok (se_cfg s').
Proof.
  revert s. induction l as [|o l IH]; intros s; cbn [take_options]; [by intros [= ->]|].
  destruct (take_option fopens s o) as [s1|] eqn:H1; cbn; [|done]. intros H Hs.
  eapply IH; [done|]. by eapply take_option_ranges.
Qed.

Lemma daemon_config_ranges fopens l cf : daemon_config fopens l = Some cf -> ranges_ok cf.
Proof.
  unfold daemon_config. destruct (take_options _ _ l) as [s|] eqn:Hs; cbn; [|done].
  destruct (se_dev s) as [d|]; cbn; [|done]. intros [= <-].
  apply take_options_ranges in Hs; [done|]. unfold ranges_ok, SPI_PAD_MAX, INT_MAX. cbn. lia.
Qed.

Lemma ranges_cfg_ok cf :
  ranges_ok cf ->
  (String.length (cf_dev cf) + String.length (default "on" (cf_rst_line cf)) <= Z.to_nat 1024)%nat ->
  cfg_ok cf.
Proof. intros [Hp Hf] Hl. unfold INT_MAX in Hf. split_and!; try done; lia. Qed.

Lemma init_diag cf : diag_ok (init_glob cf).
Proof.
  unfold diag_ok. cbn [g_ring g_ring_w g_cnt g_lint init_glob].
  split; [apply length_replicate|]. split.
  { apply Forall_replicate. unfold te_ok, is_u64, is_u32, is_u16, is_u8, SLICE_COUNT. cbn. lia. }
  split; [unfold is_u32; lia|]. split; [unfold cnt_ok, is_u64; cbn; lia|].
  unfold lint_ok, zero_lint. cbn [page_owner cor_last rd_ring rd_w]. rewrite !length_replicate.
  split; [done|]. split; [by apply Forall_replicate|]. split; [done|]. split; [done|unfold is_u32; lia].
Qed.

Lemma init_items : Forall item_ok (pool init_qs).
Proof.
  cbn [pool init_qs]. apply Forall_fmap, Forall_true. intros i. unfold item_ok, init_item.
  cbn [compose q_body q_c q_hdr]. split; [apply length_replicate|].
  split; [apply Forall_replicate; unfold is_u8; lia|]. split; [unfold MAX_CLIENTS; lia|].
  unfold hdr_ok, is_u8, is_u16, is_u32. cbn. lia.
Qed.

Lemma init_inv cf : cfg_ok cf -> inv [[]; []; []] (seq 0 MAX_QITEMS) [] (init_glob cf).
Proof.
  intros Hcf. split.
  - apply init_diag.
  - split; cbn [g_cl init_glob]; [apply length_replicate|]. apply Forall_replicate.
    unfold client_ok, is_u32, is_u64, COMM_PATH_MAX, zero_client. cbn. lia.
  - done.
  - cbn [g_next_cid init_glob]. unfold is_u32. lia.
  - unfold claim_wf. cbn [g_claim init_glob claim_cleanup claim_ncleanup claim_deadline claim_owner].
    split; [apply length_replicate|]. split.
    { apply Forall_replicate. unfold op_ok, is_u8, is_u16, is_u32. cbn. lia. }
    unfold SPIPROXY_BATCH_MAX, is_u64. lia.
  - apply init_rep.
  - apply init_items.
  - cbn [concat app]. by intros i ?%not_elem_of_nil.
Qed.

Section Boot.
Context {W : Type} {WW : World W} {WO : WorldOk W WW} {RG : Regs}
  {BE : Backend W} {BO : BackendOk W WW BE}.
Implicit Types (s : st W) (E : fault -> Prop).

(** Logging and counting keep an idle state idle. *)
Lemma idle_diag s g' (w' : W) o' :
  idle s -> exec_same (st_g s) g' -> diag_ok g' -> idle (St g' w' o').
Proof.
  intros [(qa & fa & I) Hm] (? & ? & ? & ? & ? & Hm' & _) Hd. split; [|by cbn; rewrite Hm'].
  exists qa, fa. by apply (inv_same qa fa [] (st_g s)).
Qed.

(** So do the log lines of the start-up. *)
Lemma wp_idle_log E priority line Q s :
  orderly s -> (forall s', orderly s' -> steady s s' -> Q tt s') ->
  wp E (log_msg priority line) Q s.
Proof.
  intros [[? ?] Hw] HQ. apply wp_log_msg. intros w' o' _ Ho. apply HQ; [|done]. split; [done|].
  apply answers_nil_wire; [by apply log_answers|done].
Qed.

(** And the other events that send nothing. *)
Lemma orderly_event s (w' : W) e : answer_of e = None -> orderly s -> orderly (St (st_g s) w' (e :: st_out s)).
Proof.
  intros He [[? ?] Hw]. split; [done|]. apply (answers_nil_wire [e]); [|done]. unfold answers. cbn. by rewrite He.
Qed.

Lemma wp_check_device_id E Q s :
  orderly s -> (forall s', orderly s' -> steady s s' -> Q tt s') ->
  wp E check_device_id Q s.
Proof.
  intros [HI Hw] HQ. pose proof HI as [(qa & fa & I) Hm]. unfold check_device_id. wp_steps.
  eapply wp_fault_mono; [|apply spi_read_reg_ok; [apply I|]]; [done|].
  intros rc v w' o' _ _ Ho. wp_steps. set (s1 := St _ _ _).
  assert (orderly s1 /\ steady s s1) as [H1 Hcf].
  { split; [|by split; cbn; destruct (rc =? 0)]. split.
    - apply (idle_diag s); [done|by destruct (rc =? 0)|].
      destruct (rc =? 0); (apply diag_set_cnt; [apply I|]); intros Hc; apply (cnt_ok_bump _ Hc).
    - apply wire_ok_app; [|done]. eapply Forall_impl; [exact Ho|]. by intros []. }
  apply wp_if; intros _; (apply wp_idle_log; [done|]; intros; apply HQ; [done|by eapply steady_trans]).
Qed.

Lemma wp_gpio_scan n k chips name E Q s :
  orderly s -> (forall fd s', orderly s' -> steady s s' -> Q fd s') ->
  wp E (gpio_scan n k chips name) Q s.
Proof.
  revert k. induction n as [|n IH]; intros k HI HQ; cbn [gpio_scan]; [by apply wp_ret, HQ|].
  repeat case_match; try (by apply IH). apply wp_bind, wp_idle_log; [done|].
  intros s' H' Hcf. apply wp_ret. by apply HQ.
Qed.

Lemma wp_open_line chips name E Q s :
  orderly s -> (forall fd s', orderly s' -> steady s s' -> Q fd s') ->
  wp E (gpio_open_line_by_name chips name) Q s.
Proof.
  intros HI HQ. unfold gpio_open_line_by_name. wp_steps. apply wp_gpio_scan; [done|]. intros fd s1 H1 Hs1. wp_steps.
  apply (wp_mono _ _ (fun _ s' => orderly s' /\ steady s s')); [|intros _ s2 [H2 Hs2]; wp_steps; by apply HQ].
  apply wp_when; intros _; [|done]. apply wp_idle_log; [done|]. intros s2 H2 Hs2. split; [done|].
  by eapply steady_trans.
Qed.

(** What start-up leaves alone. *)
Definition boot_same s s' : Prop :=
  g_stop (st_g s') = g_stop (st_g s) /\ cf_sock (g_cfg (st_g s')) = cf_sock (g_cfg (st_g s)).

Lemma steady_boot s1 s2 s3 : boot_same s1 s2 -> steady s2 s3 -> boot_same s1 s3.
Proof. intros [? ?] [Hc ?]. split; [congruence|by rewrite Hc]. Qed.

Lemma wp_boot_log E priority line {A} (a : A) (P : A -> Prop) s s1 :
  orderly s1 -> boot_same s s1 -> P a ->
  wp E (log_msg priority line ;; returnM a) (fun r s' => orderly s' /\ boot_same s s' /\ P r) s1.
Proof.
  intros H1 Hb HP. apply wp_bind, wp_idle_log; [done|]. intros s2 H2 Hs2. apply wp_ret.
  split; [done|]. split; [by eapply steady_boot|done].
Qed.

(** Starting from the initial state, the daemon reaches an idle state (or
    exits) without a fault. *)
Lemma wp_main_start b chips E s :
  orderly s -> wp E (main_start b chips) (fun r s' => orderly s' /\ boot_same s s' /\
    r = (bt_open b && bt_flock b && bt_listen b)) s.
Proof.
  intros HI. unfold main_start. wp_steps.
  destruct (bt_open b); cbn [negb]; [|by apply wp_boot_log].
  destruct (bt_flock b); cbn [negb]; [|by apply wp_boot_log].
  wp_steps. apply wp_check_device_id; [by apply orderly_event|]. intros s1 H1 Hs1. wp_steps.
  apply (wp_mono _ _ (fun _ s' => orderly s' /\ boot_same s s')).
  { destruct (cf_rst_line (g_cfg (st_g s))) as [name|]; [|apply wp_ret; split; [done|by eapply steady_boot]].
    wp_steps. apply wp_open_line; [done|]. intros fd s2 H2 Hs2. wp_steps.
    destruct H2 as [[(qa & fa & I) Hm] Hw]. split; [split; [split; [exists qa, fa|done]|done]|].
    - split; cbn; try apply I.
    - assert (boot_same s s2) as [? ?]; [|by split]. eapply steady_boot; [|exact Hs2]. by eapply steady_boot. }
  cbn beta. intros _ s2 [H2 Hb2]. wp_steps. set (s3 := St _ _ _).
  assert (orderly s3) as H3.
  { apply (orderly_event (St (st_g s2) (st_w s2) (_ :: _))); [done|]. by apply orderly_event. }
  destruct (bt_listen b); cbn [negb]; by apply wp_boot_log.
Qed.

(** The initial state. *)
Lemma init_orderly cf (w : W) out : cfg_ok cf -> answers out = [] -> orderly (St (init_glob cf) w out).
Proof.
  intros Hcf Ho. split; [split; [eexists _, _; by apply init_inv|done]|]. cbn [st_out]. rewrite <-(app_nil_r out).
  apply answers_nil_wire; [done|]. by intros ? ? ? ?%elem_of_nil.
Qed.

(** ** The daemon as a transition system *)

(** The descriptors of a wait: each at most once, only open connections.  While
    the daemon waits the environment moves on. *)
Definition ready_ok s (ready : list (option nat)) : Prop :=
  NoDup ready /\ forall c, Some c ∈ ready -> connected (g_cl (st_g s)) c.

Inductive reachable (cf : config) : st W -> Prop :=
| reach_start b chips w out s :
    answers out = [] -> main_start b chips (St (init_glob cf) w out) = Ok (true, s) -> reachable cf s
| reach_turn fuel ready s s' :
    reachable cf s -> g_stop (st_g s) = false -> ready_ok s ready ->
    loop_turn fuel ready s = Ok (tt, s') -> reachable cf s'
| reach_wait s w :
    reachable cf s -> w_time (st_w s) <= w_time w -> reachable cf (St (st_g s) w (st_out s))
| reach_signal s s' : reachable cf s -> on_sig s = Ok (tt, s') -> reachable cf s'.

Lemma reachable_orderly cf s : cfg_ok cf -> reachable cf s -> orderly s.
Proof.
  intros Hcf. induction 1 as [b chips w out s Ho Hs|fuel ready s s' _ IH _ [Hnd Hc] Hs|s w _ IH _|s s' _ IH Hs].
  - pose proof (wp_main_start b chips (fun _ => True) _ (init_orderly cf w out Hcf Ho)) as H.
    unfold wp in H. rewrite Hs in H. apply H.
  - pose proof (wp_loop_turn fuel ready (fun e => True) s IH Hnd Hc ltac:(by left)) as H.
    unfold wp in H. rewrite Hs in H. apply H.
  - destruct IH as [[? ?] ?]. by split.
  - injection Hs as <-. destruct IH as [[(qa & fa & I) Hm] Hw]. split; [|done]. split; [|done].
    exists qa, fa. split; cbn; apply I.
Qed.

End Boot.
