(* ===== verification/LintSpec.v ===== *)
(** * The hazard detectors as functions of the history

    [lint_op] keeps a table of page owners, the last readers of two
    clear-on-read counters and a ring of recent reads.  Here its warnings are
    specified by the history of executed operations alone: which earlier access
    of another client each warning names, and when there must be one. *)
From S2P Require Import Prelude Bytes Proto Fmt State Queue Log Spi Exec OpSpec Main.

(** ** The reference detectors *)

(** An executed operation: the client and process name it was logged under, the
    time and the operation. *)
Record access := Access { a_cid : Z; a_comm : string; a_ts : Z; a_op : op }.

Section Reference.
Context {RG : Regs}.
Implicit Types (a b : access) (h : list access).

(** Another client's access. *)
Definition foreign a b : bool := negb (a_cid b =? 0) && negb (a_cid b =? a_cid a).

Definition pma_side (mmd : Z) : option nat :=
  if mmd =? LAN80XX_MMD_HOST_PMA then Some 0%nat
  else if mmd =? LAN80XX_MMD_LINE_PMA then Some 1%nat else None.

(** A write of the page register of a side of a slice. *)
Definition sets_page (slice : Z) (side : nat) b : bool :=
  bool_decide (pma_side (op_mmd (a_op b)) = Some side) && (op_slice (a_op b) =? slice) &&
  (op_reg (a_op b) =? 0xf0ff) && is_write (a_op b).

(** The access in the paged space rides on the page that another client's
    access, the last to set one, selected.  Histories are newest first. *)
Definition page_ride h a : option access :=
  side ← pma_side (op_mmd (a_op a));
  if (Z.land (op_reg (a_op a)) 0xfe00 =? 0xf000) &&
     negb ((op_reg (a_op a) =? 0xf0ff) && is_write (a_op a)) then
    b ← List.find (sets_page (op_slice (a_op a)) side) h;
    if foreign a b then Some b else None
  else None.

(** A read of the clear-on-read counter of a side. *)
Definition cor_mmd (k : nat) : Z :=
  match k with O => LAN80XX_MMD_HOST_PCS | _ => LAN80XX_MMD_MAC_LINE_PCS end.
Definition reads_cor (k : nat) b : bool :=
  negb (is_write (a_op b)) && (op_reg (a_op b) =? LAN80XX_HOST_PCS25G_BASER_STATUS2) &&
  (op_mmd (a_op b) =? cor_mmd k).

(** The read consumes a measurement window another client opened less than
    120 s ago: its read of that counter is the last one. *)
Definition cor_poach h a : option access :=
  k ← (if reads_cor 0 a then Some 0%nat else if reads_cor 1 a then Some 1%nat else None);
  b ← List.find (reads_cor k) h;
  if foreign a b && (a_ts a - a_ts b <? LINT_COR_WINDOW_US) then Some b else None.

Definition same_reg (o o' : op) : bool :=
  (op_slice o' =? op_slice o) && (op_mmd o' =? op_mmd o) && (op_reg o' =? op_reg o).

(** A write marks the reads of its register. *)
Definition mark_written (o : op) (x : access * bool) : access * bool :=
  let '(b, w) := x in (b, w || same_reg o (a_op b)).

(** The reads of the history, newest first, each with whether its register has
    been written since. *)
Fixpoint reads_of h : list (access * bool) :=
  match h with
  | [] => []
  | a :: h' =>
      if is_write (a_op a)
      then mark_written (a_op a) <$> reads_of h'
      else (a, false) :: reads_of h'
  end.

(** The reads the ring remembers. *)
Definition recent h : list (access * bool) := take RD_RING_COUNT (reads_of h).

(** The write comes between another client's read and that client's write. *)
Definition races a b : bool :=
  foreign a b && same_reg (a_op a) (a_op b) && (a_ts a - a_ts b <? LINT_RMW_WINDOW_US).

(** ** Reports *)

Inductive report := PageRide (b : access) | CorPoach (b : access) | RmwRace (b : access).

(** What the report of a race may and must be: it names a recent read the write
    races with, and it is there if such a read has not been followed by another
    write of the register. *)
Definition race_reports h a (rs : list report) : Prop :=
  match rs with
  | [] => is_write (a_op a) = true -> forall b, (b, false) ∈ recent h -> races a b = false
  | [RmwRace b] => is_write (a_op a) = true /\ races a b = true /\ exists w, (b, w) ∈ recent h
  | _ => False
  end.

(** The reports of an access after the history [h], in their order. *)
Definition reports_of h a (rs : list report) : Prop :=
  exists race, rs = option_list (PageRide <$> page_ride h a) ++
                    option_list (CorPoach <$> cor_poach h a) ++ race /\
    race_reports h a race.

(** Name of the process as the lint state stores it. *)
Definition kept_comm b : string := trunc COMM_PATH_MAX (a_comm b).

Definition report_line a (r : report) : string :=
  let o := a_op a in
  trunc 256 match r with
  | PageRide b =>
      "page-ride: C" +:+ dec (a_cid a) +:+ "(" +:+ a_comm a +:+ ") " +:+ dir_char o +:+
      " s" +:+ dec (op_slice o) +:+ " " +:+ hex 2 (op_mmd o) +:+ " " +:+ hex 4 (op_reg o) +:+
      " on page set by C" +:+ dec (a_cid b) +:+ "(" +:+ kept_comm b +:+ ")"
  | CorPoach b =>
      "cor-poach: C" +:+ dec (a_cid a) +:+ "(" +:+ a_comm a +:+ ") R s" +:+ dec (op_slice o) +:+
      " " +:+ hex 2 (op_mmd o) +:+ " 0021 " +:+ dec ((a_ts a - a_ts b) / USEC_PER_SEC) +:+
      "s after C" +:+ dec (a_cid b) +:+ "(" +:+ kept_comm b +:+ ") (counters consumed)"
  | RmwRace b =>
      "rmw-race: C" +:+ dec (a_cid a) +:+ "(" +:+ a_comm a +:+ ") W s" +:+ dec (op_slice o) +:+
      " " +:+ hex 2 (op_mmd o) +:+ " " +:+ hex 4 (op_reg o) +:+ " " +:+
      dec ((a_ts a - a_ts b) / 1000) +:+ "ms after R by C" +:+ dec (a_cid b) +:+ "(" +:+
      kept_comm b +:+ ")"
  end.

(** A history and the warnings it caused, oldest first. *)
Inductive linted : list access -> list string -> Prop :=
| linted_none : linted [] []
| linted_access h a rs lines :
    linted h lines -> reports_of h a rs -> linted (a :: h) (lines ++ (report_line a <$> rs)).

(** ** Consequences of the specification *)

(** Only accesses of other clients are named. *)
Lemma page_ride_foreign h a b : page_ride h a = Some b -> foreign a b = true /\ b ∈ h.
Proof.
  unfold page_ride. intros H. destruct (pma_side _) as [side|]; cbn in H; [|done].
  destruct (_ && _); [|done]. destruct (List.find _ h) as [b'|] eqn:Hf; cbn in H; [|done].
  destruct (foreign a b') eqn:Hb; [|done]. simplify_eq. split; [done|].
  apply List.find_some in Hf as [Hf _]. by apply list_elem_of_In.
Qed.

Lemma cor_poach_foreign h a b : cor_poach h a = Some b -> foreign a b = true /\ b ∈ h.
Proof.
  unfold cor_poach. intros H. destruct (if reads_cor 0 a then _ else _) as [k|]; cbn in H; [|done].
  destruct (List.find _ h) as [b'|] eqn:Hf; cbn in H; [|done].
  destruct (foreign a b') eqn:Hb; [|done]. cbn in H. destruct (_ <? _); [|done]. simplify_eq.
  split; [done|]. apply List.find_some in Hf as [Hf _]. by apply list_elem_of_In.
Qed.

Lemma reads_of_in h b w : (b, w) ∈ reads_of h -> b ∈ h /\ is_write (a_op b) = false.
Proof.
  revert w. induction h as [|a h IH]; intros w; cbn; [by rewrite elem_of_nil|].
  destruct (is_write (a_op a)) eqn:Ha.
  - rewrite list_elem_of_fmap. intros ([b' w'] & Heq & Hin). cbn in Heq. simplify_eq.
    destruct (IH _ Hin). split; [by right|done].
  - rewrite elem_of_cons. intros [Heq|Hin]; [simplify_eq; split; [by left|done]|].
    destruct (IH _ Hin). split; [by right|done].
Qed.

Lemma recent_in h b w : (b, w) ∈ recent h -> (b, w) ∈ reads_of h.
Proof. intros H. rewrite <-(take_drop RD_RING_COUNT (reads_of h)). apply elem_of_app. by left. Qed.

(** The access a report names. *)
Definition named (r : report) : access :=
  match r with PageRide b | CorPoach b | RmwRace b => b end.

Lemma reports_foreign h a rs r :
  reports_of h a rs -> r ∈ rs -> foreign a (named r) = true /\ named r ∈ h.
Proof.
  intros (race & -> & Hr). rewrite !elem_of_app. intros [H|[H|H]].
  - destruct (page_ride h a) eqn:Hp; cbn in H; [|by apply elem_of_nil in H].
    apply list_elem_of_singleton in H as ->. by apply page_ride_foreign.
  - destruct (cor_poach h a) eqn:Hp; cbn in H; [|by apply elem_of_nil in H].
    apply list_elem_of_singleton in H as ->. by apply cor_poach_foreign.
  - destruct race as [|[b|b|b] [|]]; cbn [race_reports] in Hr; [by apply elem_of_nil in H|done..| |done].
    apply list_elem_of_singleton in H as ->. destruct Hr as (_ & Hr & w & Hw).
    apply recent_in, reads_of_in in Hw as [Hw _]. split; [|done]. unfold races in Hr. cbn [named].
    by destruct (foreign a b).
Qed.

(** A single client is never warned. *)
Lemma linted_alone cid h lines :
  linted h lines -> Forall (fun a => a_cid a = cid) h -> lines = [].
Proof.
  induction 1 as [|h a rs lines Hl IH Hr]; [done|]. rewrite Forall_cons. intros [Ha Hh].
  rewrite IH by done. destruct rs as [|r rs]; [done|].
  destruct (reports_foreign h a (r :: rs) r Hr) as [Hf Hin]; [by left|].
  rewrite Forall_forall in Hh. apply Hh in Hin. unfold foreign in Hf.
  rewrite Hin, Ha, Z.eqb_refl, andb_false_r in Hf. done.
Qed.

End Reference.

(** ** The lint state of a history *)

Section Abstraction.
Context {RG : Regs}.
Implicit Types (a b : access) (h : list access).

Definition page_entry (x : option access) : owner :=
  match x with Some b => Owner (a_cid b) (kept_comm b) | None => Owner 0 "" end.
Definition pages_hold h (t : list (list owner)) : Prop :=
  forall slice side, 0 <= slice < SLICE_COUNT -> (side < SIDE_COUNT)%nat ->
    exists row, t !! Z.to_nat slice = Some row /\
      row !! side = Some (page_entry (List.find (sets_page slice side) h)).

Definition cor_entry (x : option access) : cor :=
  match x with Some b => Cor (a_cid b) (kept_comm b) (a_ts b) | None => Cor 0 "" 0 end.
Definition cors_hold h (t : list cor) : Prop :=
  forall k, (k < SIDE_COUNT)%nat -> t !! k = Some (cor_entry (List.find (reads_cor k) h)).

Definition rd_entry b : rd_ent :=
  RdEnt (op_slice (a_op b)) (op_mmd (a_op b)) (op_reg (a_op b)) (a_cid b) (kept_comm b) (a_ts b).

(** A slot of the read ring: the read, or the read marked as reported, which
    takes a write of its register; or no read yet. *)
Definition slot_holds (x : option (access * bool)) (e : rd_ent) : Prop :=
  match x with
  | Some (b, w) => e = rd_entry b \/ (w = true /\ e = set_rd_cid (fun _ => 0) (rd_entry b))
  | None => rd_cid e = 0
  end.
Definition ring_reads (rs : list (access * bool)) (ring : list rd_ent) (w : Z) : Prop :=
  length ring = RD_RING_COUNT /\ w = u32 (Z.of_nat (length rs)) /\
  forall k, (k < RD_RING_COUNT)%nat -> exists e,
    ring !! ring_slot RD_RING_COUNT (length rs) k = Some e /\ slot_holds (rs !! k) e.

Record lint_holds h (l : lint_state) : Prop := {
  lh_pages : pages_hold h (page_owner l);
  lh_cors : cors_hold h (cor_last l);
  lh_reads : ring_reads (reads_of h) (rd_ring l) (rd_w l) }.

(** Accesses lie in the past. *)
Definition past h (t : Z) : Prop := Forall (fun b => 0 <= a_ts b <= t) h.

Lemma lint_holds_zero : lint_holds [] zero_lint.
Proof.
  split.
  - intros slice side Hs Hd. exists (replicate SIDE_COUNT (Owner 0 "")).
    unfold zero_lint, SLICE_COUNT in *. cbn [page_owner].
    rewrite lookup_replicate_2 by lia. split; [done|]. by rewrite lookup_replicate_2.
  - intros k Hk. unfold zero_lint. cbn [cor_last]. by rewrite lookup_replicate_2.
  - split; [done|]. split; [done|]. intros k Hk. exists (RdEnt 0 0 0 0 "" 0).
    cbn [reads_of zero_lint rd_ring]. split; [|done].
    apply lookup_replicate_2, ring_slot_lt. unfold RD_RING_COUNT. lia.
Qed.

(** A write of the page register, and any other access. *)
Lemma pages_hold_set h a t slice side row :
  pages_hold h t -> 0 <= slice < SLICE_COUNT -> (side < SIDE_COUNT)%nat ->
  t !! Z.to_nat slice = Some row ->
  (forall sl sd, sets_page sl sd a = true <-> sl = slice /\ sd = side) ->
  pages_hold (a :: h) (<[Z.to_nat slice := <[side := page_entry (Some a)]> row]> t).
Proof.
  intros H Hs Hd Hrow Hset sl sd Hsl Hsd. destruct (H sl sd Hsl Hsd) as (r & Hr & He).
  cbn [List.find]. destruct (decide (sl = slice)) as [->|Hne].
  - simplify_eq. eexists. split; [apply list_lookup_insert_eq; by eapply lookup_lt_Some|].
    destruct (decide (sd = side)) as [->|Hne].
    + rewrite (proj2 (Hset _ _) (conj eq_refl eq_refl)).
      apply list_lookup_insert_eq. by eapply lookup_lt_Some.
    + destruct (sets_page slice sd a) eqn:Hx; [apply Hset in Hx; naive_solver|].
      by rewrite list_lookup_insert_ne.
  - exists r. rewrite list_lookup_insert_ne by (intros Heq; apply Hne; lia). split; [done|].
    destruct (sets_page sl sd a) eqn:Hx; [apply Hset in Hx; naive_solver|done].
Qed.

Lemma pages_hold_keep h a t :
  pages_hold h t -> (forall sl sd, sets_page sl sd a = false) -> pages_hold (a :: h) t.
Proof. intros H Hn sl sd Hs Hd. cbn [List.find]. rewrite Hn. by apply H. Qed.

Lemma cors_hold_set h a t k :
  cors_hold h t -> (k < SIDE_COUNT)%nat -> (forall j, (j < SIDE_COUNT)%nat -> reads_cor j a = bool_decide (j = k)) ->
  cors_hold (a :: h) (<[k := cor_entry (Some a)]> t).
Proof.
  intros H Hk Hr j Hj. cbn [List.find]. rewrite Hr by done. case_bool_decide as Heq.
  - subst j. apply list_lookup_insert_eq. eapply lookup_lt_Some. by apply H.
  - rewrite list_lookup_insert_ne by done. by apply H.
Qed.

Lemma cors_hold_keep h a t :
  cors_hold h t -> (forall k, (k < SIDE_COUNT)%nat -> reads_cor k a = false) -> cors_hold (a :: h) t.
Proof. intros H Hn k Hk. cbn [List.find]. rewrite Hn by done. by apply H. Qed.

Lemma rd_ring_divides : (Z.of_nat RD_RING_COUNT | 2 ^ 32).
Proof. by exists (2 ^ 28). Qed.

(** A read is remembered. *)
Lemma ring_reads_push rs ring w b :
  ring_reads rs ring w ->
  ring_reads ((b, false) :: rs)
    (<[Z.to_nat (w mod Z.of_nat RD_RING_COUNT) := rd_entry b]> ring) (u32 (w + 1)).
Proof.
  intros (Hl & -> & H). rewrite (ring_slot_write _ _ rd_ring_divides).
  split; [by rewrite length_insert|]. split.
  { cbn [length]. unfold u32. rewrite Zplus_mod_idemp_l. f_equal. lia. }
  intros [|k] Hk; cbn [length lookup list_lookup].
  - exists (rd_entry b). split; [|by left]. apply list_lookup_insert_eq. rewrite Hl.
    apply ring_slot_lt. unfold RD_RING_COUNT. lia.
  - rewrite ring_slot_S, list_lookup_insert_ne by by apply ring_slot_next. apply H. lia.
Qed.

(** A write marks the reads of its register. *)
Lemma ring_reads_mark rs ring w o : ring_reads rs ring w -> ring_reads (mark_written o <$> rs) ring w.
Proof.
  intros (Hl & Hw & H). split; [done|]. rewrite length_fmap. split; [done|]. intros k Hk.
  destruct (H k Hk) as (e & He & Hs). exists e. split; [done|]. rewrite list_lookup_fmap.
  destruct (rs !! k) as [[b x]|]; cbn; [|done]. destruct Hs as [?|[-> ?]]; [by left|by right].
Qed.

(** The reported read is cleared; its register has been written. *)
Lemma ring_reads_clear rs ring w k b :
  ring_reads rs ring w -> (k < RD_RING_COUNT)%nat -> rs !! k = Some (b, true) ->
  ring_reads rs (<[ring_slot RD_RING_COUNT (length rs) k := set_rd_cid (fun _ => 0) (rd_entry b)]> ring) w.
Proof.
  intros (Hl & Hw & H) Hk Hb. split; [by rewrite length_insert|]. split; [done|]. intros j Hj.
  destruct (decide (j = k)) as [->|Hne].
  - eexists. split; [apply list_lookup_insert_eq; rewrite Hl; apply ring_slot_lt; lia|].
    rewrite Hb. by right.
  - rewrite list_lookup_insert_ne; [by apply H|]. intros Heq. apply Hne.
    symmetry. by eapply ring_slot_inj.
Qed.

End Abstraction.

(** ** The code implements the reference detectors *)

Definition warning_of (e : event) : option string :=
  match e with
  | EvSyslog priority line => if priority =? LOG_WARNING then Some line else None
  | _ => None
  end.

(** The warnings sent to syslog so far, oldest first. *)
Definition warnings (out : list event) : list string := rev (omap warning_of out).

Lemma warnings_app ev out : warnings (ev ++ out) = warnings out ++ warnings ev.
Proof. unfold warnings. by rewrite omap_app, rev_app_distr. Qed.

Lemma warnings_silent ev out :
  Forall (fun e => warning_of e = None) ev -> warnings (ev ++ out) = warnings out.
Proof.
  intros H. rewrite warnings_app. enough (warnings ev = []) as -> by apply app_nil_r. unfold warnings.
  induction H as [|e ev He _ IH]; [done|]. cbn. rewrite He. done.
Qed.

Section Implements.
Context {W : Type} {WW : World W} {WO : WorldOk W WW} {RG : Regs}.
Implicit Types (s : st W) (a b : access) (h : list access).

(** The process name the log context points to. *)
Definition ctx_comm (g : glob) : string :=
  match lx_comm (g_lctx g) with
  | CommNull => ""
  | CommClient i => default "" (c_comm <$> g_cl g !! i)
  | CommLit t => t
  end.

Lemma wp_ctx_comm E Q s : cl_ok (st_g s) -> lctx_ok (st_g s) -> Q (ctx_comm (st_g s)) s -> wp E lctx_comm Q s.
Proof.
  intros [Hcl _] Hx HQ. unfold lctx_comm, lctx_ok, ctx_comm in *. wp_steps.
  destruct (lx_comm (g_lctx (st_g s))) as [|i|t]; [done| |by apply wp_ret].
  destruct (lookup_lt_is_Some_2 (g_cl (st_g s)) i) as [c Hc]; [by rewrite Hcl|].
  wp_steps. eapply wp_get_client; [done|]. apply wp_ret. by rewrite Hc in HQ.
Qed.

(** A warning is one line of syslog. *)
Lemma wp_warn_exact line E Q s :
  (forall w' ev, warnings (ev ++ st_out s) = warnings (st_out s) ++ [trunc 256 line] ->
     Q tt (St (set_g_cnt (set_n_warns (fun n => u64 (n + 1))) (st_g s)) w' (ev ++ st_out s))) ->
  wp E (warn_line line) Q s.
Proof.
  intros HQ. unfold warn_line, log_warn, log_msg, trace_v. wp_steps. apply wp_if; intros _; wp_steps.
  - apply wp_ask. intros w' [sec nsec] _. wp_steps. apply (HQ _ [_; EvSyslog _ _]).
    by rewrite warnings_app.
  - apply (HQ _ [EvSyslog _ _]). by rewrite warnings_app.
Qed.

(** [s'] has the lint state of [s] but for the parts that changed, and has warned
    with [rs] about the access [a]. *)
Definition warned a (rs : list report) s s' : Prop :=
  warnings (st_out s') = warnings (st_out s) ++ (report_line a <$> rs).

(** The access is made by the client of the log context. *)
Definition made_by a (g : glob) : Prop :=
  a_cid a = lx_cid (g_lctx g) /\ a_comm a = ctx_comm g.

Lemma warned_none a s s' : warnings (st_out s') = warnings (st_out s) -> warned a [] s s'.
Proof. unfold warned. intros ->. cbn. by rewrite app_nil_r. Qed.

Lemma pma_side_lt mmd side : pma_side mmd = Some side -> (side < SIDE_COUNT)%nat.
Proof. unfold pma_side, SIDE_COUNT. intros H. repeat case_match; simplify_eq; lia. Qed.

Lemma lint_page_reports h a s :
  ctx_ok (st_g s) -> made_by a (st_g s) -> op_traced (a_op a) ->
  pages_hold h (page_owner (g_lint (st_g s))) ->
  wp (fun _ => True) (lint_page (a_op a)) (fun _ s' =>
    warned a (option_list (PageRide <$> page_ride h a)) s s' /\
    pages_hold (a :: h) (page_owner (g_lint (st_g s'))) /\
    g_lint (st_g s') = set_page_owner (fun _ => page_owner (g_lint (st_g s'))) (g_lint (st_g s))) s.
Proof.
  intros Hc [Hid Hcm] [_ Hsl] H. unfold lint_page. fold (pma_side (op_mmd (a_op a))). unfold page_ride.
  assert (forall g, g_lint g = set_page_owner (fun _ => page_owner (g_lint g)) (g_lint g)) as Hsame
    by (intros [? ? ? ? ? ? ? ? ? ? [] ?]; done).
  destruct (pma_side (op_mmd (a_op a))) as [side|] eqn:Hside; cbn [mbind option_bind].
  2:{ apply wp_ret. split; [by apply warned_none|]. split; [|done]. apply pages_hold_keep; [done|].
      intros sl sd. unfold sets_page. by rewrite Hside. }
  pose proof (pma_side_lt _ _ Hside) as Hlt.
  destruct (H (op_slice (a_op a)) side Hsl Hlt) as (row & Hrow & Hown).
  destruct (Z.land (op_reg (a_op a)) 0xfe00 =? 0xf000) eqn:Hpg; cbn [andb].
  2:{ apply wp_ret. split; [by apply warned_none|]. split; [|done]. apply pages_hold_keep; [done|].
      intros sl sd. unfold sets_page. destruct (Z.eqb_spec (op_reg (a_op a)) 0xf0ff) as [Hr|]; [|by rewrite andb_false_r].
      by rewrite Hr in Hpg. }
  wp_steps. destruct ((op_reg (a_op a) =? 0xf0ff) && is_write (a_op a)) eqn:Hset; cbn [negb]; wp_steps.
  - apply wp_ctx_comm; [apply Hc..|]. unfold page_owner_store. wp_steps. eapply rwp_arr_get; [done|].
    wp_steps. apply rwp_arr_set; [by eapply lookup_lt_Some|]. wp_steps. split; [by apply warned_none|].
    split; [|done]. cbn [st_g g_lint set_g_lint set_page_owner page_owner]. rewrite <-Hid, <-Hcm.
    apply pages_hold_set; [done..|]. intros sl sd. unfold sets_page. rewrite Hside, <-andb_assoc, Hset, andb_true_r.
    rewrite andb_true_iff, bool_decide_eq_true, Z.eqb_eq. naive_solver.
  - assert (forall sl sd, sets_page sl sd a = false) as Hno
      by (intros sl sd; unfold sets_page; by rewrite <-andb_assoc, Hset, andb_false_r).
    eapply rwp_arr_get; [done|]. wp_steps. eapply rwp_arr_get; [done|].
    destruct (List.find _ h) as [b|]; cbn [page_entry ow_cid ow_comm].
    + unfold foreign. rewrite Hid. cbn [mbind option_bind].
      destruct (negb (a_cid b =? 0) && negb (a_cid b =? lx_cid (g_lctx (st_g s)))); cbn [fmap option_fmap option_map option_list].
      * wp_steps. apply wp_ctx_comm; [apply Hc..|]. apply wp_warn_exact. intros w' ev Hw. unfold warned. cbn [st_out].
        rewrite Hw, <-Hcm. split; [by rewrite <-Hid|]. split; [by apply pages_hold_keep|exact (Hsame (st_g s))].
      * apply wp_ret. split; [by apply warned_none|]. split; [by apply pages_hold_keep|done].
    + apply wp_ret. split; [by apply warned_none|]. split; [by apply pages_hold_keep|done].
Qed.

(** Differences of time do not wrap. *)
Lemma u64_elapsed t0 t1 : 0 <= t0 <= t1 -> t1 < 2 ^ 64 -> u64 (t1 - t0) = t1 - t0.
Proof. intros. apply u64_id. unfold is_u64. lia. Qed.

(** Which counter an access reads. *)
Lemma reads_cor_side a :
  let cond := negb (is_write (a_op a)) && (op_reg (a_op a) =? LAN80XX_HOST_PCS25G_BASER_STATUS2) &&
    ((op_mmd (a_op a) =? LAN80XX_MMD_HOST_PCS) || (op_mmd (a_op a) =? LAN80XX_MMD_MAC_LINE_PCS)) in
  let k := if op_mmd (a_op a) =? LAN80XX_MMD_HOST_PCS then 0%nat else 1%nat in
  forall j, (j < SIDE_COUNT)%nat -> reads_cor j a = cond && bool_decide (j = k).
Proof.
  intros cond k j Hj. unfold reads_cor, cond, k. destruct (negb (is_write (a_op a)) && _); [|done].
  cbn [andb]. unfold SIDE_COUNT in Hj.
  destruct (Z.eqb_spec (op_mmd (a_op a)) LAN80XX_MMD_HOST_PCS) as [->|Hne];
    destruct j as [|[|j]]; try lia; cbn [cor_mmd orb andb bool_decide]; try done.
  - rewrite bool_decide_eq_false_2, andb_false_r by done. by apply Z.eqb_neq.
  - by rewrite bool_decide_eq_true_2, andb_true_r.
Qed.

Lemma lint_cor_reports h a s :
  ctx_ok (st_g s) -> made_by a (st_g s) -> past h (a_ts a) -> a_ts a < 2 ^ 64 ->
  cors_hold h (cor_last (g_lint (st_g s))) ->
  wp (fun _ => True) (lint_cor (a_ts a) (a_op a)) (fun _ s' =>
    warned a (option_list (CorPoach <$> cor_poach h a)) s s' /\
    cors_hold (a :: h) (cor_last (g_lint (st_g s'))) /\
    g_lint (st_g s') = set_cor_last (fun _ => cor_last (g_lint (st_g s'))) (g_lint (st_g s))) s.
Proof.
  intros Hc [Hid Hcm] Hpast Ht H. pose proof (reads_cor_side a) as Hr. cbv zeta in Hr.
  unfold lint_cor, cor_poach. set (cond := _ && ((_ =? LAN80XX_MMD_HOST_PCS) || _)) in *.
  set (k := if op_mmd (a_op a) =? LAN80XX_MMD_HOST_PCS then 0%nat else 1%nat) in *. assert (k < SIDE_COUNT)%nat as Hk
    by (unfold k, SIDE_COUNT; case_match; lia).
  rewrite (Hr 0%nat), (Hr 1%nat) by (unfold SIDE_COUNT; lia). destruct cond; cbn [andb].
  2:{ apply wp_ret. split; [by apply warned_none|]. split; [by apply cors_hold_keep|].
      by destruct (st_g s) as [? ? ? ? ? ? ? ? ? ? [] ?]. }
  assert ((if bool_decide (0%nat = k) then Some 0%nat else if bool_decide (1%nat = k) then Some 1%nat else None)
    = Some k) as -> by (unfold k; by destruct (_ =? LAN80XX_MMD_HOST_PCS)).
  match goal with |- context [CorPoach <$> ?r] => remember r as poach eqn:Hp end.
  cbn [mbind option_bind] in Hp.
  wp_steps. eapply rwp_arr_get; [by apply H|]. wp_steps. apply wp_ctx_comm; [apply Hc..|]. wp_steps.
  match goal with |- wp _ _ (fun _ s' => wp _ ?m ?Q s') _ =>
    assert (forall s', warned a (option_list (CorPoach <$> poach)) s s' -> g_lint (st_g s') = g_lint (st_g s) ->
      wp (fun _ => True) m Q s') as Hstore end.
  { intros s' Hw Hl. apply wp_setg. split; [exact Hw|]. cbn [st_g g_lint set_g_lint]. rewrite Hl.
    split; [|done]. rewrite <-Hid, <-Hcm. apply cors_hold_set; [done..|]. intros j Hj. by apply Hr. }
  destruct (List.find (reads_cor k) h) as [b|] eqn:Hf; cbn [cor_entry co_cid co_comm co_ts mbind option_bind] in *.
  2:{ subst poach. apply wp_ret, Hstore; [by apply warned_none|done]. }
  apply List.find_some in Hf as [Hin _]. apply list_elem_of_In in Hin.
  unfold past in Hpast. rewrite Forall_forall in Hpast. specialize (Hpast b Hin).
  rewrite u64_elapsed by done. unfold foreign in *. rewrite Hid in *.
  destruct (negb (a_cid b =? 0) && _ && _); subst poach; cbn [whenM].
  - apply wp_warn_exact. intros w' ev Hw. apply Hstore; [|done]. unfold warned. cbn [st_out].
    by rewrite Hw, <-Hcm, <-Hid.
  - apply wp_ret, Hstore; [by apply warned_none|done].
Qed.

(** A slot of the ring is hit exactly if it holds a read the write races with. *)
Lemma rmw_hit_entry a b :
  0 <= a_ts b <= a_ts a -> a_ts a < 2 ^ 64 ->
  rmw_hit (a_cid a) (a_ts a) (a_op a) (rd_entry b) = races a b.
Proof.
  intros Hb Ha. unfold rmw_hit, races, foreign, same_reg. cbn [rd_entry rd_cid rd_slice rd_mmd rd_reg rd_ts].
  by rewrite u64_elapsed, !andb_assoc.
Qed.

Lemma rmw_hit_clear cid now o e : rd_cid e = 0 -> rmw_hit cid now o e = false.
Proof. unfold rmw_hit. by intros ->. Qed.

(** The scan stops at the first hit, reports it and clears its client. *)
Lemma wp_rmw_scan a n i E Q s :
  ctx_ok (st_g s) -> made_by a (st_g s) -> (i + n <= length (rd_ring (g_lint (st_g s))))%nat ->
  let hit e := rmw_hit (a_cid a) (a_ts a) (a_op a) e in
  ((forall j e, (i <= j < i + n)%nat -> rd_ring (g_lint (st_g s)) !! j = Some e -> hit e = false) -> Q tt s) ->
  (forall j e s', rd_ring (g_lint (st_g s)) !! j = Some e -> hit e = true ->
     (forall b, e = rd_entry b -> 0 <= a_ts b <= a_ts a -> a_ts a < 2 ^ 64 -> warned a [RmwRace b] s s') ->
     g_lint (st_g s') = set_rd_ring (fun t => <[j := set_rd_cid (fun _ => 0) e]> t) (g_lint (st_g s)) ->
     Q tt s') ->
  wp E (rmw_scan n i (a_ts a) (a_op a)) Q s.
Proof.
  intros Hc Hm Hlen hit Hmiss Hhit. revert i Hlen Hmiss. pose proof Hm as [Hid Hcm].
  induction n as [|n IH]; intros i Hlen Hmiss; cbn [rmw_scan].
  { apply wp_ret, Hmiss. lia. }
  wp_steps. destruct (lookup_lt_is_Some_2 (rd_ring (g_lint (st_g s))) i) as [e He]; [lia|].
  eapply rwp_arr_get; [done|]. rewrite <-Hid. fold (hit e). destruct (hit e) eqn:Hh.
  - wp_steps. apply wp_ctx_comm; [apply Hc..|]. wp_steps. apply wp_warn_exact. intros w' ev Hw. apply wp_setg.
    apply (Hhit i e); [done..| |done]. intros b -> Hb Ha. unfold warned. cbn [st_out]. rewrite Hw, <-Hcm.
    cbn [rd_entry rd_cid rd_comm rd_ts]. by rewrite u64_elapsed.
  - apply IH; [lia|]. intros Hrest. apply Hmiss. intros j x Hj Hx.
    destruct (decide (j = i)) as [->|Hne]; [by simplify_eq|]. apply (Hrest j); [lia|done].
Qed.

Lemma lint_write_reports h a s :
  ctx_ok (st_g s) -> made_by a (st_g s) -> past h (a_ts a) -> a_ts a < 2 ^ 64 ->
  is_write (a_op a) = true -> ring_reads (reads_of h) (rd_ring (g_lint (st_g s))) (rd_w (g_lint (st_g s))) ->
  wp (fun _ => True) (rmw_scan RD_RING_COUNT 0 (a_ts a) (a_op a)) (fun _ s' => exists race ring,
    race_reports h a race /\ warned a race s s' /\
    ring_reads (reads_of (a :: h)) ring (rd_w (g_lint (st_g s))) /\
    g_lint (st_g s') = set_rd_ring (fun _ => ring) (g_lint (st_g s))) s.
Proof.
  intros Hc Hm Hpast Ht Hwr H. pose proof H as (Hl & _ & Hslots). cbn [reads_of]. rewrite Hwr.
  assert (forall k b w, reads_of h !! k = Some (b, w) -> 0 <= a_ts b <= a_ts a) as Hin.
  { intros k b w Hk. apply list_elem_of_lookup_2, reads_of_in in Hk as [Hk _].
    unfold past in Hpast. rewrite Forall_forall in Hpast. by apply Hpast. }
  apply (wp_rmw_scan a); [done|done|lia|..].
  - intros Hno. exists [], (rd_ring (g_lint (st_g s))). split; [|split; [by apply warned_none|]].
    + intros _ b Hb. apply list_elem_of_lookup_1 in Hb as (k & Hk).
      unfold recent in Hk. apply lookup_take_Some in Hk as [Hk Hlt].
      destruct (Hslots k Hlt) as (e & He & Hs). rewrite Hk in Hs. destruct Hs as [->|[? _]]; [|done].
      rewrite <-rmw_hit_entry by (try eapply Hin; done). eapply Hno; [|exact He].
      pose proof (ring_slot_lt RD_RING_COUNT (length (reads_of h)) k ltac:(lia)). lia.
    + split; [by apply ring_reads_mark|]. by destruct (g_lint (st_g s)).
  - intros j e s' Hj Hhit Hwarn Hlint.
    destruct (ring_slot_surj RD_RING_COUNT (length (reads_of h)) j) as (k & Hk & <-).
    { apply lookup_lt_Some in Hj. lia. }
    destruct (Hslots k Hk) as (e' & He' & Hs). simplify_eq.
    destruct (reads_of h !! k) as [[b w]|] eqn:Hrd; cbn [slot_holds] in Hs;
      [|by rewrite rmw_hit_clear in Hhit].
    destruct Hs as [->|[_ ->]]; [|by rewrite rmw_hit_clear in Hhit].
    rewrite rmw_hit_entry in Hhit by (try eapply Hin; done).
    exists [RmwRace b], (<[ring_slot RD_RING_COUNT (length (reads_of h)) k :=
      set_rd_cid (fun _ => 0) (rd_entry b)]> (rd_ring (g_lint (st_g s)))).
    split; [|split; [apply Hwarn; [done|by eapply Hin|done]|split; [|exact Hlint]]].
    + split; [done|]. split; [done|]. exists w. unfold recent. eapply list_elem_of_lookup_2.
      by apply lookup_take_Some.
    + erewrite <-(length_fmap (mark_written (a_op a))). apply ring_reads_clear; [by apply ring_reads_mark|done|].
      rewrite list_lookup_fmap, Hrd. cbn. unfold races in Hhit. destruct (same_reg _ _); [by rewrite orb_true_r|].
      by rewrite andb_false_r in Hhit.
Qed.

Lemma lint_rmw_reports h a s :
  ctx_ok (st_g s) -> made_by a (st_g s) -> past h (a_ts a) -> a_ts a < 2 ^ 64 ->
  ring_reads (reads_of h) (rd_ring (g_lint (st_g s))) (rd_w (g_lint (st_g s))) ->
  wp (fun _ => True) (lint_rmw (a_ts a) (a_op a)) (fun _ s' => exists race ring w,
    race_reports h a race /\ warned a race s s' /\ ring_reads (reads_of (a :: h)) ring w /\
    g_lint (st_g s') = set_rd_w (fun _ => w) (set_rd_ring (fun _ => ring) (g_lint (st_g s)))) s.
Proof.
  intros Hc Hm Hpast Ht H. unfold lint_rmw. destruct (is_write (a_op a)) eqn:Hwr.
  - eapply wp_mono; [by eapply lint_write_reports|]. cbn beta. intros _ s' (race & ring & ? & ? & ? & ->).
    exists race, ring, (rd_w (g_lint (st_g s))). by destruct (g_lint (st_g s)).
  - cbn [reads_of]. rewrite Hwr. wp_steps. apply wp_ctx_comm; [apply Hc..|]. wp_steps.
    pose proof H as (Hl & _). apply rwp_arr_set; [rewrite Hl; apply ring_index; unfold RD_RING_COUNT; lia|].
    wp_steps. eexists [], _, _. split; [cbn [race_reports]; by rewrite Hwr|]. split; [by apply warned_none|].
    split; [apply ring_reads_push, H|]. destruct Hm as [Hid Hcm]. unfold rd_entry, kept_comm. rewrite Hid, Hcm.
    by destruct (st_g s) as [? ? ? ? ? ? ? ? ? ? [] ?].
Qed.

Lemma wp_quiet_and {A} (m : D W A) (P : A -> st W -> Prop) E Q s :
  quiet m -> ctx_ok (st_g s) -> wp (fun _ => True) m P s ->
  (forall x s', qstep s s' -> P x s' -> Q x s') -> wp E m Q s.
Proof.
  intros Hq Hc HP HQ. eapply (wp_fault_mono (fun e => False /\ True)); [tauto|].
  eapply wp_mono; [exact (wp_and _ _ m _ _ s (Hq _ s Hc) HP)|]. cbn beta. intros x s' [? ?]. by apply HQ.
Qed.

Lemma qstep_made_by a s s' : qstep s s' -> made_by a (st_g s) -> made_by a (st_g s').
Proof.
  intros ((_ & Hcl & _ & _ & _ & _ & Hlx & _) & _) [Hid Hcm]. unfold made_by, ctx_comm.
  by rewrite Hlx, Hcl.
Qed.

Lemma warned_app a rs1 rs2 s s1 s2 :
  warned a rs1 s s1 -> warned a rs2 s1 s2 -> warned a (rs1 ++ rs2) s s2.
Proof. unfold warned. intros H1 ->. by rewrite H1, fmap_app, app_assoc. Qed.

(** The access an executed operation is for the detectors. *)
Definition access_of s o : access := Access (lx_cid (g_lctx (st_g s))) (ctx_comm (st_g s)) (w_time (st_w s)) o.

Lemma wp_lint_op h o E Q s :
  ctx_ok (st_g s) -> op_traced o -> lint_holds h (g_lint (st_g s)) -> past h (w_time (st_w s)) ->
  (forall rs s', qstep s s' -> reports_of h (access_of s o) rs -> warned (access_of s o) rs s s' ->
     lint_holds (access_of s o :: h) (g_lint (st_g s')) -> Q tt s') ->
  wp E (lint_op o) Q s.
Proof.
  intros Hc Ho [Hpg Hco Hrd] Hpast HQ. unfold lint_op. wp_steps.
  apply wp_now_time. intros w1 Ht1. set (s1 := St _ _ _). set (a := access_of s o) in *.
  assert (a_ts a < 2 ^ 64) as Hts.
  { pose proof (w_time_range (st_w s)). unfold TIME_MAX in *. cbn. lia. }
  assert (qstep s s1) as H1 by (apply qstep_diag; [done|apply Hc|cbn; lia]).
  assert (made_by a (st_g s1)) as Hm1 by done.
  change (w_time (st_w s)) with (a_ts a). change o with (a_op a). wp_steps.
  eapply (wp_quiet_and (lint_page (a_op a))); [by apply quiet_lint_page|by eapply qstep_ctx|by apply (lint_page_reports h)|].
  cbn beta. intros [] s2 H2 (R2 & Hpg2 & L2). pose proof (qstep_trans _ _ _ H1 H2) as H02. wp_steps.
  eapply (wp_quiet_and (lint_cor (a_ts a) (a_op a))); [apply quiet_lint_cor|by eapply qstep_ctx| |].
  { apply (lint_cor_reports h); [by eapply qstep_ctx|by eapply qstep_made_by|done..|]. by rewrite L2. }
  cbn beta. intros [] s3 H3 (R3 & Hco3 & L3). pose proof (qstep_trans _ _ _ H02 H3) as H03.
  eapply (wp_quiet_and (lint_rmw (a_ts a) (a_op a))); [apply quiet_lint_rmw|by eapply qstep_ctx| |].
  { apply (lint_rmw_reports h); [by eapply qstep_ctx|eapply (qstep_made_by _ s1); [by eapply qstep_trans|done]|done..|].
    by rewrite L3, L2. }
  cbn beta. intros [] s4 H4 (race & ring & w & Hrace & R4 & Hrd4 & L4).
  eapply (HQ (_ ++ _ ++ race)); [by eapply qstep_trans|by exists race| |].
  - exact (warned_app _ _ _ _ _ _ R2 (warned_app _ _ _ _ _ _ R3 R4)).
  - rewrite L4. split; [|by rewrite L3 in *|done]. cbn. rewrite L3. cbn. by rewrite L2 in *.
Qed.

(** Steps without a warning that keep the lint state. *)
Definition silent s s' : Prop :=
  g_lint (st_g s') = g_lint (st_g s) /\ warnings (st_out s') = warnings (st_out s).

Lemma trace_add_silent c o s : wp (fun _ => True) (trace_add c o) (fun _ s' => silent s s') s.
Proof.
  unfold trace_add. wp_steps. apply wp_now_us. intros w' sec nsec _. wp_steps.
  eapply (wp_mono _ _ (fun _ s' => silent s s')).
  - destruct c as [i|]; [|by apply wp_ret]. unfold get_client. wp_steps. by destruct (arr_get _ i).
  - cbn beta. intros cid s' [Hl Hw]. wp_steps. unfold arr_set. destruct (_ <? _)%nat; [|done]. by split.
Qed.

Lemma op_log_silent o rc s : ctx_ok (st_g s) -> wp (fun _ => True) (op_log o rc) (fun _ s' => silent s s') s.
Proof.
  intros Hc. unfold op_log. wp_steps. apply wp_when; intros _; [|done]. wp_steps.
  apply wp_ctx_comm; [apply Hc..|]. unfold log_debug, log_trace, trace_v. wp_steps.
  apply wp_if; intros _; [|done]. wp_steps. apply wp_ask. intros w' [sec nsec] _. wp_steps. by split.
Qed.

End Implements.

(** ** Executing operations *)

Section Operations.
Context {W : Type} {WW : World W} {WO : WorldOk W WW} {RG : Regs}
  {BE : Backend W} {BO : BackendOk W WW BE}.
Implicit Types (s : st W) (h : list access).

Lemma spi_silent ev out : Forall is_spi_event ev -> warnings (ev ++ out) = warnings out.
Proof.
  intros H. apply warnings_silent. eapply Forall_impl; [exact H|]. intros e He. by destruct e.
Qed.

Lemma op_transfer_silent o s :
  ctx_ok (st_g s) -> wp (fun _ => True) (op_transfer o) (fun _ s' => silent s s') s.
Proof.
  intros Hc. unfold op_transfer. apply wp_if; intros _; wp_steps.
  - eapply wp_fault_mono; [|apply spi_write_reg_ok; [apply Hc|]]; [done|]. intros rc w' ev _ _ Hev. wp_steps.
    split; [by destruct (rc =? 0)|by apply spi_silent].
  - eapply wp_fault_mono; [|apply spi_read_reg_ok; [apply Hc|]]; [done|]. intros rc v w' ev _ _ Hev. wp_steps.
    split; [by destruct (rc =? 0)|by apply spi_silent].
Qed.

(** What an operation adds to the history [h]: an access if it was executed, with
    the time it was executed at, and the warnings about it. *)
Definition op_heard h s (r : spiproxy_status * op) s' h' : Prop :=
  match r with
  | (SPIPROXY_OK, o') => exists a rs, h' = a :: h /\ a_op a = o' /\ made_by a (st_g s) /\
      w_time (st_w s) <= a_ts a <= w_time (st_w s') /\ reports_of h a rs /\ warned a rs s s'
  | _ => h' = h /\ warnings (st_out s') = warnings (st_out s)
  end.

Lemma past_later h t t' : past h t -> t <= t' -> past h t'.
Proof. intros H Ht. eapply Forall_impl; [exact H|]. cbn. intros b Hb. lia. Qed.

Lemma wp_transfer_silent o E Q s :
  ctx_ok (st_g s) -> op_ok o -> op_slice o < SLICE_COUNT ->
  (forall rc o' s1, qstep s s1 -> silent s s1 -> op_traced o' -> Q (rc, o') s1) ->
  wp E (op_transfer o) Q s.
Proof.
  intros Hc Ho Hsl HQ. pose proof Ho as (Hsl0 & _). eapply (wp_fault_mono (fun e => E e /\ True)); [tauto|].
  eapply wp_mono; [apply wp_and; [|by apply op_transfer_silent]|].
  - apply (wp_op_transfer o E (fun r s1 => qstep s s1 /\ op_traced (snd r))); [done..|].
    intros rc v s1 Hrc Hv _ H1. split; [done|]. split; [by apply op_set_val_ok|]. split; [apply Hsl0|done].
  - cbn beta. intros [rc o'] s1 [(? & ?) ?]. by apply HQ.
Qed.

Lemma wp_exec_op_heard h c o E Q s :
  ctx_ok (st_g s) -> op_ok o -> (forall i, c = Some i -> (i < MAX_CLIENTS)%nat) ->
  lint_holds h (g_lint (st_g s)) -> past h (w_time (st_w s)) ->
  (forall r s' h', qstep s s' -> op_heard h s r s' h' -> lint_holds h' (g_lint (st_g s')) ->
     past h' (w_time (st_w s')) -> Q r s') ->
  wp E (exec_op c o) Q s.
Proof.
  intros Hc Ho Hi HL Hp HQ. unfold exec_op.
  destruct (Z.leb_spec SLICE_COUNT (op_slice o)); [apply wp_ret; by eapply (HQ (_, _) s h (qstep_refl _ Hc))|].
  wp_steps. destruct (_ && _ && _); [apply wp_ret; by eapply (HQ (_, _) s h (qstep_refl _ Hc))|]. wp_steps.
  apply wp_transfer_silent; [done..|]. intros rc o' s1 H1 [L1 S1] Ht. wp_steps.
  eapply wp_quiet_and; [by apply quiet_trace_add|by eapply qstep_ctx|apply trace_add_silent|].
  cbn beta. intros [] s2 H2 [L2 S2]. wp_steps. pose proof (qstep_trans _ _ _ H1 H2) as H02.
  assert (ctx_ok (st_g s2)) as Hc2 by by eapply qstep_ctx. pose proof (qstep_time _ _ H02) as Ht2.
  assert (lint_holds h (g_lint (st_g s2))) as HL2 by by rewrite L2, L1.
  assert (past h (w_time (st_w s2))) as Hp2 by by eapply past_later.
  set (x := if rc =? 0 then SPIPROXY_OK else SPIPROXY_EIO).
  assert (forall s3 h', qstep s2 s3 -> lint_holds h' (g_lint (st_g s3)) -> past h' (w_time (st_w s3)) ->
    (forall s4, silent s3 s4 -> w_time (st_w s3) <= w_time (st_w s4) -> op_heard h s (x, o') s4 h') ->
    wp E (op_log o' rc;; returnM (x, o')) Q s3) as Hend.
  { intros s3 h' H3 HL3 Hp3 Hh. assert (ctx_ok (st_g s3)) as Hc3 by by eapply qstep_ctx.
    apply wp_bind. eapply wp_quiet_and; [apply quiet_op_log|done|by apply op_log_silent|].
    cbn beta. intros [] s4 H4 S4. pose proof (qstep_time _ _ H4). apply wp_ret.
    apply (HQ _ s4 h'); [do 2 (eapply qstep_trans; [done|]); done|auto|by rewrite (proj1 S4)|by eapply past_later]. }
  unfold x in *. destruct (Z.eqb_spec rc 0) as [->|Hne]; cbn [whenM].
  - eapply (wp_lint_op h o'); [done..|]. intros rs s3 H3 Hrs Hw HL3. pose proof (w_time_range (st_w s2)) as Hr.
    pose proof (qstep_time _ _ H3) as Ht3. apply (Hend s3 (access_of s2 o' :: h)); [done|done|..].
    + constructor; [cbn; unfold TIME_MAX in *; lia|by eapply past_later].
    + intros s4 [_ S4] Ht4. exists (access_of s2 o'), rs. do 2 (split; [done|]). split.
      { destruct H02 as ((_ & Hcl & _ & _ & _ & _ & Hlx & _) & _). unfold made_by, access_of, ctx_comm. cbn.
        by rewrite Hlx, Hcl. }
      split; [cbn; lia|]. split; [done|]. unfold warned in *. by rewrite S4, Hw, S2, S1.
  - apply wp_ret, (Hend s2 h); [by apply qstep_refl|done..|].
    intros s4 [_ S4] _. split; [done|]. by rewrite S4, S2, S1.
Qed.

(** An operation on behalf of a client: the log context, the slot (none for the
    daemon's own operations) and the operation. *)
Definition job : Type := logctx * option nat * op.

(** Operations executed one after the other, each in its log context. *)
Fixpoint exec_jobs (l : list job) : D W (list (spiproxy_status * op)) :=
  match l with
  | [] => returnM []
  | (lx, c, o) :: l' =>
      setg (set_g_lctx (fun _ => lx)) ;;
      let* r := exec_op c o in
      let* rs := exec_jobs l' in
      returnM (r :: rs)
  end.

Definition job_ok (j : job) : Prop :=
  let '(lx, c, o) := j in op_ok o /\ (forall i, c = Some i -> (i < MAX_CLIENTS)%nat) /\
  match lx_comm lx with CommNull => False | CommClient i => (i < MAX_CLIENTS)%nat | CommLit _ => True end.

(** The access that the execution of [o] in the context [lx], from [s] to [s1], is
    for the detectors: none if it failed, else that operation, under the client and
    process of its context, at a time within its execution. *)
Definition seen (lx : logctx) s (x : spiproxy_status) (o : op) s1 (acc : list access) : Prop :=
  if decide (x = SPIPROXY_OK) then
    exists ts, acc = [Access (lx_cid lx) (ctx_comm (set_g_lctx (fun _ => lx) (st_g s))) ts o] /\
      w_time (st_w s) <= ts <= w_time (st_w s1)
  else acc = [].

(** A run of operations, its results and the accesses it made, oldest first. *)
Inductive ran : list job -> st W -> list (spiproxy_status * op) -> list access -> st W -> Prop :=
| ran_none s : ran [] s [] [] s
| ran_job lx c o l s x o' s1 acc rs hs s' :
    exec_op c o (St (set_g_lctx (fun _ => lx) (st_g s)) (st_w s) (st_out s)) = Ok ((x, o'), s1) ->
    seen lx s x o' s1 acc -> ran l s1 rs hs s' ->
    ran ((lx, c, o) :: l) s ((x, o') :: rs) (acc ++ hs) s'.

Lemma ran_clients l s rs hs s' cid :
  ran l s rs hs s' -> Forall (fun '(lx, _, _) => lx_cid lx = cid) l -> Forall (fun a => a_cid a = cid) hs.
Proof.
  induction 1 as [|lx c o l s x o' s1 acc rs hs s' _ Hs _ IH]; intros Hl; [constructor|].
  inversion_clear Hl as [|? ? Hlx Hl']. apply Forall_app_2; [|by apply IH]. unfold seen in Hs.
  destruct (decide _); [|by subst]. destruct Hs as (ts & -> & _). by constructor.
Qed.

Lemma ctx_ok_lctx g lx c o : ctx_ok g -> job_ok (lx, c, o) -> ctx_ok (set_g_lctx (fun _ => lx) g).
Proof. intros (? & ? & _ & ?) (_ & _ & Hlx). by split_and!. Qed.

Lemma wp_exec_jobs l E : forall h lines s,
  ctx_ok (st_g s) -> Forall job_ok l -> lint_holds h (g_lint (st_g s)) -> past h (w_time (st_w s)) ->
  linted h lines ->
  wp E (exec_jobs l) (fun rs s' => exists hs new, ran l s rs hs s' /\
    linted (rev hs ++ h) (lines ++ new) /\ warnings (st_out s') = warnings (st_out s) ++ new) s.
Proof.
  induction l as [|[[lx c] o] l IH]; intros h lines s Hc Hl HL Hp Hlin; cbn [exec_jobs].
  { apply wp_ret. exists [], []. rewrite !app_nil_r. by split; [constructor|]. }
  inversion_clear Hl as [|? ? Hj Hl']. pose proof (ctx_ok_lctx _ _ _ _ Hc Hj) as Hc1.
  destruct Hj as (Ho & Hi & _). wp_steps. set (s1 := St _ _ _).
  eapply (wp_fault_mono (fun e => E e /\ True)); [tauto|].
  eapply wp_mono; [apply (wp_and E _ (exec_op c o) (fun r s2 => exists h2, qstep s1 s2 /\ op_heard h s1 r s2 h2 /\
    lint_holds h2 (g_lint (st_g s2)) /\ past h2 (w_time (st_w s2)))); [|apply wp_outcome]|].
  { apply (wp_exec_op_heard h); [done..|]. eauto 10. }
  cbn beta. intros [x o'] s2 [(h2 & H2 & Hh & HL2 & Hp2) Hrun]. wp_steps.
  assert (exists acc new, h2 = rev acc ++ h /\ seen lx s x o' s2 acc /\ linted h2 (lines ++ new) /\
    warnings (st_out s2) = warnings (st_out s) ++ new) as (acc & new & -> & Hacc & Hlin2 & Hw2).
  { unfold op_heard, seen in *. destruct x; [|destruct Hh as [-> ->]; exists [], []; by rewrite !app_nil_r..].
    destruct Hh as (a & rs & -> & <- & [Hid Hcm] & Hts & Hrs & Hw). exists [a], (report_line a <$> rs).
    split; [done|]. split; [exists (a_ts a); split; [|exact Hts]|split; [by constructor|exact Hw]].
    f_equal. destruct a. cbn in *. by subst. }
  eapply (wp_fault_mono E); [tauto|]. eapply wp_mono; [apply (IH (rev acc ++ h) (lines ++ new)); [by eapply qstep_ctx|done..]|].
  cbn beta. intros rs s3 (hs & new3 & Hran & Hlin3 & Hw3). wp_steps. exists (acc ++ hs), (new ++ new3).
  split; [by econstructor|]. split; [by rewrite rev_app_distr, <-app_assoc, (app_assoc lines)|by rewrite Hw3, Hw2, app_assoc].
Qed.

(** C18: the detectors implement their history-based specification: for any
    sequence of operations of any clients, starting with no history, the
    warnings in syslog are those of the reference detectors on the history of
    the operations that succeeded, each under its own client and process and at a
    time between the start and the end of its execution.  The reference fixes
    page-ride and cor-poach warnings completely; a race warning must name a recent
    foreign read of the register, and must be there when such a read in the ring
    has not been followed by a write. *)
Theorem lint_follows_history l s :
  ctx_ok (st_g s) -> g_lint (st_g s) = zero_lint -> Forall job_ok l ->
  exists rs s' h lines, exec_jobs l s = Ok (rs, s') /\ ran l s rs h s' /\
    linted (rev h) lines /\ warnings (st_out s') = warnings (st_out s) ++ lines.
Proof.
  intros Hc Hz Hl. destruct (wp_returns _ _ _ (wp_exec_jobs l (fun _ => False) [] [] s Hc Hl
    ltac:(rewrite Hz; apply lint_holds_zero) ltac:(constructor) linted_none)) as (rs & s' & Heq & h & new & ? & Hlin & ?).
  rewrite app_nil_r in Hlin. by exists rs, s', h, new.
Qed.

(** C19: a client alone is never warned, whatever it does: if all operations are
    logged under one client, no warning is logged. *)
Theorem lint_single_client_quiet l cid s :
  ctx_ok (st_g s) -> g_lint (st_g s) = zero_lint -> Forall job_ok l ->
  Forall (fun '(lx, _, _) => lx_cid lx = cid) l ->
  exists rs s', exec_jobs l s = Ok (rs, s') /\ warnings (st_out s') = warnings (st_out s).
Proof.
  intros Hc Hz Hl Hcid. destruct (wp_returns _ _ _ (wp_exec_jobs l (fun _ => False) [] [] s Hc Hl
    ltac:(rewrite Hz; apply lint_holds_zero) ltac:(constructor) linted_none)) as (rs & s' & Heq & h & new & Ha & Hlin & Hw).
  exists rs, s'. split; [done|]. cbn [app] in Hlin. rewrite app_nil_r in Hlin.
  rewrite Hw, (linted_alone cid _ _ Hlin), app_nil_r; [done|]. apply Forall_rev. by eapply ran_clients.
Qed.

End Operations.
