(* ===== verification/Guarantees.v ===== *)
(** * What the daemon guarantees

    The theorems about the daemon as a whole: it never leaves its buffers,
    every turn of the main loop ends, every request is answered exactly once
    by whoever drains it, claims exclude other clients from the device, and
    connections come and go without disturbing each other. *)
From S2P Require Import Prelude Bytes Proto Fmt State Queue Log Spi Exec OpSpec Mailbox Daemon Invariant.
From S2P Require Import Handlers Scheduler Exclusive TextSpec MainLoop Main.

(** ** Scheduling *)

Section Progress.
Context {W : Type} {WW : World W} {WO : WorldOk W WW} {RG : Regs}
  {BE : Backend W} {BO : BackendOk W WW BE}.
Implicit Types (s : st W) (E : fault -> Prop).

(** Only requests that must wait are left: somebody holds the claim, and each of
    them comes from another client and asks for the bus (a message type below
    CLAIM, or MAILBOX). *)
Definition all_wait s (qa : list (list nat)) : Prop :=
  forall i, i ∈ concat qa -> exists (o : nat) (it : qitem),
    claim_owner (g_claim (st_g s)) = Some o /\ pool (g_qs (st_g s)) !! i = Some it /\ q_c it <> o /\
    (h_type (q_hdr it) < type_code SPIPROXY_CLAIM \/ h_type (q_hdr it) = type_code SPIPROXY_MAILBOX).

Lemma none_eligible_waits qa fa busy s :
  inv qa fa busy (st_g s) ->
  (forall i, i ∈ concat qa ->
     eligb (item_eligible (claim_owner (g_claim (st_g s)))) (pool (g_qs (st_g s))) i = false) ->
  all_wait s qa.
Proof.
  intros I Hn i Hi. destruct (inv_live _ _ _ _ I i) as (it & Hit & _); [set_solver|].
  specialize (Hn i Hi). unfold eligb, item_eligible in Hn. rewrite Hit in Hn.
  destruct (claim_owner (g_claim (st_g s))) as [o|]; [|done]. exists o, it.
  apply orb_false_iff in Hn as [Ho%bool_decide_eq_false [Ht%Z.leb_gt|Ht%negb_false_iff%Z.eqb_eq]%andb_false_iff];
    auto 6.
Qed.

(** [exec] answers the request it is given, in a run with at most [n] others. *)
Definition answers_one (start : st W) (keys : list answer) (n : nat) E (busy : list nat)
    (exec : nat -> D W unit) : Prop :=
  forall m i owed k s1, (m < n)%nat -> let gh := Ghost start keys m in
    owes gh (i :: busy) (k :: owed) s1 -> req_key (st_g s1) i = k ->
    wp E (exec i) (answered gh (i :: busy) owed s1) s1.

Lemma answers_one_less start keys n m E busy exec :
  answers_one start keys n E busy exec -> (m <= n)%nat -> answers_one start keys m E busy exec.
Proof. intros H Hle k i owed key s1 Hk. apply H. lia. Qed.

(** Unless only waiting requests are left, the budget is used up; if nothing is
    taken at all, nothing has happened. *)
Definition progressed (budget n : nat) s s' (qa : list (list nat)) : Prop :=
  (length (concat qa) + budget <= n)%nat \/
  all_wait s' qa /\ ((length (concat qa) < n)%nat \/ s' = s).

Lemma wp_drain_progress start keys budget exec E busy owed : forall n s,
  owes (Ghost start keys n) busy owed s -> answers_one start keys n E busy exec ->
  wp E (drain_loop budget exec) (fun _ s' =>
    exists qa fa, inv qa fa busy (st_g s') /\ progressed budget n s s' qa) s.
Proof.
  induction budget as [|b IH]; intros n s HO Hex; cbn [drain_loop].
  { apply wp_ret. destruct HO as (qa & fa & ev & I & _ & _ & _ & Hm). cbn in Hm. exists qa, fa.
    split; [done|left; lia]. }
  wp_steps. set (elig := item_eligible _).
  pose proof (owes_take _ busy owed s elig HO) as Htk.
  pose proof HO as (qa & fa & ev & I & _ & _ & _ & Hm).
  pose proof (take_eligible_refines elig _ qa fa busy (inv_rep _ _ _ _ I)) as Hr.
  pose proof (pick_spec (eligb elig (pool (g_qs (st_g s)))) qa) as Hp.
  destruct (pick _ qa) as [[i0 qa']|].
  2:{ rewrite Hr. apply rwp_ok. cbn beta iota. apply wp_ret. exists qa, fa. split; [done|right].
      split; [by eapply none_eligible_waits|by right]. }
  destruct Hr as (qs' & Heq & _). rewrite Heq in Htk |- *. destruct Htk as (H2 & _ & Hmax & Hpl).
  apply rwp_ok. cbn [gh_start gh_keys gh_max] in *. wp_steps. set (s2 := St _ _ _) in *.
  eapply wp_mono; [eapply (Hex (n - 1)%nat i0); [lia|exact H2|]|].
  { cbn. by rewrite req_key_payload. }
  cbn beta. intros _ s3 (H3 & _). wp_steps.
  destruct (owes_release _ _ _ _ _ H3) as (qs3 & -> & H4). apply rwp_ok. wp_steps.
  eapply wp_mono; [eapply (IH (n - 1)%nat); [exact H4|]|].
  { eapply answers_one_less; [exact Hex|lia]. }
  cbn beta. intros _ s5 (qa5 & fa5 & I5 & H5). exists qa5, fa5. split; [done|].
  destruct H5 as [H5|[H5 H6]]; [left; lia|right]. split; [done|left]. destruct H6 as [H6| ->]; [lia|].
  destruct H4 as (qa4 & fa4 & ev4 & I4 & _ & _ & _ & Hm4). cbn in Hm4.
  pose proof (rep_count _ _ _ _ (inv_rep _ _ _ _ I4)). pose proof (rep_count _ _ _ _ (inv_rep _ _ _ _ I5)). lia.
Qed.

Lemma exec_item_answers_one start keys n E busy f :
  enough (W := W) E (S n) (S f) ->
  answers_one start keys n E busy (exec_item f (drain_queues f)).
Proof.
  intros Hf m i owed k s1 Hm gh HO Hk. eapply wp_exec_item; [done..| |].
  - intros busy2 owed2 s2 H2 Hlx2. eapply wp_mono.
    + eapply wp_drain_queues; [exact H2|]. destruct Hf as [?|[? Hf]]; [by left|right]. split; [done|cbn; lia].
    + cbn beta. intros _ s3 (H3 & Hlx3 & Ht3 & _). split; [done|]. split; [auto|done].
  - destruct Hf as [?|[? Hf]]; [by left|right]. split; [done|lia].
Qed.

End Progress.

(** Fuel that suffices for every turn of the loop: one level of nesting per
    queued request, and the polls of one mailbox wait. *)
Definition TURN_FUEL : Z := Z.of_nat (S MAX_QITEMS) + POLL_FUEL.

Section Guarantees.
Context {W : Type} {WW : World W} {WO : WorldOk W WW} {RG : Regs}.
Implicit Types (s : st W).

(** The daemon as it runs on the device. *)
#[local] Existing Instances hw_backend hw_backend_ok.

Lemma turn_enough E n fuel :
  (n <= S MAX_QITEMS)%nat -> TURN_FUEL <= Z.of_nat fuel -> enough (W := W) E n fuel.
Proof. intros Hn Hf. right. split; [done|]. unfold TURN_FUEL in Hf. lia. Qed.

(** C4: draining answers requests, each exactly once and to the client it came
    from: the requests queued before are those answered plus those still queued
    (nested drains of mailbox waits included), and the drain terminates. *)
Theorem drain_answers_once qa fa fuel budget s :
  inv qa fa [] (st_g s) -> TURN_FUEL <= Z.of_nat fuel ->
  exists s' qa' fa' ev, drain_queues fuel budget s = Ok (tt, s') /\ inv qa' fa' [] (st_g s') /\
    st_out s' = ev ++ st_out s /\
    queued_keys (st_g s) qa ≡ₚ answers ev ++ queued_keys (st_g s') qa'.
Proof.
  intros I Hf. pose proof (concat_bound _ _ _ _ I) as Hb.
  pose proof (wp_drain_queues fuel _ budget (fun _ => False) [] [] s (owes_start qa fa [] s I)
    (turn_enough _ (S (length (concat qa))) _ ltac:(lia) Hf)) as H.
  destruct (wp_returns _ _ _ H) as ([] & s' & Heq & (qa' & fa' & ev & I' & _ & Ho & Hk & _) & _).
  exists s', qa', fa', ev. by split_and!.
Qed.

(** C5: a drain makes progress: it has taken at least [budget] requests off the
    queues, or what is left has to wait: nothing, or requests for the bus of
    clients other than the one that holds the claim. *)
Theorem drain_makes_progress qa fa fuel budget s :
  inv qa fa [] (st_g s) -> TURN_FUEL <= Z.of_nat fuel ->
  exists s' qa' fa', drain_queues fuel budget s = Ok (tt, s') /\ inv qa' fa' [] (st_g s') /\
    ((length (concat qa') + budget <= length (concat qa))%nat \/ all_wait s' qa').
Proof.
  intros I Hf. pose proof (concat_bound _ _ _ _ I) as Hb.
  destruct fuel as [|f]; [unfold TURN_FUEL, POLL_FUEL in Hf; lia|].
  pose proof (wp_drain_progress s (queued_keys (st_g s) qa) budget (exec_item f (drain_queues f))
    (fun _ => False) [] [] (length (concat qa)) s (owes_start qa fa [] s I)) as H.
  destruct (wp_returns _ _ _ (H (exec_item_answers_one _ _ _ _ _ _
    (turn_enough _ (S (length (concat qa))) _ ltac:(lia) Hf)))) as ([] & s' & Heq & qa' & fa' & I' & Hp).
  exists s', qa', fa'. split_and!; [done..|]. destruct Hp as [?|[? _]]; auto.
Qed.

(** C2: every turn of the main loop returns, whatever datagrams arrive and
    whatever the device answers, and leaves a well-formed state with no mailbox
    transaction in flight, in which only well-formed responses have been sent. *)
Theorem turn_returns fuel ready s :
  orderly s -> ready_ok s ready -> TURN_FUEL <= Z.of_nat fuel ->
  exists s', loop_turn fuel ready s = Ok (tt, s') /\ orderly s'.
Proof.
  intros HI [Hnd Hc] Hf.
  destruct (wp_returns _ _ _ (wp_loop_turn fuel ready (fun _ => False) s HI Hnd Hc
    (turn_enough _ (S MAX_QITEMS) _ ltac:(lia) Hf))) as ([] & s' & H & Hs' & _). by exists s'.
Qed.

End Guarantees.

(** ** Any backend *)

Section Everywhere.
Context {W : Type} {WW : World W} {WO : WorldOk W WW} {RG : Regs}
  {BE : Backend W} {BO : BackendOk W WW BE}.
Implicit Types (s : st W).

(** C1: no turn of the main loop leaves a buffer or an array of the program or
    walks in circles in a queue, from any state the daemon can reach, for any
    datagrams, bus answers and clock, and also if the turn is cut short. *)
Theorem turn_never_faults cf fuel ready s :
  cfg_ok cf -> reachable cf s -> ready_ok s ready ->
  loop_turn fuel ready s <> Fail Oob /\ loop_turn fuel ready s <> Fail Cyclic.
Proof.
  intros Hcf Hr [Hnd Hc]. pose proof (reachable_orderly cf s Hcf Hr) as HI.
  pose proof (wp_loop_turn fuel ready (fun e => e = OutOfFuel) s HI Hnd Hc ltac:(by left)) as H.
  unfold wp in H. by split; intros Hf; rewrite Hf in H.
Qed.

(** C8: in every reachable state the pool is partitioned into the free list and
    the three queues, the counter of queued requests is exact, every queued
    request belongs to a connected client, so does the claim, the claim's
    deadline and cleanups are reset when there is none, and no mailbox
    transaction is marked in flight. *)
Theorem reachable_well_formed cf s :
  cfg_ok cf -> reachable cf s ->
  exists qa fa, rep (g_qs (st_g s)) qa fa [] /\ concat qa ++ fa ≡ₚ seq 0 MAX_QITEMS /\
    n_queued (g_qs (st_g s)) = Z.of_nat (length (concat qa)) /\
    (forall i, i ∈ concat qa -> exists it, pool (g_qs (st_g s)) !! i = Some it /\
       connected (g_cl (st_g s)) (q_c it)) /\
    claim_wf (g_cl (st_g s)) (g_claim (st_g s)) /\ g_mb_inflight (st_g s) = false.
Proof.
  intros Hcf Hr. destruct (reachable_orderly cf s Hcf Hr) as [[(qa & fa & I) Hm] _].
  pose proof (inv_rep _ _ _ _ I) as R. exists qa, fa. split; [done|]. split.
  { rewrite <-(lrep_perm _ _ _ _ (rep_lrep _ _ _ _ R)). cbn. solve_Permutation. }
  split; [apply R|]. split; [|split; [apply I|done]].
  intros i Hi. by apply (inv_live _ _ _ _ I).
Qed.

(** C25: a datagram of any length and content becomes exactly one queued request
    or is answered exactly once at once; nothing else changes hands. *)
Theorem datagram_accounted qa fa c msg n s :
  inv qa fa [] (st_g s) -> connected (g_cl (st_g s)) c ->
  n <= Z.of_nat (length msg) -> length msg = MSG_BUF -> bytes_ok msg ->
  exists s' qa' fa' ev, client_frame c msg n s = Ok (tt, s') /\ inv qa' fa' [] (st_g s') /\
    st_out s' = ev ++ st_out s /\
    key_of (g_cl (st_g s)) c (frame_hdr msg n) :: queued_keys (st_g s) qa ≡ₚ
      answers ev ++ queued_keys (st_g s') qa'.
Proof.
  intros I Hc Hn Hl Hb.
  set (k := key_of (g_cl (st_g s)) c (frame_hdr msg n)).
  set (gh := Ghost s ([k] ++ queued_keys (st_g s) qa) MAX_QITEMS).
  assert (wp (fun _ => False) (client_frame c msg n) (fun _ s' => owes gh [] [] s') s) as H.
  { eapply (wp_client_frame gh []); [by apply (owes_begin qa fa)|done..]. }
  destruct (wp_returns _ _ _ H) as ([] & s' & Heq & qa' & fa' & ev & I' & _ & Ho & Hk & _).
  exists s', qa', fa', ev. by split_and!.
Qed.

(** C26: dropping a client disconnects it and nobody else, frees the device if
    it held the claim, and answers nothing. *)
Theorem client_drop_disconnects c s :
  idle s -> connected (g_cl (st_g s)) c ->
  exists s' ev, client_drop c s = Ok (tt, s') /\ idle s' /\ ~ connected (g_cl (st_g s')) c /\
    others_stay c s s' /\ claim_owner (g_claim (st_g s')) <> Some c /\
    st_out s' = ev ++ st_out s /\ answers ev = [].
Proof.
  intros HI Hc.
  pose proof (wp_client_drop c (fun _ => False) (fun _ s' => exists ev, idle s' /\
    ~ connected (g_cl (st_g s')) c /\ others_stay c s s' /\ claim_owner (g_claim (st_g s')) <> Some c /\
    st_out s' = ev ++ st_out s /\ answers ev = []) s HI Hc) as H.
  destruct (wp_returns _ _ _ (H ltac:(intros s' ev; intros; exists ev; by split_and!)))
    as ([] & s' & Heq & ev & Hev). by exists s', ev.
Qed.

(** C9: every datagram the daemon has sent, in any reachable state, is a
    well-formed response: protocol version, the type of a request with the
    response bit, a status of the enumeration, and a length field that is the
    size of its body, at most SPIPROXY_MSG_MAX. *)
Theorem datagrams_well_formed cf s fd msg sent :
  cfg_ok cf -> reachable cf s -> EvSend fd msg sent ∈ st_out s ->
  exists req x body, hdr_ok req /\ (length body <= SPIPROXY_MSG_MAX)%nat /\
    msg = response req x body /\
    hdr_decode msg = Hdr SPIPROXY_VER (Z.lor (h_type req) SPIPROXY_RESP) (status_code x) (h_seq req)
                         (Z.of_nat (length body)) /\
    length msg = (hdr_size + length body)%nat.
Proof.
  intros Hcf Hr Hin. destruct (reachable_orderly cf s Hcf Hr) as [_ Hw].
  destruct (Hw _ _ _ Hin) as (req & x & body & Hreq & Hlen & ->). exists req, x, body.
  do 3 (split; [done|]). split.
  - rewrite <-(app_nil_r (response req x body)). apply response_hdr; [done|].
    apply Nat2Z.inj_le in Hlen. change (Z.of_nat SPIPROXY_MSG_MAX) with 4096 in Hlen. lia.
  - unfold response. by rewrite length_app, length_hdr_encode.
Qed.

(** from any accepted command line the start-up ends in a well-formed idle
    state, whatever the device answers; the daemon goes on to serve exactly when
    the device could be opened and locked and the socket is listening. *)
Theorem start_up_well_formed fopens opts cf b chips w :
  daemon_config fopens opts = Some cf ->
  (String.length (cf_dev cf) + String.length (default "on" (cf_rst_line cf)) <= Z.to_nat 1024)%nat ->
  exists r s, main_start b chips (St (init_glob cf) w []) = Ok (r, s) /\ orderly s /\
    r = (bt_open b && bt_flock b && bt_listen b).
Proof.
  intros Hcf Hlen. pose proof (ranges_cfg_ok cf (daemon_config_ranges _ _ _ Hcf) Hlen) as Hok.
  destruct (wp_returns _ _ _ (wp_main_start b chips (fun _ => False) _ (init_orderly cf w [] Hok eq_refl))) as (r & s & Heq & Hs & _ & Hr).
  exists r, s. by split.
Qed.

End Everywhere.
