(* ===== verification/Liveness.v ===== *)
(** * Every request is served

    Requests wait only for the holder of a claim, and claims run out.  Once the
    sockets are quiet, each turn of the main loop that starts after the current
    claim's deadline takes a request off the queues, so as many turns as there
    are requests answer all of them. *)
From S2P Require Import Prelude Bytes Proto Fmt State Queue Log Spi Exec OpSpec Mailbox Daemon Invariant.
From S2P Require Import Handlers Scheduler Exclusive TextSpec MainLoop Main Guarantees.

Section Liveness.
Context {W : Type} {WW : World W} {WO : WorldOk W WW} {RG : Regs}.
Implicit Types (s : st W).

#[local] Existing Instances hw_backend hw_backend_ok.

(** The wait has lasted until [w]: no earlier than now, and past the deadline of
    the claim if there is one. *)
Definition late s (w : W) : Prop :=
  w_time (st_w s) <= w_time w /\
  (claim_owner (g_claim (st_g s)) <> None -> claim_deadline (g_claim (st_g s)) < w_time w).

(** [P] holds after [k] turns with quiet sockets, however long the waits before
    them last beyond the deadlines. *)
Fixpoint after_turns (fuel k : nat) (P : st W -> Prop) s : Prop :=
  match k with
  | O => P s
  | S k' => forall w, late s w -> exists s', loop_turn fuel [] (St (st_g s) w (st_out s)) = Ok (tt, s') /\
              after_turns fuel k' P s'
  end.

Lemma after_turns_mono fuel k (P Q : st W -> Prop) s :
  after_turns fuel k P s -> (forall s', P s' -> Q s') -> after_turns fuel k Q s.
Proof.
  revert s. induction k as [|k IH]; intros s; cbn [after_turns]; [auto|]. intros H HPQ w Hw.
  destruct (H w Hw) as (s' & ? & ?). exists s'. auto.
Qed.

(** A claim past its deadline is ended. *)
Lemma wp_expire_late gh E Q s :
  owes gh [] [] s -> (claim_owner (g_claim (st_g s)) <> None -> claim_deadline (g_claim (st_g s)) < w_time (st_w s)) ->
  (forall s', owes gh [] [] s' -> claim_owner (g_claim (st_g s')) = None ->
     g_mb_inflight (st_g s') = g_mb_inflight (st_g s) -> Q tt s') ->
  wp E expire_claim Q s.
Proof.
  intros HO Hlate HQ. destruct (owes_inv _ _ _ _ HO) as (qa & fa & I). unfold expire_claim. wp_steps.
  pose proof (inv_claim _ _ _ _ I) as (_ & _ & _ & _ & Hown).
  destruct (claim_owner (g_claim (st_g s))) as [o|] eqn:Ho; [|by apply wp_ret, HQ].
  destruct Hown as (cl & Hcl & _). wp_steps. apply wp_now_time. intros w1 Ht1.
  rewrite (proj2 (Z.ltb_lt _ _)) by by apply Hlate. cbn [whenM]. wp_steps.
  eapply wp_get_client; [done|]. wp_steps. apply wp_log_msg. intros w2 o2 Ht2 Ho2. cbn [st_w st_g st_out] in *.
  apply wp_bind, wp_log_debug. intros w3 o3 Ht3 Ho3. cbn [st_w st_g st_out] in *.
  eapply (wp_claim_end gh [] []).
  - rewrite app_assoc. apply owes_logged; [done|lia|by apply Forall_app_2].
  - intros s' H' _ (_ & _ & Hm & _) Hn. by apply HQ.
Qed.

(** Nobody waits for a device that is free. *)
Lemma free_none_wait s qa fa busy :
  inv qa fa busy (st_g s) -> claim_owner (g_claim (st_g s)) = None -> all_wait s qa -> concat qa = [].
Proof.
  intros I Hn Hw. destruct (concat qa) as [|i l] eqn:Hc; [done|]. exfalso.
  destruct (Hw i ltac:(rewrite Hc; set_solver)) as (o & it & Ho & _). by rewrite Hn in Ho.
Qed.

(** The requests of [qa] split into the answers of the run and those in [qa']. *)
Definition accounted qa s s' (qa' : list (list nat)) : Prop :=
  exists fa' ev, inv qa' fa' [] (st_g s') /\ g_mb_inflight (st_g s') = false /\
    st_out s' = ev ++ st_out s /\ queued_keys (st_g s) qa ≡ₚ answers ev ++ queued_keys (st_g s') qa'.

Lemma accounted_trans qa qa1 qa2 s s1 s2 :
  accounted qa s s1 qa1 -> accounted qa1 s1 s2 qa2 -> accounted qa s s2 qa2.
Proof.
  intros (fa1 & ev1 & _ & _ & Ho1 & Hk1) (fa2 & ev2 & I2 & Hm2 & Ho2 & Hk2). exists fa2, (ev2 ++ ev1).
  split; [done|]. split; [done|]. split; [by rewrite Ho2, Ho1, app_assoc|]. rewrite Hk1, Hk2. unfold answers.
  rewrite omap_app. solve_Permutation.
Qed.

(** A late turn accounts for every request and takes one off the queues. *)
Lemma late_turn qa fa fuel s :
  inv qa fa [] (st_g s) -> g_mb_inflight (st_g s) = false -> TURN_FUEL <= Z.of_nat fuel ->
  (claim_owner (g_claim (st_g s)) <> None -> claim_deadline (g_claim (st_g s)) < w_time (st_w s)) ->
  exists s', loop_turn fuel [] s = Ok (tt, s') /\ exists qa', accounted qa s s' qa' /\
    (length (concat qa') <= length (concat qa) - 1)%nat.
Proof.
  intros I Hm Hf Hlate. apply wp_unit. pose proof (concat_bound _ _ _ _ I) as Hb.
  set (n := length (concat qa)) in *. set (gh := Ghost s (queued_keys (st_g s) qa) n).
  unfold loop_turn. cbn [forM]. wp_steps. apply (wp_expire_late gh); [by apply (owes_start qa fa)|done|].
  intros s1 H1 Hn1 Hm1. destruct fuel as [|f]; [unfold TURN_FUEL, POLL_FUEL in Hf; lia|].
  pose proof (turn_enough (fun _ => False) (S n) _ ltac:(lia) Hf) as Henough.
  eapply (wp_fault_mono (fun e => False /\ False)); [tauto|]. eapply wp_mono; [apply wp_and|].
  - apply (wp_drain_queues (S f) gh 64 _ [] [] s1 H1 Henough).
  - exact (wp_drain_progress s (queued_keys (st_g s) qa) 64 (exec_item f (drain_queues f)) _ [] [] n s1 H1
      (exec_item_answers_one _ _ _ _ _ _ Henough)).
  - cbn beta. intros [] s2 [((qa2 & fa2 & ev & I2 & _ & Ho2 & Hk2 & Hm2) & _ & _ & Hm2') (qa3 & fa3 & I3 & Hp)].
    cbn in Ho2, Hk2, Hm2. exists qa2. split.
    { exists fa2, ev. split_and!; try done. destruct (g_mb_inflight (st_g s2)); [|done].
      rewrite Hm2' in Hm1; congruence. }
    pose proof (rep_count _ _ _ _ (inv_rep _ _ _ _ I2)) as C2.
    pose proof (rep_count _ _ _ _ (inv_rep _ _ _ _ I3)) as C3. destruct Hp as [Hp|[Hw [Hp| ->]]]; [lia..|].
    rewrite (free_none_wait _ _ _ _ I3 Hn1 Hw) in C3. cbn in C3. lia.
Qed.

Lemma late_turns qa fa fuel k s :
  inv qa fa [] (st_g s) -> g_mb_inflight (st_g s) = false -> TURN_FUEL <= Z.of_nat fuel ->
  (length (concat qa) <= k)%nat ->
  after_turns fuel k (fun s' => exists qa', accounted qa s s' qa' /\ concat qa' = []) s.
Proof.
  revert qa fa s. induction k as [|k IH]; intros qa fa s I Hm Hf Hk; cbn [after_turns].
  { exists qa. split; [by exists fa, []|]. apply nil_length_inv. lia. }
  intros w [Ht Hlate]. set (s0 := St (st_g s) w (st_out s)).
  destruct (late_turn qa fa fuel s0 I Hm Hf Hlate) as (s1 & Heq & qa1 & H1 & Hl1).
  exists s1. split; [done|]. pose proof H1 as (fa1 & _ & I1 & Hm1 & _).
  eapply after_turns_mono; [apply (IH qa1 fa1 s1 I1 Hm1 Hf); lia|].
  cbn beta. intros s2 (qa2 & H2 & Hc2). exists qa2. split; [|done]. by eapply (accounted_trans qa qa1).
Qed.

(** C6: every request is served: after as many turns with quiet sockets as there
    are queued requests, each starting when the claim of the moment has passed
    its deadline, the queues are empty, and each of the requests has been
    answered exactly once, to its client. *)
Theorem requests_served qa fa fuel k s :
  inv qa fa [] (st_g s) -> g_mb_inflight (st_g s) = false -> TURN_FUEL <= Z.of_nat fuel ->
  n_queued (g_qs (st_g s)) <= Z.of_nat k ->
  after_turns fuel k (fun s' => idle s' /\ n_queued (g_qs (st_g s')) = 0 /\
    exists ev, st_out s' = ev ++ st_out s /\ queued_keys (st_g s) qa ≡ₚ answers ev) s.
Proof.
  intros I Hm Hf Hk. pose proof (rep_count _ _ _ _ (inv_rep _ _ _ _ I)) as C.
  eapply after_turns_mono; [by apply (late_turns qa fa); [..|lia]|].
  cbn beta. intros s' (qa' & (fa' & ev & I' & Hm' & Ho & Hq) & Hc). split; [split; [by exists qa', fa'|done]|].
  rewrite (rep_count _ _ _ _ (inv_rep _ _ _ _ I')), Hc. split; [done|]. exists ev. split; [done|].
  unfold queued_keys in Hq at 2. by rewrite Hc, app_nil_r in Hq.
Qed.

End Liveness.
