(* ===== verification/Cli.v ===== *)
(** * The command-line client

    spiproxy_cli.c: one request and its answer over the daemon's socket, and
    the commands built on it.  The other end of the socket is any [Peer]; the
    program's globals, its output and the datagrams it sends are the state. *)
From Stdlib Require Import Sorted.
From S2P Require Import Prelude Bytes Proto Fmt ParseUint Getopt State.

(** ** The environment of the program *)

Class Peer (P : Type) := {
  p_connect : P -> P * option Z;          (* socket and connect: the descriptor *)
  p_send : P -> list Z -> P * Z;          (* send: rc *)
  p_recv : P -> P * (Z * list Z);         (* recv: n, the bytes stored *)
  p_clock : P -> P * (Z * Z);             (* clock_gettime: tv_sec, tv_nsec *)
  p_sleep : P -> Z -> P;                  (* usleep *)
  p_strerror : P -> string;               (* the text perror adds *)
  p_calloc : P -> Z -> bool;              (* calloc of that many words succeeds *)
  p_stack : P -> nat -> list Z }.         (* an uninitialised automatic array *)

(** Documented behaviour: descriptors are not negative, recv stores the [n]
    bytes it reports and never more than the buffer holds. *)
Class PeerOk (P : Type) (PE : Peer P) : Prop := {
  p_connect_fd p fd : snd (p_connect p) = Some fd -> 0 <= fd;
  p_recv_buf p : let '(n, data) := snd (p_recv p) in
                 n <= Z.of_nat MSG_BUF /\ length data = Z.to_nat n /\ bytes_ok data;
  p_stack_bytes p n : length (p_stack p n) = n /\ bytes_ok (p_stack p n) }.

(** qsort of an array of 32-bit words: the elements in another order, which is
    ascending when the comparison agrees with [<=] on them. *)
Class Qsort := qsort : (Z -> Z -> Z) -> list Z -> list Z.
Class QsortOk (QS : Qsort) : Prop := {
  qsort_perm cmp l : qsort cmp l ≡ₚ l;
  qsort_sorted cmp l :
    (forall a b, a ∈ l -> b ∈ l -> (cmp a b <= 0 <-> a <= b)) -> StronglySorted Z.le (qsort cmp l) }.

Definition cmp_u32 (a b : Z) : Z :=
  let d := u32 (a - b) in if d <? 2 ^ 31 then d else d - 2 ^ 32.

(** [(int)(n * x)] for the double [x] = [c] / 2^53: the product is rounded to 53
    significant bits (ties to even), then truncated. *)
Definition round53 (x : Z) : Z :=
  let k := Z.log2 x - 52 in
  if k <=? 0 then x else
  let q := x / 2 ^ k in let r := x mod 2 ^ k in
  (if (2 ^ k <? 2 * r) || ((2 * r =? 2 ^ k) && Z.odd q) then q + 1 else q) * 2 ^ k.
Definition int_of_mul (n c : Z) : Z := round53 (n * c) / 2 ^ 53.
(** The doubles nearest to 0.9 and 0.99. *)
Definition DOUBLE_0_9 : Z := 8106479329266893.
Definition DOUBLE_0_99 : Z := 8917127262193582.

Inductive cli_event :=
| CliOut (s : string)        (* stdout *)
| CliErr (s : string)        (* stderr *)
| CliSent (msg : list Z).    (* a datagram handed to send *)

Record cli (P : Type) := Cli {
  cl_sock_fd : Z;
  cl_sock : string;
  cl_seq : Z;
  cl_peer : P;
  cl_log : list cli_event }.     (* newest first *)
Arguments Cli {P} cl_sock_fd cl_sock cl_seq cl_peer cl_log.
Arguments cl_sock_fd {P} c.
Arguments cl_sock {P} c.
Arguments cl_seq {P} c.
Arguments cl_peer {P} c.
Arguments cl_log {P} c.

Abbreviation C P := (M (cli P)).

(** EXIT_SUCCESS and EXIT_FAILURE. *)
Definition EXIT_SUCCESS : Z := 0.
Definition EXIT_FAILURE : Z := 1.

Section Client.
Context {P : Type} {PE : Peer P} {RG : Regs} {QS : Qsort}.

Definition say (e : cli_event) : C P unit :=
  modifyM (fun c => Cli (cl_sock_fd c) (cl_sock c) (cl_seq c) (cl_peer c) (e :: cl_log c)).
Definition out (s : string) : C P unit := say (CliOut s).
Definition err (s : string) : C P unit := say (CliErr s).
Definition set_fd (fd : Z) : C P unit :=
  modifyM (fun c => Cli fd (cl_sock c) (cl_seq c) (cl_peer c) (cl_log c)).
Definition ask_peer {A} (f : P -> P * A) : C P A :=
  fun c => let '(p, a) := f (cl_peer c) in
           Ok (a, Cli (cl_sock_fd c) (cl_sock c) (cl_seq c) p (cl_log c)).
Definition stack (n : nat) : C P (list Z) := fun c => Ok (p_stack (cl_peer c) n, c).
Definition perror (what : string) : C P unit :=
  let* c := getM in err (what +:+ ": " +:+ p_strerror (cl_peer c) +:+ nl).

Definition cli_now_us : C P Z :=
  let* '(sec, nsec) := ask_peer p_clock in
  returnM (u64 (u64 (sec * 1000000) + nsec / 1000)).

(** ** One request and its answer *)

(** The caller's response buffer and its size, absent when the caller passes
    NULL. *)
Definition resp_buf : Type := option (list Z * Z).

Definition parse_resp (msg : list Z) (n want_seq want_type : Z) (dst : resp_buf) : C P (Z * resp_buf) :=
  if n <? Z.of_nat hdr_size then
    err ("short response (" +:+ dec_int n +:+ " bytes)" +:+ nl) ;; returnM (-1, dst)
  else
  let* b := liftM (buf_read msg 0 hdr_size) in
  let h := hdr_decode b in
  if negb (h_seq h =? want_seq) || negb (h_type h =? Z.lor want_type SPIPROXY_RESP) then
    err ("bad response (seq " +:+ dec (h_seq h) +:+ " type " +:+ hex_alt (h_type h) +:+ ")" +:+ nl) ;;
    returnM (-1, dst)
  else
  match dst with
  | None => returnM (h_flags h, None)
  | Some (resp, rlen) =>
      let avail := u32 (n - Z.of_nat hdr_size) in
      let r1 := if h_len h <? rlen then h_len h else rlen in
      let r2 := if avail <? r1 then avail else r1 in
      let* body := liftM (buf_read msg hdr_size (Z.to_nat r2)) in
      let* resp' := liftM (buf_write resp 0 body) in
      returnM (h_flags h, Some (resp', r2))
  end.

(** [if (sock_fd < 0) ...]: the result tells whether the program goes on. *)
Definition connect_lazily : C P bool :=
  let* c := getM in
  if cl_sock_fd c <? 0 then
    let* r := ask_peer p_connect in
    match r with
    | Some fd => set_fd fd ;; returnM true
    | None => perror (cl_sock c) ;; set_fd (-1) ;; returnM false
    end
  else returnM true.

Definition next_seq : C P Z :=
  let* c := getM in
  let s := u32 (cl_seq c + 1) in
  modifyM (fun c => Cli (cl_sock_fd c) (cl_sock c) s (cl_peer c) (cl_log c)) ;; returnM s.

(** Header and body of the request, stored at the start of the buffer. *)
Definition build_msg (msg : list Z) (h : hdr) (body : list Z) : res (list Z) :=
  let! msg1 := buf_write msg 0 (hdr_encode h) in
  if h_len h =? 0 then Ok msg1 else
  let! src := buf_read body 0 (Z.to_nat (h_len h)) in
  buf_write msg1 hdr_size src.

Definition xfer (type flags : Z) (body : list Z) (blen : Z) (dst : resp_buf) : C P (Z * resp_buf) :=
  let* msg0 := stack MSG_BUF in
  let* ok := connect_lazily in
  if negb ok then returnM (-1, dst) else
  let* seq := next_seq in
  let* msg1 := liftM (build_msg msg0 (Hdr SPIPROXY_VER type flags seq blen) body) in
  let* sent := liftM (buf_read msg1 0 (hdr_size + Z.to_nat blen)) in
  say (CliSent sent) ;;
  let* rc := ask_peer (fun p => p_send p sent) in
  if rc <? 0 then perror "send" ;; returnM (-1, dst) else
  let* '(n, data) := ask_peer p_recv in
  if n <? 0 then perror "recv" ;; returnM (-1, dst) else
  let* msg2 := liftM (buf_write msg1 0 data) in
  parse_resp msg2 n seq type dst.

(** A register operation whose buffer is also the response buffer. *)
Definition xfer_op (type flags : Z) (o : op) : C P (Z * op) :=
  let* '(st, dst) := xfer type flags (op_encode o) (Z.of_nat op_size)
                       (Some (op_encode o, Z.of_nat op_size)) in
  returnM (st, match dst with Some (b, _) => op_decode b | None => o end).

(** ** The commands *)

(** [if (!parse_uint(...)) return EXIT_FAILURE;] *)
Definition numeric (s : string) (base lo hi : Z) (k : Z -> C P Z) : C P Z :=
  match parse_uint s base lo hi with
  | Some v => k v
  | None => err (invalid_numeric s) ;; returnM EXIT_FAILURE
  end.

(** [st != SPIPROXY_OK] as an exit code. *)
Definition exit_of (st : Z) : Z := if st =? status_code SPIPROXY_OK then 0 else 1.

(** The register operation of the arguments, and [struct spiproxy_op op = { 0 }]. *)
Definition op0 : op := Op 0 0 0 0 0 0 0.
Definition device_id_op : op := Op 0 0 LAN80XX_MMD_GLOBAL 0 LAN80XX_MCU_IO_MNGT_MISC_DEVICE_ID_REG 0 0.

Definition cmd_read (a1 a2 a3 : string) : C P Z :=
  numeric a1 0 0 0xff (fun slice =>
  numeric a2 0 0 0xff (fun mmd =>
  numeric a3 0 0 0xffff (fun reg =>
  let* '(st, o) := xfer_op (type_code SPIPROXY_READ) 0 (Op slice 0 mmd 0 reg 0 0) in
  out ("status=" +:+ dec_int st +:+ " slice=" +:+ dec (op_slice o) +:+ " mmd=0x" +:+ hex 2 (op_mmd o) +:+
       " reg=0x" +:+ hex 4 (op_reg o) +:+ " val=0x" +:+ hex 8 (op_val o) +:+ nl) ;;
  returnM (exit_of st)))).

Definition cmd_write (a1 a2 a3 a4 : string) : C P Z :=
  numeric a1 0 0 0xff (fun slice =>
  numeric a2 0 0 0xff (fun mmd =>
  numeric a3 0 0 0xffff (fun reg =>
  numeric a4 0 0 0xffffffff (fun val =>
  let* '(st, _) := xfer_op (type_code SPIPROXY_WRITE) 0 (Op slice 0 mmd 0 reg 0 val) in
  out ("status=" +:+ dec_int st +:+ nl) ;;
  returnM (exit_of st))))).

(** An optional argument: [dflt] when it is missing. *)
Definition optional (a : option string) (dflt : Z) (k : Z -> C P Z) : C P Z :=
  match a with Some s => numeric s 0 0 0xffffffff k | None => k dflt end.

(** [args] are the words after the command. *)
Definition cmd_reset (args : list string) : C P Z :=
  optional (args !! 0%nat) 0 (fun assert_us =>
  optional (args !! 1%nat) 0 (fun deassert_us =>
  let* '(st, _) := xfer (type_code SPIPROXY_RESET) 0 (reset_encode (ResetReq assert_us deassert_us))
                     (Z.of_nat reset_size) None in
  (if st =? status_code SPIPROXY_ENOSYS then
     err ("reset: daemon has no reset GPIO configured (start it with -r <line-name>, e.g. -r lan8023-rst)"
          +:+ nl)
   else returnM tt) ;;
  out ("status=" +:+ dec_int st +:+ nl) ;;
  returnM (exit_of st))).

(** The latencies of the bench command: [k] more reads from the [i]-th on, the
    first fifty of them (negative [i]) only warm up. *)
Fixpoint bench_loop (k : nat) (i : Z) (o : op) (lat : list Z) : C P (option (op * list Z)) :=
  match k with
  | O => returnM (Some (o, lat))
  | S k' =>
      let* t := cli_now_us in
      let* '(st, o') := xfer_op (type_code SPIPROXY_READ) 0 o in
      if negb (st =? status_code SPIPROXY_OK) then
        err ("read failed at " +:+ dec_int i +:+ nl) ;; returnM None
      else
      let* lat' := (if 0 <=? i then
                      let* now := cli_now_us in
                      liftM (arr_set lat (Z.to_nat i) (u32 (now - t)))
                    else returnM lat) in
      bench_loop k' (i + 1) o' lat'
  end.

(** The five entries of the sorted latencies that are printed. *)
Definition bench_report (n : Z) (sorted : list Z) : res (Z * Z * Z * Z * Z) :=
  let! vmin := arr_get sorted 0 in
  let! p50 := arr_get sorted (Z.to_nat (n / 2)) in
  let! p90 := arr_get sorted (Z.to_nat (int_of_mul n DOUBLE_0_9)) in
  let! p99 := arr_get sorted (Z.to_nat (int_of_mul n DOUBLE_0_99)) in
  let! vmax := arr_get sorted (Z.to_nat (n - 1)) in
  Ok (vmin, p50, p90, p99, vmax).

Definition cmd_bench (a1 : string) : C P Z :=
  numeric a1 10 1 (2 ^ 31 - 1) (fun n =>
  let* c := getM in
  if negb (p_calloc (cl_peer c) n) then perror "calloc" ;; returnM EXIT_FAILURE else
  let* r := bench_loop (Z.to_nat (n + 50)) (-50) device_id_op (replicate (Z.to_nat n) 0) in
  match r with
  | None => returnM EXIT_FAILURE
  | Some (o, lat) =>
      let* '(vmin, p50, p90, p99, vmax) := liftM (bench_report n (qsort cmp_u32 lat)) in
      out ("proxied read rtt: n=" +:+ dec_int n +:+ " min=" +:+ dec vmin +:+ " p50=" +:+ dec p50 +:+
           " p90=" +:+ dec p90 +:+ " p99=" +:+ dec p99 +:+ " max=" +:+ dec vmax +:+ " us (val=0x" +:+
           hex 8 (op_val o) +:+ ")" +:+ nl) ;;
      returnM EXIT_SUCCESS
  end).

(** [while (now_us() < t_end)]. *)
Fixpoint hammer_loop (fuel : nat) (t_end cnt : Z) (o : op) : C P Z :=
  match fuel with
  | O => failM OutOfFuel
  | S f =>
      let* now := cli_now_us in
      if now <? t_end then
        let* '(st, o') := xfer_op (type_code SPIPROXY_READ) SPIPROXY_PRIO_LOW o in
        if negb (st =? status_code SPIPROXY_OK) then
          err ("hammer: read failed" +:+ nl) ;; returnM EXIT_FAILURE
        else if (op_val o' =? 0) || negb (Z.land (op_val o') 0xff00 =? 0x8000) then
          err ("hammer: bad DEVICE_ID 0x" +:+ hex 8 (op_val o') +:+ " after " +:+ dec cnt +:+ " reads" +:+ nl) ;;
          returnM EXIT_FAILURE
        else hammer_loop f t_end (u64 (cnt + 1)) o'
      else
        out ("hammer: " +:+ dec cnt +:+ " reads, all DEVICE_ID ok (0x" +:+ hex 8 (op_val o) +:+ ")" +:+ nl) ;;
        returnM EXIT_SUCCESS
  end.

Definition cmd_hammer (fuel : nat) (a1 : string) : C P Z :=
  numeric a1 10 0 (2 ^ 31 - 1) (fun v =>
  let* now := cli_now_us in
  hammer_loop fuel (u64 (now + v * 1000000)) 0 device_id_op).

Definition cmd_claimtest (a1 : string) : C P Z :=
  numeric a1 10 0 0xffffffff (fun v =>
  let req := claim_encode (ClaimReq v 1 0) ++ op_encode device_id_op in
  let* '(st, _) := xfer (type_code SPIPROXY_CLAIM) 0 req (Z.of_nat (claim_size + op_size)) None in
  out ("claim: status=" +:+ dec_int st +:+ nl) ;;
  if negb (st =? status_code SPIPROXY_OK) then returnM EXIT_FAILURE else
  let* '(st1, o) := xfer_op (type_code SPIPROXY_READ) 0 device_id_op in
  out ("read under claim: status=" +:+ dec_int st1 +:+ " val=0x" +:+ hex 8 (op_val o) +:+ nl) ;;
  ask_peer (fun p => (p_sleep p 200000, tt)) ;;
  let* '(st2, _) := xfer (type_code SPIPROXY_RELEASE) 0 [] 0 None in
  out ("release: status=" +:+ dec_int st2 +:+ nl) ;;
  returnM EXIT_SUCCESS).

(** The payload arguments: [Some] bytes, or an early exit. *)
Fixpoint payload_args (args : list string) (payload : list Z) (k : list Z -> C P Z) : C P Z :=
  match args with
  | [] => k payload
  | a :: args' =>
      if SPIPROXY_MB_MAX <=? Z.of_nat (length payload) then
        err ("mailbox: too many payload bytes (max " +:+ dec SPIPROXY_MB_MAX +:+ ")" +:+ nl) ;;
        returnM EXIT_FAILURE
      else numeric a 16 0 0xff (fun v => payload_args args' (payload ++ [v]) k)
  end.

(** [n] more payload bytes of the response, from the [i]-th on. *)
Fixpoint dump_bytes (n i : nat) (resp : list Z) : C P unit :=
  match n with
  | O => returnM tt
  | S n' =>
      let* b := liftM (buf_get resp (mb_size + i)) in
      out (hex 2 b +:+ (if Z.land (Z.of_nat i) 15 =? 15 then nl else " ")) ;;
      dump_bytes n' (S i) resp
  end.

Definition cmd_mailbox (timeout_ms : Z) (a1 : string) (args : list string) : C P Z :=
  numeric a1 0 0 0xff (fun cmd =>
  payload_args args [] (fun payload =>
  let* resp0 := stack (mb_size + Z.to_nat SPIPROXY_MB_MAX) in
  let len := Z.of_nat (length payload) in
  let* '(st, dst) := xfer (type_code SPIPROXY_MAILBOX) 0 (mb_encode (Mb 0 cmd len timeout_ms) ++ payload)
                       (Z.of_nat mb_size + len) (Some (resp0, Z.of_nat (mb_size + Z.to_nat SPIPROXY_MB_MAX))) in
  let resp := match dst with Some (b, _) => b | None => resp0 end in
  let* mbb := liftM (buf_read resp 0 mb_size) in
  let rmb := mb_decode mbb in
  out ("mailbox: status=" +:+ dec_int st +:+ " resp_id=0x" +:+ hex 2 (mb_cmd rmb) +:+
       " payload_len=" +:+ dec (mb_payload_len rmb) +:+ nl) ;;
  let ok := st =? status_code SPIPROXY_OK in
  whenM ok (dump_bytes (Z.to_nat (mb_payload_len rmb)) 0 resp) ;;
  whenM (ok && negb (mb_payload_len rmb =? 0)) (out nl) ;;
  returnM (exit_of st))).

(** A NUL-terminated text in a buffer. *)
Fixpoint c_string (l : list Z) : res string :=
  match l with
  | [] => Fail Oob
  | b :: l' => if b =? 0 then Ok ""%string
               else let! s := c_string l' in Ok (String (Ascii.ascii_of_nat (Z.to_nat b)) s)
  end.

Definition cmd_text (type : spiproxy_type) : C P Z :=
  let* txt0 := stack (SPIPROXY_MSG_MAX + 1) in
  let* '(st, dst) := xfer (type_code type) 0 [] 0 (Some (txt0, Z.of_nat SPIPROXY_MSG_MAX)) in
  let '(txt, rlen) := default (txt0, 0) dst in
  let* txt' := liftM (arr_set txt (Z.to_nat rlen) 0) in
  let* s := liftM (c_string txt') in
  out s ;;
  returnM (exit_of st).

(** ** main *)

(** Options in the order [getopt] reports them, with what it says about a wrong
    one. *)
Inductive cli_opt := CliSock (a : string) | CliTimeout (a : string) | CliUsage (said : list string).
Definition cli_opt_of (prog : string) (g : got) : cli_opt :=
  match g with
  | GotOpt "s" a => CliSock a
  | GotOpt "t" a => CliTimeout a
  | g => CliUsage (got_message prog g)
  end%char.

(** The options set the socket and the mailbox timeout. *)
Fixpoint cli_options (opts : list cli_opt) (timeout_ms : Z) (k : Z -> C P Z) : C P Z :=
  match opts with
  | [] => k timeout_ms
  | CliSock a :: opts' =>
      modifyM (fun c => Cli (cl_sock_fd c) a (cl_seq c) (cl_peer c) (cl_log c)) ;;
      cli_options opts' timeout_ms k
  | CliTimeout a :: opts' => numeric a 0 0 0xffffffff (fun v => cli_options opts' v k)
  | CliUsage said :: _ => forM said err ;; err ("see header comment for usage" +:+ nl) ;; returnM EXIT_FAILURE
  end.

(** The command [argv[0]] and its arguments.  [fuel] bounds the reads of hammer. *)
Definition cli_command (fuel : nat) (timeout_ms : Z) (argv : list string) : C P Z :=
  let argc := length argv in
  let arg i := default ""%string (argv !! i) in
  let named w := bool_decide (arg 0%nat = w%string) in
  if (argc <? 1)%nat then err ("missing command" +:+ nl) ;; returnM EXIT_FAILURE else
  if named "read" && (argc =? 4)%nat then cmd_read (arg 1%nat) (arg 2%nat) (arg 3%nat) else
  if named "write" && (argc =? 5)%nat then cmd_write (arg 1%nat) (arg 2%nat) (arg 3%nat) (arg 4%nat) else
  if named "reset" then cmd_reset (drop 1 argv) else
  if named "bench" && (argc =? 2)%nat then cmd_bench (arg 1%nat) else
  if named "hammer" && (argc =? 2)%nat then cmd_hammer fuel (arg 1%nat) else
  if named "claimtest" && (argc =? 2)%nat then cmd_claimtest (arg 1%nat) else
  if named "mailbox" && (2 <=? argc)%nat then cmd_mailbox timeout_ms (arg 1%nat) (drop 2 argv) else
  if named "stats" || named "trace" then
    cmd_text (if named "stats" then SPIPROXY_STATS else SPIPROXY_TRACE)
  else err ("unknown command '" +:+ arg 0%nat +:+ "'" +:+ nl) ;; returnM EXIT_FAILURE.

Definition cli_main (fuel : nat) (opts : list cli_opt) (argv : list string) : C P Z :=
  cli_options opts 0 (fun timeout_ms => cli_command fuel timeout_ms argv).

(** The program on its command line, the program's name first. *)
Definition cli_program (fuel : nat) (argv : list string) : C P Z :=
  let prog := default ""%string (argv !! 0%nat) in
  let '(opts, rest) := getopt "s:t:h" (drop 1 argv) in
  cli_main fuel (cli_opt_of prog <$> opts) rest.

End Client.
