(* ===== verification/CliSpec.v ===== *)
(** * What the command-line client guarantees

    Its memory accesses against any peer, the reading of a daemon's response,
    and the statistics of the bench command. *)
From Stdlib Require Import Sorted.
From S2P Require Import Prelude Bytes Proto Fmt ParseUint State Invariant Handlers Cli.

(** ** Symbolic execution of the client *)

Ltac cli_step :=
  lazymatch goal with
  | |- wp _ (bindM _ _) _ _ => apply wp_bind
  | |- wp _ (returnM _) _ _ => apply wp_ret
  | |- wp _ getM _ _ => apply wp_get
  | |- wp _ (out _) _ _ => apply wp_modify
  | |- wp _ (err _) _ _ => apply wp_modify
  | |- wp _ (say _) _ _ => apply wp_modify
  | |- wp _ (set_fd _) _ _ => apply wp_modify
  | |- wp _ (modifyM _) _ _ => apply wp_modify
  | |- wp _ (perror _) _ _ => unfold perror; apply wp_bind
  | |- wp _ (liftM _) _ _ => apply wp_lift
  end; cbn beta iota; cbn [cl_sock_fd cl_sock cl_seq cl_peer cl_log].
Ltac cli_steps := repeat cli_step.

Section Wp.
Context {P : Type} {PE : Peer P} {PO : PeerOk P PE}.
Implicit Types (c : cli P) (E : fault -> Prop).

Lemma wp_ask_peer {A} E (f : P -> P * A) Q c :
  (forall p a, f (cl_peer c) = (p, a) -> Q a (Cli (cl_sock_fd c) (cl_sock c) (cl_seq c) p (cl_log c))) ->
  wp E (ask_peer f) Q c.
Proof. intros H. unfold wp, ask_peer. destruct (f (cl_peer c)) as [p a]. by apply H. Qed.

Lemma wp_stack_buf E n Q c :
  (forall b, length b = n -> bytes_ok b -> Q b c) -> wp E (stack n) Q c.
Proof. intros H. destruct (p_stack_bytes (cl_peer c) n) as [Hl Hb]. by apply (H _ Hl Hb). Qed.

Lemma wp_cli_now E Q c : (forall v c', Q v c') -> wp E cli_now_us Q c.
Proof. intros H. apply wp_bind, wp_ask_peer. intros p [sec nsec] _. apply wp_ret, H. Qed.

(** ** The response parser *)

(** A buffer that holds at least the bytes it is announced with. *)
Definition dst_ok (dst : resp_buf) : Prop :=
  match dst with Some (b, r) => bytes_ok b /\ 0 <= r <= Z.of_nat (length b) /\ is_u32 r | None => True end.

(** What a call may do to the buffer: overwrite a prefix, shrink the count. *)
Definition dst_step (dst dst' : resp_buf) : Prop :=
  match dst, dst' with
  | Some (b, r), Some (b', r') => length b' = length b /\ bytes_ok b' /\ 0 <= r' <= r
  | None, None => True
  | _, _ => False
  end.

Lemma dst_step_refl dst : dst_ok dst -> dst_step dst dst.
Proof. destruct dst as [[b r]|]; cbn; [|done]. intros (? & ? & ?). split_and!; done || lia. Qed.

(** A status is -1 or the 16-bit flags of the header. *)
Definition cli_status (st : Z) : Prop := st = -1 \/ is_u16 st.

Lemma wp_parse_resp E msg n want_seq want_type dst Q c :
  bytes_ok msg -> n <= Z.of_nat (length msg) -> n <= Z.of_nat MSG_BUF -> dst_ok dst ->
  (forall st dst' c', cli_status st -> dst_step dst dst' -> Q (st, dst') c') ->
  wp E (parse_resp msg n want_seq want_type dst) Q c.
Proof.
  intros Hb Hn' Hn Hd HQ. pose proof (dst_step_refl dst Hd) as Hrefl.
  assert (Z.of_nat MSG_BUF = 4108) as Hmb by done.
  unfold parse_resp. apply wp_if; intros Hsh; [cli_steps; apply HQ; [by left|done]|].
  apply Z.ltb_ge in Hsh. unfold hdr_size in *. cli_steps. apply rwp_buf_read; [lia|].
  assert (hdr_ok (hdr_decode (take 12 (drop 0 msg)))) as (_ & _ & Hf & _ & Hlen) by auto with spid.
  set (h := hdr_decode _) in *. apply wp_if; intros _; [cli_steps; apply HQ; [by left|done]|].
  destruct dst as [[resp rlen]|]; [|cli_steps; apply HQ; [by right|done]].
  destruct Hd as (Hrb & Hr & Hru). unfold is_u32 in *. rewrite u32_id by (unfold is_u32; lia).
  set (r1 := if h_len h <? rlen then _ else _). set (r2 := if _ <? r1 then _ else r1).
  assert (0 <= r2 <= rlen /\ r2 <= n - 12) as [Hr2 Hr3].
  { unfold r2, r1. change (Z.of_nat 12) with 12. destruct (Z.ltb_spec (h_len h) rlen);
    [destruct (Z.ltb_spec (n - 12) (h_len h))|destruct (Z.ltb_spec (n - 12) rlen)]; lia. }
  cli_steps. apply rwp_buf_read; [lia|]. cli_steps.
  assert (length (take (Z.to_nat r2) (drop 12 msg)) = Z.to_nat r2) as Hbl
    by (rewrite length_take, length_drop; lia).
  rewrite buf_write_0 by lia. apply rwp_ok. cli_steps. apply HQ; [by right|].
  unfold dst_step. rewrite length_app, length_drop, Hbl.
  split; [lia|]. split; [auto with spid|lia].
Qed.

Lemma wp_connect E Q c :
  (forall ok c', (ok = true -> 0 <= cl_sock_fd c') -> Q ok c') -> wp E connect_lazily Q c.
Proof.
  intros HQ. unfold connect_lazily. cli_steps. apply wp_if; intros Hfd.
  - apply wp_bind, wp_ask_peer. intros p r Hr. pose proof (p_connect_fd (cl_peer c)) as Hp. rewrite Hr in Hp.
    destruct r as [fd|]; cli_steps; apply HQ; [|done]. intros _. by apply Hp.
  - cli_steps. apply HQ. intros _. by apply Z.ltb_ge.
Qed.

(** The message of a request. *)
Definition request_msg (type flags seq blen : Z) (body : list Z) : list Z :=
  hdr_encode (Hdr SPIPROXY_VER type flags seq blen) ++ take (Z.to_nat blen) body.

(** Building the message in the buffer. *)
Lemma rwp_build E msg0 type flags seq body blen Q :
  length msg0 = MSG_BUF -> bytes_ok msg0 -> bytes_ok body ->
  0 <= blen <= Z.of_nat SPIPROXY_MSG_MAX -> (Z.to_nat blen <= length body)%nat ->
  (forall msg1, length msg1 = MSG_BUF -> bytes_ok msg1 ->
     take (hdr_size + Z.to_nat blen) msg1 = request_msg type flags seq blen body -> Q msg1) ->
  rwp E (build_msg msg0 (Hdr SPIPROXY_VER type flags seq blen) body) Q.
Proof.
  intros Hl Hb Hbb Hbl Hlen HQ. assert (Z.of_nat (length msg0) = 4108) as Hlz by by rewrite Hl.
  assert (Z.of_nat SPIPROXY_MSG_MAX = 4096) as Hmm by done.
  unfold build_msg. cbn [h_len]. set (hd := hdr_encode _).
  assert (length hd = 12%nat) as Hhd by apply length_hdr_encode.
  assert (bytes_ok hd) as Hhb by apply hdr_encode_ok.
  rewrite buf_write_0 by lia. apply rwp_bind, rwp_ok. rewrite Hhd. destruct (Z.eqb_spec blen 0) as [->|Hz].
  - apply rwp_ok, HQ.
    + rewrite length_app, length_drop, Hhd. lia.
    + auto with spid.
    + unfold request_msg, hdr_size. fold hd. cbn [Z.to_nat Nat.add]. rewrite take_app_length' by done.
      by rewrite app_nil_r.
  - apply rwp_bind, rwp_buf_read; [lia|]. rewrite drop_0.
    assert (length (take (Z.to_nat blen) body) = Z.to_nat blen) as Htl by (rewrite length_take; lia).
    apply rwp_buf_write; [rewrite length_app, length_drop, Hhd; unfold hdr_size; lia|].
    rewrite Htl. unfold hdr_size. rewrite take_app_length' by done. apply HQ.
    + rewrite !length_app, length_drop, Hhd, Htl, length_app, length_drop, Hhd. lia.
    + auto 10 with spid.
    + unfold request_msg, hdr_size. fold hd. rewrite (app_assoc hd (take _ body)), take_app_length'; [done|].
      rewrite length_app, Hhd, Htl. lia.
Qed.

(** A call of [xfer] with a body of the announced length. *)
Definition request_ok (body : list Z) (blen : Z) : Prop :=
  bytes_ok body /\ 0 <= blen <= Z.of_nat SPIPROXY_MSG_MAX /\ (Z.to_nat blen <= length body)%nat.

Lemma request_ok_whole body blen :
  bytes_ok body -> blen = Z.of_nat (length body) -> (blen <=? Z.of_nat SPIPROXY_MSG_MAX) = true ->
  request_ok body blen.
Proof. intros Hb -> Hl%Z.leb_le. split; [done|lia]. Qed.

Lemma recv_msg E msg (p p' : P) n data Q :
  length msg = MSG_BUF -> bytes_ok msg -> p_recv p = (p', (n, data)) ->
  (n <= Z.of_nat MSG_BUF -> length (data ++ drop (length data) msg) = MSG_BUF ->
   bytes_ok (data ++ drop (length data) msg) -> Q (data ++ drop (length data) msg)) ->
  rwp E (buf_write msg 0 data) Q.
Proof.
  intros Hl Hb Hr HQ. pose proof (p_recv_buf p) as Hp. rewrite Hr in Hp. destruct Hp as (Hn & Hd & Hdb).
  rewrite buf_write_0 by lia. apply rwp_ok, HQ; [done| |auto with spid].
  rewrite length_app, length_drop. lia.
Qed.

Lemma wp_xfer E type flags body blen dst Q c :
  request_ok body blen -> dst_ok dst ->
  (forall st dst' c', cli_status st -> dst_step dst dst' -> Q (st, dst') c') ->
  wp E (xfer type flags body blen dst) Q c.
Proof.
  intros (Hbb & Hbl & Hlen) Hd HQ. assert (Z.of_nat SPIPROXY_MSG_MAX = 4096) as Hmm by done.
  assert (forall c', Q (-1, dst) c') as Hfail by (intros; apply HQ; [by left|by apply dst_step_refl]).
  unfold xfer. apply wp_bind, wp_stack_buf. intros msg0 Hl0 Hb0.
  apply wp_bind, wp_connect. intros ok c1 _. destruct ok; cbn [negb]; [|cli_steps; apply Hfail].
  unfold next_seq. cli_steps.
  apply rwp_build; [done..|]. intros msg1 Hl1 Hb1 _. assert (Z.of_nat (length msg1) = 4108) as Hlz by by rewrite Hl1.
  cli_steps. apply rwp_buf_read; [unfold hdr_size; lia|]. cli_steps.
  apply wp_ask_peer. intros p rc _. cli_steps. apply wp_if; intros _; [cli_steps; apply Hfail|].
  apply wp_bind, wp_ask_peer. intros p' [n data] Hr. cli_steps.
  apply wp_if; intros _; [cli_steps; apply Hfail|]. cli_steps.
  eapply recv_msg; [done..|]. intros Hn Hl2 Hb2. apply wp_parse_resp; [done|by rewrite Hl2|done..].
Qed.

Lemma wp_xfer_op E type flags o Q c :
  (forall st o' c', cli_status st -> op_ok o' -> Q (st, o') c') -> wp E (xfer_op type flags o) Q c.
Proof.
  intros HQ. unfold xfer_op. pose proof (length_op_encode o) as Hl. unfold op_size in *.
  apply wp_bind, wp_xfer.
  - split; [apply op_encode_ok|]. assert (Z.of_nat SPIPROXY_MSG_MAX = 4096) by done. rewrite Hl. lia.
  - split; [apply op_encode_ok|]. rewrite Hl. unfold is_u32. lia.
  - intros st dst' c' Hst Hd. cbn beta iota. apply wp_ret.
    destruct dst' as [[b r]|]; [|done]. destruct Hd as (_ & Hb & _). apply HQ; [done|auto with spid].
Qed.

End Wp.

(** ** Reading a response of the daemon *)

Section Exchange.
Context {P : Type} {PE : Peer P}.
Implicit Types (c : cli P) (E : fault -> Prop).

(** The part of the body that fits the caller's buffer. *)
Definition fitting (body : list Z) (rlen : Z) : list Z := take (Z.to_nat rlen) body.

Lemma parse_response req x body rest buf rlen c :
  hdr_ok req -> (length body <= SPIPROXY_MSG_MAX)%nat -> 0 <= rlen <= Z.of_nat (length buf) ->
  parse_resp (response req x body ++ rest) (Z.of_nat (hdr_size + length body)) (h_seq req) (h_type req)
    (Some (buf, rlen)) c =
  Ok ((status_code x, Some (fitting body rlen ++ drop (length (fitting body rlen)) buf,
                            Z.of_nat (length (fitting body rlen)))), c).
Proof.
  intros Hh Hb Hr. assert (Z.of_nat SPIPROXY_MSG_MAX = 4096) as Hmm by done.
  unfold parse_resp. rewrite (proj2 (Z.ltb_ge _ _)) by lia.
  set (hd := hdr_encode (Hdr SPIPROXY_VER (Z.lor (h_type req) SPIPROXY_RESP) (status_code x) (h_seq req)
               (Z.of_nat (length body)))).
  assert (length hd = 12%nat) as Hhd by apply length_hdr_encode.
  assert (response req x body ++ rest = hd ++ body ++ rest) as -> by (unfold response; by rewrite <-app_assoc).
  unfold bindM, liftM, buf_read. cbn [Nat.add]. unfold hdr_size in *.
  rewrite (proj2 (Nat.leb_le _ _)) by (rewrite !length_app; lia). rewrite drop_0, take_app_length' by done.
  assert (hdr_decode hd = Hdr SPIPROXY_VER (Z.lor (h_type req) SPIPROXY_RESP) (status_code x) (h_seq req)
    (Z.of_nat (length body))) as ->.
  { rewrite <-(app_nil_r hd). apply hdr_decode_encode, response_hdr_ok; [done|lia]. }
  cbn [h_seq h_type h_flags h_len]. rewrite !Z.eqb_refl. cbn [negb orb].
  set (r1 := if Z.of_nat (length body) <? rlen then _ else _).
  assert (u32 (Z.of_nat (12 + length body) - Z.of_nat 12) = Z.of_nat (length body)) as ->
    by (rewrite u32_id; unfold is_u32; lia).
  assert (r1 = Z.of_nat (length (fitting body rlen))) as ->.
  { unfold r1, fitting. rewrite length_take. destruct (Z.ltb_spec (Z.of_nat (length body)) rlen); lia. }
  rewrite (proj2 (Z.ltb_ge _ _)) by (unfold fitting; rewrite length_take; lia). rewrite Nat2Z.id.
  assert (length (fitting body rlen) <= length body)%nat as Hle by (unfold fitting; rewrite length_take; lia).
  rewrite (proj2 (Nat.leb_le (12 + length (fitting body rlen)) (length (hd ++ body ++ rest))))
    by (rewrite !length_app, Hhd; lia). rewrite drop_app_length' by done.
  assert (take (length (fitting body rlen)) (body ++ rest) = fitting body rlen) as ->.
  { rewrite take_app_le by done. unfold fitting.
    rewrite <-(take_drop (Z.to_nat rlen) body) at 2. apply take_app_length. }
  rewrite buf_write_0; [done|]. unfold fitting. rewrite length_take. lia.
Qed.

(** the client decodes what the daemon sends: from the datagram of a response
    to its request it gets the status and the body, cut to the size of its
    buffer, whatever else the receive buffer holds, and the rest of the caller's
    buffer stays as it was. *)
Theorem parse_resp_reads_response req x body rest buf rlen c :
  hdr_ok req -> (length body <= SPIPROXY_MSG_MAX)%nat -> 0 <= rlen <= Z.of_nat (length buf) ->
  parse_resp (response req x body ++ rest) (Z.of_nat (hdr_size + length body)) (h_seq req) (h_type req)
    (Some (buf, rlen)) c =
  Ok ((status_code x, Some (fitting body rlen ++ drop (length (fitting body rlen)) buf,
                            Z.of_nat (length (fitting body rlen)))), c).
Proof. apply parse_response. Qed.

(** The first exchange of a process, which connects. *)
Lemma wp_xfer_exact E type flags body blen dst p0 fd p1 rc p2 n data Q c :
  cl_sock_fd c < 0 -> p_connect (cl_peer c) = (p0, Some fd) ->
  length (p_stack (cl_peer c) MSG_BUF) = MSG_BUF ->
  bytes_ok (p_stack (cl_peer c) MSG_BUF) -> request_ok body blen ->
  let seq := u32 (cl_seq c + 1) in
  let m := request_msg type flags seq blen body in
  p_send p0 m = (p1, rc) -> 0 <= rc -> p_recv p1 = (p2, (n, data)) -> 0 <= n ->
  (length data <= MSG_BUF)%nat ->
  (forall rest, wp E (parse_resp (data ++ rest) n seq type dst) Q
     (Cli fd (cl_sock c) seq p2 (CliSent m :: cl_log c))) ->
  wp E (xfer type flags body blen dst) Q c.
Proof.
  intros Hfd Hconn Hsl Hsb (Hbb & Hbl & Hlen) seq m Hsend Hrc Hrecv Hn Hd HQ.
  assert (Z.of_nat SPIPROXY_MSG_MAX = 4096) as Hmm by done.
  unfold xfer. apply wp_bind. unfold stack. unfold wp at 1. apply wp_bind. unfold connect_lazily. cli_steps.
  rewrite (proj2 (Z.ltb_lt _ _)) by done. apply wp_bind, wp_ask_peer. rewrite Hconn. intros p' r' [= <- <-].
  unfold set_fd. cli_steps. cbn [negb]. unfold next_seq. cli_steps. fold seq.
  apply rwp_build; [done..|]. intros msg1 Hl1 Hb1 Htk. assert (Z.of_nat (length msg1) = 4108) as Hlz by by rewrite Hl1.
  cli_steps. apply rwp_buf_read; [unfold hdr_size; lia|]. rewrite drop_0, Htk. fold m. cli_steps.
  apply wp_ask_peer. cbn [cl_peer cl_sock_fd cl_sock cl_seq cl_log]. rewrite Hsend. intros p rc' [= <- <-].
  rewrite (proj2 (Z.ltb_ge _ _)) by done. apply wp_bind, wp_ask_peer. cbn [cl_peer cl_sock_fd cl_sock cl_seq cl_log].
  rewrite Hrecv. intros p [n' data'] [= <- <- <-]. rewrite (proj2 (Z.ltb_ge _ _)) by done. cli_steps.
  rewrite buf_write_0 by lia. apply rwp_ok. apply HQ.
Qed.

End Exchange.

(** ** The statistics of bench *)

(** Rounding moves a number by at most half of its last place [K]. *)
Lemma round53_spec x :
  2 ^ 52 <= x < 2 ^ 84 ->
  exists K t J, round53 x = K * t /\ 2 ^ 53 = K * J /\ 0 < K /\ K * 2 ^ 52 <= x < K * 2 ^ 53 /\
    2 * Z.abs (round53 x - x) <= K.
Proof.
  intros Hx. pose proof (Z.log2_spec x ltac:(lia)) as [Hlo Hhi].
  assert (52 <= Z.log2 x < 84) as Hl
    by (split; [apply Z.log2_le_pow2; lia|apply Z.log2_lt_pow2; lia]).
  unfold round53. set (k := Z.log2 x - 52) in *.
  assert (2 ^ k * 2 ^ 52 <= x < 2 ^ k * 2 ^ 53) as Hb.
  { rewrite <-!Z.pow_add_r by lia. replace (k + 52) with (Z.log2 x) by lia.
    by replace (k + 53) with (Z.succ (Z.log2 x)) by lia. }
  assert (0 < 2 ^ k) as HK by (apply Z.pow_pos_nonneg; lia).
  assert (2 ^ 53 = 2 ^ k * 2 ^ (53 - k)) as HJ by (rewrite <-Z.pow_add_r by lia; f_equal; lia).
  destruct (Z.leb_spec k 0) as [Hk|Hk].
  { replace k with 0 in * by lia. exists 1, x, (2 ^ 53). rewrite Z.pow_0_r in Hb. lia. }
  pose proof (Z_div_mod_eq_full x (2 ^ k)) as Hdm. pose proof (Z.mod_pos_bound x (2 ^ k) HK) as Hr.
  set (q := x / 2 ^ k) in *. set (r := x mod 2 ^ k) in *. set (up := _ || _).
  exists (2 ^ k), (if up then q + 1 else q), (2 ^ (53 - k)).
  split; [apply Z.mul_comm|]. split; [done|]. split; [done|]. split; [done|]. destruct up eqn:Hup.
  - unfold up in Hup. apply orb_true_iff in Hup as [?%Z.ltb_lt|[?%Z.eqb_eq _]%andb_true_iff]; lia.
  - unfold up in Hup. apply orb_false_iff in Hup as [?%Z.ltb_ge _]. lia.
Qed.

(** The truncated product with a double [c] / 2^53 close to [N] / [D]. *)
Lemma int_of_mul_floor n c N D d :
  D * c = N * 2 ^ 53 + d -> 0 < N < D -> D <= 100 -> Z.abs d <= 8 -> 0 <= d \/ 17 <= N ->
  1 <= n < 2 ^ 31 -> 2 ^ 52 <= c < 2 ^ 53 -> int_of_mul n c = (N * n) / D.
Proof.
  intros Hc HN HD Hd HND Hn Hcr. unfold int_of_mul. set (B := 2 ^ 53) in *.
  assert (B = 9007199254740992) as HB by reflexivity.
  assert (1 * c <= n * c /\ n * c <= (2 ^ 31 - 1) * c) as [Hxl Hxh] by (split; apply Z.mul_le_mono_nonneg_r; lia).
  destruct (round53_spec (n * c)) as (K & t & J & HR & HJ & HK & Hx & He); [lia|]. fold B in HJ, Hx.
  assert (D * (n * c) = N * n * B + d * n) as HDx.
  { replace (D * (n * c)) with (n * (D * c)) by ring. rewrite Hc. ring. }
  set (x := n * c) in *. set (R := round53 x) in *. set (m := N * n / D). clearbody x R B.
  pose proof (Z_div_mod_eq_full (N * n) D) as Hm. pose proof (Z.mod_pos_bound (N * n) D ltac:(lia)) as Hmr.
  fold m in Hm. set (u := (N * n) mod D) in *. clearbody u m.
  assert (- 8 * n <= d * n <= 8 * n /\ (0 <= d -> 0 <= d * n) /\ N * n <= 100 * n /\ (17 <= N -> 17 * n <= N * n))
    as (Hdn & Hdp & HNn & HN17).
  { split; [split; apply Z.mul_le_mono_nonneg_r; lia|]. split; [intros; apply Z.mul_nonneg_nonneg; lia|].
    split; intros; apply Z.mul_le_mono_nonneg_r; lia. }
  assert (D * (2 * (x - R)) <= D * K /\ D * (2 * (R - x)) <= D * K) as [Hlo Hhi]
    by (split; apply Z.mul_le_mono_nonneg_l; lia).
  assert (D * (K * 2 ^ 52) <= D * x) as HKx by (apply Z.mul_le_mono_nonneg_l; lia).
  assert (D * x < D * (K * B)) as HxK by (apply Z.mul_lt_mono_pos_l; lia).
  assert (K * (J * m) = B * m) as HJm by (rewrite HJ; ring).
  assert (u * B <= (D - 1) * B /\ 0 <= u * B) as [HuB HuB0].
  { split; [apply Z.mul_le_mono_nonneg_r; lia|apply Z.mul_nonneg_nonneg; lia]. }
  assert (D * (m * B) = N * n * B - u * B) as HDm by (rewrite Hm; ring).
  symmetry. apply (Z.div_unique R B m (R - m * B)); [left|ring]. subst B.
  assert (m * 9007199254740992 <= R) as HmR.
  { apply Z.nlt_ge. intros Hlt. assert (K * t <= K * (J * m - 1)) as Hk.
    { apply Z.mul_le_mono_nonneg_l; [lia|]. apply Z.lt_le_pred. apply (Z.mul_lt_mono_pos_l K); lia. }
    assert (D * R <= D * (m * 9007199254740992 - K)) as HDR by (apply Z.mul_le_mono_nonneg_l; lia).
    assert (0 < D * K) as HDK by (apply Z.mul_pos_pos; lia). destruct HND as [Hd0|HN0]; lia. }
  split; [lia|]. apply Z.nle_gt. intros Hge.
  assert (D * ((m + 1) * 9007199254740992) <= D * R) as HDR by (apply Z.mul_le_mono_nonneg_l; lia). lia.
Qed.

Lemma bench_indices n :
  1 <= n < 2 ^ 31 ->
  int_of_mul n DOUBLE_0_9 = 9 * n / 10 /\ int_of_mul n DOUBLE_0_99 = 99 * n / 100.
Proof.
  intros Hn. split; [apply (int_of_mul_floor n _ 9 10 2)|apply (int_of_mul_floor n _ 99 100 (-8))];
    unfold DOUBLE_0_9, DOUBLE_0_99; lia.
Qed.

Lemma cmp_u32_small a b : 0 <= a < 2 ^ 31 -> 0 <= b < 2 ^ 31 -> cmp_u32 a b = a - b.
Proof.
  intros Ha Hb. unfold cmp_u32, u32. destruct (Z.leb_spec b a).
  - rewrite Z.mod_small by lia. destruct (Z.ltb_spec (a - b) (2 ^ 31)); lia.
  - rewrite <-(Z.mod_unique (a - b) (2 ^ 32) (-1) (a - b + 2 ^ 32)) by lia.
    destruct (Z.ltb_spec (a - b + 2 ^ 32) (2 ^ 31)); lia.
Qed.

Lemma sorted_lookup_le l i j a b :
  StronglySorted Z.le l -> (i <= j)%nat -> l !! i = Some a -> l !! j = Some b -> a <= b.
Proof.
  intros Hs. revert i j. induction Hs as [|x l Hs IH Hx]; intros i j Hij Ha Hb; [done|].
  destruct i as [|i], j as [|j]; cbn in Ha, Hb; simplify_eq; [lia| |lia|].
  - eapply Forall_lookup_1 in Hx; [|exact Hb]. done.
  - apply (IH i j); [lia|done..].
Qed.

(** The bench command never reads outside the sorted array. *)
Lemma bench_report_ok n l :
  1 <= n < 2 ^ 31 -> length l = Z.to_nat n ->
  exists vmin p50 p90 p99 vmax, bench_report n l = Ok (vmin, p50, p90, p99, vmax) /\
    l !! 0%nat = Some vmin /\ l !! Z.to_nat (n / 2) = Some p50 /\
    l !! Z.to_nat (9 * n / 10) = Some p90 /\ l !! Z.to_nat (99 * n / 100) = Some p99 /\
    l !! Z.to_nat (n - 1) = Some vmax.
Proof.
  intros Hn Hl. destruct (bench_indices n Hn) as [H9 H99]. unfold bench_report. rewrite H9, H99.
  destruct (lookup_lt_is_Some_2 l 0) as [a Ha]; [lia|].
  destruct (lookup_lt_is_Some_2 l (Z.to_nat (n / 2))) as [b Hb]; [dlia|].
  destruct (lookup_lt_is_Some_2 l (Z.to_nat (9 * n / 10))) as [c Hc]; [dlia|].
  destruct (lookup_lt_is_Some_2 l (Z.to_nat (99 * n / 100))) as [d Hd]; [dlia|].
  destruct (lookup_lt_is_Some_2 l (Z.to_nat (n - 1))) as [e He]; [dlia|].
  exists a, b, c, d, e. unfold arr_get. by rewrite Ha, Hb, Hc, Hd, He.
Qed.

(** C40: for up to 2^31 - 1 measured latencies below 2^31 us the report of the
    bench command is well defined, with the rounding of its floating-point
    indices: the entries exist, are ordered min <= p50 <= p90 <= p99 <= max, min
    and max are the extremes of all measurements, and p90 and p99 have exactly
    the ranks floor(9n/10) and floor(99n/100). *)
Theorem bench_percentiles {QS : Qsort} {QO : QsortOk QS} n lat :
  1 <= n < 2 ^ 31 -> length lat = Z.to_nat n -> Forall (fun v => 0 <= v < 2 ^ 31) lat ->
  exists vmin p50 p90 p99 vmax,
    bench_report n (qsort cmp_u32 lat) = Ok (vmin, p50, p90, p99, vmax) /\
    vmin <= p50 <= p90 /\ p90 <= p99 <= vmax /\ vmin ∈ lat /\ vmax ∈ lat /\
    (forall v, v ∈ lat -> vmin <= v <= vmax) /\
    qsort cmp_u32 lat !! Z.to_nat (9 * n / 10) = Some p90 /\
    qsort cmp_u32 lat !! Z.to_nat (99 * n / 100) = Some p99.
Proof.
  intros Hn Hl Hv. pose proof (qsort_perm cmp_u32 lat) as Hp.
  assert (StronglySorted Z.le (qsort cmp_u32 lat)) as Hs.
  { apply qsort_sorted. rewrite Forall_forall in Hv.
    intros a b Ha Hb. rewrite cmp_u32_small by auto. lia. }
  set (l := qsort cmp_u32 lat) in *. pose proof (Permutation_length Hp) as Hlen.
  destruct (bench_report_ok n l Hn ltac:(lia)) as (a & b & c & d & e & Hr & Ha & Hb & Hc & Hd & He).
  exists a, b, c, d, e. split; [done|].
  pose proof (fun i j => sorted_lookup_le l i j) as Hle. split_and!; try done; try (eapply Hle; [done| |done..]; dlia).
  - rewrite <-Hp. by eapply list_elem_of_lookup_2.
  - rewrite <-Hp. by eapply list_elem_of_lookup_2.
  - intros v Hin. rewrite <-Hp in Hin. apply list_elem_of_lookup_1 in Hin as [i Hi].
    pose proof (lookup_lt_Some _ _ _ Hi). split; (eapply Hle; [done| |done..]; dlia).
Qed.

(** The comparison of the latencies is not an order beyond that: the larger of
    two 32-bit values may compare as the smaller one. *)
Lemma cmp_u32_misorders : cmp_u32 (2 ^ 31 + 1) 0 < 0.
Proof. reflexivity. Qed.

(** ** The commands stay inside their buffers *)

Section Commands.
Context {P : Type} {PE : Peer P} {PO : PeerOk P PE} {RG : Regs} {QS : Qsort} {QO : QsortOk QS}.
Implicit Types (c : cli P).

(** The computation leaves no buffer (it may run out of fuel). *)
Definition bounded {A} (m : C P A) : Prop := forall c, wp (fun e => e = OutOfFuel) m (fun _ _ => True) c.

Lemma bounded_bind {A B} (m : C P A) (k : A -> C P B) : bounded m -> (forall a, bounded (k a)) -> bounded (bindM m k).
Proof. intros Hm Hk c. apply wp_bind. eapply wp_mono; [apply Hm|]. intros a c' _. apply Hk. Qed.

Lemma bounded_ret {A} (a : A) : bounded (returnM a).
Proof. by intros c. Qed.

Lemma bounded_out s : bounded (out s).
Proof. by intros c. Qed.
Lemma bounded_err s : bounded (err s).
Proof. by intros c. Qed.
Lemma bounded_perror s : bounded (perror s).
Proof. by intros c. Qed.
Lemma bounded_now : bounded cli_now_us.
Proof. intros c. by apply wp_cli_now. Qed.
Lemma bounded_xfer_op type flags o : bounded (xfer_op type flags o).
Proof. intros c. by apply wp_xfer_op. Qed.
Lemma bounded_xfer type flags body blen dst :
  request_ok body blen -> dst_ok dst -> bounded (xfer type flags body blen dst).
Proof. intros Hb Hd c. by apply wp_xfer. Qed.

Lemma bounded_numeric s base lo hi k :
  (forall v, lo <= v <= hi -> bounded (k v)) -> bounded (numeric s base lo hi k).
Proof.
  intros Hk. unfold numeric. destruct (parse_uint s base lo hi) eqn:Hp.
  - apply Hk. by eapply parse_uint_range.
  - apply bounded_bind; [apply bounded_err|intros; apply bounded_ret].
Qed.

Lemma bounded_if {A} (b : bool) (m1 m2 : C P A) : bounded m1 -> bounded m2 -> bounded (if b then m1 else m2).
Proof. by destruct b. Qed.

#[local] Hint Resolve bounded_ret bounded_out bounded_err bounded_perror bounded_now bounded_xfer_op : spid.
Lemma bounded_forM {A} (l : list A) (f : A -> C P unit) : (forall a, bounded (f a)) -> bounded (forM l f).
Proof.
  intros Hf. induction l as [|a l IH]; [apply bounded_ret|]. cbn [forM]. apply bounded_bind; [apply Hf|by intros _].
Qed.

Ltac bnd_step :=
  lazymatch goal with
  | |- bounded (numeric _ _ _ _ _) => apply bounded_numeric; intros ? ?
  | |- bounded (bindM _ _) => apply bounded_bind; [|intros ?]
  | |- bounded (if _ then _ else _) => apply bounded_if
  | |- bounded (match ?x with pair _ _ => _ end) => destruct x
  | |- bounded _ => solve [auto with spid]
  end; cbn beta iota.
Ltac bnd := repeat bnd_step.

Lemma bounded_read a1 a2 a3 : bounded (cmd_read a1 a2 a3).
Proof. unfold cmd_read. bnd. Qed.
Lemma bounded_write a1 a2 a3 a4 : bounded (cmd_write a1 a2 a3 a4).
Proof. unfold cmd_write. bnd. Qed.

Lemma bounded_optional a d k : (forall v, bounded (k v)) -> bounded (optional a d k).
Proof. intros Hk. destruct a; cbn; [apply bounded_numeric; intros; apply Hk|apply Hk]. Qed.

Lemma bounded_reset args : bounded (cmd_reset args).
Proof.
  unfold cmd_reset. apply bounded_optional. intros a. apply bounded_optional. intros d. bnd.
  apply bounded_xfer; [|done]. apply request_ok_whole; [repeat apply bytes_ok_app; auto with spid|done|done].
Qed.

Lemma bounded_hammer_loop fuel t_end : forall cnt o, bounded (hammer_loop fuel t_end cnt o).
Proof. induction fuel as [|f IH]; intros cnt o; cbn [hammer_loop]; [by intros c|]. bnd. Qed.

Lemma bounded_hammer fuel a1 : bounded (cmd_hammer fuel a1).
Proof. unfold cmd_hammer. bnd. apply bounded_hammer_loop. Qed.

Lemma bounded_claimtest a1 : bounded (cmd_claimtest a1).
Proof.
  unfold cmd_claimtest. bnd.
  - apply bounded_xfer; [|done].
    apply request_ok_whole; [apply bytes_ok_app; [repeat apply bytes_ok_app|]; auto with spid|done|done].
  - by intros c'.
  - apply bounded_xfer; [|done]. apply request_ok_whole; [constructor|done|done].
Qed.

Lemma c_string_ok l i : l !! i = Some 0 -> exists s, c_string l = Ok s.
Proof.
  revert i. induction l as [|b l IH]; intros i Hi; [done|]. cbn [c_string].
  destruct (Z.eqb_spec b 0); [eauto|]. destruct i as [|i]; cbn in Hi; [by simplify_eq|].
  destruct (IH i Hi) as [s ->]. cbn. eauto.
Qed.

Lemma bounded_text type : bounded (cmd_text type).
Proof.
  intros c. unfold cmd_text. apply wp_bind, wp_stack_buf. intros txt Hl Hb.
  assert (Z.of_nat SPIPROXY_MSG_MAX = 4096) as Hm by done.
  apply wp_bind, wp_xfer; [apply request_ok_whole; [constructor|done|done]|split_and!; unfold is_u32; done || lia|].
  intros st dst' c' _ Hd. cbn beta iota. destruct dst' as [[txt' r]|]; [|done]. destruct Hd as (Hl' & _ & Hr).
  cbn [default from_option id]. cli_steps.
  assert (Z.to_nat r < length txt')%nat as Hlt by lia. apply rwp_arr_set; [done|]. cli_steps.
  destruct (c_string_ok (<[Z.to_nat r:=0]> txt') (Z.to_nat r)) as [s ->]; [by apply list_lookup_insert_eq|].
  apply rwp_ok. by cli_steps.
Qed.

Lemma bounded_bench_loop k : forall i o lat c,
  i + Z.of_nat k <= Z.of_nat (length lat) ->
  wp (fun e => e = OutOfFuel) (bench_loop k i o lat)
    (fun r _ => match r with Some (_, lat') => length lat' = length lat | None => True end) c.
Proof.
  induction k as [|k IH]; intros i o lat c Hi; cbn [bench_loop]; [done|].
  apply wp_bind, wp_cli_now. intros t c1. apply wp_bind, wp_xfer_op. intros st o' c2 _ _. cbn beta iota.
  apply wp_if; intros _; [by cli_steps|]. apply wp_bind.
  apply (wp_mono _ _ (fun lat' _ => length lat' = length lat)).
  - apply wp_if; intros Hge; [|by cli_steps]. apply Z.leb_le in Hge.
    apply wp_bind, wp_cli_now. intros now c3. cli_steps. apply rwp_arr_set; [lia|]. by rewrite length_insert.
  - intros lat' c3 Hlen. eapply wp_mono; [apply IH; rewrite Hlen; lia|].
    intros [[o1 lat1]|] c4 H; [congruence|done].
Qed.

Lemma bounded_bench a1 : bounded (cmd_bench a1).
Proof.
  unfold cmd_bench. apply bounded_numeric. intros n Hn c. cli_steps. apply wp_if; intros _; [by cli_steps|].
  apply wp_bind. eapply wp_mono; [apply bounded_bench_loop; rewrite length_replicate; lia|].
  intros [[o lat]|] c'; [|by cli_steps]. cbn beta iota. rewrite length_replicate. intros Hlat.
  pose proof (Permutation_length (qsort_perm cmp_u32 lat)) as Hlen. cli_steps.
  destruct (bench_report_ok n (qsort cmp_u32 lat)) as (a & b & d & e & f & -> & _); [lia|lia|].
  apply rwp_ok. by cli_steps.
Qed.

(** C39: whatever the peer answers, no command except mailbox reads or writes
    outside its buffers: short, oversized, mismatched and garbage responses
    included. *)
Theorem cli_stays_in_bounds fuel opts argv c :
  argv !! 0%nat <> Some "mailbox"%string -> cli_main fuel opts argv c <> Fail Oob.
Proof.
  intros Hmb. enough (bounded (cli_main fuel opts argv)) as H.
  { intros Hf. specialize (H c). unfold wp in H. by rewrite Hf in H. }
  unfold cli_main. generalize 0 as ms. induction opts as [|[a|a|said] opts IH]; intros ms; cbn [cli_options].
  - unfold cli_command. destruct argv as [|a0 argv]; [cbn [length Nat.ltb Nat.leb]; bnd|]. cbn [lookup list_lookup default from_option id] in *.
    rewrite (bool_decide_eq_false_2 (a0 = "mailbox"%string)) by congruence. cbn [andb].
    repeat apply bounded_if; auto using bounded_read, bounded_write, bounded_reset, bounded_bench,
      bounded_hammer, bounded_claimtest, bounded_text; bnd.
  - apply bounded_bind; [by intros c'|intros _; apply IH].
  - apply bounded_numeric. intros v _. apply IH.
  - apply bounded_bind; [apply bounded_forM; intros; bnd|intros _; bnd].
Qed.

End Commands.
