(* ===== verification/Program.v ===== *)
(** * The daemon as a program ([main] of lan80xx_spid.c)

    The whole of [main]: the command line, the start-up, the loop until a signal,
    the exit status.  The system is what its calls answer ([sys]) and what happens
    during the successive waits. *)
From S2P Require Import Prelude Bytes Proto Fmt ParseUint Getopt State Queue Log Spi Exec Mailbox Daemon Invariant.
From S2P Require Import Handlers Scheduler MainLoop Main Guarantees Cli.

(** ** The command line *)

Definition usage (p : string) : string :=
  "Usage: " +:+ p +:+ " -d /dev/spidevX.Y [-s sock] [-p pad] [-f hz]" +:+ nl +:+
  "  -d  spidev of the LAN80xx package (required)" +:+ nl +:+
  "  -s  listening socket (default " +:+ SPIPROXY_SOCK +:+ ")" +:+ nl +:+
  "  -p  SPI padding bytes for reads (default 1)" +:+ nl +:+
  "  -f  SPI clock in Hz (default 5000000)" +:+ nl +:+
  "  -r  reset GPIO line NAME (e.g. lan8023-rst) -- enables the" +:+ nl +:+
  "      SPIPROXY_RESET op (HW reset pulse); off if absent" +:+ nl +:+
  "  -L  full event log to <file> ('-' = stderr): every message," +:+ nl +:+
  "      register op (incl. batch/claim-cleanup/mailbox internals)," +:+ nl +:+
  "      claim + client lifecycle" +:+ nl.

(** What the system answers: which log files can be created (and the reason why
    not), the start-up calls, the GPIO chips. *)
Record sys := Sys {
  sy_fopens : string -> bool;
  sy_strerror : string;
  sy_boot : boot;
  sy_chips : nat -> option gpiochip }.

Definition opt_of (g : got) : opt :=
  match g with
  | GotOpt "d" a => OptDev a
  | GotOpt "s" a => OptSock a
  | GotOpt "p" a => OptPad a
  | GotOpt "f" a => OptFreq a
  | GotOpt "r" a => OptReset a
  | GotOpt "L" a => OptLog a
  | _ => OptHelp
  end%char.

(** The options in order; the text on stderr of one that ends the program. *)
Fixpoint main_options (sy : sys) (prog : string) (s : settings) (l : list got) : settings + list string :=
  match l with
  | [] => inl s
  | g :: l' =>
      match take_option (sy_fopens sy) s (opt_of g) with
      | Some s' => main_options sy prog s' l'
      | None =>
          inr (got_message prog g ++
               match opt_of g with
               | OptPad a | OptFreq a => [invalid_numeric a]
               | OptLog a => [a +:+ ": " +:+ sy_strerror sy +:+ nl]
               | OptHelp => [usage prog]
               | _ => []
               end)
      end
  end.

Definition command_line (sy : sys) (argv : list string) : config + list string :=
  let prog := default ""%string (argv !! 0%nat) in
  match main_options sy prog default_settings (getopt "d:s:p:f:r:L:h" (drop 1 argv)).1 with
  | inl s =>
      match se_dev s with
      | Some d => inl (set_cf_dev (fun _ => d) (se_cfg s))
      | None => inr [usage prog]
      end
  | inr text => inr text
  end.

(** ** main *)

Section Program.
Context {W : Type} {WW : World W} {RG : Regs} {BE : Backend W}.

(** From [log_open] on; [None] while the daemon still serves. *)
Definition serve (fuel : nat) (sy : sys) (waits : list wait) : D W (option Z) :=
  let* g := getg in
  log_open "lan80xx-spid" (cf_log (g_cfg g)) ;;
  let* up := main_start (sy_boot sy) (sy_chips sy) in
  if negb up then returnM (Some EXIT_FAILURE) else
  let* stopped := main_loop fuel waits in
  if negb stopped then returnM None else
  let* g := getg in
  emit (EvUnlink (cf_sock (g_cfg g))) ;;
  log_always "lan80xx-spid: exit" ;;
  log_close ;;
  returnM (Some EXIT_SUCCESS).

(** The exit status, the text on stderr, and the state of a daemon that was
    started. *)
Record outcome := Outcome { oc_exit : option Z; oc_stderr : list string; oc_state : option (st W) }.

Definition daemon_main (fuel : nat) (argv : list string) (sy : sys) (waits : list wait) (w : W) : res outcome :=
  match command_line sy argv with
  | inr text => Ok (Outcome (Some EXIT_FAILURE) text None)
  | inl cf =>
      let! r := serve fuel sy waits (St (init_glob cf) w []) in
      Ok (Outcome r.1 [] (Some r.2))
  end.

End Program.
Arguments outcome W : clear implicits.

(** ** What a run comes to *)

(** The configuration with the sink of the log. *)
Definition traced (cf : config) : config := set_cf_trace (fun _ => cf_log cf) cf.

Lemma main_options_settings sy prog l s s' :
  main_options sy prog s l = inl s' -> take_options (sy_fopens sy) s (opt_of <$> l) = Some s'.
Proof.
  revert s. induction l as [|g l IH]; intros s; cbn [main_options fmap list_fmap take_options]; [by intros [= ->]|].
  destruct (take_option (sy_fopens sy) s (opt_of g)) as [s1|]; cbn; [apply IH|done].
Qed.

Lemma main_options_says sy prog l s text : main_options sy prog s l = inr text -> text <> [].
Proof.
  revert s. induction l as [|g l IH]; intros s; cbn [main_options]; [done|].
  destruct (take_option (sy_fopens sy) s (opt_of g)) as [s1|] eqn:Ht; [apply IH|].
  intros [= <-] [_ Hn]%app_eq_nil. by destruct (opt_of g).
Qed.

Lemma command_line_says sy argv text : command_line sy argv = inr text -> text <> [].
Proof.
  unfold command_line. destruct (main_options _ _ _ _) as [s|] eqn:Hs;
    [destruct (se_dev s); by intros [= <-]|intros [= <-]; by eapply main_options_says].
Qed.

Lemma command_line_config sy argv cf :
  command_line sy argv = inl cf ->
  daemon_config (sy_fopens sy) (opt_of <$> (getopt "d:s:p:f:r:L:h" (drop 1 argv)).1) = Some (traced cf).
Proof.
  unfold command_line, daemon_config. destruct (main_options _ _ _ _) as [s|] eqn:Hs; [|done].
  apply main_options_settings in Hs as ->. cbn. destruct (se_dev s) as [d|]; [|done]. by intros [= <-].
Qed.

Section Runs.
Context {W : Type} {WW : World W} {WO : WorldOk W WW} {RG : Regs}.
Implicit Types (s : st W).

(** The daemon as it runs on the device. *)
#[local] Existing Instances hw_backend hw_backend_ok.

(** Time does not go back while the daemon waits. *)
Definition wait_ok (wt : wait (W := W)) : Prop := forall t w, w_time w <= w_time (wt_env wt t w).

Lemma epoll_events_ok s r : ready_ok s (epoll_events (st_g s) r).
Proof.
  destruct r as [|fds]; cbn [epoll_events]; [split; [constructor|by intros c ?%elem_of_nil]|].
  set (l := filter _ _). assert (NoDup l) as Hnd by apply NoDup_filter, NoDup_remove_dups.
  split; [by eapply sublist_NoDup, sublist_take|]. intros c Hc.
  assert (Some c ∈ l) as Hl by (by eapply elem_of_submseteq, sublist_submseteq, sublist_take).
  apply list_elem_of_filter in Hl as [Hr _]. cbn [registered] in Hr. unfold connected.
  destruct (g_cl (st_g s) !! c) as [cl|]; [by exists cl|done].
Qed.

(** The loop runs to the first signal, through reachable states. *)
Lemma main_loop_runs cf fuel waits s :
  cfg_ok cf -> TURN_FUEL <= Z.of_nat fuel -> Forall wait_ok waits -> reachable cf s ->
  exists s', main_loop fuel waits s = Ok (g_stop (st_g s) || existsb wt_signal waits, s') /\ reachable cf s' /\
    cf_sock (g_cfg (st_g s')) = cf_sock (g_cfg (st_g s)).
Proof.
  intros Hcf Hf Hw. revert s. induction Hw as [|wt waits Hwt _ IH]; intros s Hr; unfold main_loop; fold (main_loop (W := W)).
  { exists s. unfold bindM, getg. destruct (g_stop (st_g s)); done. }
  unfold bindM at 1, getg at 1. destruct (g_stop (st_g s)) eqn:Hstop; [by exists s|].
  set (s1 := St (st_g s) (wt_env wt (wait_timeout (st_g s)) (st_w s)) (st_out s)).
  assert (reachable cf s1) as Hr1 by (apply reach_wait; [done|apply Hwt]).
  destruct (epoll_events_ok s1 (wt_result wt)) as [Hnd Hc].
  destruct (wp_returns _ _ _ (wp_loop_turn fuel _ (fun _ => False) s1 (reachable_orderly cf s1 Hcf Hr1) Hnd Hc
    (turn_enough _ (S MAX_QITEMS) _ ltac:(lia) Hf))) as ([] & s2 & Heq & _ & Hsc & Hst).
  assert (reachable cf s2) as Hr2 by (eapply reach_turn; [exact Hr1|done|by split|exact Heq]).
  assert (exists s3, whenM (wt_signal wt) on_sig s2 = Ok (tt, s3) /\ reachable cf s3 /\
    g_stop (st_g s3) = wt_signal wt /\ g_cfg (st_g s3) = g_cfg (st_g s2)) as (s3 & Hs3 & Hr3 & Hst3 & Hc3).
  { destruct (wt_signal wt); cbn [whenM].
    - eexists. split; [done|]. split; [by eapply reach_signal|done].
    - exists s2. split; [done|]. split; [done|]. split; [by rewrite Hst|done]. }
  destruct (IH s3 Hr3) as (s4 & H4 & Hr4 & Hs4). exists s4.
  split; [|split; [done|by rewrite Hs4, Hc3, Hsc]].
  unfold modifyM, bindM. change (St (st_g s) (wt_env wt (wait_timeout (st_g s)) (st_w s)) (st_out s)) with s1.
  change (st_g s) with (st_g s1) at 1. rewrite Heq, Hs3, H4, Hst3. done.
Qed.

(** ** The whole program *)

(** The names fit the text of STATS. *)
Definition names_fit (cf : config) : Prop :=
  (String.length (cf_dev cf) + String.length (default "on" (cf_rst_line cf)) <= Z.to_nat 1024)%nat.

(** Whether the system lets the daemon serve. *)
Definition boots (b : boot) : bool := bt_open b && bt_flock b && bt_listen b.

Lemma log_open_starts ident cf (w : W) :
  log_open ident (cf_log cf) (St (init_glob cf) w []) =
  Ok (tt, St (init_glob (traced cf)) (w_do w (EvOpenlog ident)) [EvOpenlog ident]).
Proof. done. Qed.

(** The end of the program: socket removed, log closed. *)
Lemma wp_farewell E s :
  orderly s ->
  wp E (emit (EvUnlink (cf_sock (g_cfg (st_g s)))) ;; log_always "lan80xx-spid: exit" ;; log_close ;;
        returnM (Some EXIT_SUCCESS))
    (fun r s' => r = Some EXIT_SUCCESS /\ orderly s' /\ exists lines, Forall is_log_event lines /\
       st_out s' = EvCloselog :: lines ++ EvUnlink (cf_sock (g_cfg (st_g s))) :: st_out s) s.
Proof.
  intros Hs. wp_steps. apply wp_log_msg. intros w1 o1 _ Ho. unfold log_close. wp_steps. split; [done|].
  split; [|by exists o1]. apply (orderly_event (St (st_g s) w1 (o1 ++ _))); [done|].
  destruct (orderly_event s w1 (EvUnlink (cf_sock (g_cfg (st_g s)))) eq_refl Hs) as [HI Hw]. split; [done|].
  cbn [st_out]. apply answers_nil_wire; [by apply log_answers|done].
Qed.

(** How a started daemon ends. *)
Definition served (cf : config) (b : boot) (signal : bool) (r : option Z) s : Prop :=
  orderly s /\
  if boots b then
    if signal then r = Some EXIT_SUCCESS /\ exists s0 lines, reachable cf s0 /\ Forall is_log_event lines /\
      st_out s = EvCloselog :: lines ++ EvUnlink (cf_sock cf) :: st_out s0
    else r = None /\ reachable cf s
  else r = Some EXIT_FAILURE.

Lemma serve_runs fuel sy waits cf w :
  cfg_ok (traced cf) -> TURN_FUEL <= Z.of_nat fuel -> Forall wait_ok waits ->
  exists r s, serve fuel sy waits (St (init_glob cf) w []) = Ok (r, s) /\
    served (traced cf) (sy_boot sy) (existsb wt_signal waits) r s.
Proof.
  intros Hcf Hf Hw. unfold serve, bindM at 1, getg. cbn [g_cfg init_glob st_g].
  unfold bindM at 1. rewrite log_open_starts.
  set (w1 := w_do w _). set (out := [EvOpenlog _]).
  assert (answers out = []) as Hout by done.
  destruct (wp_returns _ _ _ (wp_main_start (sy_boot sy) (sy_chips sy) (fun _ => False) _
    (init_orderly (traced cf) w1 out Hcf Hout))) as (up & s1 & H1 & Ho1 & [Hst1 Hsk1] & ->).
  unfold bindM at 1. rewrite H1. fold (boots (sy_boot sy)). unfold served.
  destruct (boots (sy_boot sy)) eqn:Hup; cbn [negb]; [|by exists (Some EXIT_FAILURE), s1].
  assert (reachable (traced cf) s1) as Hr1 by (eapply reach_start; [exact Hout|]; by rewrite H1, <-Hup).
  destruct (main_loop_runs _ fuel waits s1 Hcf Hf Hw Hr1) as (s2 & H2 & Hr2 & Hsk2).
  unfold bindM at 1. rewrite H2. cbn in Hst1. rewrite Hst1. cbn [orb].
  pose proof (reachable_orderly _ _ Hcf Hr2) as Ho2.
  destruct (existsb wt_signal waits); cbn [negb]; [|by exists None, s2].
  destruct (wp_returns _ _ _ (wp_farewell (fun _ => False) s2 Ho2)) as (r & s3 & H3 & -> & Ho3 & lines & Hl & Hs3).
  exists (Some EXIT_SUCCESS), s3. split; [exact H3|]. split; [done|]. split; [done|]. exists s2, lines.
  split; [done|]. split; [done|]. by rewrite Hs3, Hsk2, Hsk1.
Qed.

(** C3: the daemon as a program.  Whatever its command line, as long as the names
    of the device and of the reset line fit the text of STATS (1024 characters
    together), whatever the system answers at start-up and whatever arrives while
    it runs, [main] runs without a fault.  A wrong command line ends it with
    EXIT_FAILURE and a text on stderr, that of the option that is wrong; a device
    that cannot be opened or locked, or a socket that cannot listen, ends it with
    EXIT_FAILURE; otherwise it serves through reachable states until the first
    signal, and only then removes its socket, closes the log and exits with
    EXIT_SUCCESS. *)
Theorem daemon_main_runs fuel argv sy waits w :
  TURN_FUEL <= Z.of_nat fuel -> Forall wait_ok waits ->
  (forall cf, command_line sy argv = inl cf -> names_fit cf) ->
  exists o, daemon_main fuel argv sy waits w = Ok o /\
    match command_line sy argv with
    | inr text => o = Outcome (Some EXIT_FAILURE) text None /\ text <> []
    | inl cf => oc_stderr o = [] /\ exists s, oc_state o = Some s /\
        served (traced cf) (sy_boot sy) (existsb wt_signal waits) (oc_exit o) s
    end.
Proof.
  intros Hf Hw Hfit. unfold daemon_main. destruct (command_line sy argv) as [cf|text] eqn:Hc;
    [|eexists; split; [done|split; [done|by eapply command_line_says]]].
  pose proof (daemon_config_ranges _ _ _ (command_line_config _ _ _ Hc)) as Hrg.
  destruct (serve_runs fuel sy waits cf w (ranges_cfg_ok _ Hrg (Hfit _ eq_refl)) Hf Hw) as (r & s & -> & Hs).
  eexists. split; [done|]. split; [done|]. by exists s.
Qed.

End Runs.
