(* ===== verification/EndToEnd.v ===== *)
(** * The client against the daemon

    The command-line client and the daemon: the process connects and is accepted,
    its datagram is received, queued, scheduled, executed and answered, the
    process decodes the answer, and at its exit the daemon drops the connection.
    [daemon_peer] is the daemon as the client's peer. *)
From S2P Require Import Prelude Bytes Proto Fmt ParseUint State Queue Log Spi Exec OpSpec Mailbox Daemon.
From S2P Require Import Invariant Handlers Scheduler Atomic MainLoop RequestSpec Calm MailboxSpec Retain Wire.
From S2P Require Import Cli CliSpec.

Section Service.
Context {W : Type} {WW : World W} {WO : WorldOk W WW} {RG : Regs} {RO : RegsOk RG}
  {CH : PipelinedChip W WW} {SC : StorageChip W WW CH}.
Implicit Types (s : st W).

(** ** A datagram is queued *)

Lemma wp_debug_diary line E Q s :
  (forall w' ev, w_time (st_w s) <= w_time w' -> by_acts diary (st_w s) w' -> Forall is_log_event ev ->
     Q tt (St (st_g s) w' (ev ++ st_out s))) ->
  wp E (log_debug line) Q s.
Proof.
  intros HQ. eapply (wp_fault_mono (fun e => False /\ True)); [tauto|]. eapply wp_mono.
  - apply wp_and.
    + apply (wp_log_debug _ line (fun _ s' => exists w' ev, s' = St (st_g s) w' (ev ++ st_out s) /\
        w_time (st_w s) <= w_time w' /\ Forall is_log_event ev)). intros w' ev Ht Hev. by exists w', ev.
    + by apply (within_log_debug diary).
  - cbn beta. intros [] s' [(w' & ev & -> & Ht & Hev) Hc]. by apply HQ.
Qed.

Lemma wp_log_diary priority line E Q s :
  (forall w' ev, w_time (st_w s) <= w_time w' -> by_acts diary (st_w s) w' -> Forall is_log_event ev ->
     Q tt (St (st_g s) w' (ev ++ st_out s))) ->
  wp E (log_msg priority line) Q s.
Proof.
  intros HQ. eapply (wp_fault_mono (fun e => False /\ True)); [tauto|]. eapply wp_mono.
  - apply wp_and.
    + apply (wp_log_msg _ priority line (fun _ s' => exists w' ev, s' = St (st_g s) w' (ev ++ st_out s) /\
        w_time (st_w s) <= w_time w' /\ Forall is_log_event ev)). intros w' ev Ht Hev. by exists w', ev.
    + by apply (within_log_msg diary).
  - cbn beta. intros [] s' [(w' & ev & -> & Ht & Hev) Hc]. by apply HQ.
Qed.

(** The request type of a register operation. *)
Definition op_type (write : bool) : Z := type_code (if write then SPIPROXY_WRITE else SPIPROXY_READ).

(** What the daemon remembers of a request it has queued as item [i]; only
    statistics, queues and logs have changed. *)
Record accepted_as (i c : nat) (h : hdr) (body : list Z) s s1 : Prop := {
  ac_inv : exists fa, inv (<[prio_class (h_flags h) := [i]]> [[]; []; []]) fa [] (st_g s1);
  ac_item : exists it, pool (g_qs (st_g s1)) !! i = Some it /\ q_c it = c /\ q_hdr it = h /\
              take (length body) (q_body it) = body;
  ac_clients : Forall2 same_client (g_cl (st_g s)) (g_cl (st_g s1));
  ac_claim : g_claim (st_g s1) = g_claim (st_g s);
  ac_inflight : g_mb_inflight (st_g s1) = g_mb_inflight (st_g s);
  ac_cfg : g_cfg (st_g s1) = g_cfg (st_g s);
  ac_calm : by_acts diary (st_w s) (st_w s1);
  ac_out : exists ev, st_out s1 = ev ++ st_out s /\ Forall is_log_event ev;
  ac_rest : st_g s1 = set_g_qs (fun _ => g_qs (st_g s1)) (set_g_cl (fun _ => g_cl (st_g s1)) (st_g s)) }.

Lemma wp_enqueue_exact i fa it c h body E Q s :
  inv [[]; []; []] (i :: fa) [] (st_g s) -> pool (g_qs (st_g s)) !! i = Some it ->
  connected (g_cl (st_g s)) c -> hdr_ok h -> h_len h <= Z.of_nat SPIPROXY_MSG_MAX ->
  (Z.to_nat (h_len h) <= length body)%nat -> bytes_ok body ->
  (forall s1, accepted_as i c h (take (Z.to_nat (h_len h)) body) s s1 -> g_cl (st_g s1) = g_cl (st_g s) -> Q tt s1) ->
  wp E (enqueue c h body) Q s.
Proof.
  intros I Hit Hc Hh Hlen Hbody Hb HQ. pose proof Hc as (cl & Hcl & Hu). pose proof (inv_rep _ _ _ _ I) as R.
  pose proof (Forall_lookup_1 _ _ _ _ (inv_items _ _ _ _ I) Hit) as (Hbl & Hbb & _ & _).
  destruct (take_free_spec c h _ _ _ _ _ R) as (qs1 & it' & Hit' & Htf & R1 & Hp1). simplify_eq.
  assert (i < length (pool (g_qs (st_g s))))%nat as Hil by by eapply lookup_lt_Some.
  set (src := take (Z.to_nat (h_len h)) body) in *.
  assert (length src <= SPIPROXY_MSG_MAX)%nat as Hsl by (unfold src; rewrite length_take; lia).
  assert (bytes_ok src) as Hsb by (unfold src; auto with spid).
  assert ([[]; []; []] !! prio_class (h_flags h) = Some ([] : list nat)) as Hq
    by (pose proof (prio_class_range (h_flags h)); by destruct (prio_class _) as [|[|[|?]]]; [..|lia]).
  destruct (link_tail_spec qs1 _ fa [] (prio_class (h_flags h)) [] i (QItem None c h (q_body it)) src R1 Hq)
    as (qs2 & Hlt & R2 & Hp2); [by rewrite Hp1, list_lookup_insert_eq|done|by cbn; rewrite Hbl|].
  assert (stored_at (g_qs (st_g s)) qs2 i c h (src ++ drop (length src) (q_body it))) as Hs.
  { split; [|done]. rewrite Hp2, Hp1, list_fmap_insert. cbn. by rewrite list_insert_insert_eq. }
  unfold enqueue. wp_steps. rewrite Htf. apply rwp_ok. wp_steps. eapply wp_get_client; [done|].
  apply wp_bind, wp_debug_diary. intros w' ev Ht Hcalm Hev. wp_steps. apply rwp_buf_read; [done|].
  rewrite drop_0. fold src. wp_steps. cbn [g_qs set_g_qs]. rewrite Hlt. apply rwp_ok. wp_steps.
  apply HQ; [|done]. split; cbn [st_g st_w st_out g_claim g_mb_inflight g_cfg g_cl g_qs set_g_qs]; try done.
  - exists fa. apply (inv_link [[]; []; []] fa (st_g s) c h (src ++ drop (length src) (q_body it)) i
      (prio_class (h_flags h)) [] qs2); [exact I|exact Hs|exact R2|exact Hq| |auto with spid|done|done].
    rewrite length_app, length_drop, Hbl. lia.
  - pose proof (stored_lookup _ _ _ _ _ _ i Hs) as H. rewrite decide_True in H by done.
    destruct (payload_some _ _ _ H) as (it1 & ? & ? & ? & Hbd). exists it1. split_and!; try done.
    rewrite Hbd. cbn. by rewrite take_app_length.
  - by exists ev.
Qed.

(** A client's statistics after one more datagram. *)
Definition count_msg (cl : client) : client := set_c_n_msgs (fun n => u64 (n + 1)) cl.

(** The datagram of a request. *)
Lemma wp_frame_exact i fa it c h body rest E Q s :
  inv [[]; []; []] (i :: fa) [] (st_g s) -> pool (g_qs (st_g s)) !! i = Some it ->
  connected (g_cl (st_g s)) c -> hdr_ok h -> h_ver h = SPIPROXY_VER -> h_len h = Z.of_nat (length body) ->
  (length body <= SPIPROXY_MSG_MAX)%nat -> bytes_ok body -> bytes_ok rest ->
  (forall s1 cl, accepted_as i c h body s s1 -> g_cl (st_g s) !! c = Some cl ->
     g_cl (st_g s1) = <[c := count_msg cl]> (g_cl (st_g s)) -> Q tt s1) ->
  wp E (client_frame c (hdr_encode h ++ body ++ rest) (Z.of_nat (hdr_size + length body))) Q s.
Proof.
  intros I Hit Hc Hh Hver Hlen Hmax Hb Hrb HQ. pose proof Hc as (cl & Hcl & Hu).
  pose proof (length_hdr_encode h) as Hhl. unfold client_frame.
  rewrite (proj2 (Z.ltb_ge _ _)) by lia. wp_steps.
  apply rwp_buf_read; [rewrite length_app, Hhl; lia|]. rewrite drop_0, take_app_length' by done.
  assert (hdr_decode (hdr_encode h) = h) as -> by (rewrite <-(app_nil_r (hdr_encode h)); by apply hdr_decode_encode).
  rewrite Hver, Hlen, Z.eqb_refl, (proj2 (Z.eqb_eq _ _)), (proj2 (Z.ltb_ge _ _)) by lia. cbn [negb orb].
  wp_steps. eapply wp_upd_client; [done|]. rewrite drop_app_length' by done. set (s1 := St _ _ _).
  assert (Forall2 same_client (g_cl (st_g s)) (g_cl (st_g s1))) as Hs
    by (eapply same_clients_insert; [done|]; done).
  assert (inv [[]; []; []] (i :: fa) [] (st_g s1)) as I1.
  { apply (inv_clients _ _ _ (st_g s)); [done..|]. pose proof (inv_cl _ _ _ _ I) as [_ Hall].
    apply Forall_insert; [done|]. apply client_ok_stats. by eapply Forall_lookup_1. }
  eapply (wp_enqueue_exact i fa it); [done|done|by eapply same_clients_connected|done|lia| |auto with spid|].
  { rewrite length_app. lia. }
  rewrite Hlen, Nat2Z.id, take_app_length. intros s2 [? ? Hcl2 ? ? ? ? ? Hrest] Hcls.
  apply (HQ s2 cl); [|done|by rewrite Hcls]. split; try done. by transitivity (g_cl (st_g s1)).
Qed.

(** ** The only queued request is executed *)

(** Afterwards nothing is queued and the connections are the same. *)
Record served s s' : Prop := {
  sv_inv : exists fa, inv [[]; []; []] fa [] (st_g s');
  sv_clients : Forall2 same_client (g_cl (st_g s)) (g_cl (st_g s')) }.

Lemma owes_none start keys s :
  owes (Ghost start keys 0) [] [] s -> served start s.
Proof.
  intros (qa & fa & ev & I & (_ & _ & _ & Hc & _) & _ & _ & Hm). cbn in Hm, Hc. split; [|done]. exists fa.
  pose proof (lrep_qa _ _ _ _ (rep_lrep _ _ _ _ (inv_rep _ _ _ _ I))) as H3.
  destruct qa as [|[|] [|[|] [|[|] [|]]]]; cbn in H3, Hm; done || lia.
Qed.

(** Its execution, seen from outside: it answers and leaves the queues alone. *)
Lemma wp_drain_one f b E R Q i c h body s s1 :
  accepted_as i c h body s s1 -> item_eligible (claim_owner (g_claim (st_g s1))) c h = true ->
  (forall fa s2, inv [[]; []; []] fa [i] (st_g s2) -> same_payloads (g_qs (st_g s1)) (g_qs (st_g s2)) ->
     st_g s2 = set_g_qs (fun _ => g_qs (st_g s2)) (st_g s1) -> st_w s2 = st_w s1 -> st_out s2 = st_out s1 ->
     wp E (exec_item f (drain_queues f) i) (fun _ s3 =>
       owes (Ghost s2 [req_key (st_g s2) i] 0) [i] [] s3 /\ R s3) s2) ->
  (forall s3 qs, R s3 -> let s' := St (set_g_qs (fun _ => qs) (st_g s3)) (st_w s3) (st_out s3) in
     served s1 s' -> Q tt s') ->
  wp E (drain_queues (S f) (S (S b))) Q s1.
Proof.
  intros [(fa & I) (it & Hit & Hic & Hih & _) _ _ _ _ _ _ _] Hel Hex HQ. cbn [drain_queues drain_loop]. wp_steps.
  set (elig := item_eligible _). pose proof (take_eligible_refines elig _ _ _ _ (inv_rep _ _ _ _ I)) as Ht.
  assert (eligb elig (pool (g_qs (st_g s1))) i = true) as Hei.
  { unfold eligb. rewrite Hit. unfold elig. by rewrite Hic, Hih. }
  assert (pick (eligb elig (pool (g_qs (st_g s1)))) (<[prio_class (h_flags h) := [i]]> [[]; []; []]) =
    Some (i, [[]; []; []])) as Hp.
  { pose proof (prio_class_range (h_flags h)). destruct (prio_class _) as [|[|[|?]]]; [..|lia];
      cbn; rewrite Hei; done. }
  rewrite Hp in Ht. destruct Ht as (qs' & -> & R2 & Hpl). apply rwp_ok. wp_steps. set (s2 := St _ _ _).
  assert (same_payloads (g_qs (st_g s1)) (set_n_queued (fun n => n - 1) qs')) as Hpl' by done.
  eapply wp_mono; [apply (Hex fa s2); [|exact Hpl'|done..]|].
  { eapply inv_requeue; [exact I|exact Hpl'|exact R2|]. intros j Hj. cbn in Hj. apply elem_of_app. right.
    pose proof (prio_class_range (h_flags h)). destruct (prio_class _) as [|[|[|?]]]; [..|lia]; cbn; set_solver. }
  cbn beta. intros [] s3 [HO HR]. wp_steps. destruct (owes_release _ _ _ _ _ HO) as (qs4 & -> & H4).
  apply rwp_ok. wp_steps. cbn [drain_loop]. wp_steps.
  pose proof (owes_take _ _ _ _ (item_eligible (claim_owner (g_claim (st_g s3)))) H4) as Ht4. cbn [st_g] in Ht4.
  destruct (take_eligible _ _) as [[[j|] qs5]|]; [| |done].
  - destruct Ht4 as (_ & _ & Hmax & _). cbn in Hmax. lia.
  - apply rwp_ok. wp_steps. apply HQ; [done|]. destruct (owes_none _ _ _ H4). by split.
Qed.

(** The daemon as the switch over the request's type finds it; [s1] is the
    daemon that has queued it. *)
Record starts (i c : nat) (cl : client) (body : list Z) (fa : list nat) (it : qitem) s1 s : Prop := {
  sr_inv : inv [[]; []; []] fa [i] (st_g s);
  sr_lctx : lctx_ok (st_g s);
  sr_item : pool (g_qs (st_g s)) !! i = Some it;
  sr_body : take (length body) (q_body it) = body;
  sr_bytes : length (q_body it) = SPIPROXY_MSG_MAX /\ bytes_ok (q_body it);
  sr_client : g_cl (st_g s) !! c = Some cl;
  sr_flag : claim_flag (st_g s) = claim_flag (st_g s1);
  sr_cfg : g_cfg (st_g s) = g_cfg (st_g s1);
  sr_w : st_w s = st_w s1;
  sr_out : st_out s = st_out s1;
  sr_rest : st_g s = set_g_lctx (fun _ => g_lctx (st_g s)) (set_g_qs (fun _ => g_qs (st_g s)) (st_g s1)) }.

Lemma wp_item_starts f i fa c cl h body E R s1 s2 it :
  inv [[]; []; []] fa [i] (st_g s2) -> st_g s2 = set_g_qs (fun _ => g_qs (st_g s2)) (st_g s1) ->
  st_w s2 = st_w s1 -> st_out s2 = st_out s1 -> pool (g_qs (st_g s2)) !! i = Some it ->
  q_c it = c -> q_hdr it = h -> take (length body) (q_body it) = body -> g_cl (st_g s1) !! c = Some cl ->
  (forall s3, starts i c cl body fa it s1 s3 ->
     wp E (exec_request f (drain_queues f) i c h (q_body it)) (fun _ => R) s3) ->
  wp E (exec_item f (drain_queues f) i) (fun _ => R) s2.
Proof.
  intros I2 Hg2 Hw2 Ho2 Hit Hic Hih Hib Hcl HR.
  pose proof (Forall_lookup_1 _ _ _ _ (inv_items _ _ _ _ I2) Hit) as (Hl2 & Hbb2 & Hcm & _).
  assert (g_cl (st_g s2) !! c = Some cl) as Hcl2 by by rewrite Hg2.
  unfold exec_item. wp_steps. eapply rwp_arr_get; [exact Hit|]. wp_steps. rewrite Hic, Hih.
  eapply wp_get_client; [exact Hcl2|]. unfold set_lctx. wp_steps. apply HR.
  split; cbn [st_g st_w st_out g_qs g_cl g_cfg set_g_lctx]; try done.
  - apply (inv_same _ _ _ (st_g s2)); [done|apply I2|done..].
  - unfold lctx_ok. cbn. by rewrite <-Hic.
  - unfold claim_flag. cbn [g_claim g_mb_inflight set_g_lctx]. by rewrite Hg2.
  - by rewrite Hg2.
  - by rewrite Hg2.
Qed.

(** The request of a client that may use the device is executed: it is enough
    to look at the branch for its type. *)
Lemma wp_serve_item f b i c cl h body E R Q s s1 :
  accepted_as i c h body s s1 -> g_cl (st_g s) !! c = Some cl ->
  claim_owner (g_claim (st_g s)) = None \/ claim_owner (g_claim (st_g s)) = Some c ->
  (forall fa it cl1 s3, same_client cl cl1 -> starts i c cl1 body fa it s1 s3 ->
     wp E (exec_request f (drain_queues f) i c h (q_body it)) (fun _ => R) s3) ->
  (forall s3 qs, R s3 -> let s' := St (set_g_qs (fun _ => qs) (st_g s3)) (st_w s3) (st_out s3) in
     served s1 s' -> Q tt s') ->
  wp E (drain_queues (S f) (S (S b))) Q s1.
Proof.
  intros Hacc Hcl Hown HR HQ. pose proof Hacc as [_ (it & Hit & Hic & Hih & Hib) Hsc Hclm _ _ _ _ _].
  destruct (same_clients_lookup _ _ _ _ Hsc Hcl) as (cl1 & Hcl1 & Hsame).
  eapply (wp_drain_one f b E R); [exact Hacc| | |exact HQ].
  { rewrite Hclm. destruct Hown as [->| ->]; [done|]. cbn. by rewrite bool_decide_eq_true_2. }
  intros fa s2 I2 Hpl Hg2 Hw2 Ho2. set (k := req_key (st_g s2) i).
  assert (owes (Ghost s2 [k] 0) [i] [k] s2) as HO.
  { exists [[]; []; []], fa, []. split; [exact I2|]. split; [by apply frame_same|]. by split_and!. }
  eapply (wp_fault_mono (fun e => True /\ E e)); [tauto|]. eapply wp_mono; [apply wp_and|].
  - apply (wp_exec_item (Ghost s2 [k] 0) [] [] i k (fun _ => True) f (drain_queues f) s2 HO eq_refl); [|by left].
    intros busy owed s' HO' Hlx'. eapply wp_mono; [apply wp_drain_queues; [exact HO'|by left]|].
    cbn beta. intros [] s3 (H3 & Hlx3 & Ht3 & _). split; [done|]. split; [auto|done].
  - destruct (lookup_payload _ _ _ _ Hpl Hit) as (it2 & Hit2 & He). unfold payload in He. injection He as Hc2 Hh2 Hb2.
    eapply (wp_item_starts f i fa c cl1 h body E R s1 s2 it2); try done; try congruence. intros s3 Hs3. by eapply HR.
  - cbn beta. intros [] s3 [(HO3 & _) HR3]. by split.
Qed.

(** ** READ and WRITE, from the datagram to the answer *)

(** What the request does to the chip and to the rest of the daemon. *)
Definition op_served (fd : Z) (h : hdr) (write : bool) (o : op) s s' : Prop :=
  single_done fd h write o (st_w s) s s' /\ served s s'.

Lemma wp_serve_single f b i c cl h body (write : bool) E Q s s1 :
  accepted_as i c h body s s1 -> hdr_ok h -> h_len h = Z.of_nat op_size -> length body = op_size ->
  h_type h = op_type write -> g_cl (st_g s) !! c = Some cl -> g_mb_inflight (st_g s) = false ->
  claim_owner (g_claim (st_g s)) = None \/ claim_owner (g_claim (st_g s)) = Some c ->
  let o := op_set_write (if write then 1 else 0) (op_decode body) in
  valid_op o -> (forall s', op_served (c_fd cl) h write o s1 s' -> Q tt s') ->
  wp E (drain_queues (S f) (S (S b))) Q s1.
Proof.
  intros Hacc Hh Hlen Hbl Hty Hcl Hmb Hown o Hv HQ. pose proof Hacc as [_ _ _ _ Hinf _ _ _ _].
  eapply (wp_serve_item f b i c cl h body E (single_done (c_fd cl) h write o (st_w s1) s1)); [done..| |].
  2:{ intros s3 qs HR s' Hs. apply HQ. by split. }
  intros fa it cl1 s3 (Hfd & _) [I3 Hlx Hit Hib [Hl3 Hb3] Hcl3 Hcf Hcfg Hw Ho _].
  assert (nth_op (q_body it) 0 = op_decode body) as Hop
    by (unfold nth_op; cbn [Nat.mul]; by rewrite drop_0, <-Hbl, Hib).
  assert (wp E (exec_single i c h (q_body it) write)
    (fun _ s' => single_done (c_fd cl) h write o (st_w s1) s1 s') s3) as Hex.
  { eapply wp_mono; [eapply (wp_single_effect _ _ _ i it c cl1 h (q_body it) write E s3 I3); try done|].
    - by rewrite Hop.
    - unfold guarded. injection Hcf as _ ->. by rewrite Hinf, Hmb.
    - cbn beta. rewrite Hop. fold o. unfold single_done, replied. by rewrite Hcf, Hcfg, Hw, Ho, Hfd. }
  unfold exec_request. rewrite Hty. destruct write; exact Hex.
Qed.

End Service.

(** ** The daemon as the peer of a process *)

(** The daemon, the slot under which epoll knows the process's connection, and
    the datagrams it has sent to the process and the process has not received. *)
Record link (W : Type) := Link {
  lk_daemon : st (wired W);
  lk_slot : option nat;
  lk_inbox : list (list Z) }.
Arguments Link {W} lk_daemon lk_slot lk_inbox.
Arguments lk_daemon {W} l.
Arguments lk_slot {W} l.
Arguments lk_inbox {W} l.

(** Datagrams to [fd] that a run of the daemon from [s] to [s'] has sent. *)
Definition msg_to (fd : Z) (e : event) : option (list Z) :=
  match e with EvSend fd' m true => if fd' =? fd then Some m else None | _ => None end.
Definition delivered {W} (fd : Z) (s s' : st W) : list (list Z) :=
  reverse (omap (msg_to fd) (take (length (st_out s') - length (st_out s)) (st_out s'))).

(** The slot [epoll_ctl] registered last for [fd]. *)
Fixpoint slot_of (fd : Z) (out : list event) : option nat :=
  match out with
  | [] => None
  | EvEpollAdd fd' slot :: out' => if fd' =? fd then Some slot else slot_of fd out'
  | _ :: out' => slot_of fd out'
  end.

Section Link.
Context {W : Type} {WW : World W} {RG : Regs}.

Definition on_world (f : wired W -> wired W) (s : st (wired W)) : st (wired W) :=
  St (st_g s) (f (st_w s)) (st_out s).

(** What the process does to its connection: connect (a new one), send, exit. *)
Definition dial (a : accepted) (w : wired W) : wired W := Wired (wr_host w) (Some a) None [] false.
Definition push (m : list Z) (w : wired W) : wired W :=
  Wired (wr_host w) (wr_pending w) (wr_conn w) (wr_dgrams w ++ [m]) (wr_hup w).
Definition leave (w : wired W) : wired W :=
  Wired (wr_host w) (wr_pending w) (wr_conn w) (wr_dgrams w) true.

(** One turn of the daemon's main loop; [fd] is its end of the connection. *)
Definition turn (fuel : nat) (fd : Z) (ready : list (option nat)) (l : link W) : option (link W) :=
  match loop_turn fuel ready (lk_daemon l) with
  | Ok (_, s') => Some (Link s' (lk_slot l) (lk_inbox l ++ delivered fd (lk_daemon l) s'))
  | Fail _ => None
  end.
Definition conn_ready (l : link W) : list (option nat) := match lk_slot l with Some i => [Some i] | None => [] end.

(** The process's first free descriptor. *)
Definition SOCK_FD : Z := 3.

(** The daemon behind the socket, for a process that accept reports as [a]: a
    connect makes the listening socket ready and the daemon turns; send leaves the
    datagram in the socket; while the process waits in recv, its connection is
    ready and the daemon turns. *)
Definition daemon_peer (a : accepted) (fuel : nat) : Peer (link W) := {|
  p_connect l :=
    match turn fuel (ac_fd a) [None] (Link (on_world (dial a) (lk_daemon l)) None []) with
    | Some l' => (Link (lk_daemon l') (slot_of (ac_fd a) (st_out (lk_daemon l'))) (lk_inbox l'), Some SOCK_FD)
    | None => (l, None)
    end;
  p_send l m := (Link (on_world (push m) (lk_daemon l)) (lk_slot l) (lk_inbox l), Z.of_nat (length m));
  p_recv l :=
    match turn fuel (ac_fd a) (conn_ready l) l with
    | Some (Link s' slot (m :: rest)) => (Link s' slot rest, (Z.of_nat (length m), m))
    | Some l' => (l', (-1, []))
    | None => (l, (-1, []))
    end;
  p_clock l := let '(w', t) := w_clock (st_w (lk_daemon l)) in
               (Link (on_world (fun _ => w') (lk_daemon l)) (lk_slot l) (lk_inbox l), t);
  p_sleep l us := Link (on_world (fun w => w_do w (EvUsleep us)) (lk_daemon l)) (lk_slot l) (lk_inbox l);
  p_strerror l := "Connection refused";
  p_calloc l n := true;
  p_stack l n := w_stack (st_w (lk_daemon l)) n |}.

(** The process exits: its connection is ready and the daemon turns. *)
Definition hang_up (a : accepted) (fuel : nat) (l : link W) : option (link W) :=
  turn fuel (ac_fd a) (conn_ready l) (Link (on_world leave (lk_daemon l)) (lk_slot l) (lk_inbox l)).

(** A process that has just been started ([sock_fd] is -1). *)
Definition process_start (l : link W) : cli (link W) := Cli (-1) SPIPROXY_SOCK 0 l [].

(** The world around the daemon. *)
Definition host (l : link W) : W := wr_host (st_w (lk_daemon l)).

End Link.

Section Turns.
Context {W : Type} {WW : World W} {WO : WorldOk W WW} {RG : Regs} {RO : RegsOk RG}
  {CH : PipelinedChip W WW} {SC : StorageChip W WW CH}.
Implicit Types (s : st (wired W)) (l : link W).

Lemma msg_to_none fd ev : answers ev = [] -> omap (msg_to fd) ev = [].
Proof.
  induction ev as [|e ev IH]; [done|]. unfold answers in *. cbn.
  destruct e; cbn; try done; auto.
Qed.

Lemma delivered_nothing fd s s' ev :
  st_out s' = ev ++ st_out s -> answers ev = [] -> delivered fd s s' = [].
Proof.
  intros Ho Ha. unfold delivered. rewrite Ho, length_app, Nat.add_sub, take_app_length.
  by rewrite msg_to_none.
Qed.

(** The socket takes the answers to the process. *)
Definition takes (a : accepted) : Prop := forall (w : W) m, 0 <= snd (w_send w (ac_fd a) m).

(** An answer over such a socket is the only datagram. *)
Lemma replied_delivered a m s s' : takes a -> replied (ac_fd a) m s s' -> delivered (ac_fd a) s s' = [m].
Proof.
  intros Hs (ev1 & w & ev2 & Ho & H1 & H2). unfold delivered. set (fd := ac_fd a) in *.
  assert (st_out s' = (ev1 ++ EvSend fd m (0 <=? snd (w_send w fd m)) :: ev2) ++ st_out s) as ->
    by by rewrite Ho, <-app_assoc.
  assert (0 <= snd (w_send w fd m)) as Hw
    by (pose proof (Hs (wr_host w) m) as Hx; fold fd in Hx; cbn; by destruct (w_send (wr_host w) fd m)).
  rewrite length_app, Nat.add_sub, take_app_length, omap_app, (msg_to_none _ _ H1). cbn [omap list_omap msg_to].
  rewrite (proj2 (Z.leb_le _ _)) by exact Hw. rewrite Z.eqb_refl, (msg_to_none _ _ H2). done.
Qed.

Lemma replied_after fd m s s1 s' ev :
  st_out s1 = ev ++ st_out s -> answers ev = [] -> replied fd m s1 s' -> replied fd m s s'.
Proof.
  intros Ho Ha (ev1 & w & ev2 & Ho' & H1 & H2). exists ev1, w, (ev2 ++ ev).
  rewrite Ho', Ho, <-app_assoc. split; [done|]. split; [done|]. unfold answers in *. by rewrite omap_app, H2, Ha.
Qed.

(** ** The daemon between requests *)

(** Nothing is queued, no mailbox transaction is under way, nobody holds the
    claim. *)
Record rests s : Prop := {
  rs_inv : exists fa, inv [[]; []; []] fa [] (st_g s);
  rs_inflight : g_mb_inflight (st_g s) = false;
  rs_claim : claim_owner (g_claim (st_g s)) = None }.

(** It rests and has a free slot. *)
Definition at_rest l : Prop := rests (lk_daemon l) /\ (free_slot (g_cl (st_g (lk_daemon l))) < MAX_CLIENTS)%nat.

(** The rest of a turn does nothing. *)
Lemma wp_turn_rests f E Q s :
  rests s -> Q tt s -> wp E (expire_claim ;; drain_queues (S f) 64) Q s.
Proof.
  intros [(fa & I) _ Hc] HQ. unfold expire_claim. wp_steps. rewrite Hc. wp_steps.
  eapply wp_eq; [eapply drain_empty; apply I|done].
Qed.

(** ** The connection is accepted *)

(** The client and the daemon afterwards. *)
Definition new_client (a : accepted) (g : glob) : client :=
  Client (ac_fd a) true (u32 (g_next_cid g + 1)) (as_pid (ac_pid a)) (peer_comm (ac_comm_file a)) 0 0 0.
Definition joined (a : accepted) (g : glob) : glob :=
  set_g_cl (fun _ => <[free_slot (g_cl g) := new_client a g]> (g_cl g)) (set_g_next_cid (fun n => u32 (n + 1)) g).

(** What has happened to the rest. *)
Record connects (a : accepted) l s1 : Prop := {
  cn_glob : st_g s1 = joined a (st_g (lk_daemon l));
  cn_host : by_acts off_bus (host l) (wr_host (st_w s1));
  cn_conn : st_w s1 = Wired (wr_host (st_w s1)) None (Some (ac_fd a)) [] false;
  cn_out : exists ev, Forall is_log_event ev /\
    st_out s1 = ev ++ EvEpollAdd (ac_fd a) (free_slot (g_cl (st_g (lk_daemon l)))) :: st_out (lk_daemon l) }.

Lemma free_slot_unused cls :
  (free_slot cls < length cls)%nat -> exists c0, cls !! free_slot cls = Some c0 /\ c_used c0 = false.
Proof. intros H. destruct (free_slot_spec cls) as [[H1 _]|H1]; [lia|exact H1]. Qed.

Lemma joined_inv fa a g :
  inv [[]; []; []] fa [] g -> (free_slot (g_cl g) < MAX_CLIENTS)%nat ->
  inv [[]; []; []] fa [] (joined a g) /\
  g_cl (joined a g) !! free_slot (g_cl g) = Some (new_client a g).
Proof.
  intros I Hf. pose proof (inv_cl _ _ _ _ I) as [Hlen Hall].
  destruct (free_slot_unused (g_cl g)) as (c0 & Hc0 & Hu0); [lia|]. split.
  - apply (inv_connect _ _ _ _ c0); [done..|]. unfold client_ok, new_client. cbn.
    pose proof (peer_comm_length (ac_comm_file a)). pose proof (as_pid_range (ac_pid a)).
    split_and!; try done; try apply u32_range; unfold is_u64; lia.
  - cbn. apply list_lookup_insert_eq. by eapply lookup_lt_Some.
Qed.

Lemma joined_rests a l s1 : at_rest l -> st_g s1 = joined a (st_g (lk_daemon l)) -> rests s1.
Proof.
  intros [[(fa & I) Hm Hc] Hf] Hg. split; rewrite Hg; [|done|done]. exists fa. by apply joined_inv.
Qed.

Lemma free_slot_le cls i cl : cls !! i = Some cl -> c_used cl = false -> (free_slot cls <= i)%nat.
Proof.
  revert i. induction cls as [|c cls IH]; intros [|i] Hi Hu; try done; cbn in *.
  - simplify_eq. by rewrite Hu.
  - destruct (c_used c); [|lia]. specialize (IH i Hi Hu). lia.
Qed.

(** The accept itself. *)
Lemma wp_accept_dialled a l E :
  at_rest l -> wp E accept_client (fun _ s1 => connects a l s1) (on_world (dial a) (lk_daemon l)).
Proof.
  intros [[(fa & I) Hm Hc] Hf]. pose proof (inv_cl _ _ _ _ I) as [Hlen _].
  unfold accept_client. apply wp_bind, wp_ask. 
  change (w_accept (st_w (on_world (dial a) (lk_daemon l)))) with
    (Wired (host l) None (Some (ac_fd a)) [] false, Some (Accepted (ac_fd a) (as_pid (ac_pid a)) (ac_comm_file a))).
  intros w1 r [= <- <-]. wp_steps. cbn [on_world st_g st_out ac_fd ac_pid ac_comm_file].
  rewrite (proj2 (Nat.eqb_neq _ _)) by lia. wp_steps. apply rwp_arr_set; [lia|]. wp_steps.
  apply wp_log_diary. intros w3 o3 _ Hw3 Ho3. apply wp_debug_diary. intros w4 o4 _ Hw4 Ho4. cbn [st_w st_out st_g] in *.
  assert (by_acts diary (w_do (Wired (host l) None (Some (ac_fd a)) [] false)
    (EvEpollAdd (ac_fd a) (free_slot (g_cl (st_g (lk_daemon l)))))) w4) as Hd by (etrans; [exact Hw3|exact Hw4]).
  split; cbn [st_w st_g st_out]; [done| | |].
  - apply wired_by_acts in Hd. etrans; [|eapply by_acts_weaken; [|exact Hd]; by intros []].
    apply (by_acts_once off_bus ActHost); [done|by apply calm_host].
  - apply wired_diary in Hd. rewrite Hd at 1. done.
  - exists (o4 ++ o3). split; [by apply Forall_app_2|]. by rewrite <-app_assoc.
Qed.

Lemma slot_of_logs fd ev out : Forall is_log_event ev -> slot_of fd (ev ++ out) = slot_of fd out.
Proof. induction 1 as [|e ev He _ IH]; [done|]. by destruct e. Qed.

(** connect succeeds, and the connection has the first free slot. *)
Lemma daemon_connects f a l :
  at_rest l -> exists s1, connects a l s1 /\
    p_connect (Peer := daemon_peer a (S f)) l =
      (Link s1 (Some (free_slot (g_cl (st_g (lk_daemon l))))) [], Some SOCK_FD).
Proof.
  intros HR.
  assert (wp (fun _ => False) (loop_turn (S f) [None]) (fun _ s1 => connects a l s1) (on_world (dial a) (lk_daemon l))) as H.
  { unfold loop_turn. cbn [forM]. apply wp_bind, wp_bind. cbn [handle_event].
    eapply wp_mono; [by apply wp_accept_dialled|]. cbn beta. intros _ s1 H1. apply wp_ret.
    apply wp_turn_rests; [|done]. eapply joined_rests; [done|apply H1]. }
  apply wp_unit in H as (s1 & Hs1 & H1). exists s1. split; [done|]. destruct H1 as [_ _ _ (ev & Hev & Hout)].
  cbn [p_connect daemon_peer]. unfold turn. cbn [lk_daemon lk_inbox lk_slot]. rewrite Hs1. cbn [lk_daemon lk_inbox].
  rewrite Hout at 1. rewrite slot_of_logs by done. cbn [slot_of]. rewrite Z.eqb_refl. do 2 f_equal.
  apply (delivered_nothing _ _ _ (ev ++ [EvEpollAdd (ac_fd a) (free_slot (g_cl (st_g (lk_daemon l))))])).
  - cbn [on_world st_out]. by rewrite Hout, <-app_assoc.
  - unfold answers. rewrite omap_app. fold (answers ev). by rewrite log_answers.
Qed.

(** ** A request is received *)

Lemma idle_free fa (g : glob) :
  inv [[]; []; []] fa [] g -> exists i fa' it, fa = i :: fa' /\ pool (g_qs g) !! i = Some it.
Proof.
  intros I. pose proof (rep_lrep _ _ _ _ (inv_rep _ _ _ _ I)) as L.
  pose proof (lrep_perm _ _ _ _ L) as Hp. cbn in Hp. rewrite app_nil_r in Hp.
  destruct fa as [|i fa]; [by apply Permutation_nil_l in Hp|]. exists i, fa.
  assert (i ∈ seq 0 MAX_QITEMS) as Hi by (rewrite <-Hp; set_solver).
  rewrite elem_of_seq, <-(lrep_pool _ _ _ _ L) in Hi.
  destruct (lookup_lt_is_Some_2 (pool (g_qs g)) i) as [it Hit]; [lia|]. eauto.
Qed.

(** The connection of the process in [slot]: nothing in it but what it just sent. *)
Record connected_as (slot : nat) (cl : client) (m : list (list Z)) s : Prop := {
  ca_slot : g_cl (st_g s) !! slot = Some cl;
  ca_used : c_used cl = true;
  ca_conn : wr_conn (st_w s) = Some (c_fd cl);
  ca_dgrams : wr_dgrams (st_w s) = m }.

(** A datagram within the limits is a request of the process. *)
Record dgram (h : hdr) (body : list Z) : Prop := {
  dg_hdr : hdr_ok h;
  dg_ver : h_ver h = SPIPROXY_VER;
  dg_len : h_len h = Z.of_nat (length body);
  dg_max : (length body <= SPIPROXY_MSG_MAX)%nat;
  dg_bytes : bytes_ok body }.

Lemma recv_dgram h body (w : wired W) :
  dgram h body -> wr_dgrams w = [hdr_encode h ++ body] -> forall fd, wr_conn w = Some fd ->
  let m := hdr_encode h ++ body in
  w_recv w fd = (Wired (wr_host w) (wr_pending w) (wr_conn w) [] (wr_hup w),
    (Z.of_nat (hdr_size + length body), hdr_encode h ++ body ++ drop (length m) (w_stack (wr_host w) MSG_BUF))).
Proof.
  intros [Hh _ _ Hmax Hb] Hd fd Hc m. cbn [w_recv wired_world]. unfold wired_recv.
  rewrite bool_decide_eq_true_2 by done. rewrite Hd.
  assert (length m = (hdr_size + length body)%nat) as Hl by (unfold m; by rewrite length_app, length_hdr_encode).
  assert (u8 <$> take MSG_BUF m = m) as Hm.
  { rewrite take_ge by (rewrite Hl; unfold MSG_BUF, hdr_size; lia).
    assert (bytes_ok m) as Hbm by (unfold m; auto with spid). clear -Hbm. induction Hbm as [|b m Hb _ IH]; [done|].
    cbn [fmap list_fmap]. rewrite IH. f_equal. unfold u8, is_u8 in *. by apply Z.mod_small. }
  fold m. rewrite Hm, Hl. unfold m at 1. by rewrite <-app_assoc.
Qed.

(** The daemon after it has taken the datagram [m] out of the socket. *)
Definition received s : st (wired W) :=
  on_world (fun w => Wired (wr_host w) (wr_pending w) (wr_conn w) [] (wr_hup w)) s.

Lemma wp_request_turn f slot cl h body E Q s :
  rests s -> connected_as slot cl [hdr_encode h ++ body] s -> dgram h body ->
  (forall i s1, accepted_as i slot h body (received s) s1 ->
     g_cl (st_g s1) = <[slot := count_msg cl]> (g_cl (st_g s)) -> wp E (drain_queues f 64) Q s1) ->
  wp E (loop_turn f [Some slot]) Q s.
Proof.
  intros [(fa & I) _ Hc] [Hsl Hu Hconn Hd] HD HQ. pose proof HD as [Hh Hv Hl Hmax Hb].
  destruct (idle_free _ _ I) as (i & fa' & it & -> & Hit).
  destruct (w_stack_bytes (wr_host (st_w s)) MSG_BUF) as [_ Hskb].
  unfold loop_turn. cbn [forM]. apply wp_bind, wp_bind. cbn [handle_event]. unfold client_msg.
  apply wp_bind. eapply wp_get_client; [exact Hsl|]. apply wp_bind, wp_ask.
  rewrite (recv_dgram h body _ HD Hd (c_fd cl) Hconn). intros w1 r [= <- <-].
  rewrite (proj2 (Z.leb_gt _ _)) by (unfold hdr_size; lia). change (St (st_g s) _ (st_out s)) with (received s).
  apply (wp_frame_exact i fa' it); try done; [by exists cl|auto with spid|]. intros s1 cl1 Hacc Hcl1 Hg1.
  cbn [received on_world st_g] in Hcl1, Hg1. simplify_eq. apply wp_ret. unfold expire_claim. wp_steps.
  pose proof Hacc as [_ _ _ Hclm _ _ _ _ _]. rewrite Hclm. cbn [received on_world st_g]. rewrite Hc. wp_steps.
  by eapply HQ.
Qed.

(** ** The answer arrives *)

(** [daemon_peer]'s view of it: the process connected, sent the request and waits
    in recv; the scheduler's run from the state in which the request is queued is
    all that is left to look at. *)
Lemma daemon_answers f a h body l s1 (R : list Z -> st (wired W) -> Prop) :
  at_rest l -> takes a -> connects a l s1 -> dgram h body ->
  let slot := free_slot (g_cl (st_g (lk_daemon l))) in
  let s := on_world (push (hdr_encode h ++ body)) s1 in
  (forall i s2, accepted_as i slot h body (received s) s2 ->
     g_cl (st_g s2) = <[slot := count_msg (new_client a (st_g (lk_daemon l)))]> (g_cl (st_g s)) ->
     wp (fun _ => False) (drain_queues f 64) (fun _ s' => exists m, replied (ac_fd a) m s2 s' /\ R m s') s2) ->
  exists m s', R m s' /\
    p_recv (Peer := daemon_peer a f) (Link s (Some slot) []) = (Link s' (Some slot) [], (Z.of_nat (length m), m)).
Proof.
  intros HR Ha HC HD slot s Hd. pose proof HR as [[(fa & I) _ _] Hf].
  destruct (joined_inv fa a _ I Hf) as [_ Hnew].
  assert (wp (fun _ => False) (loop_turn f [Some slot]) (fun _ s' => exists m, replied (ac_fd a) m s s' /\ R m s') s) as H.
  { pose proof (joined_rests a l s1 HR (cn_glob _ _ _ HC)) as Hrs. destruct HC as [Hg _ Hw _].
    apply (wp_request_turn f slot (new_client a (st_g (lk_daemon l))) h body); [by destruct Hrs| |done|].
    - split; cbn [s on_world st_g st_w push wr_conn wr_dgrams new_client c_used c_fd]; [by rewrite Hg|done|by rewrite Hw|].
      by rewrite Hw.
    - intros i s2 Hacc Hcl. eapply wp_mono; [by apply (Hd i)|]. cbn beta. intros _ s' (m & Hrep & HRs). exists m. split; [|done].
      destruct Hacc as [_ _ _ _ _ _ _ (ev & Hout & Hev) _]. eapply (replied_after _ _ _ s2 _ ev); [done|by apply log_answers|done]. }
  apply wp_unit in H as (s' & Hs' & m & Hrep & HRs). exists m, s'. split; [done|].
  cbn [p_recv daemon_peer]. unfold turn, conn_ready. cbn [lk_slot lk_daemon lk_inbox]. rewrite Hs'.
  by rewrite (replied_delivered a m).
Qed.

(** ** The process exits *)

Lemma wp_drop_rests slot cl E s :
  rests s -> g_cl (st_g s) !! slot = Some cl ->
  wp E (client_drop slot) (fun _ s' => rests s' /\ by_acts off_bus (wr_host (st_w s)) (wr_host (st_w s')) /\
    (free_slot (g_cl (st_g s')) < MAX_CLIENTS)%nat) s.
Proof.
  intros [(fa & I) Hm Hc] Hsl. pose proof (inv_cl _ _ _ _ I) as [Hlen _]. unfold client_drop. wp_steps.
  rewrite bool_decide_eq_false_2 by (rewrite Hc; done). cbn [whenM]. wp_steps.
  destruct (inv_purge [[]; []; []] fa _ slot I) as (qs' & fa' & -> & I2 & _). apply rwp_ok. wp_steps.
  eapply wp_get_client; [exact Hsl|]. wp_steps. eapply wp_upd_client; [exact Hsl|].
  apply wp_debug_diary. intros w3 o3 _ Hw3 _. cbn [st_w st_g st_out] in *. split_and!.
  - split; [|done|done]. exists fa'. apply inv_disconnect; [exact I2|done|cbn; by rewrite Hc|].
    intros i it Hi. cbn in Hi. by apply elem_of_nil in Hi.
  - apply wired_by_acts in Hw3. etrans; [|eapply by_acts_weaken; [|exact Hw3]; by intros []].
    etrans; [apply (by_acts_once off_bus ActHost); [done|by apply (calm_host _ (EvEpollDel (c_fd cl)))]|].
    apply (by_acts_once off_bus ActHost); [done|by apply (calm_host _ (EvClose (c_fd cl)))].
  - cbn. rewrite <-Hlen. eapply Nat.le_lt_trans; [|by eapply lookup_lt_Some].
    apply (free_slot_le _ _ (set_c_used (fun _ => false) cl)); [|done].
    apply list_lookup_insert_eq. by eapply lookup_lt_Some.
Qed.

Lemma hang_up_rests f a slot cl l :
  rests (lk_daemon l) -> lk_slot l = Some slot -> connected_as slot cl [] (lk_daemon l) ->
  exists l', hang_up a (S f) l = Some l' /\ at_rest l' /\ by_acts off_bus (host l) (host l').
Proof.
  intros HR Hs [Hsl Hu Hc Hd]. set (s := on_world leave (lk_daemon l)).
  assert (wp (fun _ => False) (loop_turn (S f) [Some slot]) (fun _ s' => rests s' /\
    by_acts off_bus (host l) (wr_host (st_w s')) /\ (free_slot (g_cl (st_g s')) < MAX_CLIENTS)%nat) s) as H.
  { unfold loop_turn. cbn [forM]. apply wp_bind, wp_bind. cbn [handle_event]. unfold client_msg.
    apply wp_bind. eapply wp_get_client; [exact Hsl|]. apply wp_bind, wp_ask.
    cbn [w_recv wired_world s on_world st_w]. unfold wired_recv. cbn [leave wr_conn wr_dgrams wr_hup wr_host].
    rewrite bool_decide_eq_true_2 by done. rewrite Hd. intros w1 r [= <- <-]. cbn beta iota.
    change (0 <=? 0) with true. cbn beta iota.
    eapply wp_mono; [apply (wp_drop_rests slot cl); [by destruct HR|done]|]. cbn beta.
    intros _ s' (HR' & Hw & Hf). apply wp_ret. by apply wp_turn_rests. }
  apply wp_unit in H as (s' & Hs' & HR' & Hw & Hf). unfold hang_up, turn, conn_ready. rewrite Hs.
  cbn [lk_daemon lk_slot lk_inbox]. fold s. rewrite Hs'. eexists. split; [done|]. by split.
Qed.

End Turns.

(** ** The process's side *)

Section Process.
Context {W : Type} {WW : World W} {WO : WorldOk W WW} {RG : Regs} {RO : RegsOk RG}
  {CH : PipelinedChip W WW} {SC : StorageChip W WW CH}.
Implicit Types (s : st (wired W)) (l : link W).

(** The first request of a process, with sequence number 1, and its answer, in a
    buffer that is large enough. *)
Lemma wp_cli_exchange a f type body x rb buf n E Q l s1 slot s2 :
  let h := Hdr SPIPROXY_VER type 0 1 (Z.of_nat (length body)) in
  let m := response h x rb in
  dgram h body -> (length rb <= SPIPROXY_MSG_MAX)%nat -> (length rb <= n)%nat -> (n <= length buf)%nat ->
  p_connect (Peer := daemon_peer a f) l = (Link s1 slot [], Some SOCK_FD) ->
  p_recv (Peer := daemon_peer a f) (Link (on_world (push (hdr_encode h ++ body)) s1) slot []) =
    (Link s2 slot [], (Z.of_nat (length m), m)) ->
  Q (status_code x, Some (rb ++ drop (length rb) buf, Z.of_nat (length rb)))
    (Cli SOCK_FD SPIPROXY_SOCK 1 (Link s2 slot []) [CliSent (hdr_encode h ++ body)]) ->
  wp E (xfer (PE := daemon_peer a f) type 0 body (Z.of_nat (length body)) (Some (buf, Z.of_nat n))) Q (process_start l).
Proof.
  intros h m [Hh _ _ Hmax Hb] Hrm Hrb Hnb Hconn Hrecv HQ. assert (Z.of_nat SPIPROXY_MSG_MAX = 4096) as Hmm by done.
  destruct (w_stack_bytes (st_w (lk_daemon l)) MSG_BUF) as [Hsk Hskb].
  assert (request_msg type 0 1 (Z.of_nat (length body)) body = hdr_encode h ++ body) as Hreq
    by (unfold request_msg; by rewrite Nat2Z.id, firstn_all).
  eapply (wp_xfer_exact (PE := daemon_peer a f) _ _ _ _ _ _ _ _ _ _ (Link s2 slot []) (Z.of_nat (length m)) m); [done|exact Hconn|done|done
    |by apply request_ok_whole; [..|apply Z.leb_le; lia]|reflexivity|apply Nat2Z.is_nonneg| |lia| |].
  { change (u32 (cl_seq (process_start l) + 1)) with 1. rewrite Hreq. exact Hrecv. }
  { unfold m, response. rewrite length_app, length_hdr_encode. apply Nat2Z.inj_le.
    change (Z.of_nat MSG_BUF) with 4108. unfold hdr_size. lia. }
  intros rest. change (u32 (cl_seq (process_start l) + 1)) with 1. unfold m at 2, response.
  rewrite length_app, length_hdr_encode.
  eapply wp_eq; [apply (parse_response h x rb rest buf (Z.of_nat n)); [done|done|lia]|].
  assert (fitting rb (Z.of_nat n) = rb) as -> by (unfold fitting; by rewrite Nat2Z.id, take_ge).
  by rewrite Hreq.
Qed.

(** The request of a register operation. *)
Definition op_hdr (write : bool) (seq : Z) : hdr := Hdr SPIPROXY_VER (op_type write) 0 seq (Z.of_nat op_size).
Definition op_request (write : bool) (seq : Z) (o : op) : list Z :=
  request_msg (op_type write) 0 seq (Z.of_nat op_size) (op_encode o).

Lemma op_hdr_ok write seq : is_u32 seq -> hdr_ok (op_hdr write seq).
Proof.
  intros H. unfold op_hdr, op_type. split_and!; cbn; try done;
    destruct write; unfold is_u8, is_u16, is_u32, SPIPROXY_VER; cbn; lia.
Qed.

Lemma op_request_eq write seq o : op_request write seq o = hdr_encode (op_hdr write seq) ++ op_encode o.
Proof.
  unfold op_request, request_msg. rewrite take_ge; [done|]. by rewrite length_op_encode, Nat2Z.id.
Qed.

Lemma length_op_request write seq o : length (op_request write seq o) = (hdr_size + op_size)%nat.
Proof. by rewrite op_request_eq, length_app, length_hdr_encode, length_op_encode. Qed.

Lemma op_fits o : (length (op_encode o) <= SPIPROXY_MSG_MAX)%nat.
Proof. rewrite length_op_encode. pose proof msg_max_big. unfold op_size. lia. Qed.

Lemma op_dgram write o : dgram (op_hdr write 1) (op_encode o).
Proof.
  split; [by apply op_hdr_ok; unfold is_u32; lia|done|by rewrite length_op_encode|apply op_fits|apply op_encode_ok].
Qed.

(** ** A register command, from the arguments to the printed line *)

(** The connection afterwards, and the daemon at rest again. *)
Definition still_connected (a : accepted) (slot : nat) s : Prop :=
  rests s /\ exists cl, c_fd cl = ac_fd a /\ connected_as slot cl [] s.

Definition conn_part (w : wired W) : option Z * list (list Z) := (wr_conn w, wr_dgrams w).

Lemma conn_part_host : host_part conn_part.
Proof.
  split; intros w.
  - intros tx. by rewrite wired_spi.
  - by rewrite wired_clock.
  - intros fd msg. by rewrite wired_send.
  - intros e He. unfold conn_part. cbn. destruct e; try done. by destruct (He fd).
Qed.

(** Serving the request leaves the connection open. *)
Lemma served_connected a h body i l s1 s2 s' :
  at_rest l -> connects a l s1 -> let slot := free_slot (g_cl (st_g (lk_daemon l))) in
  let s := on_world (push (hdr_encode h ++ body)) s1 in
  accepted_as i slot h body (received s) s2 ->
  g_cl (st_g s2) = <[slot := count_msg (new_client a (st_g (lk_daemon l)))]> (g_cl (st_g s)) ->
  served s2 s' -> claim_flag (st_g s') = claim_flag (st_g s2) -> conn_part (st_w s') = conn_part (st_w s2) ->
  still_connected a slot s'.
Proof.
  intros [[(fa & I) Hm Hc] Hf] [Hg _ Hw _] slot s [_ _ _ Hclm Hinf _ Hcalm _ _] Hcl [Hinv Hsame] Hcf Hk.
  destruct (joined_inv fa a _ I Hf) as [_ Hnew]. cbn [received s on_world st_g] in Hclm, Hinf, Hcl. rewrite Hg in Hclm, Hinf, Hcl.
  assert (exists cl', g_cl (st_g s') !! slot = Some cl' /\ same_client (count_msg (new_client a (st_g (lk_daemon l)))) cl')
    as (cl' & Hcl' & (Hfd & Hu & _)).
  { apply (same_clients_lookup _ _ _ _ Hsame). rewrite Hcl. apply list_lookup_insert_eq. by eapply lookup_lt_Some. }
  injection Hcf as Hcf1 Hcf2. split; [split; [done|by rewrite Hcf2, Hinf|by rewrite Hcf1, Hclm]|]. exists cl'. split; [done|].
  cbn [received on_world st_w s push] in Hcalm. apply wired_diary in Hcalm. rewrite Hcalm, Hw in Hk.
  injection Hk as Hk1 Hk2. split; [done|by rewrite Hu|by rewrite Hk1, Hfd|done].
Qed.

(** What the scheduler did to the request [o], in a state [w] of the chip reached
    without a frame: its frames went over the bus, and a written register keeps
    the value. *)
Record op_effect (a : accepted) (write : bool) (o : op) l (w : W) s' : Prop := {
  oe_before : by_acts off_bus (host l) w;
  oe_bus : bus (st_out s') = bus (st_out (lk_daemon l)) ++ op_frames (cf_pad (g_cfg (st_g (lk_daemon l)))) o;
  oe_after : still_connected a (free_slot (g_cl (st_g (lk_daemon l)))) s';
  oe_store : write = true -> plain_reg o ->
    chip_reg (wr_host (st_w s')) (op_slice o) (op_mmd o) (op_reg o) = op_val o }.

Lemma op_served_effect a (write : bool) o h i l s1 s2 s' :
  at_rest l -> connects a l s1 -> let slot := free_slot (g_cl (st_g (lk_daemon l))) in
  let s := on_world (push (hdr_encode h ++ op_encode o)) s1 in
  let o' := op_set_write (if write then 1 else 0) o in
  accepted_as i slot h (op_encode o) (received s) s2 ->
  g_cl (st_g s2) = <[slot := count_msg (new_client a (st_g (lk_daemon l)))]> (g_cl (st_g s)) ->
  op_served (ac_fd a) h write o' s2 s' -> op_effect a write o' l (wr_host (st_w s2)) s'.
Proof.
  intros HR HC slot s o' Hacc Hcl ((_ & Hbus & Hcf & Hpart & Hst) & Hsv). pose proof HC as [Hg Hh _ (ev0 & Hev0 & Hout0)].
  pose proof Hacc as [_ _ _ _ _ Hcfg Hcalm (ev & Hout & Hev) _].
  cbn [received s on_world st_g st_out st_w push wr_host] in Hcfg, Hcalm, Hout. rewrite Hg in Hcfg. split.
  - apply wired_by_acts in Hcalm. etrans; [exact Hh|]. eapply by_acts_weaken; [|exact Hcalm]. by intros [].
  - rewrite Hbus, Hout, bus_logs, Hcfg by done. rewrite Hout0, bus_logs by done. done.
  - eapply served_connected; try done. apply Hpart, conn_part_host.
  - exact Hst.
Qed.

Lemma op_result_ok (w : W) o : op_ok o -> op_ok (op_result w o).
Proof.
  intros H. unfold op_result. destruct (is_write o); [done|].
  destruct H as (? & ? & ? & ? & ? & ? & ?). split_and!; try done. apply sc_reg_u32.
Qed.

(** The outcome of the exchange: the operation as the daemon executes it. *)
Definition op_done (a : accepted) (write : bool) (o : op) l (r : Z * op) (c' : cli (link W)) : Prop :=
  let o' := op_set_write (if write then 1 else 0) o in
  exists w s', op_effect a write o' l w s' /\ r = (status_code SPIPROXY_OK, op_result w o') /\
    c' = Cli SOCK_FD SPIPROXY_SOCK 1 (Link s' (Some (free_slot (g_cl (st_g (lk_daemon l))))) [])
           [CliSent (op_request write 1 o)].

Lemma wp_cli_op a f (write : bool) o l E :
  at_rest l -> takes a -> op_ok o -> op_slice o < SLICE_COUNT -> op_mmd o < 32 ->
  wp E (xfer_op (PE := daemon_peer a (S f)) (op_type write) 0 o) (op_done a write o l) (process_start l).
Proof.
  intros HR Ha Ho Hslice Hmmd. set (o' := op_set_write (if write then 1 else 0) o). set (h := op_hdr write 1).
  pose proof (length_op_encode o) as Hol. pose proof (op_dgram write o) as HD. fold h in HD.
  assert (op_decode (op_encode o) = o) as Hde by (rewrite <-(app_nil_r (op_encode o)); by apply op_decode_encode).
  assert (op_ok o') as Ho' by (apply op_set_write_ok; [done|by destruct write]).
  destruct (daemon_connects f a l HR) as (s1 & HC & Hconn).
  destruct (daemon_answers (S f) a h (op_encode o) l s1 (fun m s' => exists w, op_effect a write o' l w s' /\
    m = response h SPIPROXY_OK (op_encode (op_result w o'))) HR Ha HC HD) as (m & s' & (w & Heff & ->) & Hrecv).
  { intros i s2 Hacc Hcl. pose proof HR as [[(fa & I) Hm Hc] Hf]. destruct (joined_inv fa a _ I Hf) as [_ Hnew].
    pose proof (cn_glob _ _ _ HC) as Hg.
    eapply (wp_serve_single f 62 i _ (new_client a (st_g (lk_daemon l))) h (op_encode o) write); try done; try rewrite Hde.
    - apply HD.
    - cbn. by rewrite Hg.
    - cbn. by rewrite Hg.
    - left. cbn. by rewrite Hg.
    - done.
    - intros s3 Hsv. exists (response h SPIPROXY_OK (op_encode (op_result (st_w s2) o'))). split; [apply Hsv|].
      exists (wr_host (st_w s2)). split; [|done]. by eapply op_served_effect. }
  set (rb := op_encode (op_result w o')) in *. assert (length rb = op_size) as Hrl by apply length_op_encode.
  unfold xfer_op. apply wp_bind. rewrite <-Hol.
  assert (Hdr SPIPROXY_VER (op_type write) 0 1 (Z.of_nat (length (op_encode o))) = h) as Hhd by by rewrite Hol.
  eapply (wp_cli_exchange a (S f) (op_type write) (op_encode o) SPIPROXY_OK rb (op_encode o) (length (op_encode o)) E);
    rewrite ?Hhd; [exact HD|rewrite Hrl, <-Hol; apply op_fits|lia|lia|exact Hconn|exact Hrecv|].
  cbn beta iota. apply wp_ret. exists w, s'. split; [done|]. split; [|by rewrite op_request_eq].
  f_equal. by apply op_decode_encode, op_result_ok.
Qed.

Lemma read_command {QS : Qsort} {P} {PE : Peer P} k t a1 a2 a3 :
  cli_command k t ["read"; a1; a2; a3]%string = cmd_read a1 a2 a3.
Proof. done. Qed.

Lemma write_command {QS : Qsort} {P} {PE : Peer P} k t a1 a2 a3 a4 :
  cli_command k t ["write"; a1; a2; a3; a4]%string = cmd_write a1 a2 a3 a4.
Proof. done. Qed.

(** The line [read] prints. *)
Definition read_line (slice mmd reg val : Z) : string :=
  "status=0 slice=" +:+ dec slice +:+ " mmd=0x" +:+ hex 2 mmd +:+ " reg=0x" +:+ hex 4 reg +:+
  " val=0x" +:+ hex 8 val +:+ nl.

Lemma cli_read_run {QS : Qsort} a f k a1 a2 a3 slice mmd reg l :
  at_rest l -> takes a -> slice < SLICE_COUNT -> mmd < 32 ->
  parse_uint a1 0 0 0xff = Some slice -> parse_uint a2 0 0 0xff = Some mmd ->
  parse_uint a3 0 0 0xffff = Some reg -> let o := Op slice 0 mmd 0 reg 0 0 in
  exists w s', cli_main (PE := daemon_peer a (S f)) k [] ["read"; a1; a2; a3]%string (process_start l) =
      Ok (EXIT_SUCCESS, Cli SOCK_FD SPIPROXY_SOCK 1 (Link s' (Some (free_slot (g_cl (st_g (lk_daemon l))))) [])
            [CliOut (read_line slice mmd reg (chip_reg w slice mmd reg)); CliSent (op_request false 1 o)]) /\
    op_effect a false o l w s'.
Proof.
  intros HR Ha Hs Hm H1 H2 H3 o.
  pose proof (parse_uint_range _ _ _ _ _ H1). pose proof (parse_uint_range _ _ _ _ _ H2).
  pose proof (parse_uint_range _ _ _ _ _ H3).
  assert (wp (fun _ => False) (cli_main (PE := daemon_peer a (S f)) k [] ["read"; a1; a2; a3]%string)
    (fun r c' => exists w s', r = EXIT_SUCCESS /\ c' = Cli SOCK_FD SPIPROXY_SOCK 1
       (Link s' (Some (free_slot (g_cl (st_g (lk_daemon l))))) [])
       [CliOut (read_line slice mmd reg (chip_reg w slice mmd reg)); CliSent (op_request false 1 o)] /\
       op_effect a false o l w s') (process_start l)) as Hw.
  { unfold cli_main. cbn [cli_options]. rewrite read_command.
    unfold cmd_read, numeric. rewrite H1, H2, H3. cbn beta iota. apply wp_bind.
    eapply wp_mono; [apply (wp_cli_op a f false); [done|done| |done|done]|].
    { split_and!; cbn; unfold is_u8, is_u16, is_u32; lia. }
    cbn beta. intros r c' (w & s' & Heff & -> & ->). cli_steps. by exists w, s'. }
  destruct (wp_returns _ _ _ Hw) as (r & c' & Hrun & w & s' & -> & -> & Heff). by exists w, s'.
Qed.

Lemma cli_write_run {QS : Qsort} a f k a1 a2 a3 a4 slice mmd reg val l :
  at_rest l -> takes a -> slice < SLICE_COUNT -> mmd < 32 ->
  parse_uint a1 0 0 0xff = Some slice -> parse_uint a2 0 0 0xff = Some mmd ->
  parse_uint a3 0 0 0xffff = Some reg -> parse_uint a4 0 0 0xffffffff = Some val ->
  let o := Op slice 0 mmd 0 reg 0 val in
  exists w s', cli_main (PE := daemon_peer a (S f)) k [] ["write"; a1; a2; a3; a4]%string (process_start l) =
      Ok (EXIT_SUCCESS, Cli SOCK_FD SPIPROXY_SOCK 1 (Link s' (Some (free_slot (g_cl (st_g (lk_daemon l))))) [])
            [CliOut ("status=0" +:+ nl); CliSent (op_request true 1 o)]) /\
    op_effect a true (op_set_write 1 o) l w s'.
Proof.
  intros HR Ha Hs Hm H1 H2 H3 H4 o.
  pose proof (parse_uint_range _ _ _ _ _ H1). pose proof (parse_uint_range _ _ _ _ _ H2).
  pose proof (parse_uint_range _ _ _ _ _ H3). pose proof (parse_uint_range _ _ _ _ _ H4).
  assert (wp (fun _ => False) (cli_main (PE := daemon_peer a (S f)) k [] ["write"; a1; a2; a3; a4]%string)
    (fun r c' => exists w s', r = EXIT_SUCCESS /\ c' = Cli SOCK_FD SPIPROXY_SOCK 1
       (Link s' (Some (free_slot (g_cl (st_g (lk_daemon l))))) [])
       [CliOut ("status=0" +:+ nl); CliSent (op_request true 1 o)] /\
       op_effect a true (op_set_write 1 o) l w s') (process_start l)) as Hw.
  { unfold cli_main. cbn [cli_options]. rewrite write_command.
    unfold cmd_write, numeric. rewrite H1, H2, H3, H4. cbn beta iota. apply wp_bind.
    eapply wp_mono; [apply (wp_cli_op a f true); [done|done| |done|done]|].
    { split_and!; cbn; unfold is_u8, is_u16, is_u32; lia. }
    cbn beta. intros r c' (w & s' & Heff & -> & ->). cli_steps. by exists w, s'. }
  destruct (wp_returns _ _ _ Hw) as (r & c' & Hrun & w & s' & -> & -> & Heff). by exists w, s'.
Qed.

(** C10: [spiproxy_cli read] against the daemon.  A process that has just been
    started, with no connection yet, finds a daemon that is at rest (other clients
    may be connected).  It connects, the daemon accepts it, and the process sends
    one READ request; the daemon receives, queues and schedules it and puts the two
    frames of the read on the bus; the process prints the value the register had
    in the chip at that moment and exits successfully.  Before the frames nothing
    went over the bus and nobody slept, so for a register that is plain storage it
    is the value it had at the start. *)
Theorem cli_read_end_to_end {QS : Qsort} a f k a1 a2 a3 slice mmd reg l :
  at_rest l -> takes a -> slice < SLICE_COUNT -> mmd < 32 ->
  parse_uint a1 0 0 0xff = Some slice -> parse_uint a2 0 0 0xff = Some mmd ->
  parse_uint a3 0 0 0xffff = Some reg ->
  let o := Op slice 0 mmd 0 reg 0 0 in
  exists c' w, cli_main (PE := daemon_peer a (S f)) k [] ["read"; a1; a2; a3]%string (process_start l) =
      Ok (EXIT_SUCCESS, c') /\
    by_acts off_bus (host l) w /\
    (chip_storage slice mmd reg = true -> chip_reg w slice mmd reg = chip_reg (host l) slice mmd reg) /\
    cl_log c' =
      [CliOut ("status=0 slice=" +:+ dec slice +:+ " mmd=0x" +:+ hex 2 mmd +:+ " reg=0x" +:+ hex 4 reg +:+
               " val=0x" +:+ hex 8 (chip_reg w slice mmd reg) +:+ nl);
       CliSent (op_request false 1 o)] /\
    bus (st_out (lk_daemon (cl_peer c'))) =
      bus (st_out (lk_daemon l)) ++ op_frames (cf_pad (g_cfg (st_g (lk_daemon l)))) o.
Proof.
  intros HR Ha Hs Hm H1 H2 H3 o.
  destruct (cli_read_run a f k a1 a2 a3 slice mmd reg l) as (w & s' & Hrun & Heff); try done.
  eexists _, w. split; [exact Hrun|]. split; [apply Heff|]. split; [|split; [done|apply Heff]].
  intros Hst. eapply calm_regs; [apply Heff|done].
Qed.

(** [spiproxy_cli write] against the daemon: one WRITE request, the frame of
    the write on the bus with the value of the arguments, and success. *)
Theorem cli_write_end_to_end {QS : Qsort} a f k a1 a2 a3 a4 slice mmd reg val l :
  at_rest l -> takes a -> slice < SLICE_COUNT -> mmd < 32 ->
  parse_uint a1 0 0 0xff = Some slice -> parse_uint a2 0 0 0xff = Some mmd ->
  parse_uint a3 0 0 0xffff = Some reg -> parse_uint a4 0 0 0xffffffff = Some val ->
  let o := Op slice 0 mmd 0 reg 0 val in
  exists c', cli_main (PE := daemon_peer a (S f)) k [] ["write"; a1; a2; a3; a4]%string (process_start l) =
      Ok (EXIT_SUCCESS, c') /\
    cl_log c' = [CliOut ("status=0" +:+ nl); CliSent (op_request true 1 o)] /\
    bus (st_out (lk_daemon (cl_peer c'))) =
      bus (st_out (lk_daemon l)) ++ op_frames (cf_pad (g_cfg (st_g (lk_daemon l)))) (op_set_write 1 o).
Proof.
  intros HR Ha Hs Hm H1 H2 H3 H4 o.
  destruct (cli_write_run a f k a1 a2 a3 a4 slice mmd reg val l) as (w & s' & Hrun & Heff); try done.
  eexists. split; [exact Hrun|]. split; [done|apply Heff].
Qed.

(** C11: A value written by one process is read back by the next.  The first
    process runs [spiproxy_cli write] on a daemon at rest and exits, the daemon
    drops its connection; the second one then runs [spiproxy_cli read] on the same
    register, over a connection of its own.  Both succeed, and the second prints
    the value the first one was given, if the register is plain storage. *)
Theorem cli_write_then_read {QS : Qsort} a b f k a1 a2 a3 a4 b1 b2 b3 slice mmd reg val l :
  at_rest l -> takes a -> takes b -> slice < SLICE_COUNT -> mmd < 32 ->
  parse_uint a1 0 0 0xff = Some slice -> parse_uint a2 0 0 0xff = Some mmd ->
  parse_uint a3 0 0 0xffff = Some reg -> parse_uint a4 0 0 0xffffffff = Some val ->
  parse_uint b1 0 0 0xff = Some slice -> parse_uint b2 0 0 0xff = Some mmd ->
  parse_uint b3 0 0 0xffff = Some reg -> chip_storage slice mmd reg = true ->
  exists c1 l2 c2,
    cli_main (PE := daemon_peer a (S f)) k [] ["write"; a1; a2; a3; a4]%string (process_start l) =
      Ok (EXIT_SUCCESS, c1) /\
    hang_up a (S f) (cl_peer c1) = Some l2 /\
    cli_main (PE := daemon_peer b (S f)) k [] ["read"; b1; b2; b3]%string (process_start l2) =
      Ok (EXIT_SUCCESS, c2) /\
    head (cl_log c2) = Some (CliOut (read_line slice mmd reg val)).
Proof.
  intros HR Ha Hb Hs Hm H1 H2 H3 H4 G1 G2 G3 Hst.
  destruct (cli_write_run a f k a1 a2 a3 a4 slice mmd reg val l) as (w & s1 & Hrun & Heff); try done.
  destruct Heff as [_ _ (HR1 & cl & _ & HC1) Hval]. specialize (Hval eq_refl Hst). cbn in Hval.
  set (l1 := Link s1 _ []) in Hrun. destruct (hang_up_rests f a _ cl l1 HR1 eq_refl HC1) as (l2 & Hup & HR2 & Hw2).
  destruct (cli_read_run b f k b1 b2 b3 slice mmd reg l2) as (w2 & s2 & Hrd & Heff2); try done.
  eexists _, l2, _. split; [exact Hrun|]. split; [exact Hup|]. split; [exact Hrd|]. cbn [cl_log head]. do 2 f_equal.
  assert (chip_reg w2 slice mmd reg = val) as ->; [|done].
  rewrite (calm_regs _ _ _ _ _ _ (oe_before _ _ _ _ _ _ Heff2) Hst), (calm_regs _ _ _ _ _ _ Hw2 Hst). exact Hval.
Qed.

End Process.
