(* ===== verification/MailboxEndToEnd.v ===== *)
(** * The mailbox command against the daemon

    [spiproxy_cli mailbox] connected to the daemon on a chip with an MCU: the
    command's bytes reach the MCU as a packet, and the program prints what the
    reference decoder reads from the MCU's answer. *)
From stdpp Require Import relations.
From S2P Require Import Prelude Bytes Proto Crc16 Fmt ParseUint State Queue Log Spi Exec OpSpec Mailbox Daemon.
From S2P Require Import Invariant Handlers Scheduler Atomic TextSpec MainLoop RequestSpec Calm MailboxSpec Retain Wire.
From S2P Require Import Cli CliSpec EndToEnd.

(** ** Results of the reference decoder *)

(** Status, command byte and data of a mailbox answer, as the daemon may pass
    them on: data only with OK, and never more than the maximum. *)
Definition mb_result_ok (x : spiproxy_status) (id : Z) (data : list Z) : Prop :=
  is_u8 id /\ bytes_ok data /\ Z.of_nat (length data) <= SPIPROXY_MB_MAX /\ (x = SPIPROXY_OK \/ data = []).

Lemma mb_reference_ok old p x id data :
  is_u8 old -> framed p -> mb_reference old p = (x, id, data) -> mb_result_ok x id data.
Proof.
  intros Ho (H4 & Hb & Hlen). unfold mb_reference, mb_result_ok, SPIPROXY_MB_MAX.
  destruct (decide (len_ok (pkt_len p))) as [Hok|_]; [|intros [= <- <- <-]; cbn; split_and!; auto; [constructor|lia]].
  destruct (_ =? _); intros [= <- <- <-]; [|cbn; split_and!; auto; [constructor|lia]].
  specialize (Hlen Hok). unfold len_ok, MB_HDR_LEN, MB_CRC_LEN, SPIPROXY_MB_MAX in Hok. split_and!; [| | |by left].
  - destruct (lookup_lt_is_Some_2 p 0) as [b Hb0]; [lia|]. rewrite Hb0. by eapply (Forall_lookup_1 _ _ _ _ Hb).
  - auto with spid.
  - rewrite length_take, length_drop. lia.
Qed.

Section Service.
Context {W : Type} {WW : World W} {WO : WorldOk W WW} {RG : Regs} {RO : RegsOk RG}
  {CH : PipelinedChip W WW} {MC : MailboxChip W WW CH}.
Implicit Types (s : st W).

(** How the transaction with the packet [req] ends that was started in [w] and
    answered by [w']: as the reference decoder says, or with a timeout. *)
Definition mb_ends (m : mb) (req : list Z) (w w' : W) (x : spiproxy_status) (id : Z) (data : list Z) : Prop :=
  mb_reference (mb_cmd m) (mc_mcu req) = (x, id, data) \/
  (x, id, data) = (SPIPROXY_ETIMEDOUT, mb_cmd m, []) /\ timed_out m req w w'.

Lemma outcome_ends m req resp r s s' :
  mb_outcome m req resp r s s' ->
  exists x id data, mb_ends m req (st_w s) (st_w s') x id data /\ delivers m resp (x, id, data) r.
Proof.
  intros [H|[-> H]].
  - destruct (mb_reference _ _) as [[x id] data] eqn:He. exists x, id, data. split; [by left|done].
  - exists SPIPROXY_ETIMEDOUT, (mb_cmd m), []. split; [by right|apply delivers_error].
Qed.

(** What is still done afterwards does not matter. *)
Lemma mb_ends_calm m req w w1 w' x id data :
  mb_ends m req w w1 x id data -> calm w1 w' -> mb_ends m req w w' x id data.
Proof.
  intros [H|(Hx & w2 & w3 & tx & H1 & H2 & H3 & H4 & H5 & H6)] Hc; [by left|right]. split; [done|].
  exists w2, w3, tx. do 5 (split; [done|]). by etrans.
Qed.

Lemma mb_ends_ok m req w w' x id data :
  mb_ok m -> framed (mc_mcu req) -> mb_ends m req w w' x id data -> mb_result_ok x id data.
Proof.
  intros (_ & Hc & _) Hf [H|([= -> -> ->] & _)]; [by eapply mb_reference_ok|].
  unfold mb_result_ok, SPIPROXY_MB_MAX. cbn. split_and!; auto; [constructor|lia].
Qed.

(** The body of the answer. *)
Definition mb_answer (m : mb) (id : Z) (data : list Z) : list Z :=
  mb_encode (mb_set_payload_len (Z.of_nat (length data)) (mb_set_cmd id m)) ++ data.

(** The answer in the daemon's response buffer. *)
Lemma mb_answer_sent m x id data resp :
  mb_result_ok x id data -> length resp = (mb_size + Z.to_nat SPIPROXY_MB_MAX)%nat ->
  let resp1 := take mb_size resp ++ data ++ drop (mb_size + length data) resp in
  let m2 := mb_set_payload_len (Z.of_nat (length data)) (mb_set_cmd id m) in
  let n := Z.of_nat mb_size + (if decide (x = SPIPROXY_OK) then Z.of_nat (length data) else 0) in
  exists resp2, buf_write resp1 0 (mb_encode m2) = Ok resp2 /\
    take (Z.to_nat n) resp2 = mb_answer m id data /\ (Z.to_nat n <= length resp2)%nat /\
    0 <= n <= Z.of_nat SPIPROXY_MSG_MAX.
Proof.
  intros (_ & _ & Hl & Hx) Hrl resp1 m2 n. unfold SPIPROXY_MB_MAX in Hl.
  assert (Z.of_nat (length resp) = 1026) as Hrz by by rewrite Hrl.
  assert (n = Z.of_nat (mb_size + length data)) as ->.
  { unfold n. destruct Hx as [->| ->]; [rewrite decide_True by done; lia|]. cbn [length]. destruct (decide _); lia. }
  pose proof (length_mb_encode m2) as Hm2. assert (length (take mb_size resp) = mb_size) as Htk
    by (rewrite length_take; unfold mb_size; lia).
  exists (mb_encode m2 ++ data ++ drop (mb_size + length data) resp). rewrite Nat2Z.id. split_and!.
  - rewrite buf_write_0 by (unfold resp1; rewrite length_app, Htk, Hm2; lia).
    unfold resp1. by rewrite Hm2, drop_app_length' by done.
  - unfold mb_answer. fold m2. rewrite app_assoc. apply take_app_length'. by rewrite length_app, Hm2.
  - rewrite !length_app, Hm2. lia.
  - lia.
  - unfold mb_size, SPIPROXY_MSG_MAX. lia.
Qed.

(** A MAILBOX request on the chip: its one answer. *)
Definition mb_done (fd : Z) (h : hdr) (m : mb) (req : list Z) s s' : Prop :=
  exists x id data, mb_ends m req (st_w s) (st_w s') x id data /\
    replied fd (response h x (mb_answer m id data)) s s' /\
    g_claim (st_g s') = g_claim (st_g s) /\ g_mb_inflight (st_g s') = false.

(** The end of the request: the body written back and the answer sent. *)
Lemma wp_mb_finish fa i it c cl h body m2 n resp1 resp2 x E s0 s :
  undisturbed fa [i] s0 s -> g_mb_inflight (st_g s) = false -> pool (g_qs (st_g s0)) !! i = Some it ->
  g_cl (st_g s0) !! c = Some cl -> hdr_ok h -> length body = SPIPROXY_MSG_MAX -> bytes_ok body ->
  0 <= n <= Z.of_nat SPIPROXY_MSG_MAX -> (Z.to_nat n <= length resp2)%nat ->
  buf_write resp1 0 (mb_encode m2) = Ok resp2 ->
  wp E (let* body' := liftM (buf_write body 0 (mb_encode m2)) in
        store_body i body' ;;
        let* r := liftM (buf_write resp1 0 (mb_encode m2)) in send_resp c h x r n)
    (fun _ s' => replied (c_fd cl) (response h x (take (Z.to_nat n) resp2)) s0 s' /\
       g_claim (st_g s') = g_claim (st_g s0) /\ g_mb_inflight (st_g s') = false /\ calm (st_w s) (st_w s')) s.
Proof.
  intros [I Hlx Hq Hc Hcl (ev & Ho & Ha)] Hmb Hit Hcl0 Hh Hl Hb Hn Hr Hw. pose proof msg_max_big as Hmm. wp_steps.
  pose proof (length_mb_encode m2) as Hm2.
  assert (0 + length (mb_encode m2) <= length body)%nat as Hle by (rewrite Hm2; unfold mb_size; lia).
  apply rwp_buf_write; [done|]. destruct (splice_ok body (mb_encode m2) 0 Hle Hb ltac:(auto with spid)) as [Hl' Hb'].
  wp_steps. unfold store_body. wp_steps. eapply rwp_arr_get; [by rewrite Hq|]. wp_steps. rewrite Hw. apply rwp_ok. set (s2 := St _ _ _).
  assert (inv [[]; []; []] fa [i] (st_g s2)) as I2 by (apply inv_set_body; [done|by rewrite Hq|congruence|done]).
  assert (g_cl (st_g s2) !! c = Some cl) as Hcl2 by (cbn; by rewrite Hcl).
  eapply (wp_fault_mono (fun e => E e /\ (True /\ True))); [tauto|]. eapply wp_mono.
  - apply wp_and; [eapply (wp_sent _ fa [i]); [exact I2|exact Hcl2|done..]|].
    apply wp_and; [by apply (spares_send_resp (fun _ => tt))|by apply (within_send_resp any_act)].
  - cbn beta. intros _ s' [Hs [[[= Hc' Hm'] _] Hcalm]]. split; [by eapply (sent_replied _ _ s0 s2 s' ev)|].
    rewrite Hc', Hm'. done.
Qed.

Lemma wp_mb_item f fa i it c cl h body E s :
  inv [[]; []; []] fa [i] (st_g s) -> lctx_ok (st_g s) -> pool (g_qs (st_g s)) !! i = Some it ->
  g_cl (st_g s) !! c = Some cl -> hdr_ok h -> length body = SPIPROXY_MSG_MAX -> bytes_ok body ->
  let m := mb_decode (take mb_size body) in
  let req := mb_request m (drop mb_size body) in
  h_len h = Z.of_nat mb_size + mb_payload_len m -> mb_slice m < SLICE_COUNT ->
  mb_payload_len m <= SPIPROXY_MB_MAX -> Z.land (mb_reg (st_w s) (mb_slice m) MB_FLAG) MB_F_BUSY = 0 ->
  framed (mc_mcu req) -> POLL_FUEL <= Z.of_nat (S f) ->
  wp E (exec_mb_item (S f) (drain_queues (S f)) i c h body) (fun _ s' => mb_done (c_fd cl) h m req s s') s.
Proof.
  intros I Hlx Hit Hcl Hh Hl Hb m req Hlen Hsl Hpl Hidle Hfr Hf. pose proof msg_max_big as Hmm.
  unfold exec_mb_item. wp_steps. apply rwp_buf_read; [unfold mb_size; lia|]. rewrite drop_0. fold m. wp_steps.
  rewrite (proj2 (Z.eqb_eq _ _) Hlen). cbn [negb].
  destruct (w_stack_bytes (st_w s) (mb_size + Z.to_nat SPIPROXY_MB_MAX)) as [Hrl Hrb]. set (resp := w_stack _ _) in *.
  assert (mb_ok m) as Hm by (unfold m; auto with spid).
  destruct (exec_mailbox_returns (S f) f fa [i] m (drop mb_size body) resp s) as (r & s1 & Heq & Hud & Hi1 & Hout);
    [|done|done|].
  { split; try done. split; [|auto with spid]. rewrite length_drop. unfold mb_size, SPIPROXY_MB_MAX. lia. }
  apply wp_bind. eapply wp_eq; [exact Heq|]. destruct (outcome_ends _ _ _ _ _ _ Hout) as (x & id & data & Hend & Hdel).
  pose proof (mb_ends_ok _ _ _ _ _ _ _ Hm Hfr Hend) as Hok.
  destruct (mb_answer_sent m x id data resp Hok Hrl) as (resp2 & Hw2 & Htk & Hle & Hn).
  destruct Hdel as (resp1 & -> & ->). cbn beta iota.
  eapply wp_mono; [by eapply wp_mb_finish|]. cbn beta. rewrite Htk. intros _ s' (Hrep & Hc & Hmb & Hcalm).
  exists x, id, data. split; [by eapply mb_ends_calm|done].
Qed.

(** From the queue to the answer. *)
Lemma wp_serve_mailbox f b i c cl h m payload E Q s s1 :
  let body := mb_encode m ++ payload in
  accepted_as i c h body s s1 -> hdr_ok h -> h_type h = type_code SPIPROXY_MAILBOX -> mb_ok m ->
  h_len h = Z.of_nat (length body) -> mb_payload_len m = Z.of_nat (length payload) ->
  mb_slice m < SLICE_COUNT -> mb_payload_len m <= SPIPROXY_MB_MAX -> g_cl (st_g s) !! c = Some cl ->
  claim_owner (g_claim (st_g s)) = None \/ claim_owner (g_claim (st_g s)) = Some c ->
  Z.land (mb_reg (st_w s1) (mb_slice m) MB_FLAG) MB_F_BUSY = 0 ->
  framed (mc_mcu (mb_request m payload)) -> POLL_FUEL <= Z.of_nat (S f) ->
  (forall s', mb_done (c_fd cl) h m (mb_request m payload) s1 s' -> served s1 s' -> Q tt s') ->
  wp E (drain_queues (S (S f)) (S (S b))) Q s1.
Proof.
  intros body Hacc Hh Hty Hm Hlen Hpl Hsl Hmax Hcl Hown Hidle Hfr Hf HQ.
  pose proof (length_mb_encode m) as Hml. assert (length body = (mb_size + length payload)%nat) as Hbl
    by (unfold body; by rewrite length_app, Hml).
  eapply (wp_serve_item (S f) b i c cl h body E (mb_done (c_fd cl) h m (mb_request m payload) s1)); [done..| |].
  2:{ intros s3 qs HR s' Hs. by apply HQ. }
  intros fa it cl1 s3 (Hfd & _) [I3 Hlx Hit Hib [Hl3 Hb3] Hcl3 Hcf Hcfg Hw Ho _].
  assert (q_body it = mb_encode m ++ payload ++ drop (length body) (q_body it)) as Hq.
  { rewrite <-(take_drop (length body) (q_body it)) at 1. rewrite Hib. unfold body at 1. by rewrite <-app_assoc. }
  assert (mb_decode (take mb_size (q_body it)) = m) as Hdec.
  { rewrite Hq, take_app_length' by done. rewrite <-(app_nil_r (mb_encode m)). by apply mb_decode_encode. }
  assert (mb_request m (drop mb_size (q_body it)) = mb_request m payload) as Hreq.
  { unfold mb_request. rewrite Hq, drop_app_length', Hpl, Nat2Z.id, take_app_length by done. by rewrite firstn_all. }
  unfold exec_request. rewrite Hty. cbn [type_code type_of_code].
  eapply wp_mono; [eapply (wp_mb_item f fa i it c cl1 h (q_body it) E s3); rewrite ?Hdec, ?Hreq; try done|].
  - rewrite Hlen, Hbl, Hpl. lia.
  - by rewrite Hw.
  - cbn beta. rewrite Hdec, Hreq. intros _ s' (x & id & data & Hend & Hrep & Hc & Hmb). injection Hcf as Hc1 _.
    exists x, id, data. unfold replied in *. rewrite Ho, Hfd in Hrep. rewrite Hw in Hend. by rewrite Hc, Hc1.
Qed.

End Service.

(** ** The command *)

(** What the program prints of an answer: a line, and with OK the data bytes,
    sixteen to a line. *)
Fixpoint mb_dump (i : nat) (data : list Z) : list cli_event :=
  match data with
  | [] => []
  | b :: data' => CliOut (hex 2 b +:+ (if Z.land (Z.of_nat i) 15 =? 15 then nl else " ")) :: mb_dump (S i) data'
  end.
Definition mb_output (x : spiproxy_status) (id : Z) (data : list Z) : list cli_event :=
  CliOut ("mailbox: status=" +:+ dec_int (status_code x) +:+ " resp_id=0x" +:+ hex 2 id +:+
          " payload_len=" +:+ dec (Z.of_nat (length data)) +:+ nl) ::
  mb_dump 0 data ++ match data with [] => [] | _ => [CliOut nl] end.

(** The option [-t] and the timeout it sets. *)
Inductive mb_option : list cli_opt -> Z -> Prop :=
| opt_none : mb_option [] 0
| opt_timeout a t : parse_uint a 0 0 0xffffffff = Some t -> mb_option [CliTimeout a] t.

Section Command.
Context {P : Type} {PE : Peer P} {RG : Regs}.

Definition more_log (l : list cli_event) (c : cli P) : cli P :=
  Cli (cl_sock_fd c) (cl_sock c) (cl_seq c) (cl_peer c) (l ++ cl_log c).

Lemma wp_dump data E Q : forall i resp c,
  take (length data) (drop (mb_size + i) resp) = data -> Q tt (more_log (rev (mb_dump i data)) c) ->
  wp E (dump_bytes (length data) i resp) Q c.
Proof.
  induction data as [|b data IH]; intros i resp c Hd HQ; cbn [dump_bytes length].
  { apply wp_ret. by destruct c. }
  destruct (drop (mb_size + i) resp) as [|b' rest] eqn:Hr; [done|]. cbn in Hd. injection Hd as -> Hd.
  assert (resp !! (mb_size + i)%nat = Some b) as Hb.
  { rewrite <-(Nat.add_0_r (mb_size + i)), <-lookup_drop, Hr. done. }
  cli_steps. eapply rwp_buf_get; [exact Hb|]. cli_steps. apply IH.
  - replace (mb_size + S i)%nat with (mb_size + i + 1)%nat by lia. by rewrite <-drop_drop, Hr.
  - cbn [mb_dump rev] in HQ. unfold more_log in *. cbn [cl_sock_fd cl_sock cl_seq cl_peer cl_log] in *.
    by rewrite <-app_assoc in HQ.
Qed.

Lemma wp_payload_args args payload E Q (k : list Z -> C P Z) c : forall acc,
  Forall2 (fun a v => parse_uint a 16 0 0xff = Some v) args payload ->
  Z.of_nat (length acc + length payload) <= SPIPROXY_MB_MAX -> wp E (k (acc ++ payload)) Q c ->
  wp E (payload_args args acc k) Q c.
Proof.
  intros acc H. revert acc. induction H as [|a v args payload Ha _ IH]; intros acc Hl Hk; cbn [payload_args].
  { by rewrite app_nil_r in Hk. }
  cbn [length] in Hl. rewrite (proj2 (Z.leb_gt _ _)) by lia. unfold numeric. rewrite Ha. apply IH.
  - rewrite length_app. cbn. lia.
  - by rewrite <-app_assoc.
Qed.

Lemma payload_bytes args payload :
  Forall2 (fun a v => parse_uint a 16 0 0xff = Some v) args payload -> bytes_ok payload.
Proof.
  induction 1 as [|a v args payload Ha _ IH]; [constructor|]. constructor; [|done].
  pose proof (parse_uint_range _ _ _ _ _ Ha). unfold is_u8. lia.
Qed.

End Command.

Section Peer.
Context {W : Type} {WW : World W} {WO : WorldOk W WW} {RG : Regs} {RO : RegsOk RG}
  {CH : PipelinedChip W WW} {MC : MailboxChip W WW CH}.
Implicit Types (s : st (wired W)) (l : link W).

(** The request. *)
Definition mb_hdr (payload : list Z) : hdr :=
  Hdr SPIPROXY_VER (type_code SPIPROXY_MAILBOX) 0 1 (Z.of_nat (mb_size + length payload)).

Lemma mb_dgram m payload :
  bytes_ok payload -> Z.of_nat (length payload) <= SPIPROXY_MB_MAX -> dgram (mb_hdr payload) (mb_encode m ++ payload).
Proof.
  intros Hb Hl. unfold SPIPROXY_MB_MAX in Hl. assert (Z.of_nat SPIPROXY_MSG_MAX = 4096) as Hmm by done.
  split; rewrite ?length_app, ?length_mb_encode; unfold mb_size in *; try done; [|lia|auto with spid].
  unfold mb_hdr, mb_size. split_and!; cbn; try done; unfold is_u8, is_u16, is_u32, SPIPROXY_VER; cbn; lia.
Qed.

(** The transaction, and the daemon at rest again. *)
Definition mb_effect (m : mb) (payload : list Z) l (x : spiproxy_status) (id : Z) (data : list Z) s' : Prop :=
  (exists w, by_acts off_bus (host l) w /\ mb_ends m (mb_request m payload) w (wr_host (st_w s')) x id data) /\ rests s'.

Lemma mb_served_effect a h m payload i l s1 s2 s' :
  at_rest l -> connects a l s1 -> let slot := free_slot (g_cl (st_g (lk_daemon l))) in
  let body := mb_encode m ++ payload in
  accepted_as i slot h body (received (on_world (push (hdr_encode h ++ body)) s1)) s2 ->
  mb_done (ac_fd a) h m (mb_request m payload) s2 s' -> served s2 s' ->
  exists x id data, replied (ac_fd a) (response h x (mb_answer m id data)) s2 s' /\ mb_effect m payload l x id data s'.
Proof.
  intros [[_ _ Hc] _] [Hg Hh _ _] slot body [_ _ _ Hclm _ _ Hcalm _ _] (x & id & data & Hend & Hrep & Hcl & Hmb) [Hinv _].
  cbn [received on_world st_g] in Hclm. rewrite Hg in Hclm. exists x, id, data. split; [done|]. split.
  - exists (wr_host (st_w s2)). apply wired_by_acts in Hcalm. split.
    + etrans; [exact Hh|]. eapply by_acts_weaken; [|exact Hcalm]. by intros [].
    + destruct Hend as [He|[He Ht]]; [by left|right]. split; [done|by apply wired_timed_out].
  - split; [done|done|]. by rewrite Hcl, Hclm.
Qed.

(** The daemon's side. *)
Lemma daemon_mailbox a f m payload l s1 :
  at_rest l -> takes a -> connects a l s1 -> mb_ok m -> bytes_ok payload ->
  mb_payload_len m = Z.of_nat (length payload) -> mb_slice m < SLICE_COUNT -> mb_payload_len m <= SPIPROXY_MB_MAX ->
  (forall w, by_acts off_bus (host l) w -> Z.land (mb_reg w (mb_slice m) MB_FLAG) MB_F_BUSY = 0) ->
  framed (mc_mcu (mb_request m payload)) -> POLL_FUEL <= Z.of_nat (S f) ->
  let h := mb_hdr payload in let slot := free_slot (g_cl (st_g (lk_daemon l))) in
  exists x id data s', mb_effect m payload l x id data s' /\
    let r := response h x (mb_answer m id data) in
    p_recv (Peer := daemon_peer a (S (S f))) (Link (on_world (push (hdr_encode h ++ mb_encode m ++ payload)) s1) (Some slot) []) =
      (Link s' (Some slot) [], (Z.of_nat (length r), r)).
Proof.
  intros HR Ha HC Hm Hpb Hpl Hsl Hmax Hidle Hfr Hf h slot.
  assert (dgram h (mb_encode m ++ payload)) as HD by (apply mb_dgram; [done|lia]).
  destruct (daemon_answers (S (S f)) a h (mb_encode m ++ payload) l s1 (fun r s' => exists x id data,
    mb_effect m payload l x id data s' /\ r = response h x (mb_answer m id data)) HR Ha HC HD)
    as (r & s' & (x & id & data & Heff & ->) & Hrecv).
  { intros i s2 Hacc Hcl. pose proof HR as [[(fa & I) Hinf Hc] Hfree]. destruct (joined_inv fa a _ I Hfree) as [_ Hnew].
    pose proof HC as [Hg Hh _ _]. pose proof Hacc as [_ _ _ _ _ _ Hcalm _ _]. apply wired_by_acts in Hcalm.
    eapply (wp_serve_mailbox f 62 i slot (new_client a (st_g (lk_daemon l))) h m payload); try done; try apply HD.
    - cbn. by rewrite Hg.
    - left. cbn. by rewrite Hg.
    - apply (Hidle (wr_host (st_w s2))). etrans; [exact Hh|]. eapply by_acts_weaken; [|exact Hcalm]. by intros [].
    - intros s3 Hdone Hsv. destruct (mb_served_effect a h m payload i l s1 s2 s3) as (x & id & data & Hrep & Heff); try done.
      exists (response h x (mb_answer m id data)). split; [done|]. by exists x, id, data. }
  by exists x, id, data, s'.
Qed.

(** The whole command. *)
Definition mailbox_done (m : mb) (payload : list Z) l (code : Z) (c' : cli (link W)) : Prop :=
  exists x id data, mb_effect m payload l x id data (lk_daemon (cl_peer c')) /\ code = exit_of (status_code x) /\
    cl_log c' = rev (mb_output x id data) ++ [CliSent (hdr_encode (mb_hdr payload) ++ mb_encode m ++ payload)].

(** Printing the answer from the client's response buffer. *)
Lemma wp_print_answer {P} {PE : Peer P} m x id data rest E Q (c : cli P) :
  mb_ok m -> mb_result_ok x id data ->
  Q (exit_of (status_code x)) (more_log (rev (mb_output x id data)) c) ->
  let resp := mb_answer m id data ++ rest in
  let st := status_code x in
  wp E (let* mbb := liftM (buf_read resp 0 mb_size) in
        let rmb := mb_decode mbb in
        out ("mailbox: status=" +:+ dec_int st +:+ " resp_id=0x" +:+ hex 2 (mb_cmd rmb) +:+
             " payload_len=" +:+ dec (mb_payload_len rmb) +:+ nl) ;;
        let ok := st =? status_code SPIPROXY_OK in
        whenM ok (dump_bytes (Z.to_nat (mb_payload_len rmb)) 0 resp) ;;
        whenM (ok && negb (mb_payload_len rmb =? 0)) (out nl) ;;
        returnM (exit_of st)) Q c.
Proof.
  intros Hm (Hid & Hb & Hl & Hx) HQ resp st. unfold SPIPROXY_MB_MAX in Hl.
  set (m2 := mb_set_payload_len (Z.of_nat (length data)) (mb_set_cmd id m)).
  assert (mb_ok m2) as Hm2 by (destruct Hm as (? & ? & ? & ?); split_and!; cbn; try done; unfold is_u16; lia).
  pose proof (length_mb_encode m2) as Hml.
  assert (resp = mb_encode m2 ++ data ++ rest) as Hresp by (unfold resp, mb_answer; by rewrite <-app_assoc).
  cli_steps. apply rwp_buf_read; [rewrite Hresp, length_app; lia|].
  rewrite drop_0, Hresp, take_app_length', <-(app_nil_r (mb_encode m2)), mb_decode_encode, app_nil_r by done.
  cli_steps. cbn [m2 mb_set_payload_len mb_set_cmd mb_cmd mb_payload_len]. rewrite Nat2Z.id. unfold mb_output in HQ.
  destruct Hx as [->| ->].
  - change (st =? status_code SPIPROXY_OK) with true. cbn [whenM andb].
    apply wp_dump; [by rewrite Nat.add_0_r, drop_app_length', take_app_length by done|].
    cbn [rev] in HQ. rewrite rev_app_distr in HQ. unfold more_log in *.
    destruct data as [|b data]; cli_steps; cbn [length Z.of_nat Z.eqb negb whenM]; cli_steps;
      [exact HQ|]. cbn [rev app] in *. by rewrite <-app_assoc in HQ.
  - cbn [length dump_bytes Z.of_nat Z.eqb negb]. rewrite andb_false_r. cbn [whenM].
    destruct (_ =? _); cbn [whenM]; cli_steps; exact HQ.
Qed.

Lemma wp_cmd_mailbox {QS : Qsort} a f timeout a1 args cmd payload E l :
  at_rest l -> takes a -> is_u32 timeout -> parse_uint a1 0 0 0xff = Some cmd ->
  Forall2 (fun a v => parse_uint a 16 0 0xff = Some v) args payload ->
  Z.of_nat (length payload) <= SPIPROXY_MB_MAX ->
  let m := Mb 0 cmd (Z.of_nat (length payload)) timeout in
  (forall w, by_acts off_bus (host l) w -> Z.land (mb_reg w 0 MB_FLAG) MB_F_BUSY = 0) ->
  framed (mc_mcu (mb_request m payload)) -> POLL_FUEL <= Z.of_nat (S f) ->
  wp E (cmd_mailbox (PE := daemon_peer a (S (S f))) timeout a1 args) (mailbox_done m payload l) (process_start l).
Proof.
  intros HR Ha Ht H1 Hargs Hmax m Hidle Hfr Hf. pose proof (parse_uint_range _ _ _ _ _ H1) as Hcmd.
  pose proof (payload_bytes _ _ Hargs) as Hpb.
  assert (mb_ok m) as Hm by (unfold SPIPROXY_MB_MAX in Hmax; split_and!; cbn; try done; unfold is_u8, is_u16; lia).
  destruct (daemon_connects (S f) a l HR) as (s1 & HC & Hconn).
  destruct (daemon_mailbox a f m payload l s1) as (x & id & data & s2 & Heff & Hrecv); try done.
  pose proof Heff as [(w & _ & Hend) _]. pose proof (mb_ends_ok _ _ _ _ _ _ _ Hm Hfr Hend) as Hok.
  pose proof Hok as (_ & _ & Hdl & _). assert (Z.of_nat SPIPROXY_MSG_MAX = 4096) as Hmm by done.
  unfold cmd_mailbox, numeric. rewrite H1. apply (wp_payload_args args payload); [done|cbn; lia|]. cbn [app].
  destruct (w_stack_bytes (st_w (lk_daemon l)) (mb_size + Z.to_nat SPIPROXY_MB_MAX)) as [Hrl _].
  apply wp_bind. unfold stack. unfold wp at 1. cbn [p_stack daemon_peer process_start cl_peer]. set (resp0 := w_stack _ _) in *.
  fold m. set (body := mb_encode m ++ payload) in *.
  assert (length body = (mb_size + length payload)%nat) as Hbl by (unfold body; by rewrite length_app, length_mb_encode).
  replace (Z.of_nat mb_size + Z.of_nat (length payload)) with (Z.of_nat (length body)) by lia.
  rewrite <-Hrl. apply wp_bind. pose proof (mb_dgram m payload Hpb Hmax) as HD. fold body in HD.
  assert (Hdr SPIPROXY_VER (type_code SPIPROXY_MAILBOX) 0 1 (Z.of_nat (length body)) = mb_hdr payload) as Hhd by by rewrite Hbl.
  assert (length (mb_answer m id data) = (mb_size + length data)%nat) as Hal
    by (unfold mb_answer; by rewrite length_app, length_mb_encode).
  unfold SPIPROXY_MB_MAX, mb_size in *.
  eapply (wp_cli_exchange a (S (S f)) (type_code SPIPROXY_MAILBOX) body x (mb_answer m id data) resp0 (length resp0) E);
    rewrite ?Hhd; [exact HD|lia|lia|lia|exact Hconn|exact Hrecv|].
  cbn beta iota. apply (wp_print_answer (PE := daemon_peer a (S (S f))) m x id data); [done|done|].
  by exists x, id, data.
Qed.

(** C12: [spiproxy_cli mailbox] against the daemon on a chip whose MCU is idle.  A
    process that has just been started connects, is accepted and sends one MAILBOX
    request with its command and payload bytes; the daemon delivers them to the
    MCU as a packet, and the process prints the status, command byte, length and
    data the reference decoder reads from the MCU's answer, or a timeout, and
    exits with that status.  A timeout is printed only when the daemon's last look
    at the flag found no answer and the clock, read right after it, was more than
    the time of [-t] (500 ms by default) past the start of the transaction.  The
    process stays within its buffers, and the daemon is at rest again. *)
Theorem cli_mailbox_end_to_end {QS : Qsort} a f k opts timeout a1 args cmd payload l :
  at_rest l -> takes a -> mb_option opts timeout -> parse_uint a1 0 0 0xff = Some cmd ->
  Forall2 (fun a v => parse_uint a 16 0 0xff = Some v) args payload ->
  Z.of_nat (length payload) <= SPIPROXY_MB_MAX ->
  let m := Mb 0 cmd (Z.of_nat (length payload)) timeout in
  (forall w, by_acts off_bus (host l) w -> Z.land (mb_reg w 0 MB_FLAG) MB_F_BUSY = 0) ->
  framed (mc_mcu (mb_request m payload)) -> POLL_FUEL <= Z.of_nat (S f) ->
  exists code c', cli_main (PE := daemon_peer a (S (S f))) k opts ("mailbox" :: a1 :: args)%string (process_start l) =
      Ok (code, c') /\ mailbox_done m payload l code c'.
Proof.
  intros HR Ha Hopt H1 Hargs Hmax m Hidle Hfr Hf. apply wp_returns. unfold cli_main.
  assert (is_u32 timeout) as Ht.
  { destruct Hopt as [|b t Hb]; [by unfold is_u32|]. pose proof (parse_uint_range _ _ _ _ _ Hb). unfold is_u32. lia. }
  destruct Hopt as [|b t Hb]; cbn [cli_options]; unfold numeric; rewrite ?Hb; cbn [cli_options];
    by apply wp_cmd_mailbox.
Qed.

End Peer.
