(* ===== verification/TextEndToEnd.v ===== *)
(** * stats and trace, end to end

    The two text commands of the client against the daemon: a reader of what they
    print gets the daemon's counters, clients and recorded operations back. *)
From S2P Require Import Prelude Bytes Proto Fmt ParseUint State Queue Log Spi Exec OpSpec Mailbox Daemon.
From S2P Require Import Invariant Handlers Scheduler Atomic TextReader TextSpec MainLoop RequestSpec Calm Retain Wire.
From S2P Require Import Cli CliSpec EndToEnd.

(** ** Texts as C strings *)

Definition nul_free (t : string) : Prop := Forall (fun b => b <> 0) (str_bytes t).

Lemma nul_free_app t u : nul_free (t +:+ u) <-> nul_free t /\ nul_free u.
Proof. unfold nul_free. rewrite str_bytes_app. apply Forall_app. Qed.

Lemma nul_free_concat l : Forall nul_free l -> nul_free (concat_lines l).
Proof. induction 1 as [|t l Ht _ IH]; [constructor|]. cbn. by apply nul_free_app. Qed.

Lemma c_string_text t rest : nul_free t -> c_string (str_bytes t ++ 0 :: rest) = Ok t.
Proof.
  induction t as [|a t IH]; intros Ht; [done|].
  assert (str_bytes (String a t) = Z.of_nat (Ascii.nat_of_ascii a) :: str_bytes t) as Hs by done.
  unfold nul_free in Ht. rewrite Hs in Ht |- *. apply Forall_cons in Ht as [Ha Ht]. cbn [app c_string].
  rewrite (proj2 (Z.eqb_neq _ _)) by done. rewrite IH by done. cbn [res_bind].
  by rewrite Nat2Z.id, Ascii.ascii_nat_embedding.
Qed.

Lemma nul_free_cons a t : Ascii.nat_of_ascii a <> 0%nat -> nul_free t -> nul_free (String a t).
Proof. intros Ha Ht. unfold nul_free. apply Forall_cons. split; [lia|done]. Qed.

Lemma digit_char_code upper d : 0 <= d < 16 -> Ascii.nat_of_ascii (digit_char upper d) <> 0%nat.
Proof.
  intros Hd. unfold digit_char. rewrite Ascii.nat_ascii_embedding by (repeat case_match; lia).
  repeat case_match; lia.
Qed.

Lemma nul_free_digits fuel upper b n acc : 0 < b <= 16 -> nul_free acc -> nul_free (digits fuel upper b n acc).
Proof.
  intros Hb. revert n acc. induction fuel as [|f IH]; intros n acc Ha; cbn [digits]; [done|].
  assert (nul_free (String (digit_char upper (n mod b)) acc)) as H1.
  { apply nul_free_cons; [|done]. apply digit_char_code. pose proof (Z.mod_pos_bound n b). lia. }
  destruct (n / b =? 0); [done|by apply IH].
Qed.

Lemma nul_free_dec n : nul_free (dec n).
Proof. apply nul_free_digits; [lia|constructor]. Qed.
Lemma nul_free_dec_int n : nul_free (dec_int n).
Proof. unfold dec_int. case_match; [apply nul_free_cons; [done|]|]; apply nul_free_dec. Qed.
Lemma nul_free_pad k t : nul_free t -> nul_free (pad_left k "0" t).
Proof. intros Ht. induction k as [|k IH]; [done|]. by apply nul_free_cons. Qed.
Lemma nul_free_hex w n : nul_free (hex w n).
Proof. apply nul_free_pad, nul_free_digits; [lia|constructor]. Qed.

(** Literal texts by computation, numbers by the lemmas above. *)
Ltac nul_free_text :=
  repeat (apply nul_free_app; split);
  first [done | apply nul_free_dec | apply nul_free_dec_int | apply nul_free_hex
        | unfold nul_free; apply (bool_decide_unpack _); vm_compute; exact I | idtac].

Lemma nul_free_trace_line e : nul_free (trace_line e).
Proof. unfold trace_line. nul_free_text. destruct (te_write e =? 0); nul_free_text. Qed.

(** The names the STATS text quotes. *)
Definition names_nul_free (g : glob) : Prop :=
  nul_free (cf_dev (g_cfg g)) /\ nul_free (default "on"%string (cf_rst_line (g_cfg g))) /\
  Forall (fun cl => nul_free (c_comm cl)) (g_cl g).

Lemma nul_free_stats g : names_nul_free g -> nul_free (stats_text g).
Proof.
  intros (Hd & Hr & Hc). unfold stats_text. apply nul_free_app. split.
  - unfold stats_line. nul_free_text. destruct (0 <=? _); [done|nul_free_text].
  - apply nul_free_concat, Forall_fmap. unfold used_clients. apply Forall_forall. intros cl [_ Hin]%list_elem_of_filter.
    rewrite Forall_forall in Hc. specialize (Hc _ Hin). cbn. unfold client_line. nul_free_text.
Qed.

(** ** The exchange *)

Section Texts.
Context {W : Type} {WW : World W} {WO : WorldOk W WW} {RG : Regs} {RO : RegsOk RG}
  {CH : PipelinedChip W WW} {SC : StorageChip W WW CH}.
Implicit Types (s : st (wired W)) (k : link W).

Definition text_hdr (type : spiproxy_type) : hdr := Hdr SPIPROXY_VER (type_code type) 0 1 0.

Lemma text_hdr_ok type : hdr_ok (text_hdr type).
Proof. split_and!; cbn; try done; destruct type; unfold is_u8, is_u16, is_u32, SPIPROXY_VER; cbn; lia. Qed.

Lemma text_dgram type : dgram (text_hdr type) [].
Proof. split; [apply text_hdr_ok|done|done|cbn; lia|constructor]. Qed.

Lemma idle_count fa busy g : inv [[]; []; []] fa busy g -> n_queued (g_qs g) = 0.
Proof. intros I. by rewrite (rep_count _ _ _ _ (inv_rep _ _ _ _ I)). Qed.

Lemma sent_bus {V} {VW : World V} fd m (s s' : st V) : sent fd m s s' -> bus (st_out s') = bus (st_out s).
Proof. intros (w & ev & -> & Hev). by rewrite bus_logs. Qed.

Lemma spares_exec_stats {Y} (p : wired W -> Y) (HP : host_part p) c h : spares claim_flag p (exec_stats c h).
Proof. unfold exec_stats, get_client. solve_spares. by apply spares_send_resp. Qed.
Lemma spares_exec_trace {Y} (p : wired W -> Y) (HP : host_part p) c h : spares claim_flag p (exec_trace c h).
Proof. unfold exec_trace. solve_spares; by apply spares_send_resp. Qed.

(** The daemon the report describes: the process is connected and its request
    counted. *)
Definition counted (a : accepted) (g : glob) : glob :=
  set_g_cl (fun cls => <[free_slot (g_cl g) := count_msg (new_client a g)]> cls) (joined a g).
Definition command_type (stats : bool) : spiproxy_type := if stats then SPIPROXY_STATS else SPIPROXY_TRACE.
Definition command_text (stats : bool) (g : glob) (l : list trace_ent) : string :=
  if stats then stats_text g else concat_lines (trace_line <$> reverse (take (Z.to_nat TRACE_TAIL_MAX) l)).

Lemma counted_inv fa a g :
  inv [[]; []; []] fa [] g -> (free_slot (g_cl g) < MAX_CLIENTS)%nat ->
  inv [[]; []; []] fa [] (counted a g) /\
  g_cl (counted a g) !! free_slot (g_cl g) = Some (count_msg (new_client a g)).
Proof.
  intros I Hf. destruct (joined_inv fa a g I Hf) as [I1 Hnew]. split.
  - apply (inv_clients _ _ _ (joined a g)); [done| |done..|].
    + eapply same_clients_insert; [exact Hnew|]. done.
    + cbn. pose proof (inv_cl _ _ _ _ I1) as [_ Hall]. apply Forall_insert; [done|]. apply client_ok_stats.
      by eapply (Forall_lookup_1 _ _ _ _ Hall).
  - apply list_lookup_insert_eq. by eapply lookup_lt_Some.
Qed.

(** The daemon at the start of the request, as the report sees it. *)
Lemma starts_counted a i h fa it cl1 k s1 s2 s3 :
  at_rest k -> connects a k s1 -> let g := st_g (lk_daemon k) in let slot := free_slot (g_cl g) in
  accepted_as i slot h [] (received (on_world (push (hdr_encode h ++ [])) s1)) s2 ->
  g_cl (st_g s2) = <[slot := count_msg (new_client a g)]> (g_cl (st_g s1)) ->
  starts i slot cl1 [] fa it s2 s3 ->
  stats_text (st_g s3) = stats_text (counted a g) /\ g_ring (st_g s3) = g_ring g /\ g_ring_w (st_g s3) = g_ring_w g.
Proof.
  intros [[(fa1 & I) _ _] _] [Hg _ _ _] g slot [_ _ _ _ _ _ _ _ Hrest] Hcls [I3 _ _ _ _ _ _ _ _ _ Hrest3].
  cbn [received on_world st_g] in Hrest. apply idle_count in I, I3. fold g in I. rewrite Hrest, Hcls, Hg in Hrest3.
  rewrite Hrest3. split; [|done]. unfold stats_text, stats_line, claim_id, counted, joined. fold g.
  cbn [g_cl g_cfg g_cnt g_claim g_mb_inflight g_qs set_g_cl set_g_qs set_g_lctx set_g_next_cid]. by rewrite I, I3.
Qed.

(** The texts fit a message. *)
Lemma command_text_fits (stats : bool) a l k :
  at_rest k -> let g := st_g (lk_daemon k) in ring_holds g l -> Z.of_nat (length l) < 2 ^ 32 ->
  (String.length (command_text stats (counted a g) l) <= SPIPROXY_MSG_MAX)%nat.
Proof.
  intros [[(fa & I) _ _] Hf] g Hring Hlen. destruct (counted_inv fa a _ I Hf) as [I1 Hcl].
  set (s := St (counted a g) (st_w (lk_daemon k)) []). destruct stats; cbn [command_text].
  - exact (proj1 (wp_stats_text _ _ _ _ _ _ (fun _ => False) s I1 Hcl (text_hdr_ok SPIPROXY_STATS))).
  - exact (proj1 (wp_trace_text _ _ _ _ _ _ l (fun _ => False) s I1 Hcl (text_hdr_ok SPIPROXY_TRACE) Hring Hlen)).
Qed.

(** The request executed: the answer holds the text. *)
Lemma wp_text_request (stats : bool) f c cl1 h l fa i t (body : list Z) s3 :
  h = text_hdr (command_type stats) -> inv [[]; []; []] fa [i] (st_g s3) -> g_cl (st_g s3) !! c = Some cl1 ->
  ring_holds (st_g s3) l -> Z.of_nat (length l) < 2 ^ 32 -> t = command_text stats (st_g s3) l ->
  wp (fun _ => False) (exec_request f (drain_queues f) i c h body)
    (fun _ s' => sent (c_fd cl1) (response h SPIPROXY_OK (str_bytes t)) s3 s' /\
       claim_flag (st_g s') = claim_flag (st_g s3) /\ conn_part (st_w s') = conn_part (st_w s3)) s3.
Proof.
  intros -> I3 Hcl3 Hring Hlen ->. pose proof (text_hdr_ok (command_type stats)) as Hh.
  eapply (wp_fault_mono (fun e => False /\ True)); [tauto|]. destruct stats; unfold command_type, command_text in *.
  - destruct (wp_stats_text _ _ _ c cl1 _ (fun _ => False) s3 I3 Hcl3 Hh) as [_ Hx].
    change (exec_request _ _ _ _ _ _) with (exec_stats (W := wired W) c (text_hdr SPIPROXY_STATS)).
    apply wp_and; [exact Hx|]. apply spares_exec_stats, conn_part_host.
  - destruct (wp_trace_text _ _ _ c cl1 _ l (fun _ => False) s3 I3 Hcl3 Hh Hring Hlen) as [_ Hx].
    change (exec_request _ _ _ _ _ _) with (exec_trace (W := wired W) c (text_hdr SPIPROXY_TRACE)).
    apply wp_and; [exact Hx|]. apply spares_exec_trace, conn_part_host.
Qed.

(** The scheduler's run. *)
Lemma wp_serve_text (stats : bool) a f l i k s1 s2 :
  at_rest k -> connects a k s1 -> let g := st_g (lk_daemon k) in let slot := free_slot (g_cl g) in
  let h := text_hdr (command_type stats) in let s := on_world (push (hdr_encode h ++ [])) s1 in
  ring_holds g l -> Z.of_nat (length l) < 2 ^ 32 ->
  accepted_as i slot h [] (received s) s2 ->
  g_cl (st_g s2) = <[slot := count_msg (new_client a g)]> (g_cl (st_g s)) ->
  wp (fun _ => False) (drain_queues (S f) 64) (fun _ s' =>
    sent (ac_fd a) (response h SPIPROXY_OK (str_bytes (command_text stats (counted a g) l))) s2 s' /\
    still_connected a slot s') s2.
Proof.
  intros HR HC g slot h s Hring Hlen Hacc Hcl. pose proof HR as [[(fa & I) _ Hc] Hf].
  destruct (joined_inv fa a _ I Hf) as [_ Hnew]. pose proof (cn_glob _ _ _ HC) as Hg.
  set (m := response h SPIPROXY_OK _).
  eapply (wp_serve_item f 62 i slot (new_client a g) h [] _ (fun s' => sent (ac_fd a) m s2 s' /\
    claim_flag (st_g s') = claim_flag (st_g s2) /\ conn_part (st_w s') = conn_part (st_w s2))); [exact Hacc| | | |].
  - cbn. by rewrite Hg.
  - left. cbn. by rewrite Hg.
  - intros fa3 it cl1 s3 [Hfd _] Hst.
    destruct (starts_counted a i h fa3 it cl1 k s1 s2 s3 HR HC Hacc Hcl Hst) as (Htx & Hrg & Hrw).
    destruct Hst as [I3 _ _ _ _ Hcl3 Hcf _ Hw Ho _].
    eapply wp_mono; [apply (wp_text_request stats f slot cl1 h l fa3 i (command_text stats (counted a g) l)); try done|].
    + unfold ring_holds. rewrite Hrg, Hrw. exact Hring.
    + by destruct stats.
    + cbn beta. intros _ s' (H1 & H2 & H3). unfold sent in *. rewrite <-Ho, H2, H3, Hcf, Hw.
      rewrite Hfd in H1. done.
  - intros s3 qs (H1 & H2 & H3) s' Hsv. split; [exact H1|]. by eapply served_connected.
Qed.

(** The command prints the text of the answer. *)
Lemma wp_cmd_text a f type t k s1 slot s2 :
  let h := text_hdr type in let m := response h SPIPROXY_OK (str_bytes t) in
  nul_free t -> (String.length t <= SPIPROXY_MSG_MAX)%nat ->
  p_connect (Peer := daemon_peer a f) k = (Link s1 slot [], Some SOCK_FD) ->
  p_recv (Peer := daemon_peer a f) (Link (on_world (push (hdr_encode h ++ [])) s1) slot []) =
    (Link s2 slot [], (Z.of_nat (length m), m)) ->
  cmd_text (PE := daemon_peer a f) type (process_start k) =
    Ok (EXIT_SUCCESS, Cli SOCK_FD SPIPROXY_SOCK 1 (Link s2 slot []) [CliOut t; CliSent (hdr_encode h)]).
Proof.
  intros h m Ht Hl Hconn Hrecv. pose proof msg_max_big as Hmm.
  destruct (w_stack_bytes (st_w (lk_daemon k)) (SPIPROXY_MSG_MAX + 1)) as [Hbl _].
  pose proof (length_str_bytes t) as Htl.
  enough (wp (fun _ => False) (cmd_text (PE := daemon_peer a f) type) (fun r c' => r = EXIT_SUCCESS /\
    c' = Cli SOCK_FD SPIPROXY_SOCK 1 (Link s2 slot []) [CliOut t; CliSent (hdr_encode h)]) (process_start k)) as H.
  { destruct (wp_returns _ _ _ H) as (r & c' & -> & -> & ->). done. }
  unfold cmd_text. apply wp_bind. unfold stack. unfold wp at 1. cbn [p_stack daemon_peer process_start cl_peer].
  set (buf := w_stack _ _) in *. apply wp_bind. rewrite app_nil_r in Hrecv.
  eapply (wp_cli_exchange a f (type_code type) [] SPIPROXY_OK (str_bytes t) buf SPIPROXY_MSG_MAX); cbn [length];
    [apply text_dgram|lia|lia|lia|exact Hconn|by rewrite app_nil_r|].
  rewrite app_nil_r. cbn [default from_option id]. cbn beta iota. rewrite Nat2Z.id. apply wp_bind, wp_lift.
  apply rwp_arr_set; [rewrite length_app, length_drop; lia|].
  apply wp_bind, wp_lift. rewrite insert_app_r_alt by lia. rewrite Nat.sub_diag.
  destruct (drop (length (str_bytes t)) buf) as [|b rest] eqn:Hd.
  { apply (f_equal length) in Hd. rewrite length_drop in Hd. cbn [length] in Hd. lia. }
  cbn [insert list_insert]. rewrite c_string_text by done. apply rwp_ok. cli_steps. done.
Qed.

(** What a reader finds in the printed text. *)
Definition tells (stats : bool) (g : glob) (l : list trace_ent) (t : string) : Prop :=
  if stats then t = report_text (stats_facts g) /\ (plain_report (stats_facts g) -> read_stats t = Some (stats_facts g))
  else read_trace t = Some (shown_ent <$> reverse (take 64 l)).

Lemma command_text_tells (stats : bool) fa g l :
  inv [[]; []; []] fa [] g -> ring_holds g l -> tells stats g l (command_text stats g l).
Proof.
  intros I Hring. destruct stats; cbn [tells command_text].
  - rewrite stats_text_report. split; [done|]. intros Hp. apply read_report_text; [done|by eapply stats_facts_range].
  - apply read_trace_text. by eapply recent_ok.
Qed.

(** C13: [spiproxy_cli stats] and [spiproxy_cli trace] against the daemon.  A process
    that has just been started finds the daemon at rest (other clients may be
    connected, but none holds the claim): it connects, is accepted, sends one
    request, exits successfully and prints the daemon's text.  Reading it gives
    back, for stats, the counters and the statistics of every connected client,
    this process and its request counted in; for trace the newest operations of
    the op log, at most 64, oldest first.  Nothing goes over the bus, and the
    daemon is at rest again with the connection open. *)
Theorem cli_texts_end_to_end {QS : Qsort} (stats : bool) a f runs l k :
  at_rest k -> takes a -> let g := st_g (lk_daemon k) in
  ring_holds g l -> Z.of_nat (length l) < 2 ^ 32 -> names_nul_free (counted a g) ->
  exists t c', cli_main (PE := daemon_peer a (S f)) runs [] [if stats then "stats" else "trace"]%string (process_start k) =
      Ok (EXIT_SUCCESS, c') /\
    cl_log c' = [CliOut t; CliSent (hdr_encode (text_hdr (command_type stats)))] /\
    tells stats (counted a g) l t /\
    bus (st_out (lk_daemon (cl_peer c'))) = bus (st_out (lk_daemon k)) /\
    still_connected a (free_slot (g_cl g)) (lk_daemon (cl_peer c')).
Proof.
  intros HR Ha g Hring Hlen Hnul. set (h := text_hdr (command_type stats)). set (t := command_text stats (counted a g) l).
  destruct (daemon_connects f a k HR) as (s1 & HC & Hconn).
  destruct (daemon_answers (S f) a h [] k s1 (fun m s' => m = response h SPIPROXY_OK (str_bytes t) /\
    bus (st_out s') = bus (st_out (lk_daemon k)) /\ still_connected a (free_slot (g_cl g)) s') HR Ha HC (text_dgram _))
    as (m & s' & (-> & Hbus & Hst) & Hrecv).
  { intros i s2 Hacc Hcl. eapply wp_mono; [by apply (wp_serve_text stats a f l i k s1 s2)|]. cbn beta.
    intros _ s' [Hs Hst]. eexists. split; [by apply (sent_replied _ _ s2 s2 s' [])|]. split; [done|]. split; [|done].
    pose proof Hacc as [_ _ _ _ _ _ _ (ev & Hout & Hev) _]. pose proof HC as [_ _ _ (ev0 & Hev0 & Hout0)].
    rewrite (sent_bus _ _ _ _ Hs), Hout, bus_logs by done. cbn [received on_world st_out].
    by rewrite Hout0, bus_logs. }
  assert (nul_free t) as Ht.
  { unfold t, command_text. destruct stats; [by apply nul_free_stats|].
    apply nul_free_concat, Forall_fmap, Forall_true, nul_free_trace_line. }
  pose proof (wp_cmd_text a (S f) (command_type stats) t k s1 _ s' Ht (command_text_fits stats a l k HR Hring Hlen)
    Hconn Hrecv) as Hcmd.
  exists t. eexists. split; [destruct stats; exact Hcmd|]. split; [done|]. split; [|by split].
  destruct HR as [[(fa & I) _ _] Hf]. destruct (counted_inv fa a _ I Hf) as [I1 _]. by eapply command_text_tells.
Qed.

End Texts.
