(* ===== verification/Fuzz.v ===== *)
(** * The fuzzing build

    lan80xx_spid.c compiled with SPIPROXY_FUZZ: the stub that replaces the SPI
    bus and the reset line (a second instance of [Backend]), and the three
    libFuzzer harnesses of fuzz/ with their shared setup and oracle.

    Slots 0 and 1 of the client table stand for the array [cl] the harnesses
    keep on their stack; the only code that walks the table, STATS, then also
    lists them.  The input is a list of bytes. *)
From Stdlib Require Import Strings.Byte.
From S2P Require Import Prelude Bytes Proto Fmt State Queue Log Spi Exec Mailbox Daemon Main Cli.

(** The value of a [uint8_t] of the input. *)
Definition byte_val (b : byte) : Z := Z.of_N (Byte.to_N b).

(** ** The stub of the bus *)

(** The globals of the stub, and the rest of the environment; the length of the
    feed is [g_fuzz_spi_len]. *)
Record fuzzed (W : Type) := Fuzzed {
  g_fuzz_spi : list byte;
  g_fuzz_spi_pos : nat;
  g_fuzz_mb_reads : Z;
  fz_env : W }.
Arguments Fuzzed {W} g_fuzz_spi g_fuzz_spi_pos g_fuzz_mb_reads fz_env.
Arguments g_fuzz_spi {W} f.
Arguments g_fuzz_spi_pos {W} f.
Arguments g_fuzz_mb_reads {W} f.
Arguments fz_env {W} f.

Definition set_env {W} (f : fuzzed W) (w : W) : fuzzed W :=
  Fuzzed (g_fuzz_spi f) (g_fuzz_spi_pos f) (g_fuzz_mb_reads f) w.
Definition in_env {W A} (k : W -> W * A) (f : fuzzed W) : fuzzed W * A :=
  let '(w, a) := k (fz_env f) in (set_env f w, a).

#[export] Instance fuzz_world {W} {WW : World W} : World (fuzzed W) := {|
  w_time f := w_time (fz_env f);
  w_spi f tx := in_env (fun w => w_spi w tx) f;
  w_clock f := in_env w_clock f;
  w_send f fd msg := in_env (fun w => w_send w fd msg) f;
  w_recv f fd := in_env (fun w => w_recv w fd) f;
  w_accept f := in_env w_accept f;
  w_do f e := set_env f (w_do (fz_env f) e);
  w_undef f := w_undef (fz_env f);
  w_stack f n := w_stack (fz_env f) n |}.

Definition SPI_FAIL_MAGIC : Z := 0xE770FA11.

(** [for (i = 0; i < 4 && pos < len; i++)]: [n] more bytes, from the [i]-th on;
    the result is the value and the position. *)
Fixpoint feed_bytes (n : nat) (i : Z) (feed : list byte) (pos : nat) (v : Z) : Z * nat :=
  match n with
  | O => (v, pos)
  | S n' =>
      match feed !! pos with
      | Some b => feed_bytes n' (i + 1) feed (S pos) (Z.lor v (u32 (Z.shiftl (byte_val b) (i * 8))))
      | None => (v, pos)
      end
  end.

Definition fuzz_spi_next {W} (f : fuzzed W) : fuzzed W * Z :=
  let '(v, pos) := feed_bytes 4 0 (g_fuzz_spi f) (g_fuzz_spi_pos f) 0 in
  (Fuzzed (g_fuzz_spi f) pos (g_fuzz_mb_reads f) (fz_env f), v).

Definition set_mb_reads {W} (n : Z) (f : fuzzed W) : fuzzed W :=
  Fuzzed (g_fuzz_spi f) (g_fuzz_spi_pos f) n (fz_env f).

Section Stub.
Context {W : Type} {WW : World W}.

Definition fuzz_spi_write_reg (slice mmd reg val : Z) : D (fuzzed W) Z :=
  setg count_write ;; returnM 0.

Definition fuzz_spi_read_reg (slice mmd reg old : Z) : D (fuzzed W) (Z * Z) :=
  if (mmd =? LAN80XX_MMD_GLOBAL) && (reg =? MB_FLAG) then
    let* g := getg in
    let* v := (if negb (g_mb_inflight g) then ask (fun f => (set_mb_reads 0 f, 0))
               else ask (fun f => let n := u32 (g_fuzz_mb_reads f + 1) in
                    (set_mb_reads n f, Z.lor MB_F_BUSY (if 2 <=? n then MB_F_RESP else 0)))) in
    setg count_read ;; returnM (0, v)
  else
    let* w := ask fuzz_spi_next in
    if w =? SPI_FAIL_MAGIC then setg count_io_err ;; returnM (-1, old)
    else setg count_read ;; returnM (0, w).

Definition fuzz_gpio_pulse_reset (assert_us deassert_us : Z) : D (fuzzed W) unit := returnM tt.

#[export] Instance fuzz_backend : Backend (fuzzed W) :=
  {| spi_write_reg := fuzz_spi_write_reg; spi_read_reg := fuzz_spi_read_reg;
     gpio_pulse_reset := fuzz_gpio_pulse_reset; MB_POLL_DELAY_US := 0 |}.

End Stub.

(** ** Shared setup *)

Definition FUZZ_NCLIENTS : nat := 2.

(** Static storage is zero and main does not run, so the free list is not
    linked yet: the setup of LLVMFuzzerInitialize on it.  A null [g.dev] prints as glibc prints it. *)
Definition fuzz_config : config := Config "(null)" "(null)" 0 5000000 None (-1) false false.
Definition zero_qitem : qitem := QItem None 0 (Hdr 0 0 0 0 0) (replicate SPIPROXY_MSG_MAX 0).
Definition LLVMFuzzerInitialize : glob :=
  set_g_qs (fun _ => QState (replicate 3 None) (replicate 3 None) (replicate MAX_QITEMS zero_qitem) None 0)
    (init_glob fuzz_config).

Definition relink (pl : list qitem) : list qitem :=
  imap (fun i it => set_q_next (fun _ => if (i <? MAX_QITEMS - 1)%nat then Some (S i) else None) it) pl.

Definition fuzz_reset_glob (g : glob) : glob :=
  Glob (g_cfg g) (g_cl g) (g_next_cid g)
    (QState (replicate 3 None) (replicate 3 None) (relink (pool (g_qs g))) (Some 0%nat) 0)
    (ClaimState None 0 (claim_cleanup (g_claim g)) 0) false (g_ring g) 0 (g_cnt g) (g_lctx g)
    zero_lint (g_stop g).

(** [memset(&cl[i], 0, ...)] and the fields set after it. *)
Definition fuzz_client (i : nat) : client := Client (-1) true (Z.of_nat i + 1) 0 "" 0 0 0.

(** One list of items: at most [k] more steps, which is where the cap on the
    count stops the loop. *)
Fixpoint count_items (k : nat) (pl : list qitem) (p : option nat) (n : Z) : res Z :=
  match k, p with
  | S k', Some i => let! it := arr_get pl i in count_items k' pl (q_next it) (n + 1)
  | _, _ => Ok n
  end.

Definition count_list (pl : list qitem) (p : option nat) (n : Z) : res Z :=
  count_items (Z.to_nat (Z.of_nat MAX_QITEMS + 1 - n)) pl p n.

(** How a run of a harness ends. *)
Inductive verdict := Returned (rc : Z) | Aborted (message : string).

Section Harness.
Context {W : Type} {WW : World W} {RG : Regs}.
Abbreviation F := (D (fuzzed W)).

Definition fuzz_reset : F unit := setg fuzz_reset_glob.

Definition fuzz_clients : F unit :=
  forM (seq 0 FUZZ_NCLIENTS) (fun i =>
    let* g := getg in
    let* cls := liftM (arr_set (g_cl g) i (fuzz_client i)) in
    setg (set_g_cl (fun _ => cls))).

Definition fuzz_check_invariants : F verdict :=
  let* g := getg in
  let qs := g_qs g in
  let* n0 := liftM (count_list (pool qs) (freel qs) 0) in
  let* h0 := liftM (arr_get (qh qs) 0) in
  let* n1 := liftM (count_list (pool qs) h0 n0) in
  let* h1 := liftM (arr_get (qh qs) 1) in
  let* n2 := liftM (count_list (pool qs) h1 n1) in
  let* h2 := liftM (arr_get (qh qs) 2) in
  let* n := liftM (count_list (pool qs) h2 n2) in
  if negb (n =? Z.of_nat MAX_QITEMS) || negb (n_queued qs =? 0) || g_mb_inflight g then
    returnM (Aborted ("INVARIANT: qitems=" +:+ dec_int n +:+ "/" +:+ dec_int (Z.of_nat MAX_QITEMS) +:+
      " n_queued=" +:+ dec_int (n_queued qs) +:+ " mb_inflight=" +:+ dec_int (bit (g_mb_inflight g)) +:+ nl))
  else returnM (Returned 0).

(** The common end of the two daemon harnesses. *)
Definition fuzz_teardown (fuel : nat) : F verdict :=
  drain_queues fuel (2 * MAX_QITEMS) ;;
  forM (seq 0 FUZZ_NCLIENTS) client_drop ;;
  fuzz_check_invariants.

Definition set_feed (feed : list byte) : F unit :=
  ask (fun f => (Fuzzed feed 0 (g_fuzz_mb_reads f) (fz_env f), tt)).

(** Two bytes of the input, little-endian. *)
Definition u16_of (lo hi : byte) : Z := Z.lor (byte_val lo) (Z.shiftl (byte_val hi) 8).

(** ** fuzz_frame.c *)

(** The rest of the input holds raw datagrams; [k] of them are done.  An
    iteration takes at least two bytes, so the length of the input bounds them. *)
Fixpoint frame_loop (n : nat) (rest : list byte) (k : Z) (msg : list Z) : F unit :=
  match n, rest with
  | S n', lo :: hi :: data =>
      let dlen := Nat.min (Z.to_nat (u16_of lo hi)) (length data) in
      let len := Nat.min dlen MSG_BUF in
      let* msg' := liftM (buf_write msg 0 (byte_val <$> take len data)) in
      client_frame (Z.to_nat (k mod Z.of_nat FUZZ_NCLIENTS)) msg' (Z.of_nat len) ;;
      frame_loop n' (drop dlen data) (u32 (k + 1)) msg'
  | O, _ :: _ :: _ => failM OutOfFuel
  | _, _ => returnM tt
  end.

Definition fuzz_frame (fuel : nat) (data : list byte) : F verdict :=
  let* msg := stack_array MSG_BUF in
  set_feed [] ;; fuzz_reset ;; fuzz_clients ;;
  frame_loop (length data) data 0 msg ;;
  fuzz_teardown fuel.

(** ** fuzz_msg.c *)

(** The rest of the input holds framed requests. *)
Fixpoint msg_loop (n : nat) (rest : list byte) : F unit :=
  match n, rest with
  | S n', lo :: hi :: data =>
      let framing := u16_of lo hi in
      let who := Z.shiftr framing 15 in
      let mlen := Nat.min (Z.to_nat (Z.land framing 0x7fff)) (length data) in
      if (mlen <? hdr_size)%nat then returnM tt else
      let mlen := Nat.min mlen (hdr_size + SPIPROXY_MSG_MAX) in
      let h0 := hdr_decode (byte_val <$> take hdr_size data) in
      let h := Hdr (h_ver h0) (h_type h0) (h_flags h0) (h_seq h0) (Z.of_nat (mlen - hdr_size)) in
      enqueue (Z.to_nat (who mod Z.of_nat FUZZ_NCLIENTS)) h (byte_val <$> drop hdr_size data) ;;
      msg_loop n' (drop mlen data)
  | O, _ :: _ :: _ => failM OutOfFuel
  | _, _ => returnM tt
  end.

Definition fuzz_msg (fuel : nat) (input : list byte) : F verdict :=
  match input with
  | lo :: hi :: data =>
      let feed_len := Nat.min (Z.to_nat (u16_of lo hi)) (length data) in
      set_feed (take feed_len data) ;;
      fuzz_reset ;; fuzz_clients ;;
      msg_loop (length data) (drop feed_len data) ;;
      fuzz_teardown fuel
  | _ => returnM (Returned 0)
  end.

End Harness.

(** ** fuzz_resp.c *)

Section Resp.
Context {P : Type} {PE : Peer P}.

Definition fuzz_resp (input : list byte) : C P Z :=
  let msg := byte_val <$> take MSG_BUF input in
  let* resp := stack SPIPROXY_MSG_MAX in
  let* '(want_seq, want_type) :=
    (if (length msg <? hdr_size)%nat then returnM (0, 0)
     else let* b := liftM (buf_read msg 0 hdr_size) in
          let h := hdr_decode b in
          returnM (h_seq h, u8 (Z.land (h_type h) (Z.lnot SPIPROXY_RESP)))) in
  parse_resp msg (Z.of_nat (length msg)) want_seq want_type
    (Some (resp, Z.of_nat SPIPROXY_MSG_MAX)) ;;
  returnM 0.

End Resp.
