(* ===== verification/FuzzTerm.v ===== *)
(** * The fuzzing build terminates

    With the stub of the bus a mailbox transaction ends after two looks at the
    flag, because draining the queues in between leaves it in flight.  The
    clock plays no part.  [keeps] is the invariant behind it: a computation
    neither runs out of fuel nor touches the mailbox state, and reads the flag
    at most [n] times. *)
From S2P Require Import Prelude Bytes Proto Crc16 Fmt State Queue Log Spi Exec Mailbox Daemon Main Fuzz.

(** Every fault but the exhaustion of the fuel. *)
Definition not_fuel (e : fault) : Prop := e <> OutOfFuel.

(** ** Pure computations use no fuel *)

Definition fuelless {A} (r : res A) : Prop := rwp not_fuel r (fun _ => True).

Lemma fuelless_ok {A} (a : A) : fuelless (Ok a).
Proof. done. Qed.

Lemma fuelless_bind {A B} (r : res A) (k : A -> res B) :
  fuelless r -> (forall a, fuelless (k a)) -> fuelless (res_bind r k).
Proof. intros Hr Hk. destruct r as [a|e]; [apply Hk|exact Hr]. Qed.

Lemma fuelless_if {A} (b : bool) (r1 r2 : res A) : fuelless r1 -> fuelless r2 -> fuelless (if b then r1 else r2).
Proof. by destruct b. Qed.

Lemma fuelless_read b o n : fuelless (buf_read b o n).
Proof. unfold buf_read. by apply fuelless_if. Qed.
Lemma fuelless_write b o d : fuelless (buf_write b o d).
Proof. unfold buf_write. by apply fuelless_if. Qed.
Lemma fuelless_get b i : fuelless (buf_get b i).
Proof. unfold buf_get. by destruct (b !! i). Qed.
Lemma fuelless_arr_get {A} (l : list A) i : fuelless (arr_get l i).
Proof. unfold arr_get. by destruct (l !! i). Qed.
Lemma fuelless_arr_set {A} (l : list A) i x : fuelless (arr_set l i x).
Proof. unfold arr_set. by apply fuelless_if. Qed.

Create HintDb fuelless.
#[export] Hint Resolve fuelless_ok fuelless_read fuelless_write fuelless_get fuelless_arr_get fuelless_arr_set
  : fuelless.

Ltac fuelless_step :=
  lazymatch goal with
  | |- fuelless (res_bind _ _) => apply fuelless_bind; [|intros ?]
  | |- fuelless (match ?x with _ => _ end) => destruct x
  | |- fuelless (Fail _) => done
  | |- fuelless _ => solve [auto with fuelless]
  end; cbn beta iota.
Ltac fuelless := repeat fuelless_step.

Lemma fuelless_arr_fill {A} (l xs : list A) : fuelless (arr_fill l xs).
Proof. unfold arr_fill. fuelless. Qed.

Lemma fuelless_loc_set qs pp v : fuelless (loc_set qs pp v).
Proof. unfold loc_set. fuelless. Qed.
Lemma fuelless_walk fuel pl t : fuelless (walk_tail fuel pl t).
Proof. revert t. induction fuel as [|f IH]; intros t; cbn [walk_tail]; fuelless. Qed.
#[export] Hint Resolve fuelless_arr_fill fuelless_loc_set fuelless_walk : fuelless.

Lemma fuelless_unlink qs q pp i : fuelless (unlink qs q pp i).
Proof. unfold unlink. fuelless. Qed.
#[export] Hint Resolve fuelless_unlink : fuelless.

Lemma fuelless_scan fuel elig qs q pp : fuelless (scan_queue fuel elig qs q pp).
Proof.
  revert pp. induction fuel as [|f IH]; intros pp; cbn [scan_queue]; [done|].
  apply fuelless_bind; [unfold loc_get; fuelless|]. intros p. fuelless.
Qed.
#[export] Hint Resolve fuelless_scan : fuelless.

Lemma fuelless_classes n elig : forall qs q, fuelless (scan_classes n elig qs q).
Proof. induction n as [|n IH]; intros qs q; cbn [scan_classes]; fuelless. Qed.
Lemma fuelless_take elig qs : fuelless (take_eligible elig qs).
Proof. apply fuelless_classes. Qed.
Lemma fuelless_release i qs : fuelless (release_item i qs).
Proof. unfold release_item. fuelless. Qed.
#[export] Hint Resolve fuelless_release : fuelless.
Lemma fuelless_take_free c h qs : fuelless (take_free c h qs).
Proof. unfold take_free. fuelless. Qed.
Lemma fuelless_link q i body qs : fuelless (link_tail q i body qs).
Proof. unfold link_tail. fuelless. Qed.
Lemma fuelless_purge_queue fuel c : forall qs pp, fuelless (purge_queue fuel c qs pp).
Proof.
  induction fuel as [|f IH]; intros qs pp; cbn [purge_queue]; [done|].
  apply fuelless_bind; [unfold loc_get; fuelless|]. intros p. fuelless.
Qed.
#[export] Hint Resolve fuelless_take_free fuelless_link fuelless_purge_queue : fuelless.
Lemma fuelless_purge c qs : fuelless (purge_client c qs).
Proof. unfold purge_client, purge_class. fuelless. Qed.
Lemma fuelless_word pkt i : fuelless (pkt_word pkt i).
Proof. unfold pkt_word. fuelless. Qed.
Lemma fuelless_store pkt i v : fuelless (pkt_store pkt i v).
Proof. unfold pkt_store. fuelless. Qed.
Lemma fuelless_packet m payload pkt : fuelless (mb_packet m payload pkt).
Proof. unfold mb_packet. fuelless. Qed.
Lemma fuelless_op_at body off : fuelless (op_at body off).
Proof. unfold op_at. fuelless. Qed.
Lemma fuelless_snprintf txt len s : fuelless (snprintf_at txt len s).
Proof. unfold snprintf_at. fuelless. Qed.
#[export] Hint Resolve fuelless_take fuelless_purge fuelless_word fuelless_store fuelless_packet fuelless_op_at
  fuelless_snprintf : fuelless.

Lemma fuelless_stats cls : forall txt len, fuelless (stats_clients cls txt len).
Proof. induction cls as [|c cls IH]; intros txt len; cbn [stats_clients]; fuelless. Qed.
Lemma fuelless_trace n ring : forall w txt len, fuelless (trace_lines n ring w txt len).
Proof. induction n as [|n IH]; intros w txt len; cbn [trace_lines]; fuelless. Qed.
#[export] Hint Resolve fuelless_stats fuelless_trace : fuelless.

(** ** Computations that leave the mailbox alone *)

Section Keeps.
Context {W : Type} {WW : World W} {RG : Regs}.
Abbreviation F := (fuzzed W).
Implicit Types (s : st F).

Definition reads s : Z := g_fuzz_mb_reads (st_w s).
Definition flying s : bool := g_mb_inflight (st_g s).

(** No reset line and no event log, as the harnesses configure it, and a claim
    with at most as many cleanups as the table holds. *)
Definition fuzz_cfg (cf : config) : Prop := cf_rst_fd cf < 0 /\ cf_log cf = false.
Definition stub_ok s : Prop :=
  fuzz_cfg (g_cfg (st_g s)) /\
  claim_ncleanup (g_claim (st_g s)) <= Z.of_nat SPIPROXY_BATCH_MAX /\ is_u32 (reads s).

(** At most [n] looks at the flag. *)
Definition few_reads (b : bool) (n : Z) s s' : Prop :=
  stub_ok s' /\ flying s' = b /\
  (b = true -> reads s + n < 2 ^ 32 -> reads s <= reads s' <= reads s + n).

Definition keeps (b : bool) (n : Z) {A} (m : D F A) : Prop :=
  forall s, stub_ok s -> flying s = b -> wp not_fuel m (fun _ s' => few_reads b n s s') s.

Lemma few_reads_trans b n1 n2 s s1 s2 :
  0 <= n1 -> 0 <= n2 -> few_reads b n1 s s1 -> few_reads b n2 s1 s2 -> few_reads b (n1 + n2) s s2.
Proof.
  intros H1 H2 (_ & _ & Hr1) (Hs & Hf & Hr2). split; [done|]. split; [done|]. intros Hb Hlt.
  specialize (Hr1 Hb ltac:(lia)). specialize (Hr2 Hb ltac:(lia)). lia.
Qed.

Lemma keeps_bind_sum {A B} b n1 n2 (m : D F A) (k : A -> D F B) :
  0 <= n1 -> 0 <= n2 -> keeps b n1 m -> (forall a, keeps b n2 (k a)) -> keeps b (n1 + n2) (bindM m k).
Proof.
  intros H1 H2 Hm Hk s Hs Hf. apply wp_bind. eapply wp_mono; [by apply Hm|]. cbn beta. intros a s1 Hr.
  eapply wp_mono; [apply Hk; apply Hr|]. cbn beta. intros c s2 Hr2. by eapply few_reads_trans.
Qed.

Lemma keeps_bind {A B} b n (m : D F A) (k : A -> D F B) :
  0 <= n -> keeps b 0 m -> (forall a, keeps b n (k a)) -> keeps b n (bindM m k).
Proof. intros Hn Hm Hk. change n with (0 + n). by apply keeps_bind_sum. Qed.

Lemma keeps_le {A} b n n' (m : D F A) : n <= n' -> keeps b n m -> keeps b n' m.
Proof.
  intros Hle Hm s Hs Hf. eapply wp_mono; [by apply Hm|]. intros a s' (H1 & H2 & H3).
  split; [done|]. split; [done|]. intros Hb Hlt. specialize (H3 Hb ltac:(lia)). lia.
Qed.

Lemma few_reads_refl b n s : 0 <= n -> stub_ok s -> flying s = b -> few_reads b n s s.
Proof. intros Hn Hs Hf. split; [done|]. split; [done|]. lia. Qed.

(** Steps that change neither. *)
Lemma keeps_same b n s g' w' o' :
  0 <= n -> stub_ok s -> flying s = b -> g_cfg g' = g_cfg (st_g s) ->
  claim_ncleanup (g_claim g') <= Z.of_nat SPIPROXY_BATCH_MAX ->
  g_mb_inflight g' = g_mb_inflight (st_g s) -> g_fuzz_mb_reads w' = reads s -> few_reads b n s (St g' w' o').
Proof.
  intros Hn (Hr & Hc & Hu) Hf Hcfg Hclm Hfl Hrd. unfold few_reads, stub_ok, flying, reads in *. cbn [st_g st_w].
  rewrite Hcfg, Hfl, Hrd. split_and!; try done; lia.
Qed.

Lemma keeps_ret {A} b n (a : A) : 0 <= n -> keeps b n (returnM a).
Proof. intros Hn s Hs Hf. apply wp_ret. by apply few_reads_refl. Qed.

Lemma keeps_lift {A} b n (r : res A) : 0 <= n -> fuelless r -> keeps b n (liftM r).
Proof.
  intros Hn Hr s Hs Hf. apply wp_lift. unfold fuelless, rwp in *. destruct r; [|done]. by apply few_reads_refl.
Qed.

Lemma keeps_fail {A} b n : keeps b n (failM (A := A) Oob).
Proof. intros s Hs Hf. by apply wp_fail. Qed.

(** What the code reads from its own state. *)
Lemma keeps_getg {A} b n (k : glob -> D F A) :
  (forall g, fuzz_cfg (g_cfg g) -> claim_ncleanup (g_claim g) <= Z.of_nat SPIPROXY_BATCH_MAX ->
     g_mb_inflight g = b -> keeps b n (k g)) ->
  keeps b n (bindM getg k).
Proof. intros Hk s Hs Hf. apply wp_bind, wp_getg. apply Hk; [apply Hs|apply Hs|done|done|done]. Qed.

Lemma keeps_setg b n f :
  0 <= n ->
  (forall g, g_cfg (f g) = g_cfg g /\ g_mb_inflight (f g) = g_mb_inflight g /\
     (claim_ncleanup (g_claim g) <= Z.of_nat SPIPROXY_BATCH_MAX ->
      claim_ncleanup (g_claim (f g)) <= Z.of_nat SPIPROXY_BATCH_MAX)) ->
  keeps b n (setg f).
Proof.
  intros Hn Hg s Hs Hf. destruct (Hg (st_g s)) as (? & ? & Hc). apply wp_setg, keeps_same; try done.
  apply Hc, Hs.
Qed.

Lemma keeps_emit b n e : 0 <= n -> keeps b n (emit e).
Proof. intros Hn s Hs Hf. apply wp_emit, keeps_same; try done. apply Hs. Qed.
Lemma keeps_note b n e : 0 <= n -> keeps b n (note e).
Proof. intros Hn s Hs Hf. apply wp_note, keeps_same; try done. apply Hs. Qed.
Lemma keeps_undef b n : 0 <= n -> keeps b n undef.
Proof. intros Hn s Hs Hf. apply wp_undef. by apply few_reads_refl. Qed.
Lemma keeps_stack b n k : 0 <= n -> keeps b n (stack_array k).
Proof. intros Hn s Hs Hf. apply wp_stack. by apply few_reads_refl. Qed.

Lemma keeps_env {A} b n (k : W -> W * A) : 0 <= n -> keeps b n (ask (in_env k)).
Proof.
  intros Hn s Hs Hf. apply wp_ask. intros w' a Hw. unfold in_env in Hw.
  destruct (k (fz_env (st_w s))) as [w1 a1]. injection Hw as <- <-. apply keeps_same; try done. apply Hs.
Qed.

Lemma keeps_if {A} (c : bool) b n (m1 m2 : D F A) :
  (c = true -> keeps b n m1) -> (c = false -> keeps b n m2) -> keeps b n (if c then m1 else m2).
Proof. destruct c; auto. Qed.

Lemma keeps_for {A} b (l : list A) (f : A -> D F unit) :
  (forall a, keeps b 1 (f a)) -> keeps b (Z.of_nat (length l)) (forM l f).
Proof.
  intros Hf. induction l as [|a l IH]; [by apply keeps_ret|]. cbn [forM length].
  replace (Z.of_nat (S (length l))) with (1 + Z.of_nat (length l)) by lia.
  apply keeps_bind_sum; [lia|lia|apply Hf|intros _; exact IH].
Qed.

Lemma keeps_clock b n : 0 <= n -> keeps b n (ask w_clock).
Proof. apply keeps_env. Qed.
Lemma keeps_send b n fd msg : 0 <= n -> keeps b n (ask (fun f => w_send f fd msg)).
Proof. apply (keeps_env b n (fun w => w_send w fd msg)). Qed.

End Keeps.

Create HintDb keeps.
Ltac keeps_setg_tac :=
  let g := fresh "g" in
  apply keeps_setg; [lia|]; intros g; split; [reflexivity|]; split; [reflexivity|]; cbn; lia.
Ltac keeps_step :=
  lazymatch goal with
  | |- keeps _ _ (bindM getg _) => apply keeps_getg; intros ? ? ? ?
  | |- keeps _ _ (bindM _ _) => apply keeps_bind; [lia| |intros ?]
  | |- keeps _ _ (match ?x with _ => _ end) => destruct x
  | |- keeps _ _ (returnM _) => apply keeps_ret; lia
  | |- keeps _ _ (liftM _) => apply keeps_lift; [lia|solve [fuelless]]
  | |- keeps _ _ (setg _) => keeps_setg_tac
  | |- keeps _ _ (emit _) => apply keeps_emit; lia
  | |- keeps _ _ (note _) => apply keeps_note; lia
  | |- keeps _ _ undef => apply keeps_undef; lia
  | |- keeps _ _ (stack_array _) => apply keeps_stack; lia
  | |- keeps _ _ (ask w_clock) => apply keeps_clock; lia
  | |- keeps _ _ (ask (fun f => w_send f _ _)) => apply keeps_send; lia
  | |- keeps _ _ (failM Oob) => apply keeps_fail
  | |- keeps _ _ (whenM _ _) => unfold whenM
  | |- keeps _ _ _ => solve [auto with keeps]
  end; cbn beta iota.
Ltac keeps := repeat keeps_step.

(** ** The daemon's functions *)

Section Daemon.
Context {W : Type} {WW : World W} {RG : Regs}.
Abbreviation F := (fuzzed W).
Context (b : bool).

Lemma keeps_now : keeps b 0 (now_us (W := F)).
Proof. unfold now_us. keeps. Qed.
Lemma keeps_get_client i : keeps b 0 (get_client (W := F) i).
Proof. unfold get_client. keeps. Qed.
Lemma keeps_upd_client i f : keeps b 0 (upd_client (W := F) i f).
Proof. unfold upd_client. keeps. Qed.
#[local] Hint Resolve keeps_now keeps_get_client keeps_upd_client : keeps.
Lemma keeps_comm : keeps b 0 (lctx_comm (W := F)).
Proof. unfold lctx_comm. keeps. Qed.
Lemma keeps_log_debug line : keeps b 0 (log_debug (W := F) line).
Proof. unfold log_debug, log_trace, trace_v. keeps. Qed.
Lemma keeps_log_msg priority line : keeps b 0 (log_msg (W := F) priority line).
Proof. unfold log_msg, trace_v. keeps. Qed.
Lemma keeps_log_warn line : keeps b 0 (log_warn (W := F) line).
Proof. apply keeps_log_msg. Qed.
#[local] Hint Resolve keeps_comm keeps_log_debug keeps_log_msg keeps_log_warn : keeps.
Lemma keeps_warn line : keeps b 0 (warn_line (W := F) line).
Proof. unfold warn_line. keeps. Qed.
#[local] Hint Resolve keeps_warn : keeps.

Lemma keeps_trace_add c o : keeps b 0 (trace_add (W := F) c o).
Proof. unfold trace_add. keeps. Qed.
Lemma keeps_rmw n : forall i now o, keeps b 0 (rmw_scan (W := F) n i now o).
Proof. induction n as [|n IH]; intros i now o; cbn [rmw_scan]; keeps. Qed.
#[local] Hint Resolve keeps_rmw keeps_trace_add : keeps.
Lemma keeps_lint o : keeps b 0 (lint_op (W := F) o).
Proof. unfold lint_op, lint_page, page_owner_store, lint_cor, lint_rmw. keeps. Qed.
#[local] Hint Resolve keeps_lint : keeps.
Lemma keeps_op_log o rc : keeps b 0 (op_log (W := F) o rc).
Proof. unfold op_log. keeps. Qed.
Lemma keeps_mb_log dir write slice reg val rc : keeps b 0 (mb_log (W := F) dir write slice reg val rc).
Proof. unfold mb_log. keeps. Qed.
#[local] Hint Resolve keeps_op_log keeps_mb_log : keeps.

(** A look at the flag of the stub, and any other read. *)
Lemma keeps_flag : keeps b 1
  (let* g := getg in
   let* v := (if negb (g_mb_inflight g) then ask (fun f : F => (set_mb_reads 0 f, 0))
              else ask (fun f : F => let n := u32 (g_fuzz_mb_reads f + 1) in
                   (set_mb_reads n f, Z.lor MB_F_BUSY (if 2 <=? n then MB_F_RESP else 0)))) in
   setg count_read ;; returnM (0, v)).
Proof.
  intros s (Hr & Hc & Hu) Hf. wp_steps. unfold flying in Hf. rewrite Hf.
  unfold few_reads, stub_ok, flying, reads, is_u32 in *. destruct b; cbn [negb]; apply wp_ask; intros w' v Hw;
    cbv zeta in Hw; injection Hw as <- <-; wp_steps; cbn [st_g st_w count_read set_g_cnt g_cfg g_claim g_mb_inflight set_mb_reads g_fuzz_mb_reads].
  - destruct (u32_range (g_fuzz_mb_reads (st_w s) + 1)). split; [by split_and!|]. split; [done|]. intros _ Hlt.
    rewrite u32_id by (unfold is_u32; lia). lia.
  - split; [by split_and!|]. done.
Qed.

Lemma keeps_next : keeps b 0 (ask (fuzz_spi_next (W := W))).
Proof.
  intros s Hs Hf. apply wp_ask. intros w' v Hw. unfold fuzz_spi_next in Hw.
  destruct (feed_bytes _ _ _ _ _) as [v0 pos]. injection Hw as <- <-. apply keeps_same; try done. apply Hs.
Qed.

Lemma keeps_read slice mmd reg old : keeps b 1 (spi_read_reg (W := F) slice mmd reg old).
Proof.
  cbn [spi_read_reg fuzz_backend]. unfold fuzz_spi_read_reg. apply keeps_if; intros _; [apply keeps_flag|].
  apply keeps_bind; [lia|apply keeps_next|]. intros v. keeps.
Qed.

Lemma keeps_write slice mmd reg val : keeps b 0 (spi_write_reg (W := F) slice mmd reg val).
Proof. cbn [spi_write_reg fuzz_backend]. unfold fuzz_spi_write_reg. keeps. Qed.
#[local] Hint Resolve keeps_write : keeps.

(** A computation with one look at the flag at its start. *)
Lemma keeps_bind_one {A B} (m : D F A) (k : A -> D F B) :
  keeps b 1 m -> (forall a, keeps b 0 (k a)) -> keeps b 1 (bindM m k).
Proof. intros Hm Hk. change 1 with (1 + 0). by apply keeps_bind_sum. Qed.

Lemma keeps_mb_rd slice reg old : keeps b 1 (mb_rd (W := F) slice reg old).
Proof. unfold mb_rd. apply keeps_bind_one; [apply keeps_read|]. intros [rc v]. keeps. Qed.
Lemma keeps_mb_wr slice reg val : keeps b 0 (mb_wr (W := F) slice reg val).
Proof. unfold mb_wr. keeps. Qed.
#[local] Hint Resolve keeps_mb_wr : keeps.

Lemma keeps_exec_op c o : keeps b 1 (exec_op (W := F) c o).
Proof.
  unfold exec_op. keeps_step; [keeps|]. keeps_step. keeps_step; [keeps|].
  apply keeps_bind_one; [|intros [rc o']; keeps]. unfold op_transfer. apply keeps_if; intros _; [keeps|].
  apply keeps_bind_one; [apply keeps_read|]. intros [rc v]. keeps.
Qed.

(** ** The requests *)

Lemma keeps_send_resp c h x body blen : keeps b 0 (send_resp (W := F) c h x body blen).
Proof. unfold send_resp. keeps. Qed.
Lemma keeps_store_body i body : keeps b 0 (store_body (W := F) i body).
Proof. unfold store_body. keeps. Qed.
#[local] Hint Resolve keeps_send_resp keeps_store_body : keeps.

Lemma keeps_send_le n c h x body blen : 0 <= n -> keeps b n (send_resp (W := F) c h x body blen).
Proof. intros Hn. apply (keeps_le b 0); [done|apply keeps_send_resp]. Qed.

Lemma keeps_single i c h body write : keeps b 1 (exec_single (W := F) i c h body write).
Proof.
  unfold exec_single. keeps_step; [by apply keeps_send_le|]. keeps_step; [keeps|].
  apply keeps_bind_one; [apply keeps_exec_op|]. intros [x o']. keeps.
Qed.

Lemma keeps_batch_loop n : forall k c body, keeps b (Z.of_nat n) (batch_loop (W := F) n k c body).
Proof.
  induction n as [|n IH]; intros k c body; cbn [batch_loop]; [by apply keeps_ret|].
  replace (Z.of_nat (S n)) with (1 + Z.of_nat n) by lia. keeps_step; [keeps|].
  apply keeps_bind_sum; [lia|lia|apply keeps_exec_op|]. intros [x o']. keeps_step; [keeps|]. keeps.
Qed.

Definition ITEM_READS : Z := Z.of_nat SPIPROXY_BATCH_MAX.

Lemma keeps_batch i c h body : keeps b ITEM_READS (exec_batch (W := F) i c h body).
Proof.
  unfold exec_batch. apply keeps_if; intros Hn; [by apply keeps_send_le|].
  apply orb_false_iff in Hn as [[Hlo%Z.ltb_ge Hhi%Z.ltb_ge]%orb_false_iff _].
  apply (keeps_le b (Z.of_nat (Z.to_nat (h_len h / Z.of_nat op_size)) + 0)); [unfold ITEM_READS; lia|].
  apply keeps_bind_sum; [lia|lia|apply keeps_batch_loop|]. intros [[x k] body']. keeps.
Qed.

Lemma keeps_claim c h body : keeps b 0 (exec_claim (W := F) c h body).
Proof.
  unfold exec_claim. keeps_step; [keeps|]. keeps_step; [keeps|]. apply keeps_if; intros Hn; [keeps|].
  apply orb_false_iff in Hn as [Hn%Z.ltb_ge _]. do 7 (keeps_step; try solve [keeps]).
  keeps_step; [apply keeps_setg; [lia|]; intros g'; split_and!; try done|]. keeps.
Qed.

Lemma keeps_run_cleanup i : keeps b 1 (run_cleanup (W := F) i).
Proof.
  unfold run_cleanup. keeps_step. keeps_step; [keeps|].
  apply keeps_bind_one; [apply keeps_exec_op|]. intros [x o']. keeps.
Qed.

Lemma keeps_claim_end abnormal : keeps b ITEM_READS (claim_end (W := F) abnormal).
Proof.
  assert (0 <= ITEM_READS) as H0 by (unfold ITEM_READS; lia).
  unfold claim_end. apply keeps_getg. intros g _ Hn _. set (n := claim_ncleanup (g_claim g)) in *.
  keeps_step; [keeps|]. destruct a as [[id comm] text]. keeps_step; [keeps|].
  replace ITEM_READS with (ITEM_READS + 0) by lia. apply keeps_bind_sum; [done|lia| |intros _; keeps].
  unfold whenM. keeps_step; [|by apply keeps_ret]. keeps_step; [keeps|]. keeps_step; [unfold set_lctx; keeps|].
  replace ITEM_READS with (ITEM_READS + 0) by lia. apply keeps_bind_sum; [done|lia| |intros _; keeps].
  eapply keeps_le; [|apply keeps_for; intros; apply keeps_run_cleanup]. rewrite length_seq. unfold ITEM_READS. lia.
Qed.

Lemma keeps_release c h : keeps b ITEM_READS (exec_release (W := F) c h).
Proof.
  assert (0 <= ITEM_READS) as H0 by (unfold ITEM_READS; lia). unfold exec_release. keeps_step.
  replace ITEM_READS with (ITEM_READS + 0) by lia. apply keeps_bind_sum; [done|lia| |intros _; keeps].
  unfold whenM. keeps_step; [apply keeps_claim_end|by apply keeps_ret].
Qed.

Lemma keeps_stats c h : keeps b 0 (exec_stats (W := F) c h).
Proof. unfold exec_stats. keeps. Qed.
Lemma keeps_trace c h : keeps b 0 (exec_trace (W := F) c h).
Proof. unfold exec_trace. keeps. Qed.

Lemma keeps_enqueue c h body : keeps b 0 (enqueue (W := F) c h body).
Proof. unfold enqueue. keeps. Qed.
#[local] Hint Resolve keeps_enqueue : keeps.
Lemma keeps_client_frame c msg n : keeps b 0 (client_frame (W := F) c msg n).
Proof. unfold client_frame. keeps. Qed.
Lemma keeps_client_drop c : keeps b ITEM_READS (client_drop (W := F) c).
Proof.
  assert (0 <= ITEM_READS) as H0 by (unfold ITEM_READS; lia). unfold client_drop. keeps_step.
  replace ITEM_READS with (ITEM_READS + 0) by lia. apply keeps_bind_sum; [done|lia| |intros _; keeps].
  unfold whenM. keeps_step; [apply keeps_claim_end|by apply keeps_ret].
Qed.

(** Without a reset line RESET is refused. *)
Lemma keeps_reset c h body : keeps b 0 (exec_reset (W := F) c h body).
Proof.
  unfold exec_reset. keeps_step; [keeps|]. apply keeps_getg. intros g [Hr _] _ _.
  rewrite (proj2 (Z.ltb_lt _ _) Hr). keeps.
Qed.

End Daemon.

(** ** A mailbox transaction *)

Section Transaction.
Context {W : Type} {WW : World W} {RG : Regs}.
Abbreviation F := (fuzzed W).
Implicit Types (s : st F).

(** A look at the flag while a transaction is in flight. *)
Lemma wp_flag_flying slice old (Q : Z * Z -> st F -> Prop) s :
  stub_ok s -> flying s = true ->
  (forall s', few_reads true 1 s s' -> reads s' = u32 (reads s + 1) ->
     Q (0, Z.lor MB_F_BUSY (if 2 <=? reads s' then MB_F_RESP else 0)) s') ->
  wp not_fuel (mb_rd (W := F) slice MB_FLAG old) Q s.
Proof.
  intros Hs Hf HQ. unfold mb_rd. cbn [spi_read_reg fuzz_backend]. unfold fuzz_spi_read_reg.
  rewrite !Z.eqb_refl. cbn [andb]. wp_steps. unfold flying in Hf. rewrite Hf. cbn [negb].
  apply wp_ask. intros w' v Hw. cbv zeta in Hw. injection Hw as <- <-. wp_steps. set (s1 := St _ _ _).
  destruct Hs as (Hr & Hc & Hu). pose proof (u32_range (reads s + 1)) as Hv.
  assert (stub_ok s1) as Hs1 by (split_and!; done). assert (reads s1 = u32 (reads s + 1)) as Hrd by done.
  eapply wp_mono; [apply (keeps_mb_log true); [done|exact Hf]|]. cbn beta. intros _ s2 (Hs2 & Hf2 & Hr2).
  destruct Hv as [Hv0 Hv1]. assert (reads s1 + 0 < 2 ^ 32) as Hlt by (rewrite Hrd; lia).
  assert (reads s1 <= reads s2 <= reads s1 + 0) as Hb by exact (Hr2 eq_refl Hlt).
  assert (reads s2 = u32 (reads s + 1)) as Hrd2 by lia.
  wp_steps. change (u32 (g_fuzz_mb_reads (st_w s) + 1)) with (u32 (reads s + 1)). rewrite <-Hrd2. apply HQ; [|done]. split; [done|]. split; [done|].
  intros _ Hle. destruct Hu as [Hu0 Hu1]. rewrite Hrd2, u32_id by (unfold is_u32; lia). lia.
Qed.

(** ... and before one starts: not busy, and the count starts over. *)
Lemma wp_flag_resting slice old (Q : Z * Z -> st F -> Prop) s :
  stub_ok s -> flying s = false ->
  (forall s', stub_ok s' -> flying s' = false -> reads s' = 0 -> Q (0, 0) s') ->
  wp not_fuel (mb_rd (W := F) slice MB_FLAG old) Q s.
Proof.
  intros (Hr & Hc & Hu) Hf HQ. unfold mb_rd. cbn [spi_read_reg fuzz_backend]. unfold fuzz_spi_read_reg.
  rewrite !Z.eqb_refl. cbn [andb]. wp_steps. unfold flying in Hf. rewrite Hf. cbn [negb].
  apply wp_ask. intros w' v [= <- <-]. wp_steps. set (s1 := St _ _ _).
  assert (stub_ok s1) as Hs1 by (split_and!; [done|done|unfold is_u32, reads; cbn; lia]).
  unfold mb_log. wp_steps. destruct Hr as [_ Hlog]. cbn [st_g s1 count_read set_g_cnt g_cfg]. rewrite Hlog.
  cbn [whenM]. wp_steps. by apply HQ.
Qed.

(** A second transaction is refused while one is in flight. *)
Lemma mailbox_refused fuel drain m payload resp :
  keeps true 1 (exec_mailbox (W := F) fuel drain m payload resp).
Proof.
  unfold exec_mailbox, mb_transact, mb_await. keeps_step; [keeps|]. do 3 (keeps_step; [keeps|]).
  intros s Hs Hf. apply wp_bind, wp_flag_flying; [done..|]. intros s' Hk _. cbn [Z.eqb negb].
  assert ((Z.land (Z.lor MB_F_BUSY (if 2 <=? reads s' then MB_F_RESP else 0)) MB_F_BUSY =? 0) = false) as ->
    by by destruct (2 <=? _).
  cbn [negb]. by wp_steps.
Qed.

(** While it is in flight the flag is answered at the second look. *)
Lemma poll_ends f n drain slice t_end v s :
  stub_ok s -> flying s = true -> reads s <= 1 -> 0 <= n < 2 ^ 31 -> keeps true n (drain 4%nat) ->
  wp not_fuel (mb_poll (W := F) (S (S f)) drain slice t_end v)
    (fun _ s' => stub_ok s' /\ flying s' = true) s.
Proof.
  intros Hs Hf Hr Hn Hd. cbn [mb_poll]. apply wp_bind, wp_flag_flying; [done..|].
  pose proof Hs as (_ & _ & Hu0 & Hu1). intros s1 (Hs1 & Hf1 & _) Hr1. rewrite u32_id in Hr1 by (unfold is_u32; lia).
  cbn [Z.eqb negb]. apply wp_if; intros _; wp_steps; [done|].
  eapply wp_mono; [by apply (keeps_now true)|]. cbn beta. intros now s2 (Hs2 & Hf2 & Hr2).
  specialize (Hr2 eq_refl ltac:(lia)). apply wp_if; intros _; wp_steps; [done|].
  eapply wp_mono; [by apply Hd|]. cbn beta. intros _ s3 (Hs3 & Hf3 & Hr3). specialize (Hr3 eq_refl ltac:(lia)).
  wp_steps. set (s4 := St _ _ _). assert (reads s4 = reads s3) as Hr4 by done.
  apply wp_flag_flying; [done..|]. intros s5 (Hs5 & Hf5 & _) Hr5.
  rewrite Hr4, u32_id in Hr5 by (unfold is_u32; lia). rewrite (proj2 (Z.leb_le _ _)) by lia.
  cbn [Z.eqb negb]. wp_steps. by split.
Qed.

(** The code after the wait, which ends the transaction on every path. *)
Definition lands {A} (m : D F A) : Prop :=
  forall s, stub_ok s -> flying s = true -> wp not_fuel m (fun _ s' => stub_ok s' /\ flying s' = false) s.

Lemma lands_bind {A B} n (m : D F A) (k : A -> D F B) :
  keeps true n m -> (forall a, lands (k a)) -> lands (bindM m k).
Proof.
  intros Hm Hk s Hs Hf. apply wp_bind. eapply wp_mono; [by apply Hm|]. cbn beta. intros a s1 (? & ? & _). by apply Hk.
Qed.

Lemma lands_clear {A} n (m : D F A) : keeps false n m -> lands (clear_inflight ;; m).
Proof.
  intros Hm s Hs Hf. unfold clear_inflight. wp_steps. eapply wp_mono; [apply Hm; [exact Hs|done]|].
  cbn beta. intros a s' (? & ? & _). by split.
Qed.

Lemma lands_if {A} (c : bool) (m1 m2 : D F A) : lands m1 -> lands m2 -> lands (if c then m1 else m2).
Proof. by destruct c. Qed.

Lemma keeps_read_words n : forall i slice pkt v, keeps true (Z.of_nat n) (read_words (W := F) n i slice pkt v).
Proof.
  induction n as [|n IH]; intros i slice pkt v; cbn [read_words]; [by apply keeps_ret|].
  replace (Z.of_nat (S n)) with (1 + Z.of_nat n) by lia.
  apply keeps_bind_sum; [lia|lia|apply keeps_mb_rd|]. intros [rc w]. keeps.
Qed.

Lemma keeps_write_words n : forall i slice pkt v, keeps true 0 (write_words (W := F) n i slice pkt v).
Proof.
  induction n as [|n IH]; intros i slice pkt v; cbn [write_words]; [by apply keeps_ret|].
  keeps_step; [keeps|]. keeps_step; [apply keeps_mb_wr|]. keeps.
Qed.

Lemma keeps_doorbell slice v : keeps true 1 (ring_doorbell (W := F) slice v).
Proof.
  unfold ring_doorbell. apply keeps_bind_one; [apply keeps_mb_rd|]. intros [rc v1]. keeps_step; [keeps|].
  keeps_step; [apply keeps_mb_wr|]. keeps_step; [keeps|]. keeps_step; [apply keeps_mb_wr|]. keeps.
Qed.

Lemma fuelless_mb_check m pkt resp len : fuelless (mb_check m pkt resp len).
Proof. unfold mb_check. cbv zeta. fuelless. Qed.
#[local] Hint Resolve fuelless_mb_check : fuelless.

Lemma response_lands m pkt resp v : lands (mb_response (W := F) m pkt resp v).
Proof.
  unfold mb_response. eapply lands_bind; [apply keeps_mb_rd|]. intros [rc v1].
  apply lands_if; [apply (lands_clear 0); keeps|].
  apply lands_if; [eapply lands_bind; [apply keeps_mb_wr|]; intros _; apply (lands_clear 0); keeps|].
  eapply (lands_bind 0); [keeps|]. intros pkt1. eapply lands_bind; [apply keeps_read_words|]. intros [rc1 pkt2].
  apply lands_if; [apply (lands_clear 0); keeps|]. eapply lands_bind; [apply keeps_mb_wr|]. intros _.
  apply (lands_clear 0). keeps.
Qed.

(** With two polls of fuel a transaction ends, and leaves nothing in flight. *)
Lemma mailbox_ends f n drain m payload resp :
  0 <= n < 2 ^ 31 -> keeps true n (drain 4%nat) ->
  keeps false 0 (exec_mailbox (W := F) (S (S f)) drain m payload resp).
Proof.
  intros Hn Hd. unfold exec_mailbox, mb_transact, mb_await. keeps_step; [keeps|]. do 3 (keeps_step; [keeps|]).
  intros s Hs Hf. apply wp_bind, wp_flag_resting; [done..|]. intros s1 Hs1 Hf1 Hr1. cbn [Z.eqb negb].
  change (Z.land 0 MB_F_BUSY =? 0) with true. cbn [negb]. wp_steps. set (s2 := St _ _ _).
  assert (stub_ok s2 /\ flying s2 = true /\ reads s2 = 0) as (Hs2 & Hf2 & Hr2) by done. clearbody s2.
  assert (forall A (m' : D F A), lands m' -> forall s', stub_ok s' -> flying s' = true ->
    wp not_fuel m' (fun _ s'' => few_reads false 0 s s'') s') as Hland.
  { intros A m' Hm s' Hs' Hf'. eapply wp_mono; [by apply Hm|]. intros a' s'' [? ?]. by split_and!. }
  eapply wp_mono; [by apply keeps_write_words|]. cbn beta. intros [rc1 v1] s3 (Hs3 & Hf3 & Hr3).
  specialize (Hr3 eq_refl ltac:(lia)). apply wp_if; intros _; [apply Hland; [apply (lands_clear 0); keeps|done..]|].
  apply wp_bind. eapply wp_mono; [by apply keeps_doorbell|]. cbn beta. intros [rc2 v2] s4 (Hs4 & Hf4 & Hr4).
  specialize (Hr4 eq_refl ltac:(lia)). apply wp_if; intros _; [apply Hland; [apply (lands_clear 0); keeps|done..]|].
  apply wp_bind. eapply wp_mono; [by apply (keeps_now true)|]. cbn beta. intros now s5 (Hs5 & Hf5 & Hr5).
  specialize (Hr5 eq_refl ltac:(lia)). apply wp_bind.
  eapply wp_mono; [apply (poll_ends f n); [done|done|lia|done|done]|]. cbn beta. intros e s6 [Hs6 Hf6].
  destruct e; (apply Hland; [|done|done]); [apply response_lands|apply (lands_clear 0); keeps|].
  eapply lands_bind; [apply keeps_mb_wr|]. intros _. apply (lands_clear 0). keeps.
Qed.

(** ** The scheduler *)

Lemma keeps_mb_item b n fuel drain i c h body :
  0 <= n -> (forall m payload resp, keeps b n (exec_mailbox (W := F) fuel drain m payload resp)) ->
  keeps b n (exec_mb_item (W := F) fuel drain i c h body).
Proof.
  intros Hn Hmb. unfold exec_mb_item. do 2 (keeps_step; [keeps|]).
  keeps_step; [by apply keeps_send_le|]. replace n with (n + 0) by lia.
  apply keeps_bind_sum; [done|lia|apply Hmb|]. intros [[[x m'] rlen] resp1].
  keeps_step; [keeps|]. keeps_step; [apply keeps_store_body|]. keeps_step; [keeps|]. apply keeps_send_resp.
Qed.

Lemma keeps_item b fuel drain i :
  (forall m payload resp, keeps b ITEM_READS (exec_mailbox (W := F) fuel drain m payload resp)) ->
  keeps b ITEM_READS (exec_item (W := F) fuel drain i).
Proof.
  intros Hmb. assert (1 <= ITEM_READS) as H1 by (unfold ITEM_READS, SPIPROXY_BATCH_MAX; lia).
  assert (0 <= ITEM_READS) as H0 by lia.
  unfold exec_item, exec_request. keeps_step. keeps_step; [keeps|]. keeps_step; [apply keeps_get_client|].
  keeps_step; [unfold set_lctx; keeps|].
  destruct (type_of_code _) as [[]|]; try by apply keeps_send_le.
  - eapply keeps_le; [exact H1|apply keeps_single].
  - eapply keeps_le; [exact H1|apply keeps_single].
  - apply keeps_batch.
  - eapply keeps_le; [exact H0|apply keeps_claim].
  - apply keeps_release.
  - by apply keeps_mb_item.
  - eapply keeps_le; [exact H0|apply keeps_stats].
  - eapply keeps_le; [exact H0|apply keeps_trace].
  - eapply keeps_le; [exact H0|apply keeps_reset].
Qed.

Lemma keeps_drain_loop b budget (exec : nat -> D F unit) :
  (forall i, keeps b ITEM_READS (exec i)) -> keeps b (Z.of_nat budget * ITEM_READS) (drain_loop budget exec).
Proof.
  intros Hex. assert (0 <= ITEM_READS) as H0 by (unfold ITEM_READS; lia).
  induction budget as [|k IH]; cbn [drain_loop]; [by apply keeps_ret|].
  replace (Z.of_nat (S k) * ITEM_READS) with (ITEM_READS + Z.of_nat k * ITEM_READS) by lia.
  assert (0 <= Z.of_nat k * ITEM_READS) as Hk by (apply Z.mul_nonneg_nonneg; lia).
  keeps_step. keeps_step; [keeps|]. destruct a as [[i|] qs]; [|apply keeps_ret; lia].
  keeps_step; [keeps|]. apply keeps_bind_sum; [done|done|apply Hex|]. intros _.
  keeps_step. keeps_step; [keeps|]. keeps_step; [keeps|]. exact IH.
Qed.

(** The scheduler ends, with any fuel from 3 on: one level of nesting. *)
Lemma drain_terminates f budget :
  keeps false (Z.of_nat budget * ITEM_READS) (drain_queues (W := F) (S (S (S f))) budget).
Proof.
  apply keeps_drain_loop. intros i. apply keeps_item. intros m payload resp.
  eapply keeps_le; [|apply (mailbox_ends _ (4 * ITEM_READS))]; [unfold ITEM_READS; lia|done|].
  apply (keeps_drain_loop true 4). intros j. apply keeps_item. intros m' payload' resp'.
  eapply keeps_le; [|apply mailbox_refused]. done.
Qed.

End Transaction.
