(* ===== verification/FuzzSpec.v ===== *)
(** * What the fuzzing harnesses establish

    The stub satisfies the contract of a bus, so the daemon's proofs apply to
    the fuzzing build; every run of the two daemon harnesses returns and its
    oracle holds; the harness of the client's parser stays inside its buffers. *)
From Stdlib Require Import Strings.Byte.
From S2P Require Import Prelude Bytes Proto Fmt State Queue Log Spi Exec Mailbox Daemon Invariant Handlers.
From S2P Require Import Scheduler MainLoop Main Cli CliSpec Fuzz FuzzTerm.

Lemma byte_val_u8 x : is_u8 (byte_val x).
Proof. unfold is_u8, byte_val. pose proof (Byte.to_N_bounded x). lia. Qed.

Lemma bytes_val_ok l : bytes_ok (byte_val <$> l).
Proof. apply Forall_fmap, Forall_true. intros x. apply byte_val_u8. Qed.

(** ** The stub is a bus *)

Lemma feed_bytes_u32 feed n : forall i pos v, is_u32 v -> is_u32 (feed_bytes n i feed pos v).1.
Proof.
  induction n as [|n IH]; intros i pos v Hv; cbn [feed_bytes]; [done|].
  destruct (feed !! pos) as [x|]; [|done]. apply IH. apply (lor_bound _ _ 32); [lia|done|apply u32_range].
Qed.

Section Stub.
Context {W : Type} {WW : World W} {WO : WorldOk W WW} {RG : Regs}.

#[export] Instance fuzz_world_ok : WorldOk (fuzzed W) fuzz_world.
Proof.
  split; cbn [w_time w_spi w_clock w_send w_recv w_accept w_do w_undef w_stack fuzz_world]; unfold in_env.
  - intros f tx. pose proof (w_spi_rx (fz_env f) tx). by destruct (w_spi (fz_env f) tx).
  - intros f fd. pose proof (w_recv_buf (fz_env f) fd). by destruct (w_recv (fz_env f) fd).
  - intros f a. pose proof (w_accept_pid (fz_env f) a). by destruct (w_accept (fz_env f)).
  - intros f. apply w_undef_u32.
  - intros f. apply w_time_range.
  - intros f. pose proof (w_clock_reads (fz_env f)). by destruct (w_clock (fz_env f)) as [w' [sec nsec]].
  - intros f tx. pose proof (w_spi_time (fz_env f) tx). by destruct (w_spi (fz_env f) tx).
  - intros f fd msg. pose proof (w_send_time (fz_env f) fd msg). by destruct (w_send (fz_env f) fd msg).
  - intros f e. apply w_do_time.
  - intros f us. apply w_usleep_time.
  - intros f n. apply w_stack_bytes.
Qed.

#[export] Instance fuzz_backend_ok : BackendOk (fuzzed W) fuzz_world fuzz_backend.
Proof.
  split; cbn [spi_write_reg spi_read_reg gpio_pulse_reset fuzz_backend].
  - intros slice mmd reg val s Q _ HQ. unfold fuzz_spi_write_reg. wp_steps. by apply (HQ 0 _ []); [left| |].
  - intros slice mmd reg old s Q _ HQ. unfold fuzz_spi_read_reg. apply wp_if; intros _; wp_steps.
    + apply wp_if; intros _; apply wp_ask; intros w' v Hw; cbv zeta in Hw; injection Hw as <- <-; wp_steps;
        apply (HQ 0 _ _ []); try done; left; split; try done.
      destruct (2 <=? _); unfold is_u32; vm_compute; by split.
    + apply wp_ask. intros w' v Hw. unfold fuzz_spi_next in Hw.
      pose proof (feed_bytes_u32 (g_fuzz_spi (st_w s)) 4 0 (g_fuzz_spi_pos (st_w s)) 0 ltac:(done)) as Hu.
      destruct (feed_bytes _ _ _ _ _) as [v0 pos]. injection Hw as <- <-.
      apply wp_if; intros _; wp_steps; [by apply (HQ (-1) old _ []); [right| |]|by apply (HQ 0 _ _ []); [left| |]].
  - intros a d s Q HQ. unfold fuzz_gpio_pulse_reset. wp_steps. destruct s. by apply (HQ _ []).
Qed.

End Stub.

(** ** The oracle *)

Lemma count_seg pl l : forall k p n,
  seg pl p l None -> (length l < k)%nat -> count_items k pl p n = Ok (n + Z.of_nat (length l)).
Proof.
  induction l as [|i l IH]; intros k p n Hs Hk; cbn [seg length] in *.
  - subst p. destruct k; cbn [count_items]; f_equal; lia.
  - destruct Hs as [-> (it & Hit & Hs)]. destruct k as [|k]; [lia|]. cbn [count_items].
    unfold arr_get. rewrite Hit. cbn [res_bind]. rewrite IH by (done || lia). f_equal. lia.
Qed.

Lemma count_none pl n : count_list pl None n = Ok n.
Proof. unfold count_list. by destruct (Z.to_nat _). Qed.

Section Oracle.
Context {W : Type} {WW : World W} {WO : WorldOk W WW} {RG : Regs}.
Implicit Types (s : st (fuzzed W)).

Definition nobody s : Prop := forall c, ~ connected (g_cl (st_g s)) c.

(** Without clients nothing is queued. *)
Lemma nobody_queued qa fa s : inv qa fa [] (st_g s) -> nobody s -> concat qa = [].
Proof.
  intros I Hn. destruct (concat qa) as [|i l] eqn:Hq; [done|]. destruct (inv_live _ _ _ _ I i) as (it & _ & Hc).
  { rewrite Hq. set_solver. }
  by destruct (Hn _ Hc).
Qed.

Lemma empty_heads qa fa s q :
  inv qa fa [] (st_g s) -> concat qa = [] -> (q < 3)%nat -> qh (g_qs (st_g s)) !! q = Some None.
Proof.
  intros I Hq Hlt. pose proof (rep_lrep _ _ _ _ (inv_rep _ _ _ _ I)) as L.
  destruct (lookup_lt_is_Some_2 (qh (g_qs (st_g s))) q) as [h Hh]; [by rewrite (lrep_qh _ _ _ _ L)|].
  destruct (lookup_lt_is_Some_2 qa q) as [l Hl]; [by rewrite (lrep_qa _ _ _ _ L)|].
  pose proof (lrep_seg _ _ _ _ L q l h Hl Hh) as Hs.
  assert (l = []) as ->.
  { pose proof (concat_delete _ _ _ Hl) as Hp. rewrite Hq in Hp. apply Permutation_nil_l in Hp.
    symmetry in Hp. by apply app_nil in Hp as [-> _]. }
  cbn in Hs. by rewrite Hh, Hs.
Qed.

Lemma wp_check E (Q : verdict -> st (fuzzed W) -> Prop) s :
  idle s -> nobody s -> Q (Returned 0) s -> wp E fuzz_check_invariants Q s.
Proof.
  intros [(qa & fa & I) Hm] Hn HQ. pose proof (nobody_queued _ _ _ I Hn) as Hq.
  pose proof (rep_lrep _ _ _ _ (inv_rep _ _ _ _ I)) as L. pose proof (lrep_perm _ _ _ _ L) as Hp.
  rewrite Hq in Hp. cbn [app] in Hp. rewrite app_nil_r in Hp. apply Permutation_length in Hp. rewrite length_seq in Hp.
  unfold fuzz_check_invariants. wp_steps.
  assert (count_list (pool (g_qs (st_g s))) (freel (g_qs (st_g s))) 0 = Ok (Z.of_nat MAX_QITEMS)) as ->.
  { unfold count_list. rewrite (count_seg _ fa) by (apply (lrep_free _ _ _ _ L) || lia). f_equal. lia. }
  apply rwp_ok. do 3 (wp_steps; eapply rwp_arr_get; [eapply empty_heads; [exact I|done|lia]|];
    wp_steps; rewrite count_none; apply rwp_ok).
  rewrite Z.eqb_refl, (rep_count _ _ _ _ (inv_rep _ _ _ _ I)), Hq, Hm. cbn. by wp_steps.
Qed.

(** ** The harnesses *)

(** The state between two inputs: no clients, and a well-formed rest. *)
Record fuzz_ready s : Prop := {
  fr_diag : diag_ok (st_g s);
  fr_cl : cl_ok (st_g s);
  fr_cfg : cfg_ok (g_cfg (st_g s)) /\ fuzz_cfg (g_cfg (st_g s));
  fr_cid : is_u32 (g_next_cid (st_g s));
  fr_cleanup : length (claim_cleanup (g_claim (st_g s))) = SPIPROXY_BATCH_MAX /\
               Forall op_ok (claim_cleanup (g_claim (st_g s)));
  fr_pool : length (pool (g_qs (st_g s))) = MAX_QITEMS /\ Forall item_ok (pool (g_qs (st_g s)));
  fr_nobody : nobody s;
  fr_reads : is_u32 (reads s) }.

(** ... and while an input is being processed: the two clients of the harness. *)
Definition two_clients s : Prop := forall c, connected (g_cl (st_g s)) c <-> (c < FUZZ_NCLIENTS)%nat.
Definition fuzzing s : Prop := idle s /\ two_clients s /\ stub_ok s.

Lemma idle_ready s : idle s -> nobody s -> stub_ok s -> fuzz_ready s.
Proof.
  intros [(qa & fa & I) Hm] Hn (Hcfg & _ & Hr). pose proof (inv_claim _ _ _ _ I) as (? & ? & _).
  split; try apply I; try done.
  - split; [apply I|done].
  - split; [apply (lrep_pool _ _ _ _ (rep_lrep _ _ _ _ (inv_rep _ _ _ _ I)))|apply I].
Qed.

(** The setup of a run. *)
Lemma relink_rep pl :
  length pl = MAX_QITEMS ->
  rep (QState (replicate 3 None) (replicate 3 None) (relink pl) (Some 0%nat) 0) [[]; []; []] (seq 0 MAX_QITEMS) [].
Proof.
  intros Hl. apply ordered_rep; [unfold relink; by rewrite length_imap|]. intros i Hi.
  destruct (lookup_lt_is_Some_2 pl i) as [it Hit]; [by rewrite Hl|]. unfold relink.
  by rewrite list_lookup_imap, Hit.
Qed.

Lemma reset_inv s :
  fuzz_ready s -> inv [[]; []; []] (seq 0 MAX_QITEMS) [] (fuzz_reset_glob (st_g s)).
Proof.
  intros [Hd Hcl [Hcfg _] Hcid [Hcll Hclo] [Hpl Hpi] Hn _].
  split; cbn [g_cfg g_cl g_next_cid g_qs g_claim fuzz_reset_glob pool]; try done.
  - destruct Hd as (H1 & H2 & H3 & H4 & H5). pose proof (init_diag (g_cfg (st_g s))) as (_ & _ & _ & _ & Hz).
    split; [done|]. split; [done|]. split; [unfold is_u32; cbn; lia|]. split; [done|exact Hz].
  - by apply relink_rep.
  - unfold relink. apply Forall_lookup. intros i it Hi. rewrite list_lookup_imap in Hi.
    destruct (pool (g_qs (st_g s)) !! i) as [it0|] eqn:Hit; [|done]. injection Hi as <-.
    exact (Forall_lookup_1 _ _ _ _ Hpi Hit).
  - intros i Hi. by apply elem_of_nil in Hi.
Qed.

Lemma wp_setup E (Q : unit -> st (fuzzed W) -> Prop) s :
  fuzz_ready s -> (forall s', fuzzing s' -> Q tt s') -> wp E (fuzz_reset ;; fuzz_clients) Q s.
Proof.
  intros HR HQ. pose proof (reset_inv s HR) as I0. pose proof HR as [_ [Hlen _] [_ Hcfg] _ _ _ Hn Hr].
  unfold fuzz_reset, fuzz_clients, FUZZ_NCLIENTS. cbn [seq forM]. wp_steps.
  apply rwp_arr_set; [cbn; rewrite Hlen; unfold MAX_CLIENTS; lia|]. wp_steps.
  apply rwp_arr_set; [cbn; rewrite length_insert, Hlen; unfold MAX_CLIENTS; lia|]. wp_steps.
  set (g0 := fuzz_reset_glob (st_g s)) in *.
  assert (forall i, (i < MAX_CLIENTS)%nat -> exists c0, g_cl g0 !! i = Some c0 /\ c_used c0 = false) as Hfree.
  { intros i Hi. destruct (lookup_lt_is_Some_2 (g_cl g0) i) as [c0 Hc0]; [by cbn; rewrite Hlen|].
    exists c0. split; [done|]. destruct (c_used c0) eqn:Hu; [|done]. destruct (Hn i). by exists c0. }
  destruct (Hfree 0%nat ltac:(unfold MAX_CLIENTS; lia)) as (c0 & Hc0 & Hu0).
  destruct (Hfree 1%nat ltac:(unfold MAX_CLIENTS; lia)) as (c1 & Hc1 & Hu1).
  assert (forall i, (i < 2)%nat -> client_ok (fuzz_client i)) as Hok.
  { intros i Hi. destruct i as [|[|i]]; [| |lia];
      unfold client_ok, fuzz_client, is_u32, is_u64, COMM_PATH_MAX; cbn; lia. }
  pose proof (inv_new_client _ _ _ 0 c0 (fuzz_client 0) I0 Hc0 Hu0 (Hok 0%nat ltac:(lia))) as I1.
  pose proof (inv_new_client _ _ _ 1 c1 (fuzz_client 1) I1) as I2.
  apply HQ. split; [split; [eexists _, _; apply I2; cbn; [by rewrite list_lookup_insert_ne|done|apply Hok; lia]|done]|].
  split; [|split; [exact Hcfg|by split; [cbn; lia|exact Hr]]].
  intros c. unfold two_clients, connected. cbn [st_g g_cl set_g_cl]. split.
  - intros (cl & Hcl & Hu). destruct (decide (c < FUZZ_NCLIENTS)%nat) as [|Hge]; [done|]. unfold FUZZ_NCLIENTS in Hge.
    rewrite !list_lookup_insert_ne in Hcl by lia. destruct (Hn c). by exists cl.
  - intros Hc. unfold FUZZ_NCLIENTS in Hc. pose proof (lookup_lt_Some _ _ _ Hc0). pose proof (lookup_lt_Some _ _ _ Hc1).
    exists (fuzz_client c). split; [|done]. destruct c as [|[|c]]; [| |lia].
    + by rewrite list_lookup_insert_ne, list_lookup_insert_eq by done.
    + by rewrite list_lookup_insert_eq by (by rewrite length_insert).
Qed.

(** What the daemon's proofs show of a step, with the state of the stub. *)
Lemma wp_join {A} n (m : D (fuzzed W) A) (Q : A -> st (fuzzed W) -> Prop) s :
  stub_ok s -> flying s = false -> keeps false n m -> wp (fun e => e = OutOfFuel) m Q s ->
  wp (fun _ => False) m (fun a s' => Q a s' /\ stub_ok s') s.
Proof.
  intros Hs Hf Hk Hm. eapply wp_fault_mono; [|eapply wp_mono; [exact (wp_and _ _ _ _ _ _ Hm (Hk s Hs Hf))|]].
  - cbn. intros e [-> H]. by apply H.
  - cbn beta. intros a s' [HQ (? & _)]. by split.
Qed.

Lemma wp_fuzzing n (m : D (fuzzed W) unit) s :
  fuzzing s -> keeps false n m ->
  wp (fun e => e = OutOfFuel) m (fun _ s' => idle s' /\ two_clients s') s ->
  wp (fun _ => False) m (fun _ s' => fuzzing s') s.
Proof.
  intros ([HI Hm] & _ & Hs) Hk Hw. eapply wp_mono; [by eapply wp_join|]. cbn beta. intros _ s' [[? ?] ?]. by split.
Qed.

(** Requests accounted for leave the clients as they were. *)
Lemma owes_two_clients gh owed s s' :
  two_clients s -> owes gh [] owed s' -> gh_start gh = s -> two_clients s'.
Proof.
  intros Hc (? & ? & ? & _ & (_ & _ & _ & Hcl & _) & _) Hgh c. rewrite Hgh in Hcl.
  rewrite <-(Hc c). symmetry. by apply same_clients_iff.
Qed.

Lemma fuzzing_frame c msg n s :
  fuzzing s -> (c < FUZZ_NCLIENTS)%nat -> n <= Z.of_nat (length msg) -> length msg = MSG_BUF -> bytes_ok msg ->
  wp (fun _ => False) (client_frame c msg n) (fun _ s' => fuzzing s') s.
Proof.
  intros HF Hc Hn Hl Hb. pose proof HF as ([(qa & fa & I) Hm] & Hcl & Hs).
  eapply wp_fuzzing; [done|apply keeps_client_frame|].
  eapply wp_client_frame; [by apply (owes_begin qa fa [_])|by apply Hcl|done..|]. intros s' HO [Hm' _].
  split; [by eapply owes_idle; [|congruence]|by apply (owes_two_clients _ _ _ _ Hcl HO)].
Qed.

Lemma fuzzing_enqueue c h body s :
  fuzzing s -> (c < FUZZ_NCLIENTS)%nat -> hdr_ok h -> h_len h <= Z.of_nat SPIPROXY_MSG_MAX ->
  (Z.to_nat (h_len h) <= length body)%nat -> bytes_ok body ->
  wp (fun _ => False) (enqueue c h body) (fun _ s' => fuzzing s') s.
Proof.
  intros HF Hc Hh Hlen Hbody Hb. pose proof HF as ([(qa & fa & I) Hm] & Hcl & Hs).
  eapply wp_fuzzing; [done|apply keeps_enqueue|].
  eapply wp_enqueue; [by apply (owes_begin qa fa [_])|by apply Hcl|done..|]. intros s' HO [Hm' _].
  split; [by eapply owes_idle; [|congruence]|by apply (owes_two_clients _ _ _ _ Hcl HO)].
Qed.

Lemma fuzzing_drain f budget s :
  fuzzing s -> wp (fun _ => False) (drain_queues (S (S (S f))) budget) (fun _ s' => fuzzing s') s.
Proof.
  intros HF. pose proof HF as ([(qa & fa & I) Hm] & Hcl & Hs).
  eapply wp_fuzzing; [done|apply drain_terminates|].
  eapply wp_mono; [eapply wp_drain_queues; [by apply (owes_begin qa fa [])|by left]|].
  cbn beta. intros _ s' (HO & _ & _ & Hm'). split; [|by apply (owes_two_clients _ _ _ _ Hcl HO)].
  eapply owes_idle; [exact HO|]. destruct (g_mb_inflight (st_g s')); [|done]. by rewrite Hm' in Hm.
Qed.

(** Both clients leave, and the oracle holds. *)
Lemma fuzzing_teardown f s :
  fuzzing s ->
  wp (fun _ => False) (fuzz_teardown (S (S (S f)))) (fun v s' => v = Returned 0 /\ fuzz_ready s') s.
Proof.
  intros HF. unfold fuzz_teardown. apply wp_bind. eapply wp_mono; [by apply fuzzing_drain|].
  cbn beta. intros _ s1 ([HI1 Hm1] & Hcl1 & Hs1). apply wp_bind. cbn [FUZZ_NCLIENTS seq forM]. apply wp_bind.
  eapply wp_mono; [eapply wp_join; [exact Hs1|exact Hm1|apply keeps_client_drop|]|].
  { apply (wp_client_drop 0 _ (fun _ s' => idle s' /\ (forall c, connected (g_cl (st_g s')) c -> c = 1%nat) /\
      connected (g_cl (st_g s')) 1)); [by split|apply Hcl1; unfold FUZZ_NCLIENTS; lia|].
    intros s2 ev H2 Ho Hno _ _ _ _. split; [done|]. split.
    - intros c Hc. destruct (decide (c = 0%nat)) as [->|Hne]; [done|].
      apply Ho, Hcl1 in Hc; [|done]. unfold FUZZ_NCLIENTS in Hc. lia.
    - apply Ho; [done|]. apply Hcl1. unfold FUZZ_NCLIENTS. lia. }
  cbn beta. intros _ s2 [([HI2 Hm2] & Hcl2 & Hc2) Hs2]. apply wp_bind.
  eapply wp_mono; [eapply wp_join; [exact Hs2|exact Hm2|apply keeps_client_drop|]|].
  { apply (wp_client_drop 1 _ (fun _ s' => idle s' /\ nobody s')); [by split|done|].
    intros s3 ev H3 Ho Hno _ _ _ _. split; [done|]. intros c Hc.
    destruct (decide (c = 1%nat)) as [->|Hne]; [done|]. apply Ho, Hcl2 in Hc; done. }
  cbn beta. intros _ s3 [[HI3 Hn3] Hs3]. wp_steps. apply wp_check; [done|done|]. split; [done|].
  by apply idle_ready.
Qed.

(** ** The two loops over the input *)

Lemma client_index k : (Z.to_nat (k mod Z.of_nat FUZZ_NCLIENTS) < FUZZ_NCLIENTS)%nat.
Proof. unfold FUZZ_NCLIENTS. pose proof (Z.mod_pos_bound k 2 eq_refl). change (Z.of_nat 2) with 2. lia. Qed.

Lemma wp_frame_loop n : forall rest k msg s,
  fuzzing s -> (length rest <= n)%nat -> length msg = MSG_BUF -> bytes_ok msg ->
  wp (fun _ => False) (frame_loop n rest k msg) (fun _ s' => fuzzing s') s.
Proof.
  induction n as [|n IH]; intros rest k msg s HF Hn Hl Hb.
  { destruct rest; [|cbn in Hn; lia]. by apply wp_ret. }
  destruct rest as [|lo [|hi data]]; [by apply wp_ret..|]. cbn [frame_loop length] in *.
  set (dlen := Nat.min _ (length data)). set (len := Nat.min dlen MSG_BUF). set (src := byte_val <$> take len data).
  assert (length src = len) as Hsl by (unfold src; rewrite length_fmap, length_take; lia).
  wp_steps. assert (0 + length src <= length msg)%nat as Hle by (rewrite Hsl, Hl; lia).
  apply rwp_buf_write; [done|]. destruct (splice_ok msg src 0 Hle Hb (bytes_val_ok _)) as [Hl' Hb'].
  wp_steps. eapply wp_mono; [apply fuzzing_frame; [done|apply client_index|rewrite Hl', Hl; lia|congruence|done]|].
  cbn beta. intros _ s1 H1. apply IH; [done|rewrite length_drop; lia|congruence|done].
Qed.

Lemma wp_msg_loop n : forall rest s,
  fuzzing s -> (length rest <= n)%nat ->
  wp (fun _ => False) (msg_loop n rest) (fun _ s' => fuzzing s') s.
Proof.
  induction n as [|n IH]; intros rest s HF Hn.
  { destruct rest; [|cbn in Hn; lia]. by apply wp_ret. }
  destruct rest as [|lo [|hi data]]; [by apply wp_ret..|]. cbn [msg_loop length] in *.
  set (m0 := Nat.min _ (length data)). assert (m0 <= length data)%nat as Hm0 by (unfold m0; lia).
  apply wp_if; intros Hshort; [by wp_steps|]. apply Nat.ltb_ge in Hshort.
  set (mlen := Nat.min m0 _). unfold hdr_size in *.
  assert (12 <= mlen <= length data /\ mlen <= 12 + SPIPROXY_MSG_MAX)%nat as [Hml1 Hml2] by (unfold mlen; lia).
  clearbody mlen m0. set (h0 := hdr_decode _).
  assert (hdr_ok h0) as (? & ? & ? & ? & _) by (unfold h0; apply hdr_decode_ok, bytes_val_ok).
  pose proof msg_max_big as Hmm. apply wp_bind. eapply wp_mono.
  { apply fuzzing_enqueue; [done|apply client_index| | | |apply bytes_val_ok]; cbn [h_len].
    - split_and!; try done. cbn [h_len]. unfold is_u32. lia.
    - lia.
    - rewrite Nat2Z.id, length_fmap, length_drop. lia. }
  cbn beta. intros _ s1 HF1. apply IH; [done|rewrite length_drop; lia].
Qed.

Lemma ready_feed feed s :
  fuzz_ready s -> fuzz_ready (St (st_g s) (Fuzzed feed 0 (g_fuzz_mb_reads (st_w s)) (fz_env (st_w s))) (st_out s)).
Proof. by intros []. Qed.

(** C16: the framing harness passes on every input: whatever bytes libFuzzer
    supplies, its datagrams are consumed, the scheduler drains, both clients
    leave, the oracle counts every queue item on the free list and no mailbox
    transaction in flight, and the state is ready for the next input.  No clock
    is needed: three units of fuel bound the nesting and the polls. *)
Theorem fuzz_frame_passes fuel data s :
  fuzz_ready s -> (3 <= fuel)%nat ->
  exists s', fuzz_frame fuel data s = Ok (Returned 0, s') /\ fuzz_ready s'.
Proof.
  intros HR Hf. destruct fuel as [|[|[|f]]]; try lia. apply wp_returns_val. unfold fuzz_frame.
  destruct (w_stack_bytes (st_w s) MSG_BUF) as [Hl Hb]. wp_steps. unfold set_feed. apply wp_ask. intros w' u [= <- <-].
  apply wp_assoc, wp_bind, wp_setup; [by apply ready_feed|]. intros s1 H1. apply wp_bind.
  eapply wp_mono; [by apply wp_frame_loop|]. cbn beta. intros _ s2 H2. by apply fuzzing_teardown.
Qed.

(** C15: so does the request harness, with the device's answers taken from the
    input: injected read failures, mailbox answers and claims cut short by a
    disconnection included. *)
Theorem fuzz_msg_passes fuel input s :
  fuzz_ready s -> (3 <= fuel)%nat ->
  exists s', fuzz_msg fuel input s = Ok (Returned 0, s') /\ fuzz_ready s'.
Proof.
  intros HR Hf. destruct fuel as [|[|[|f]]]; try lia. apply wp_returns_val. unfold fuzz_msg.
  destruct input as [|lo [|hi data]]; [by apply wp_ret..|]. wp_steps. unfold set_feed. apply wp_ask. intros w' u [= <- <-].
  apply wp_assoc, wp_bind, wp_setup; [by apply ready_feed|]. intros s1 H1. apply wp_bind.
  eapply wp_mono; [apply wp_msg_loop; [done|rewrite length_drop; lia]|]. cbn beta. intros _ s2 H2.
  by apply fuzzing_teardown.
Qed.

(** The state the harnesses start from. *)
Lemma initialize_ready (w : W) feed pos : fuzz_ready (St LLVMFuzzerInitialize (Fuzzed feed pos 0 w) []).
Proof.
  assert (cfg_ok fuzz_config) as Hcfg by (unfold cfg_ok, fuzz_config, SPI_PAD_MAX; cbn; lia).
  pose proof (init_inv fuzz_config Hcfg) as I.
  split; cbn [st_g LLVMFuzzerInitialize]; try apply I.
  - by split; [apply I|].
  - by destruct (inv_claim _ _ _ _ I) as (? & ? & _).
  - split; [apply length_replicate|]. apply Forall_replicate.
    exact (Forall_lookup_1 _ _ _ _ init_items (init_pool_lookup 0 ltac:(unfold MAX_QITEMS; lia))).
  - intros c (cl & Hcl & Hu). change (replicate MAX_CLIENTS zero_client !! c = Some cl) in Hcl. apply lookup_replicate in Hcl as [-> _]. done.
Qed.

End Oracle.

(** ** The parser of the client *)

(** the response harness returns on every input: the client's parser reads
    only the bytes received, in a buffer of exactly their number, and writes
    only its response buffer. *)
Theorem fuzz_resp_returns {P} {PE : Peer P} {PO : PeerOk P PE} input (c : cli P) :
  exists c', fuzz_resp input c = Ok (0, c').
Proof.
  assert (wp (fun _ => False) (fuzz_resp input) (fun v _ => v = 0 /\ True) c) as H.
  { unfold fuzz_resp. set (msg := byte_val <$> take MSG_BUF input). apply wp_bind, wp_stack_buf. intros resp Hl Hb.
    apply wp_bind. apply (wp_mono _ _ (fun _ _ => True)).
    - apply wp_if; intros Hlen; cli_steps; [done|]. apply Nat.ltb_ge in Hlen.
      apply rwp_buf_read; [lia|]. by cli_steps.
    - intros [seq type] c1 _. apply wp_bind, wp_parse_resp.
      + apply bytes_val_ok.
      + lia.
      + unfold msg. rewrite length_fmap, length_take. lia.
      + split; [done|]. rewrite Hl. split; [lia|]. unfold is_u32. rewrite msg_max_big. lia.
      + intros st dst' c' _ _. by cli_steps. }
  apply wp_returns_val in H as (c' & Hc & _). by exists c'.
Qed.
