(* ===== verification/Examples.v ===== *)
(** * The theorems at work

    Concrete runs on the simulated environment: each lemma applies a theorem of
    the development to a state of the daemon with a connected client, so its
    hypotheses can be met together. *)
From S2P Require Import Prelude Bytes Proto Crc16 Fmt ParseUint State Queue Log Spi Exec OpSpec Mailbox.
From S2P Require Import Daemon Invariant Handlers Scheduler Exclusive Atomic TextReader TextSpec MainLoop.
From S2P Require Import RequestSpec Calm MailboxSpec Retain Main Guarantees Sim.

(** ** The demonstration states *)

(** Registers: DEVICE_ID answers 0x8023 on every slice of interest. *)
Definition demo_world : sim :=
  Sim [(0, LAN80XX_MMD_GLOBAL, 0, 0x8023); (2, LAN80XX_MMD_GLOBAL, 0, 0x8023)] 0 1000 []
      [Accepted 11 4242 (Some "phytool"%string)].

Definition demo_config : config := Config "/dev/spidev0.0" SPIPROXY_SOCK 1 5000000 (Some "lan8023-rst"%string) 5 false false.

Definition demo_client : client := Client 10 true 1 4321 "ptp4l" 0 0 0.

(** One connected client, being served. *)
Definition demo_glob : glob :=
  set_g_lctx (fun _ => LogCtx 1 (CommClient 0) 7 "")
    (set_g_cl (fun _ => <[0%nat := demo_client]> (g_cl (init_glob demo_config)))
       (set_g_next_cid (fun n => u32 (n + 1)) (init_glob demo_config))).
Definition demo : st sim := St demo_glob demo_world [].

Lemma demo_cfg_ok : cfg_ok demo_config.
Proof. unfold cfg_ok, demo_config, SPI_PAD_MAX. cbn. lia. Qed.

Lemma demo_client_ok : client_ok demo_client.
Proof. unfold client_ok, demo_client, is_u32, is_u64, COMM_PATH_MAX. cbn. lia. Qed.

Lemma demo_inv : inv [[]; []; []] (seq 0 MAX_QITEMS) [] demo_glob.
Proof.
  apply (inv_same _ _ _ (set_g_cl (fun _ => <[0%nat := demo_client]> (g_cl (init_glob demo_config)))
    (set_g_next_cid (fun n => u32 (n + 1)) (init_glob demo_config)))); try reflexivity.
  - apply (inv_connect _ _ _ _ zero_client); [apply init_inv, demo_cfg_ok|reflexivity|reflexivity|apply demo_client_ok].
  - exact (init_diag demo_config).
Qed.

Lemma demo_lctx : lctx_ok demo_glob.
Proof. unfold lctx_ok. cbn [g_lctx demo_glob set_g_lctx lx_comm]. unfold MAX_CLIENTS. lia. Qed.

Lemma demo_ctx : ctx_ok demo_glob.
Proof. exact (inv_ctx _ _ _ _ demo_inv demo_lctx). Qed.

Lemma demo_slot : g_cl demo_glob !! 0%nat = Some demo_client.
Proof. reflexivity. Qed.

Lemma demo_connected : connected (g_cl demo_glob) 0.
Proof. exists demo_client. by split. Qed.

Lemma demo_idle : idle demo.
Proof. split; [|reflexivity]. eexists _, _. exact demo_inv. Qed.

Lemma demo_orderly : orderly demo.
Proof. split; [exact demo_idle|]. by intros ? ? ? ?%elem_of_nil. Qed.

Lemma demo_ring : ring_holds demo_glob [].
Proof. split; [apply length_replicate|]. split; [reflexivity|]. by intros k e _ ?. Qed.

(** A read of DEVICE_ID and a write to the first word of the mailbox window. *)
Definition demo_read : op := Op 2 0 LAN80XX_MMD_GLOBAL 0 0 0 0.
Definition demo_write : op := Op 2 1 LAN80XX_MMD_GLOBAL 0 0x10 0 0xcafe.

Lemma demo_read_valid : valid_op demo_read.
Proof. unfold valid_op, op_ok, is_u8, is_u16, is_u32, SLICE_COUNT. cbn. unfold LAN80XX_MMD_GLOBAL. lia. Qed.
Lemma demo_write_valid : valid_op demo_write.
Proof. unfold valid_op, op_ok, is_u8, is_u16, is_u32, SLICE_COUNT. cbn. unfold LAN80XX_MMD_GLOBAL. lia. Qed.

Lemma demo_client_slot : forall i, Some 0%nat = Some i -> (i < MAX_CLIENTS)%nat.
Proof. intros i [= <-]. unfold MAX_CLIENTS. lia. Qed.

(** A request body. *)
Definition demo_body (l : list Z) : list Z := l ++ replicate (SPIPROXY_MSG_MAX - length l) 0.

Lemma demo_body_ok l :
  (length l <= SPIPROXY_MSG_MAX)%nat -> bytes_ok l ->
  length (demo_body l) = SPIPROXY_MSG_MAX /\ bytes_ok (demo_body l).
Proof.
  intros Hl Hb. unfold demo_body. split; [rewrite length_app, length_replicate; lia|].
  apply bytes_ok_app; [done|]. apply Forall_replicate. unfold is_u8. lia.
Qed.

Definition demo_hdr (t : spiproxy_type) (len : Z) : hdr := Hdr 1 (type_code t) 0 42 len.

Lemma demo_hdr_ok t len : is_u32 len -> hdr_ok (demo_hdr t len).
Proof.
  intros H. unfold hdr_ok, demo_hdr, is_u8, is_u16, is_u32 in *. cbn [h_ver h_type h_flags h_seq h_len].
  destruct t; cbn; lia.
Qed.

(** ** Register access *)

Lemma spi_read_returns_register_witness :
  exists w', hw_spi_read_reg 2 LAN80XX_MMD_GLOBAL 0 0 demo =
    Ok ((0, 0x8023), St (count_read demo_glob) w' (on_bus (read_frames 1 2 LAN80XX_MMD_GLOBAL 0) [])).
Proof.
  destruct (spi_read_returns_register 2 LAN80XX_MMD_GLOBAL 0 0 demo) as (w' & H);
    [lia|unfold LAN80XX_MMD_GLOBAL; lia|unfold is_u16; lia|apply demo_ctx|]. exists w'. exact H.
Defined.

Lemma spi_write_then_read_witness :
  exists s', (hw_spi_write_reg 1 0x1e 0x20 0xbeef ;; hw_spi_read_reg 1 0x1e 0x20 0) demo = Ok ((0, 0xbeef), s').
Proof.
  apply (spi_write_then_read 1 0x1e 0x20 0xbeef 0 demo);
    [lia|lia|unfold is_u16; lia|unfold is_u32; lia|apply demo_ctx|reflexivity].
Defined.

Lemma exec_op_outcome_witness :
  exists x v s', exec_op (Some 0%nat) demo_read demo = Ok ((x, op_set_val v demo_read), s') /\
    exec_status demo_glob (Some 0%nat) demo_read x.
Proof.
  destruct (exec_op_outcome (Some 0%nat) demo_read demo) as (x & v & s' & H & Hx & _);
    [exact demo_ctx|apply demo_read_valid|exact demo_client_slot|].
  exists x, v, s'. split; [exact H|exact Hx].
Defined.

Lemma exec_op_on_chip_witness :
  exists ts s', exec_op (Some 0%nat) demo_write demo = Ok ((SPIPROXY_OK, demo_write), s') /\
    ring_holds (st_g s') [op_entry ts 1 demo_write] /\
    chip_reg (st_w s') 2 LAN80XX_MMD_GLOBAL 0x10 = 0xcafe.
Proof.
  destruct (exec_op_on_chip (Some 0%nat) demo_write [] demo) as (ts & s' & H & Hr & _ & Hst);
    [exact demo_ctx|exact demo_write_valid|exact demo_client_slot|reflexivity|exact demo_ring|].
  exists ts, s'. split; [exact H|]. split; [exact Hr|]. exact (Hst eq_refl eq_refl).
Defined.

(** ** Batches *)

Definition demo_ops : list Z := demo_body (op_encode demo_write ++ op_encode demo_read).

Lemma demo_ops_ok : length demo_ops = SPIPROXY_MSG_MAX /\ bytes_ok demo_ops.
Proof.
  apply demo_body_ok; [cbn; unfold SPIPROXY_MSG_MAX; lia|]. apply bytes_ok_app; apply op_encode_ok.
Qed.

Lemma demo_nth j : (j < 2)%nat -> nth_op demo_ops j = default demo_read ([demo_write; demo_read] !! j).
Proof.
  intros Hj. unfold demo_ops, demo_body. rewrite <-app_assoc.
  destruct j as [|[|j]]; [reflexivity|reflexivity|lia].
Qed.

Lemma batch_runs_prefix_witness :
  exists s', exec_batch 0 0 (demo_hdr SPIPROXY_BATCH 24) demo_ops demo = Ok (tt, s') /\
    exists x res s1, ops_run 0 [demo_write; demo_read] demo x res s1 /\
      replied 10 (response (demo_hdr SPIPROXY_BATCH 24) x (res ≫= op_encode)) demo s' /\
      bus (st_out s') = bus (st_out s1).
Proof.
  destruct (batch_runs_prefix _ _ _ 0 (init_item 0) 0 demo_client (demo_hdr SPIPROXY_BATCH 24) demo_ops demo
    demo_inv demo_lctx (init_pool_lookup 0 ltac:(unfold MAX_QITEMS; lia)) demo_slot
    (demo_hdr_ok SPIPROXY_BATCH 24 ltac:(unfold is_u32; lia)) (proj1 demo_ops_ok) (proj2 demo_ops_ok))
    as (s' & H & x & res & s1 & Hrun & Hr & Hbus).
  exists s'. split; [exact H|]. exists x, res, s1. split; [exact Hrun|]. split; [exact Hr|exact Hbus].
Defined.

Lemma batch_on_chip_witness :
  exists body' s', exec_batch 0 0 (demo_hdr SPIPROXY_BATCH 24) demo_ops demo = Ok (tt, s') /\
    replied 10 (response (demo_hdr SPIPROXY_BATCH 24) SPIPROXY_OK (take 24 body')) demo s' /\
    bus (st_out s') = ops_frames 1 [demo_write; demo_read].
Proof.
  destruct (batch_on_chip _ _ _ 0 (init_item 0) 0 demo_client (demo_hdr SPIPROXY_BATCH 24) demo_ops demo
    demo_inv demo_lctx (init_pool_lookup 0 ltac:(unfold MAX_QITEMS; lia)) demo_slot
    (demo_hdr_ok SPIPROXY_BATCH 24 ltac:(unfold is_u32; lia)) (proj1 demo_ops_ok) (proj2 demo_ops_ok) eq_refl)
    as (body' & s' & H & Hr & _ & Hb).
  { change (batch_count (demo_hdr SPIPROXY_BATCH 24)) with 2%nat.
    intros j Hj. rewrite demo_nth by exact Hj. destruct j as [|[|j]]; [| |lia].
    - split; [exact demo_write_valid|reflexivity].
    - split; [exact demo_read_valid|reflexivity]. }
  exists body', s'. split; [exact H|]. split; [exact Hr|]. rewrite Hb.
  change (batch_count (demo_hdr SPIPROXY_BATCH 24)) with 2%nat. cbn [seq fmap list_fmap].
  rewrite (demo_nth 0), (demo_nth 1) by lia. reflexivity.
Defined.

(** ** Claims *)

(** The client holds the claim, with one cleanup operation, until 900 us. *)
Definition demo_claim : claim_state :=
  ClaimState (Some 0%nat) 900 (demo_write :: replicate 63 zero_op) 1.
Definition demo_claimed : st sim := St (set_g_claim (fun _ => demo_claim) demo_glob) demo_world [].

Lemma demo_claim_inv : inv [[]; []; []] (seq 0 MAX_QITEMS) [] (st_g demo_claimed).
Proof.
  apply (inv_set_claim _ _ _ (fun _ => demo_claim) demo_glob demo_inv).
  unfold claim_wf. cbn [claim_cleanup claim_ncleanup claim_deadline claim_owner demo_claim].
  split; [reflexivity|]. split.
  { constructor; [apply demo_write_valid|]. apply Forall_replicate.
    unfold op_ok, is_u8, is_u16, is_u32. cbn. lia. }
  split; [unfold SPIPROXY_BATCH_MAX; lia|]. split; [unfold is_u64; lia|exact demo_connected].
Qed.

Lemma demo_cleanup_valid :
  Forall valid_op (take (Z.to_nat (claim_ncleanup demo_claim)) (claim_cleanup demo_claim)).
Proof. cbn. repeat constructor; apply demo_write_valid. Qed.

Lemma claim_end_cleanup_witness :
  exists s', claim_end true demo_claimed = Ok (tt, s') /\ claim_owner (g_claim (st_g s')) = None /\
    bus (st_out s') = ops_frames 1 [demo_write].
Proof.
  destruct (claim_end_cleanup true _ _ _ demo_claimed demo_claim_inv demo_cleanup_valid)
    as (s' & H & Ho & _ & Hb). exists s'. split; [exact H|]. split; [exact Ho|exact Hb].
Defined.

Lemma claim_expires_at_deadline_witness :
  exists s', expire_claim demo_claimed = Ok (tt, s') /\ claim_owner (g_claim (st_g s')) = None /\
    bus (st_out s') = ops_frames 1 [demo_write].
Proof.
  destruct (claim_expires_at_deadline _ _ 0 demo_claimed demo_claim_inv eq_refl demo_cleanup_valid)
    as (s' & H & Ho & Hb). exists s'. split; [exact H|]. split; [exact Ho|exact Hb].
Defined.

Lemma disconnect_runs_cleanup_witness :
  exists s', client_drop 0 demo_claimed = Ok (tt, s') /\ claim_owner (g_claim (st_g s')) = None /\
    bus (st_out s') = ops_frames 1 [demo_write].
Proof.
  destruct (disconnect_runs_cleanup _ _ 0 demo_client demo_claimed demo_claim_inv eq_refl eq_refl eq_refl
    demo_cleanup_valid) as (s' & H & Ho & Hb). exists s'. split; [exact H|]. split; [exact Ho|exact Hb].
Defined.

(** A claim for 2000 ms without cleanup operations. *)
Definition demo_claim_body : list Z := demo_body (claim_encode (ClaimReq 2000 0 0)).

Lemma demo_claim_body_ok : length demo_claim_body = SPIPROXY_MSG_MAX /\ bytes_ok demo_claim_body.
Proof.
  apply demo_body_ok; [cbn; unfold SPIPROXY_MSG_MAX; lia|]. repeat apply bytes_ok_app; apply le_encode_ok.
Qed.

Lemma claim_request_outcome_witness :
  exists s', exec_claim 0 (demo_hdr SPIPROXY_CLAIM 8) demo_claim_body demo = Ok (tt, s') /\
    claim_owner (g_claim (st_g s')) = Some 0%nat /\
    replied 10 (response (demo_hdr SPIPROXY_CLAIM 8) SPIPROXY_OK []) demo s'.
Proof.
  destruct (claim_request_outcome _ _ _ 0 demo_client (demo_hdr SPIPROXY_CLAIM 8) demo_claim_body demo demo_inv
    demo_slot eq_refl (demo_hdr_ok SPIPROXY_CLAIM 8 ltac:(unfold is_u32; lia)) (proj1 demo_claim_body_ok)
    (proj2 demo_claim_body_ok)) as (x & s' & H & Hr & Hx).
  assert (claim_sized (demo_hdr SPIPROXY_CLAIM 8) demo_claim_body) as Hs
    by (unfold claim_sized; split; [discriminate|split; [discriminate|reflexivity]]).
  exists s'. split; [exact H|]. destruct x; try (exfalso; exact Hx).
  - destruct Hx as (_ & _ & t & _ & Hg). split; [exact (proj1 Hg)|exact Hr].
  - exfalso. exact (proj1 Hx Hs).
  - destruct Hx as (_ & (o & Ho & _) & _). discriminate Ho.
Defined.

(** ** Other requests *)

Lemma single_request_on_chip_witness :
  exists s', exec_single 0 0 (demo_hdr SPIPROXY_READ 12) (demo_body (op_encode demo_read)) false demo = Ok (tt, s') /\
    replied 10 (response (demo_hdr SPIPROXY_READ 12) SPIPROXY_OK (op_encode (op_set_val 0x8023 demo_read))) demo s'.
Proof.
  destruct (demo_body_ok (op_encode demo_read)) as [Hl Hb];
    [rewrite length_op_encode; unfold op_size, SPIPROXY_MSG_MAX; lia|apply op_encode_ok|].
  destruct (single_request_on_chip _ _ _ 0 (init_item 0) 0 demo_client (demo_hdr SPIPROXY_READ 12)
    (demo_body (op_encode demo_read)) false demo demo_inv demo_lctx (init_pool_lookup 0 ltac:(unfold MAX_QITEMS; lia))
    demo_slot (demo_hdr_ok SPIPROXY_READ 12 ltac:(unfold is_u32; lia)) Hl Hb eq_refl) as (s' & H & Hr & _).
  - exact demo_read_valid.
  - reflexivity.
  - exists s'. split; [exact H|exact Hr].
Defined.

Lemma reset_request_outcome_witness :
  exists s', exec_reset 0 (demo_hdr SPIPROXY_RESET 8) (demo_body [1; 2; 0; 0]) demo = Ok (tt, s') /\
    exists ok ev1 ev2, Forall is_log_event ev1 /\ Forall is_log_event ev2 /\
    st_out s' = ev1 ++ EvSend 10 (response (demo_hdr SPIPROXY_RESET 8) SPIPROXY_OK []) ok :: ev2 ++
      [EvUsleep 100000; EvGpioSet 5 0; EvUsleep 513; EvGpioSet 5 1] ++ [].
Proof.
  destruct (demo_body_ok [1; 2; 0; 0]) as [Hl Hb];
    [cbn; unfold SPIPROXY_MSG_MAX; lia|repeat constructor; unfold is_u8; lia|].
  destruct (reset_request_outcome _ _ _ 0 demo_client (demo_hdr SPIPROXY_RESET 8) (demo_body [1; 2; 0; 0]) demo
    demo_inv demo_slot (demo_hdr_ok SPIPROXY_RESET 8 ltac:(unfold is_u32; lia)) Hl Hb) as (s' & H & Hr).
  exists s'. split; [exact H|]. exact (proj2 Hr).
Defined.

(** A daemon that has executed a write and then a read. *)
Definition demo_ents : list trace_ent :=
  [TraceEnt 1200 1 2 0 LAN80XX_MMD_GLOBAL 0 0x8023; TraceEnt 1100 1 2 1 LAN80XX_MMD_GLOBAL 0x10 0xcafe].
Definition demo_logged : st sim :=
  St (set_g_ring (fun r => reverse demo_ents ++ drop 2 r) (set_g_ring_w (fun _ => 2)
       (set_g_cnt (fun _ => Counters 1 3 0 0) demo_glob))) demo_world [].

Lemma demo_logged_inv : inv [[]; []; []] (seq 0 MAX_QITEMS) [] (st_g demo_logged).
Proof.
  apply (inv_same _ _ _ demo_glob); try reflexivity; [exact demo_inv|].
  pose proof (init_diag demo_config) as (Hl & Ht & _ & _ & Hlint).
  split; [by cbn|]. split; [|split; [unfold is_u32; cbn; lia|split; [unfold cnt_ok, is_u64; cbn; lia|exact Hlint]]].
  apply Forall_app. split; [|by apply Forall_drop].
  repeat constructor; unfold is_u64, is_u32, is_u16, is_u8; cbn; unfold LAN80XX_MMD_GLOBAL, SLICE_COUNT; lia.
Qed.

Lemma demo_logged_ring : ring_holds (st_g demo_logged) demo_ents.
Proof.
  split; [reflexivity|]. split; [reflexivity|]. intros [|[|k]] e _ He; [| |done]; injection He as <-; reflexivity.
Qed.

Lemma trace_lists_recent_witness :
  exists t s', exec_trace 0 (demo_hdr SPIPROXY_TRACE 0) demo_logged = Ok (tt, s') /\
    sent 10 (response (demo_hdr SPIPROXY_TRACE 0) SPIPROXY_OK (str_bytes t)) demo_logged s' /\
    read_trace t = Some (reverse demo_ents).
Proof.
  destruct (trace_lists_recent _ _ _ 0 demo_client (demo_hdr SPIPROXY_TRACE 0) demo_ents demo_logged demo_logged_inv
    demo_slot (demo_hdr_ok SPIPROXY_TRACE 0 ltac:(unfold is_u32; lia)) demo_logged_ring ltac:(cbn; lia))
    as (t & s' & H & Hs & Hr).
  exists t, s'. split; [exact H|]. split; [exact Hs|exact Hr].
Defined.

Lemma demo_plain : plain_report (stats_facts (st_g demo_logged)).
Proof.
  split; [|split]; [split; unfold char_free; apply (bool_decide_unpack _); vm_compute; exact I..|].
  cbn. constructor; [|constructor].
  split; [split|split]; unfold char_free; apply (bool_decide_unpack _); vm_compute; exact I.
Qed.

Lemma stats_lists_clients_witness :
  exists t s', exec_stats 0 (demo_hdr SPIPROXY_STATS 0) demo_logged = Ok (tt, s') /\
    sent 10 (response (demo_hdr SPIPROXY_STATS 0) SPIPROXY_OK (str_bytes t)) demo_logged s' /\
    read_stats t = Some (StatsReport "/dev/spidev0.0" 5000000 1 "lan8023-rst" 1 3 0 0 0 0 0
      [ClientReport 1 "ptp4l" 4321 0 0 0]).
Proof.
  destruct (stats_lists_clients _ _ _ 0 demo_client (demo_hdr SPIPROXY_STATS 0) demo_logged demo_logged_inv demo_slot
    (demo_hdr_ok SPIPROXY_STATS 0 ltac:(unfold is_u32; lia))) as (t & s' & H & Hs & _ & Hr).
  exists t, s'. split; [exact H|]. split; [exact Hs|exact (Hr demo_plain)].
Defined.

Lemma demo_accept :
  w_accept demo_world =
  (Sim (sm_regs demo_world) 0 1000 [] [], Some (Accepted 11 4242 (Some "phytool"%string))).
Proof. vm_compute. reflexivity. Qed.

Lemma accept_takes_first_free_slot_witness :
  exists s', accept_client demo = Ok (tt, s') /\
    g_cl (st_g s') !! 1%nat = Some (Client 11 true 2 4242 "phytool" 0 0 0).
Proof.
  destruct (accept_takes_first_free_slot _ _ _ (Accepted 11 4242 (Some "phytool"%string))
    (Sim (sm_regs demo_world) 0 1000 [] []) demo demo_inv demo_accept) as (s' & H & Hs).
  exists s'. split; [exact H|]. destruct Hs as [(Hall & _)|(i & Hlt & (cl & Hi & Hu) & Hg)].
  - exfalso. pose proof (Forall_lookup_1 _ _ 1 zero_client Hall eq_refl) as Hz. discriminate Hz.
  - assert (i = 1%nat) as ->.
    { destruct i as [|[|i]]; [injection Hi as <-; discriminate Hu|reflexivity|].
      pose proof (Hlt 1%nat zero_client ltac:(lia) eq_refl) as Hz. discriminate Hz. }
    rewrite Hg. reflexivity.
Defined.

(** ** Mailbox transactions *)

Definition demo_mb : mb := Mb 1 0x10 3 0.
Definition demo_payload : list Z := [0xaa; 0xbb; 0xcc] ++ replicate (Z.to_nat 1018) 0.
Definition demo_resp : list Z := replicate (mb_size + Z.to_nat SPIPROXY_MB_MAX) 0.

Lemma demo_payload_ok :
  (Z.to_nat SPIPROXY_MB_MAX <= length demo_payload)%nat /\ bytes_ok demo_payload.
Proof.
  unfold demo_payload. rewrite length_app, length_replicate. split; [unfold SPIPROXY_MB_MAX; lia|].
  apply bytes_ok_app; [repeat constructor; unfold is_u8; lia|]. apply Forall_replicate. unfold is_u8. lia.
Qed.

(** The packet the MCU receives, and here sends back. *)
Definition demo_packet : list Z := [0x10; 0xff; 9; 0; 0xaa; 0xbb; 0xcc; 28; 154].

Lemma demo_request : mb_request demo_mb demo_payload = demo_packet.
Proof. vm_compute. reflexivity. Qed.

Lemma demo_framed : framed (mc_mcu (mb_request demo_mb demo_payload)).
Proof.
  change (mc_mcu (mb_request demo_mb demo_payload)) with (sim_mcu (mb_request demo_mb demo_payload)).
  rewrite demo_request. change (sim_mcu demo_packet) with demo_packet. unfold framed. split; [cbn; lia|].
  split; [repeat constructor; unfold is_u8; lia|]. reflexivity.
Qed.

Definition poll_fuel : nat := Z.to_nat POLL_FUEL.
Lemma poll_fuel_ok : POLL_FUEL <= Z.of_nat poll_fuel.
Proof. unfold poll_fuel. rewrite Z2Nat.id; [lia|]. unfold POLL_FUEL. lia. Qed.

Lemma demo_call m : mb_ok m -> mb_slice m = 1 -> mb_payload_len m <= SPIPROXY_MB_MAX ->
  mb_call (seq 0 MAX_QITEMS) [] m demo_payload demo_resp demo.
Proof.
  intros Hm Hs Hl. split; rewrite ?Hs; [exact demo_inv|exact demo_lctx|done..|apply demo_payload_ok| |reflexivity].
  split; [apply length_replicate|]. apply Forall_replicate. unfold is_u8. lia.
Qed.

Lemma mailbox_round_trip_witness :
  exists r s', exec_mailbox poll_fuel (drain_queues 1) demo_mb demo_payload demo_resp demo = Ok (r, s') /\
    delivers demo_mb demo_resp (SPIPROXY_OK, 0x10, [0xaa; 0xbb; 0xcc]) r.
Proof.
  destruct (mailbox_round_trip poll_fuel 0 _ _ demo_mb demo_payload demo_resp demo (demo_call demo_mb
    ltac:(unfold mb_ok, is_u8, is_u16, is_u32, demo_mb; cbn; lia) eq_refl
    ltac:(unfold SPIPROXY_MB_MAX; cbn; lia)) demo_framed poll_fuel_ok) as (r & s' & H & _ & Hr).
  exists r, s'. split; [exact H|]. destruct Hr as [Hr|(_ & w1 & w2 & tx & [Hf _] & Hf' & _)].
  - change (mc_mcu (mb_request demo_mb demo_payload)) with (sim_mcu (mb_request demo_mb demo_payload)) in Hr.
    rewrite demo_request in Hr. exact Hr.
  - congruence.
Defined.

Lemma mb_packet_roundtrip_witness :
  exists p rest, mb_packet demo_mb demo_payload (replicate MB_PKT_SIZE 0x55) = Ok (p ++ rest) /\
    mb_reference 0 p = (SPIPROXY_OK, 0x10, [0xaa; 0xbb; 0xcc]).
Proof.
  destruct (mb_packet_roundtrip demo_mb demo_payload (replicate MB_PKT_SIZE 0x55) 0) as (p & rest & H & Hr).
  - unfold SPIPROXY_MB_MAX. cbn. lia.
  - etransitivity; [|apply demo_payload_ok]. unfold SPIPROXY_MB_MAX. cbn. lia.
  - apply length_replicate.
  - exists p, rest. split; [exact H|exact Hr].
Defined.

(** A command over the noisy line. *)
Definition demo_noisy : mb := Mb 1 NOISY_CMD 3 0.

Lemma demo_burst : burst_hit [0x10; 0xff; 9; 0; 0xaa; 0xbb; 0xcc] [0x10; 0xff; 9; 0; 0xaa; 0xba; 0xcc].
Proof.
  split; [repeat constructor; unfold is_u8; lia|]. split; [repeat constructor; unfold is_u8; lia|].
  split; [done|]. split; [cbn; lia|]. split; [split; discriminate|]. split; [done|].
  exists 1, 8. split; [lia|]. split; [lia|]. reflexivity.
Qed.

Lemma demo_noisy_answer : mc_mcu (MailboxChip := sim_mailbox) (mb_request demo_noisy demo_payload) =
  [0x10; 0xff; 9; 0; 0xaa; 0xba; 0xcc] ++ crc_bytes [0x10; 0xff; 9; 0; 0xaa; 0xbb; 0xcc].
Proof. vm_compute. reflexivity. Qed.

Lemma corrupted_response_detected_witness :
  exists s', exec_mailbox poll_fuel (drain_queues 1) demo_noisy demo_payload demo_resp demo =
    Ok ((SPIPROXY_ECRC, demo_noisy, 0, demo_resp), s').
Proof.
  destruct (corrupted_response_detected poll_fuel 0 _ _ demo_noisy demo_payload demo_resp
    [0x10; 0xff; 9; 0; 0xaa; 0xbb; 0xcc] [0x10; 0xff; 9; 0; 0xaa; 0xba; 0xcc] demo (demo_call demo_noisy
    ltac:(unfold mb_ok, is_u8, is_u16, is_u32, demo_noisy, NOISY_CMD, demo_mb; cbn; lia) eq_refl
    ltac:(unfold SPIPROXY_MB_MAX; cbn; lia)) poll_fuel_ok demo_burst demo_noisy_answer)
    as (x & s' & H & _ & [->|(_ & w1 & w2 & tx & [Hf _] & Hf' & _)]).
  - exists s'. exact H.
  - congruence.
Defined.

(** ** The daemon *)

Definition turn_fuel : nat := Z.to_nat TURN_FUEL.
Lemma turn_fuel_ok : TURN_FUEL <= Z.of_nat turn_fuel.
Proof. unfold turn_fuel. rewrite Z2Nat.id; [lia|]. unfold TURN_FUEL, POLL_FUEL. lia. Qed.

(** The state after a request of the client was queued. *)
Lemma demo_queued h src :
  hdr_ok h -> (length src <= SPIPROXY_MSG_MAX)%nat -> bytes_ok src ->
  exists (s : st sim) qa fa, inv qa fa [] (st_g s) /\ queued_keys (st_g s) qa ≡ₚ [key_of (g_cl demo_glob) 0 h].
Proof.
  intros Hh Hl Hb. set (k := key_of (g_cl demo_glob) 0 h).
  destruct (owes_link (Ghost demo [k] MAX_QITEMS) [] [[]; []; []] (seq 1 255) [] 0 h src 0 (init_item 0) demo)
    as (qs1 & qs2 & _ & _ & HO); try done.
  - exact demo_inv.
  - exact demo_connected.
  - destruct HO as (qa & fa & ev & I & _ & Ho & Hk & _). eexists _, qa, fa. split; [exact I|].
    cbn [st_out demo gh_start] in Ho. rewrite app_nil_r in Ho. subst ev. symmetry. exact Hk.
Qed.

Lemma drain_answers_once_witness :
  exists (s : st sim) qa fa s' qa' ev, inv qa fa [] (st_g s) /\
    drain_queues turn_fuel 64 s = Ok (tt, s') /\ st_out s' = ev ++ st_out s /\
    [key_of (g_cl demo_glob) 0 (demo_hdr SPIPROXY_STATS 0)] ≡ₚ answers ev ++ queued_keys (st_g s') qa'.
Proof.
  destruct (demo_queued (demo_hdr SPIPROXY_STATS 0) []) as (s & qa & fa & I & Hk);
    [apply demo_hdr_ok; unfold is_u32; lia|cbn; lia|constructor|].
  destruct (drain_answers_once qa fa turn_fuel 64 s I turn_fuel_ok) as (s' & qa' & fa' & ev & H & _ & Ho & Hp).
  exists s, qa, fa, s', qa', ev. split; [exact I|]. split; [exact H|]. split; [exact Ho|].
  rewrite <-Hk. exact Hp.
Defined.

Lemma drain_makes_progress_witness :
  exists (s : st sim) qa fa s' qa' fa', inv qa fa [] (st_g s) /\ drain_queues turn_fuel 64 s = Ok (tt, s') /\
    inv qa' fa' [] (st_g s') /\ ((length (concat qa') + 64 <= length (concat qa))%nat \/ all_wait s' qa').
Proof.
  destruct (demo_queued (demo_hdr SPIPROXY_STATS 0) []) as (s & qa & fa & I & Hk);
    [apply demo_hdr_ok; unfold is_u32; lia|cbn; lia|constructor|].
  destruct (drain_makes_progress qa fa turn_fuel 64 s I turn_fuel_ok) as (s' & qa' & fa' & H & I' & Hp).
  exists s, qa, fa, s', qa', fa'. split; [exact I|]. split; [exact H|]. split; [exact I'|exact Hp].
Defined.

(** The listening socket and the client are ready. *)
Lemma demo_ready : ready_ok demo [None; Some 0%nat].
Proof.
  split.
  - apply NoDup_cons. split; [|apply NoDup_singleton]. rewrite list_elem_of_singleton. discriminate.
  - intros c Hc. rewrite elem_of_cons, list_elem_of_singleton in Hc. destruct Hc as [Hc|Hc]; [discriminate|].
    injection Hc as ->. exact demo_connected.
Qed.

Lemma turn_returns_witness :
  exists s', loop_turn turn_fuel [None; Some 0%nat] demo = Ok (tt, s') /\ orderly s'.
Proof. exact (turn_returns turn_fuel _ demo demo_orderly demo_ready turn_fuel_ok). Defined.

(** The daemon right after start-up. *)
Lemma demo_reachable : exists s : st sim, reachable demo_config s.
Proof.
  destruct (wp_returns _ _ _ (wp_main_start (Boot true true true "") (fun _ => None) (fun _ => False) _
      (init_orderly demo_config demo_world [] demo_cfg_ok eq_refl)))
    as (r & s & H & _ & _ & ->). exists s. by eapply (reach_start _ _ _ _ []).
Qed.

Lemma turn_never_faults_witness :
  exists s : st sim, reachable demo_config s /\ loop_turn 1000 [None] s <> Fail Oob /\
    loop_turn 1000 [None] s <> Fail Cyclic.
Proof.
  destruct demo_reachable as [s Hs]. exists s. split; [exact Hs|].
  apply (turn_never_faults demo_config 1000 [None] s demo_cfg_ok Hs). split; [apply NoDup_singleton|].
  intros c Hc. rewrite list_elem_of_singleton in Hc. discriminate.
Defined.

Lemma reachable_well_formed_witness :
  exists (s : st sim) qa fa, reachable demo_config s /\ rep (g_qs (st_g s)) qa fa [] /\
    concat qa ++ fa ≡ₚ seq 0 MAX_QITEMS.
Proof.
  destruct demo_reachable as [s Hs]. exists s.
  destruct (reachable_well_formed demo_config s demo_cfg_ok Hs) as (qa & fa & HR & Hp & _).
  exists qa, fa. split; [exact Hs|]. split; [exact HR|exact Hp].
Defined.

(** A STATS request with a wrong length field. *)
Definition demo_msg : list Z := hdr_encode (demo_hdr SPIPROXY_STATS 5) ++ replicate (Z.to_nat 4096) 0.

Lemma datagram_accounted_witness :
  exists s' qa' ev, client_frame 0 demo_msg 12 demo = Ok (tt, s') /\ st_out s' = ev ++ [] /\
    [key_of (g_cl demo_glob) 0 (frame_hdr demo_msg 12)] ≡ₚ answers ev ++ queued_keys (st_g s') qa'.
Proof.
  assert (length demo_msg = MSG_BUF) as Hl
    by (unfold demo_msg; rewrite length_app, length_hdr_encode, length_replicate; reflexivity).
  destruct (datagram_accounted _ _ 0 demo_msg 12 demo demo_inv demo_connected) as (s' & qa' & fa' & ev & H & _ & Ho & Hp).
  - rewrite Hl. discriminate.
  - exact Hl.
  - apply bytes_ok_app; [apply hdr_encode_ok|]. apply Forall_replicate. unfold is_u8. lia.
  - exists s', qa', ev. split; [exact H|]. split; [exact Ho|exact Hp].
Defined.

Lemma client_drop_disconnects_witness :
  exists s', client_drop 0 demo = Ok (tt, s') /\ idle s' /\ ~ connected (g_cl (st_g s')) 0.
Proof.
  destruct (client_drop_disconnects 0 demo demo_idle demo_connected) as (s' & ev & H & HI & Hc & _).
  exists s'. split; [exact H|]. split; [exact HI|exact Hc].
Defined.

Lemma start_up_well_formed_witness :
  exists s : st sim, main_start (Boot true true true "") (fun _ => None)
      (St (init_glob (Config "/dev/spidev1.0" SPIPROXY_SOCK 3 5000000 None (-1) false false)) demo_world []) =
    Ok (true, s) /\ orderly s.
Proof.
  destruct (start_up_well_formed (fun _ => true) [OptDev "/dev/spidev1.0"; OptPad "3"]
    (Config "/dev/spidev1.0" SPIPROXY_SOCK 3 5000000 None (-1) false false) (Boot true true true "") (fun _ => None)
    demo_world) as (r & s & H & HI & Hr).
  - vm_compute. reflexivity.
  - cbn. lia.
  - exists s. cbn in Hr. rewrite Hr in H. split; [exact H|exact HI].
Defined.

(** A transaction in flight, and the first word of the command window. *)
Lemma mailbox_guard_alias_witness :
  guarded (set_g_mb_inflight (fun _ => true) demo_glob) (Some 0%nat) (Op 1 1 0x9e 0 0xd800 0 7) = false /\
  op_frames 1 (Op 1 1 0x9e 0 0xd800 0 7) = op_frames 1 (Op 1 1 LAN80XX_MMD_GLOBAL 0 0xd800 0 7).
Proof.
  destruct (mailbox_guard_alias (set_g_mb_inflight (fun _ => true) demo_glob) 0 1 1 1 0xd800 7) as (_ & H1 & H2);
    [lia|unfold MB_GUARD_LO, MB_GUARD_HI; lia|reflexivity|]. split; [exact H1|exact H2].
Defined.
