(* ===== verification/LintExamples.v ===== *)
(** * The hazard detectors at work

    Runs of the detectors on the simulated board: the hypotheses of the theorems
    of LintSpec.v met together, and two sequences of operations that are reported
    although nobody's measurement or read-modify-write is disturbed. *)
From S2P Require Import Prelude Bytes Proto Fmt State Queue Log Spi Exec OpSpec Daemon Invariant.
From S2P Require Import MainLoop Main LintSpec Sim Examples.

(** Operations of two clients. *)
Definition by_ptp (o : op) : job := (LogCtx 1 (CommClient 0) 7 "", Some 0%nat, o).
Definition by_phy (o : op) : job := (LogCtx 2 (CommLit "phytool") 3 "", None, o).
Definition R (slice mmd reg : Z) : op := Op slice 0 mmd 0 reg 0 0.
Definition Wr (slice mmd reg val : Z) : op := Op slice 1 mmd 0 reg 0 val.

Ltac solve_job :=
  split; [unfold op_ok, is_u8, is_u16, is_u32; vm_compute; intuition discriminate|];
  split; [intros ? ?; simplify_eq; unfold MAX_CLIENTS; lia|unfold MAX_CLIENTS; cbn; first [lia|exact I]].
Ltac solve_jobs := repeat (apply Forall_cons; split; [solve_job|]); apply Forall_nil; exact I.

(** A page set by one client and used by another, a counter read by both, and a
    register written between the read and the write of the other. *)
Definition demo_hazards : list job :=
  [by_ptp (Wr 0 LAN80XX_MMD_HOST_PMA 0xf0ff 3); by_phy (R 0 LAN80XX_MMD_HOST_PMA 0xf010);
   by_ptp (R 1 LAN80XX_MMD_HOST_PCS 0x21); by_phy (R 1 LAN80XX_MMD_HOST_PCS 0x21);
   by_ptp (R 2 LAN80XX_MMD_GLOBAL 0x10); by_phy (Wr 2 LAN80XX_MMD_GLOBAL 0x10 5)].

(** The warnings of a run. *)
Definition warns (l : list job) : list string :=
  match exec_jobs l demo with Ok (_, s') => warnings (st_out s') | Fail _ => [] end.

Example demo_hazards_reported : warns demo_hazards =
  ["page-ride: C2(phytool) R s0 09 f010 on page set by C1(ptp4l)";
   "cor-poach: C2(phytool) R s1 0b 0021 0s after C1(ptp4l) (counters consumed)";
   "rmw-race: C2(phytool) W s2 1e 0010 0ms after R by C1(ptp4l)"]%string.
Proof. vm_compute. reflexivity. Qed.

Lemma lint_follows_history_witness :
  exists rs s' h lines, exec_jobs demo_hazards demo = Ok (rs, s') /\ ran demo_hazards demo rs h s' /\
    linted (rev h) lines /\ warnings (st_out s') = lines.
Proof.
  destruct (lint_follows_history demo_hazards demo demo_ctx eq_refl ltac:(unfold demo_hazards; solve_jobs))
    as (rs & s' & h & lines & H). exists rs, s', h, lines. exact H.
Defined.

(** The same operations, all by one client. *)
Definition demo_alone : list job :=
  [by_ptp (Wr 0 LAN80XX_MMD_HOST_PMA 0xf0ff 3); by_ptp (R 0 LAN80XX_MMD_HOST_PMA 0xf010);
   by_ptp (R 1 LAN80XX_MMD_HOST_PCS 0x21); by_ptp (R 1 LAN80XX_MMD_HOST_PCS 0x21);
   by_ptp (R 2 LAN80XX_MMD_GLOBAL 0x10); by_ptp (Wr 2 LAN80XX_MMD_GLOBAL 0x10 5)].

Lemma lint_single_client_quiet_witness :
  exists rs s', exec_jobs demo_alone demo = Ok (rs, s') /\ warnings (st_out s') = [].
Proof.
  exact (lint_single_client_quiet demo_alone 1 demo demo_ctx eq_refl
    ltac:(unfold demo_alone; solve_jobs) ltac:(repeat constructor)).
Defined.

(** ** Reports without a hazard *)

(** The counters of two slices are different registers; the second client's read
    is reported as if it consumed the first one's counter. *)
Example cor_poach_other_slice :
  warns [by_ptp (R 0 LAN80XX_MMD_HOST_PCS 0x21); by_phy (R 1 LAN80XX_MMD_HOST_PCS 0x21)] =
  ["cor-poach: C2(phytool) R s1 0b 0021 0s after C1(ptp4l) (counters consumed)"%string].
Proof. vm_compute. reflexivity. Qed.

(** The first client has finished its read-modify-write; the write of the second
    one after it is reported all the same. *)
Example rmw_race_after_write_back :
  warns [by_ptp (R 2 LAN80XX_MMD_GLOBAL 0x10); by_ptp (Wr 2 LAN80XX_MMD_GLOBAL 0x10 4);
         by_phy (Wr 2 LAN80XX_MMD_GLOBAL 0x10 5)] =
  ["rmw-race: C2(phytool) W s2 1e 0010 0ms after R by C1(ptp4l)"%string].
Proof. vm_compute. reflexivity. Qed.
