(* ===== verification/SessionExamples.v ===== *)
(** * A session from start-up to the answer

    The daemon started on the simulated board, a connection, a READ request: the
    states of the run are computed, and the theorems about reachable states are
    applied to them. *)
From S2P Require Import Prelude Bytes Proto Fmt State Queue Log Spi Exec OpSpec Mailbox Daemon Invariant.
From S2P Require Import Handlers Scheduler Exclusive TextSpec MainLoop Main Guarantees Liveness Sim Examples.

#[local] Existing Instances hw_backend hw_backend_ok.

(** The read of DEVICE_ID on slice 2 as a datagram. *)
Definition session_request : list Z :=
  hdr_encode (Hdr SPIPROXY_VER (type_code SPIPROXY_READ) 0 42 (Z.of_nat op_size)) ++ op_encode demo_read.

Definition session_world : sim :=
  Sim [(0, LAN80XX_MMD_GLOBAL, 0, 0x8023); (2, LAN80XX_MMD_GLOBAL, 0, 0x8023)] 0 1000 [session_request]
      [Accepted 11 4242 (Some "phytool"%string)].

(** The state a computation ends in. *)
Definition ends {A} (m : D sim A) (s : st sim) : st sim :=
  match m s with Ok (_, s') => s' | Fail _ => s end.

Definition session_boot : D sim bool := main_start (Boot true true true "") (fun _ => None).
Definition session0 : st sim := St (init_glob demo_config) session_world [].
Definition session1 : st sim := ends session_boot session0.
Definition session2 : st sim := ends (loop_turn 2 [None]) session1.
Definition session3 : st sim := ends (loop_turn 2 [Some 0%nat]) session2.

(** What has been sent. *)
Definition sends (out : list event) : list (Z * list Z) :=
  omap (fun e => match e with EvSend fd msg _ => Some (fd, msg) | _ => None end) out.

(** The response the client receives: OK, with the register's value. *)
Definition session_answer : list Z :=
  response (Hdr SPIPROXY_VER (type_code SPIPROXY_READ) 0 42 (Z.of_nat op_size)) SPIPROXY_OK
    (op_encode (op_set_val 0x8023 demo_read)).

Example session_sends : sends (st_out session3) = [(11, session_answer)].
Proof. vm_compute. reflexivity. Qed.

Definition returns {A} (m : D sim A) (s : st sim) : bool := match m s with Ok _ => true | Fail _ => false end.

Lemma ends_returns {A} (m : D sim A) s : returns m s = true -> exists a, m s = Ok (a, ends m s).
Proof. unfold returns, ends. destruct (m s) as [[a s']|]; [by exists a|done]. Qed.

Lemma ends_turn fuel ready cf s :
  reachable cf s -> g_stop (st_g s) = false -> ready_ok s ready -> returns (loop_turn fuel ready) s = true ->
  reachable cf (ends (loop_turn fuel ready) s).
Proof. intros Hr Hs Hok Hret. destruct (ends_returns _ _ Hret) as [[] H]. by eapply reach_turn. Qed.

Lemma boot_reachable w : reachable demo_config (ends session_boot (St (init_glob demo_config) w [])).
Proof.
  destruct (wp_returns _ _ _ (wp_main_start (Boot true true true "") (fun _ => None) (fun _ => False)
    (St (init_glob demo_config) w []) (init_orderly demo_config w [] demo_cfg_ok eq_refl))) as (r & s & H & _ & _ & ->).
  unfold ends, session_boot. rewrite H. by eapply (reach_start _ _ _ _ []).
Qed.

(** A turn in which somebody connects, and one with a datagram of a client. *)
Lemma accept_reachable s :
  reachable demo_config s -> g_stop (st_g s) = false -> returns (loop_turn 2 [None]) s = true ->
  reachable demo_config (ends (loop_turn 2 [None]) s).
Proof.
  intros Hr Hs Hret. apply ends_turn; [done|done| |done]. split; [apply NoDup_singleton|].
  intros c Hc. by rewrite list_elem_of_singleton in Hc.
Qed.

Lemma msg_reachable i s :
  reachable demo_config s -> g_stop (st_g s) = false -> (c_used <$> g_cl (st_g s) !! i) = Some true ->
  returns (loop_turn 2 [Some i]) s = true -> reachable demo_config (ends (loop_turn 2 [Some i]) s).
Proof.
  intros Hr Hs Hc Hret. apply ends_turn; [done|done| |done]. split; [apply NoDup_singleton|].
  intros c Hin. rewrite list_elem_of_singleton in Hin. simplify_eq. unfold connected.
  destruct (g_cl (st_g s) !! i) as [cl|]; [|done]. exists cl. cbn in Hc. by simplify_eq.
Qed.

Lemma session3_reachable : reachable demo_config session3.
Proof.
  apply (msg_reachable 0 session2); [|by vm_compute..]. apply (accept_reachable session1); [|by vm_compute..].
  apply boot_reachable.
Qed.

(** Among the events of the run is the response. *)
Lemma sends_in out fd msg : (fd, msg) ∈ sends out -> exists sent, EvSend fd msg sent ∈ out.
Proof.
  unfold sends. rewrite list_elem_of_omap. intros (e & He & Heq). destruct e; simplify_eq. by eexists.
Qed.

Lemma session_sent : exists sent, EvSend 11 session_answer sent ∈ st_out session3.
Proof. apply sends_in. rewrite session_sends. by left. Qed.

Lemma datagrams_well_formed_witness :
  exists req x body, hdr_ok req /\ session_answer = response req x body /\
    hdr_decode session_answer = Hdr SPIPROXY_VER (Z.lor (h_type req) SPIPROXY_RESP) (status_code x) (h_seq req)
                                    (Z.of_nat (length body)).
Proof.
  destruct session_sent as [sent Hs].
  destruct (datagrams_well_formed demo_config session3 11 session_answer sent demo_cfg_ok session3_reachable Hs)
    as (req & x & body & H1 & _ & H2 & H3 & _).
  exists req, x, body. split; [exact H1|]. split; [exact H2|exact H3].
Defined.


(** ** A request that waits for a claim *)

(** Two clients: the first claims the device for a millisecond, the second one's
    read has to wait. *)
Definition claim_world : sim :=
  Sim [(2, LAN80XX_MMD_GLOBAL, 0, 0x8023)] 0 1000
      [hdr_encode (Hdr SPIPROXY_VER (type_code SPIPROXY_CLAIM) 0 7 (Z.of_nat claim_size)) ++ claim_encode (ClaimReq 1 0 0);
       session_request]
      [Accepted 11 4242 (Some "ptp4l"%string); Accepted 12 4243 (Some "phytool"%string)].

Definition waiting0 : st sim := ends session_boot (St (init_glob demo_config) claim_world []).
Definition waiting1 : st sim := ends (loop_turn 2 [None]) waiting0.
Definition waiting2 : st sim := ends (loop_turn 2 [None]) waiting1.
Definition waiting3 : st sim := ends (loop_turn 2 [Some 0%nat]) waiting2.
Definition waiting4 : st sim := ends (loop_turn 2 [Some 1%nat]) waiting3.

Example waiting_state :
  n_queued (g_qs (st_g waiting4)) = 1 /\ claim_owner (g_claim (st_g waiting4)) = Some 0%nat /\
  claim_deadline (g_claim (st_g waiting4)) = 2000 /\ map fst (sends (st_out waiting4)) = [11].
Proof. vm_compute. repeat split. Qed.

Lemma waiting4_reachable : reachable demo_config waiting4.
Proof.
  apply (msg_reachable 1 waiting3); [|by vm_compute..]. apply (msg_reachable 0 waiting2); [|by vm_compute..].
  apply (accept_reachable waiting1); [|by vm_compute..]. apply (accept_reachable waiting0); [|by vm_compute..].
  apply boot_reachable.
Qed.

(** The wait ends after two milliseconds. *)
Definition late_world : sim := sim_do (st_w waiting4) (EvUsleep 2000).

Lemma waiting4_late : late waiting4 late_world.
Proof. split; [by vm_compute|]. intros _. by vm_compute. Qed.

(** The read is answered once the claim has run out. *)
Lemma requests_served_witness :
  exists s' ev, loop_turn turn_fuel [] (St (st_g waiting4) late_world (st_out waiting4)) = Ok (tt, s') /\
    n_queued (g_qs (st_g s')) = 0 /\ st_out s' = ev ++ st_out waiting4 /\ length (answers ev) = 1%nat.
Proof.
  destruct (reachable_orderly demo_config waiting4 demo_cfg_ok waiting4_reachable) as [[(qa & fa & I) Hm] _].
  pose proof (rep_count _ _ _ _ (inv_rep _ _ _ _ I)) as C.
  destruct (requests_served qa fa turn_fuel 1 waiting4 I Hm turn_fuel_ok
    ltac:(rewrite (proj1 waiting_state); lia) late_world waiting4_late) as (s' & H & _ & Hn & ev & Ho & Hk).
  exists s', ev. split; [exact H|]. split; [exact Hn|]. split; [exact Ho|].
  rewrite <-Hk, queued_keys_length. rewrite (proj1 waiting_state) in C. apply Nat2Z.inj. symmetry. exact C.
Defined.
