(* ===== verification/ProgramExamples.v ===== *)
(** * Runs of the whole programs

    The daemon from its command line to its exit status on the simulated board,
    and the command lines of both programs. *)
From S2P Require Import Prelude Bytes Proto Fmt ParseUint Getopt State Queue Log Spi Exec OpSpec Mailbox Daemon Invariant.
From S2P Require Import Handlers Scheduler Exclusive TextSpec MainLoop Main Guarantees Liveness Cli Program.
From S2P Require Import Sim Examples SessionExamples.

#[local] Existing Instances hw_backend hw_backend_ok.

(** ** Command lines *)

Definition plain_sys : sys := Sys (fun f => bool_decide (f = "ops.log"%string)) "Permission denied" (Boot true true true "") (fun _ => None).

(** Options in any order, in one word or two, other words in between. *)
Example command_line_mixed :
  command_line plain_sys ["lan80xx-spid"; "-p2"; "x"; "-d"; "/dev/spidev0.0"; "-Lops.log"; "--"; "-h"]%string =
  inl (Config "/dev/spidev0.0" SPIPROXY_SOCK 2 5000000 None (-1) true false).
Proof. vm_compute. reflexivity. Qed.

(** Wrong ones: an unknown letter, a missing argument, no device, a bad number, a
    log file that cannot be created. *)
Example command_line_unknown :
  command_line plain_sys ["spid"; "-d"; "/dev/spidev0.0"; "-x"]%string =
  inr ["spid: invalid option -- 'x'" +:+ nl; usage "spid"].
Proof. vm_compute. reflexivity. Qed.
Example command_line_missing :
  command_line plain_sys ["spid"; "-d"]%string = inr ["spid: option requires an argument -- 'd'" +:+ nl; usage "spid"].
Proof. vm_compute. reflexivity. Qed.
Example command_line_no_device : command_line plain_sys ["spid"; "-p"; "3"]%string = inr [usage "spid"].
Proof. vm_compute. reflexivity. Qed.
Example command_line_bad_pad :
  command_line plain_sys ["spid"; "-d"; "/dev/spidev0.0"; "-p"; "16"]%string =
  inr ["invalid numeric argument '16'" +:+ nl].
Proof. vm_compute. reflexivity. Qed.
Example command_line_bad_log :
  command_line plain_sys ["spid"; "-L"; "/x"; "-d"; "/dev/spidev0.0"]%string = inr ["/x: Permission denied" +:+ nl].
Proof. vm_compute. reflexivity. Qed.

(** ** A run of the daemon *)

Definition later (t : Z) (w : sim) : sim := Sim (sm_regs w) (sm_latch w) (sm_time w + 50)%N (sm_inbox w) (sm_conns w).

(** Somebody connects, sends a request, and SIGTERM interrupts the third wait. *)
Definition run_waits : list (wait (W := sim)) :=
  [Wait later (WaitReady [None]) false; Wait later (WaitReady [Some 3; Some 0; None; Some 0]%nat) false;
   Wait later WaitIntr true; Wait later (WaitReady [None]) false].
Definition run_argv : list string := ["lan80xx-spid"; "-d"; "/dev/spidev0.0"]%string.

(** Exit status, datagrams sent and the last events of a run. *)
Definition shown (r : res (outcome sim)) : option (option Z * list (Z * list Z) * list event) :=
  match r with
  | Ok (Outcome r _ (Some s)) => Some (r, sends (st_out s), take 3 (st_out s))
  | _ => None
  end.

Example run_shown :
  shown (daemon_main 2 run_argv plain_sys run_waits session_world) =
  Some (Some EXIT_SUCCESS, [(11, session_answer)],
        [EvCloselog; EvSyslog LOG_NOTICE "lan80xx-spid: exit"; EvUnlink SPIPROXY_SOCK]).
Proof. vm_compute. reflexivity. Qed.

(** Without a signal it is still serving when the waits are used up. *)
Example run_on : fst <$> (fst <$> shown (daemon_main 2 run_argv plain_sys (take 2 run_waits) session_world)) = Some None.
Proof. vm_compute. reflexivity. Qed.

(** A locked device ends it. *)
Example run_locked :
  fst <$> (fst <$> shown (daemon_main 2 run_argv (Sys (fun _ => false) "" (Boot true false true "") (fun _ => None))
    run_waits session_world)) = Some (Some EXIT_FAILURE).
Proof. vm_compute. reflexivity. Qed.

(** A path that does not fit [sun_path] is cut when the socket is bound, but not
    when an old socket is removed: the socket that is bound stays behind. *)
Fixpoint letters_a (n : nat) : string := match n with O => ""%string | S n' => String "a" (letters_a n') end.
Example long_socket_path :
  let p := letters_a 120 in
  exists s, daemon_main 2 (run_argv ++ ["-s"; p]%string) plain_sys run_waits session_world =
    Ok (Outcome (Some EXIT_SUCCESS) [] (Some s)) /\
  omap (fun e => match e with EvUnlink q => Some (inl q) | EvBind q => Some (inr q) | _ => None end) (st_out s) =
    [inl p; inr (letters_a 107); inl p].
Proof. eexists. split; [vm_compute; reflexivity|]. vm_compute. reflexivity. Qed.

Lemma run_waits_ok : Forall wait_ok run_waits.
Proof.
  unfold run_waits. repeat constructor; intros t w; apply sim_now_mono; cbn; lia.
Qed.

Lemma daemon_main_runs_witness :
  exists o s, daemon_main turn_fuel run_argv plain_sys run_waits session_world = Ok o /\
    oc_exit o = Some EXIT_SUCCESS /\ oc_state o = Some s /\ orderly s.
Proof.
  assert (command_line plain_sys run_argv = inl (Config "/dev/spidev0.0" SPIPROXY_SOCK 1 5000000 None (-1) false false)) as Hc
    by (vm_compute; reflexivity).
  destruct (daemon_main_runs turn_fuel run_argv plain_sys run_waits session_world turn_fuel_ok run_waits_ok)
    as (o & Ho & H).
  { intros cf Hcf. rewrite Hc in Hcf. injection Hcf as <-. unfold names_fit. apply Nat.leb_le. vm_compute. reflexivity. }
  rewrite Hc in H. destruct H as (_ & s & Hs & Hord & Hr). exists o, s. split; [exact Ho|].
  split; [|split; [exact Hs|exact Hord]]. exact (proj1 Hr).
Defined.

(** ** The client's command line *)

Section ClientLine.
Context {P : Type} {PE : Peer P} {QS : Qsort}.

(** Options may follow the command. *)
Example cli_program_mailbox fuel (c : cli P) :
  cli_program fuel ["spiproxy-cli"; "mailbox"; "1"; "-t250"; "0x02"; "7"]%string c =
  cli_main fuel [CliTimeout "250"] ["mailbox"; "1"; "0x02"; "7"]%string c.
Proof. reflexivity. Qed.

Example cli_program_unknown fuel (c : cli P) :
  exists c', cli_program fuel ["cli"; "-q"; "stats"]%string c = Ok (EXIT_FAILURE, c') /\
    cl_log c' = [CliErr ("see header comment for usage" +:+ nl); CliErr ("cli: invalid option -- 'q'" +:+ nl)] ++ cl_log c.
Proof. eexists. split; reflexivity. Qed.

End ClientLine.
