(* ===== verification/CliExamples.v ===== *)
(** * The client's theorems at work

    Concrete peers for the command-line client: a scripted one that answers
    with given datagrams, and the daemon on the simulated chip. *)
From Stdlib Require Import Sorted.
From stdpp Require Import relations.
From S2P Require Import Prelude Bytes Proto Fmt ParseUint State Queue Log Spi Exec OpSpec Daemon Invariant Handlers.
From S2P Require Import Mailbox MainLoop TextReader TextSpec Calm MailboxSpec Wire Main Cli CliSpec.
From S2P Require Import EndToEnd MailboxEndToEnd TextEndToEnd Sim Examples.

(** ** A sorting routine *)

Fixpoint isort_insert (cmp : Z -> Z -> Z) (x : Z) (l : list Z) : list Z :=
  match l with
  | [] => [x]
  | y :: l' => if cmp x y <=? 0 then x :: l else y :: isort_insert cmp x l'
  end.
#[export] Instance isort : Qsort := fun cmp l => foldr (isort_insert cmp) [] l.

Lemma isort_insert_perm cmp x l : isort_insert cmp x l ≡ₚ x :: l.
Proof.
  induction l as [|y l IH]; cbn [isort_insert]; [done|]. case_match; [done|]. by rewrite IH, Permutation_swap.
Qed.

Lemma isort_insert_sorted cmp x l :
  (forall y, y ∈ l -> (cmp x y <= 0 <-> x <= y)) -> StronglySorted Z.le l ->
  StronglySorted Z.le (isort_insert cmp x l).
Proof.
  intros Hc Hs. induction Hs as [|y l Hs IH Hall]; cbn [isort_insert]; [by repeat constructor|].
  pose proof (Hc y ltac:(set_solver)) as Hy. case_match eqn:Hle.
  - apply Z.leb_le, Hy in Hle. constructor; [by constructor|]. constructor; [done|].
    eapply Forall_impl; [exact Hall|]. cbn. lia.
  - apply Z.leb_gt in Hle. constructor; [apply IH; intros z Hz; apply Hc; set_solver|].
    rewrite isort_insert_perm. constructor; [lia|done].
Qed.

Lemma isort_perm cmp l : isort cmp l ≡ₚ l.
Proof. induction l as [|x l IH]; [done|]. cbn. by rewrite isort_insert_perm, IH. Qed.

#[export] Instance isort_ok : QsortOk isort.
Proof.
  split; [exact isort_perm|]. intros cmp l Hc. induction l as [|x l IH]; cbn; [constructor|].
  apply isort_insert_sorted.
  - intros y Hy. assert (y ∈ l) by by rewrite <-(isort_perm cmp l). apply Hc; set_solver.
  - apply IH. intros a b Ha Hb. apply Hc; set_solver.
Qed.

(** ** A scripted peer *)

(** The datagrams it will answer with, and its clock. *)
Record script := Script { sc_answers : list (list Z); sc_time : Z }.

#[export] Instance script_peer : Peer script := {|
  p_connect p := (p, Some 3);
  p_send p m := (p, Z.of_nat (length m));
  p_recv p :=
    match sc_answers p with
    | [] => (p, (-1, []))
    | m :: rest => let m' := u8 <$> take MSG_BUF m in
                   (Script rest (sc_time p), (Z.of_nat (length m'), m'))
    end;
  p_clock p := (Script (sc_answers p) (sc_time p + 1), (sc_time p, 0));
  p_sleep p us := p;
  p_strerror p := "Connection reset by peer";
  p_calloc p n := true;
  p_stack p n := replicate n 0xa5 |}.

#[export] Instance script_peer_ok : PeerOk script script_peer.
Proof.
  split.
  - intros p fd [= <-]. lia.
  - intros p. cbn [p_recv script_peer]. destruct (sc_answers p) as [|m rest]; cbn [snd].
    + split; [lia|]. split; [done|constructor].
    + rewrite length_fmap, length_take. split; [lia|]. split; [lia|].
      apply Forall_fmap, Forall_true. intros. apply u8_range.
  - intros p n. split; [apply length_replicate|]. apply Forall_replicate. unfold is_u8. lia.
Qed.

Definition fresh_cli (answers : list (list Z)) : cli script := Cli (-1) SPIPROXY_SOCK 0 (Script answers 0) [].

(** ** The theorems *)

Lemma bench_percentiles_witness :
  exists vmin p50 p90 p99 vmax,
    bench_report 10 (qsort cmp_u32 [30; 10; 50; 20; 90; 40; 60; 80; 70; 100]) = Ok (vmin, p50, p90, p99, vmax) /\
    vmin <= p50 <= p90 /\ p90 = 100.
Proof.
  destruct (bench_percentiles 10 [30; 10; 50; 20; 90; 40; 60; 80; 70; 100])
    as (a & b & c & d & e & Hr & Hle & _ & _ & _ & _ & H90 & _);
    [lia|reflexivity|by repeat constructor|].
  exists a, b, c, d, e. split; [exact Hr|]. split; [exact Hle|]. vm_compute in H90. by injection H90.
Defined.

(** A response cut short in its body. *)
Lemma cli_stays_in_bounds_witness :
  cli_main 0 [] ["read"; "0"; "30"; "0"]%string
    (fresh_cli [response (Hdr 1 1 0 1 12) SPIPROXY_OK [1; 2; 3]]) <> Fail Oob.
Proof. apply cli_stays_in_bounds. done. Defined.

Lemma parse_resp_reads_response_witness :
  parse_resp (response (demo_hdr SPIPROXY_READ 12) SPIPROXY_OK (op_encode demo_read) ++ [7; 7]) 24 42 1
    (Some (replicate 12 0, 12)) (fresh_cli []) =
  Ok ((0, Some (op_encode demo_read, 12)), fresh_cli []).
Proof.
  refine (parse_resp_reads_response (demo_hdr SPIPROXY_READ 12) SPIPROXY_OK (op_encode demo_read) [7; 7]
    (replicate 12 0) 12 (fresh_cli []) _ _ _); [apply demo_hdr_ok; unfold is_u32; lia| |cbn; lia].
  rewrite length_op_encode. pose proof msg_max_big. unfold op_size. lia.
Defined.

(** A process is started beside the client in slot 0 of the demonstration daemon. *)
Definition demo_link (g : glob) : link sim := Link (St g (Wired demo_world None None [] false) []) None [].
Definition phytool : accepted := Accepted 11 4242 (Some "phytool"%string).
Definition second : accepted := Accepted 12 4243 (Some "phytool"%string).

Lemma demo_at_rest : at_rest (demo_link demo_glob).
Proof. split; [split; [eexists; exact demo_inv|done|done]|]. cbn. unfold MAX_CLIENTS. lia. Qed.

Lemma demo_takes a : takes (W := sim) a.
Proof. intros w m. cbn. lia. Qed.

Lemma cli_read_end_to_end_witness :
  exists c', cli_main (PE := daemon_peer phytool 1) 0 [] ["read"; "2"; "0x1e"; "0"]%string
      (process_start (demo_link demo_glob)) = Ok (EXIT_SUCCESS, c') /\
    head (cl_log c') =
      Some (CliOut ("status=0 slice=2 mmd=0x1e reg=0x0000 val=0x00008023" +:+ nl)).
Proof.
  destruct (cli_read_end_to_end phytool 0 0 "2" "0x1e" "0" 2 30 0 (demo_link demo_glob) demo_at_rest
    (demo_takes phytool)) as (c' & w & Hr & _ & Hreg & Hlog & _); [reflexivity..|]. exists c'. split; [exact Hr|].
  rewrite Hlog, (Hreg eq_refl). reflexivity.
Defined.

Lemma cli_texts_end_to_end_witness :
  exists t c', cli_main (PE := daemon_peer phytool 1) 0 [] ["stats"]%string (process_start (demo_link demo_glob)) =
      Ok (EXIT_SUCCESS, c') /\
    head (cl_log c') = Some (CliOut t) /\
    read_stats t = Some (StatsReport "/dev/spidev0.0" 5000000 1 "lan8023-rst" 0 0 0 0 0 0 0
      [ClientReport 1 "ptp4l" 4321 0 0 0; ClientReport 2 "phytool" 4242 1 0 0]).
Proof.
  destruct (cli_texts_end_to_end true phytool 0 0 [] (demo_link demo_glob) demo_at_rest (demo_takes phytool))
    as (t & c' & Hr & Hlog & (_ & Ht) & _).
  - split; [apply length_replicate|]. split; [reflexivity|]. intros k e _ He. discriminate He.
  - cbn. lia.
  - unfold names_nul_free, nul_free. apply (bool_decide_unpack _). vm_compute. exact I.
  - exists t, c'. split; [exact Hr|]. rewrite Hlog. split; [reflexivity|]. apply Ht.
    split; [|split]; [split; unfold char_free; apply (bool_decide_unpack _); vm_compute; exact I..|].
    unfold plain_comm, plain_name, char_free. apply (bool_decide_unpack _). vm_compute. exact I.
Defined.

Lemma cli_write_end_to_end_witness :
  exists c', cli_main (PE := daemon_peer phytool 1) 0 [] ["write"; "2"; "0x1e"; "16"; "0xcafe"]%string
      (process_start (demo_link demo_glob)) = Ok (EXIT_SUCCESS, c') /\
    head (cl_log c') = Some (CliOut ("status=0" +:+ nl)).
Proof.
  destruct (cli_write_end_to_end phytool 0 0 "2" "0x1e" "16" "0xcafe" 2 30 16 0xcafe (demo_link demo_glob) demo_at_rest
    (demo_takes phytool)) as (c' & Hr & Hlog & _); [reflexivity..|]. exists c'. split; [exact Hr|]. rewrite Hlog. reflexivity.
Defined.

Lemma cli_write_then_read_witness :
  exists c1 l2 c2, cli_main (PE := daemon_peer phytool 1) 0 [] ["write"; "2"; "0x1e"; "16"; "0xcafe"]%string
      (process_start (demo_link demo_glob)) = Ok (EXIT_SUCCESS, c1) /\
    hang_up phytool 1 (cl_peer c1) = Some l2 /\
    cli_main (PE := daemon_peer second 1) 0 [] ["read"; "2"; "30"; "0x10"]%string (process_start l2) =
      Ok (EXIT_SUCCESS, c2) /\
    head (cl_log c2) = Some (CliOut ("status=0 slice=2 mmd=0x1e reg=0x0010 val=0x0000cafe" +:+ nl)).
Proof.
  destruct (cli_write_then_read phytool second 0 0 "2" "0x1e" "16" "0xcafe" "2" "30" "0x10" 2 30 16 0xcafe
    (demo_link demo_glob) demo_at_rest (demo_takes phytool) (demo_takes second)) as (c1 & l2 & c2 & Hw & Hup & Hr & Hlog);
    [reflexivity..|].
  exists c1, l2, c2. split; [exact Hw|]. split; [exact Hup|]. split; [exact Hr|]. rewrite Hlog. reflexivity.
Defined.

(** A second process connected in slot 1. *)
Definition phy_client : client := Client 11 true 2 4242 "phytool" 0 0 0.
Definition duo_glob : glob := set_g_cl (fun _ => <[1%nat := phy_client]> (g_cl demo_glob)) demo_glob.

Lemma duo_inv : inv [[]; []; []] (seq 0 MAX_QITEMS) [] duo_glob.
Proof.
  apply (inv_new_client _ _ _ _ zero_client); [exact demo_inv|reflexivity|reflexivity|].
  unfold client_ok, phy_client, is_u32, is_u64, COMM_PATH_MAX. cbn. lia.
Qed.

(** The idle MCU stays idle while nothing is written. *)
Lemma demo_mcu_idle w : by_acts off_bus demo_world w -> Z.land (mb_reg w 0 MB_FLAG) MB_F_BUSY = 0.
Proof.
  intros H. assert (mb_reg w 0 MB_FLAG = mb_reg demo_world 0 MB_FLAG) as ->; [|reflexivity].
  induction H as [|w1 w2 w3 (a & _ & Hc) _ IH]; [done|]. rewrite IH. apply (sim_calm w1); [by exists a|reflexivity].
Qed.

(** Command 0x10 with two payload bytes; the MCU echoes. *)
Definition echo_mb : mb := Mb 0 0x10 2 250.

Lemma echo_packet : mb_request echo_mb [0xca; 0xfe] = [0x10; 0xff; 8; 0; 0xca; 0xfe; 182; 60].
Proof. vm_compute. reflexivity. Qed.

Lemma cli_mailbox_end_to_end_witness :
  exists c', cli_main (PE := daemon_peer phytool (S (S poll_fuel))) 0 [CliTimeout "250"]
      ["mailbox"; "0x10"; "ca"; "fe"]%string (process_start (demo_link demo_glob)) = Ok (EXIT_SUCCESS, c') /\
    take 4 (cl_log c') = [CliOut nl; CliOut "fe "; CliOut "ca ";
      CliOut ("mailbox: status=0 resp_id=0x10 payload_len=2" +:+ nl)].
Proof.
  assert (mc_mcu (MailboxChip := sim_mailbox) (mb_request echo_mb [0xca; 0xfe]) =
    [0x10; 0xff; 8; 0; 0xca; 0xfe; 182; 60]) as Hmcu.
  { change (mc_mcu (MailboxChip := sim_mailbox)) with sim_mcu. rewrite echo_packet. reflexivity. }
  destruct (cli_mailbox_end_to_end phytool poll_fuel 0 [CliTimeout "250"] 250 "0x10" ["ca"; "fe"]%string
    0x10 [0xca; 0xfe] (demo_link demo_glob) demo_at_rest (demo_takes phytool))
    as (code & c' & Hrun & x & id & data & [(w & _ & Hend) _] & -> & Hlog).
  - constructor. reflexivity.
  - reflexivity.
  - repeat constructor.
  - unfold SPIPROXY_MB_MAX. cbn. lia.
  - exact demo_mcu_idle.
  - change (framed (mc_mcu (mb_request echo_mb [0xca; 0xfe]))). rewrite Hmcu. split; [cbn; lia|].
    split; [repeat constructor; unfold is_u8; lia|reflexivity].
  - pose proof poll_fuel_ok. lia.
  - exists c'. destruct Hend as [Hend|(_ & w1 & w2 & tx & [Hf _] & Hf' & _)]; [|exfalso; clear -Hf Hf'; congruence].
    change (mb_reference 0x10 (mc_mcu (mb_request echo_mb [0xca; 0xfe])) = (x, id, data)) in Hend.
    rewrite Hmcu in Hend. vm_compute in Hend. injection Hend as <- <- <-. split; [exact Hrun|].
    rewrite Hlog. reflexivity.
Defined.

(** A peer that announces more payload than it sends makes the mailbox command
    read past the end of its response buffer: [rmb->payload_len] is trusted. *)
Theorem cli_mailbox_overread :
  cli_main 0 [] ["mailbox"; "1"]%string
    (fresh_cli [response (Hdr 1 (type_code SPIPROXY_MAILBOX) 0 1 8) SPIPROXY_OK (mb_encode (Mb 0 1 0xffff 0))]) =
  Fail Oob.
Proof. vm_compute. reflexivity. Qed.
