(* ===== verification/QuirkExamples.v ===== *)
(** * Runs the comments do not tell of

    Concrete runs on the simulated board in which the program behaves otherwise
    than its comments say or its users expect. *)
From S2P Require Import Prelude Bytes Proto Fmt ParseUint State Queue Log Spi Exec OpSpec Mailbox Daemon Invariant.
From S2P Require Import Main Cli Sim Examples CliExamples.

(** ** Requests of two clients *)

(** A request of the client in [slot], as a datagram. *)
Definition request (slot : nat) (type : spiproxy_type) (seq : Z) (body : list Z) : nat * list Z :=
  (slot, hdr_encode (Hdr SPIPROXY_VER (type_code type) 0 seq (Z.of_nat (length body))) ++ body).

Section Run.
Context {WW : World sim}.

(** The datagrams arrive, then the scheduler runs. *)
Fixpoint arrive (l : list (nat * list Z)) : D sim unit :=
  match l with
  | [] => returnM tt
  | (slot, m) :: l' =>
      client_frame slot (m ++ replicate (MSG_BUF - length m) 0) (Z.of_nat (length m)) ;; arrive l'
  end.
Definition run (l : list (nat * list Z)) (g : glob) (w : sim) : option (st sim) :=
  match (arrive l ;; drain_queues 9 64) (St g w []) with Ok (_, s) => Some s | Fail _ => None end.

(** Sequence number and status of the answers, oldest first. *)
Definition answer_status (e : event) : option (Z * Z) :=
  match e with EvSend _ m _ => let h := hdr_decode m in Some (h_seq h, h_flags h) | _ => None end.
Definition statuses (s : st sim) : list (Z * Z) := reverse (omap answer_status (st_out s)).

End Run.

(** ** The mailbox flag *)

(** A board whose MCU of slice 0 does not answer. *)
Definition silent_spi (w : sim) (tx : list Z) : sim * (Z * list Z) :=
  match frame_decode tx with
  | Some (Frame true 0 mmd reg val) =>
      if is_flag mmd reg && (val =? MB_SET_REQ) then (w, (Z.of_nat (length tx), latch_bytes 0)) else sim_spi w tx
  | _ => sim_spi w tx
  end.
Definition silent_world : World sim := {|
  w_time := sim_now;
  w_spi := silent_spi;
  w_clock w := (w, (sim_now w / USEC_PER_SEC, sim_now w mod USEC_PER_SEC * 1000));
  w_send w fd msg := (w, Z.of_nat (length msg));
  w_recv := sim_recv;
  w_accept := sim_accept;
  w_do := sim_do;
  w_undef w := 0xdeadbeef;
  w_stack w n := replicate n 0xa5 |}.

(** A transaction with the silent MCU, one with another slice's MCU, and a write
    of another client to the command window of the first. *)
Definition mb_on (slot : nat) (slice seq : Z) : nat * list Z :=
  request slot SPIPROXY_MAILBOX seq (mb_encode (Mb slice 0x10 0 1)).
Definition poke (slot : nat) (seq : Z) : nat * list Z :=
  request slot SPIPROXY_WRITE seq (op_encode (Op 0 1 LAN80XX_MMD_GLOBAL 0 MB_CMD_ADDR 0 0)).
Definition mb_run (l : list (nat * list Z)) : option (st sim) := run (WW := silent_world) l duo_glob demo_world.

(** The write is refused while the transaction waits ... *)
Example guard_holds : statuses <$> mb_run [mb_on 0 0 1; poke 1 3] =
  Some [(3, status_code SPIPROXY_EBUSY); (1, status_code SPIPROXY_ETIMEDOUT)].
Proof. vm_compute. reflexivity. Qed.

(** ... but not after the transaction of the other slice, served meanwhile. *)
Example guard_lost : statuses <$> mb_run [mb_on 0 0 1; mb_on 1 1 2; poke 1 3] =
  Some [(2, status_code SPIPROXY_OK); (3, status_code SPIPROXY_OK); (1, status_code SPIPROXY_ETIMEDOUT)].
Proof. vm_compute. reflexivity. Qed.

(** Client 1's transaction ends under the name of client 2. *)
Example context_not_restored : (lx_cid ∘ g_lctx ∘ st_g) <$> mb_run [mb_on 0 0 1; poke 1 3] = Some 2.
Proof. vm_compute. reflexivity. Qed.

(** A claim that is granted while a transaction of another client waits does not
    stop it: the transaction goes on using the bus of the claimed device. *)
Definition claim_by (slot : nat) (seq : Z) : nat * list Z :=
  request slot SPIPROXY_CLAIM seq (claim_encode (ClaimReq 60000 0 0)).
Fixpoint frames_after (seq : Z) (out : list event) : nat :=
  match out with
  | EvSend _ m _ :: out' => if h_seq (hdr_decode m) =? seq then 0 else frames_after seq out'
  | EvSpi _ :: out' => S (frames_after seq out')
  | _ :: out' => frames_after seq out'
  | [] => 0
  end.
Example claim_granted_during_mailbox :
  (fun s => (statuses s, claim_owner (g_claim (st_g s)), frames_after 2 (st_out s))) <$>
    mb_run [mb_on 0 0 1; claim_by 1 2] =
  Some ([(2, status_code SPIPROXY_OK); (1, status_code SPIPROXY_ETIMEDOUT)], Some 1%nat, 5%nat).
Proof. vm_compute. reflexivity. Qed.

(** The byte after the checksum is written to the MCU: here 0xa5, the content of
    the stack. *)
Example mailbox_leaks_stack :
  (fun s => Z.shiftr (sim_reg (st_w s) 1 LAN80XX_MMD_GLOBAL (MB_CMD_ADDR + 1)) 24) <$>
    run [request 0 SPIPROXY_MAILBOX 1 (mb_encode (Mb 1 0x10 1 0) ++ [0x77])] duo_glob demo_world = Some 0xa5.
Proof. vm_compute. reflexivity. Qed.

(** ** Under a claim *)

(** Client 0 holds the device; requests of client 1 arrive. *)
Definition claimed_glob : glob := set_g_claim (fun _ => demo_claim) duo_glob.
Definition pulses (out : list event) : nat :=
  length (filter (fun e => match e with EvGpioSet _ _ => true | _ => false end = true) out).

(** A reset of the chip is executed at once, although the device is claimed. *)
Example reset_under_claim :
  (fun s => (statuses s, pulses (st_out s))) <$>
    run [request 1 SPIPROXY_RESET 5 (reset_encode (ResetReq 0 0))] claimed_glob demo_world =
  Some ([(5, status_code SPIPROXY_OK)], 2%nat).
Proof. vm_compute. reflexivity. Qed.

(** A read waits, and meanwhile the main loop polls without a pause. *)
Example waiting_spins :
  (fun s => (statuses s, wait_timeout (st_g s))) <$>
    run [request 1 SPIPROXY_READ 5 (op_encode demo_read)] claimed_glob demo_world = Some ([], 0).
Proof. vm_compute. reflexivity. Qed.

(** ** Diagnostics *)

(** The body of the answers. *)
Definition answer_bodies (s : st sim) : list (list Z) :=
  omap (fun e => match e with EvSend _ m _ => Some (drop hdr_size m) | _ => None end) (st_out s).

(** The ring's index wraps after 2^32 operations: right after that TRACE
    lists nothing. *)
Example trace_empty_after_wrap :
  answer_bodies <$> run [request 0 SPIPROXY_TRACE 9 []]
    (set_g_ring_w (fun w => u32 (w + 1)) (set_g_ring_w (fun _ => 2 ^ 32 - 1) duo_glob)) demo_world = Some [[]].
Proof. vm_compute. reflexivity. Qed.

(** A device path longer than the text buffer makes STATS run past it. *)
Fixpoint long_path (n : nat) : string := match n with O => "" | S n' => String "a" (long_path n') end.
Example stats_overrun :
  exec_stats 0 (demo_hdr SPIPROXY_STATS 0)
    (St (set_g_cfg (fun _ => Config (long_path SPIPROXY_MSG_MAX) SPIPROXY_SOCK 1 5000000 None (-1) false false) demo_glob)
       demo_world []) = Fail Oob.
Proof. vm_compute. reflexivity. Qed.

(** The log has no name for a RESET. *)
Example reset_unnamed : type_name (type_code SPIPROXY_RESET) = "?"%string.
Proof. reflexivity. Qed.

(** ** The client without an answer *)

(** What stats prints when the daemon has hung up: its uninitialised buffer. *)
Definition printed (r : res (Z * cli script)) : list nat :=
  match r with
  | Ok (_, c) => omap (fun e => match e with CliOut s => Some (String.length s) | _ => None end) (cl_log c)
  | Fail _ => []
  end.
Example stats_prints_garbage : printed (cli_main 0 [] ["stats"]%string (fresh_cli [])) = [SPIPROXY_MSG_MAX].
Proof. vm_compute. reflexivity. Qed.

(** The mailbox command prints an answer it has not got. *)
Example mailbox_prints_garbage :
  exists c', cli_main 0 [] ["mailbox"; "1"]%string (fresh_cli []) = Ok (EXIT_FAILURE, c') /\
    head (cl_log c') = Some (CliOut ("mailbox: status=-1 resp_id=0xa5 payload_len=42405" +:+ nl)).
Proof. eexists. split; vm_compute; reflexivity. Qed.
