(* ===== verification/RegsHeader.v ===== *)
(** * The generated register header (gen_lan80xx_regs_header.py)

    The build turns the vendor's register headers into lan80xx_regs.h, whose
    enumerators the daemon and the client are compiled with.  The script is
    modelled on the lines of its input files; Python's exceptions are values of
    [py].  The vendor's files themselves are not part of the repository. *)
From stdpp Require Import gmap sorting.
From S2P Require Import Prelude Fmt ParseUint State TextReader.

(** ** Python *)

Inductive py_error := FileNotFoundError | ValueError.
Inductive py (A : Type) := PyOk (a : A) | PyRaise (e : py_error).
Arguments PyOk {A} a.
Arguments PyRaise {A} e.

Definition py_bind {A B} (m : py A) (k : A -> py B) : py B :=
  match m with PyOk a => k a | PyRaise e => PyRaise e end.
Notation "'py!' x := m 'in' k" := (py_bind m (fun x => k))
  (at level 10, x name, m at level 100, k at level 200) : spid_scope.
Local Open Scope spid_scope.

Fixpoint py_fold {A B} (f : A -> B -> py A) (a : A) (l : list B) : py A :=
  match l with
  | [] => PyOk a
  | x :: l' => py! a' := f a x in py_fold f a' l'
  end.

(** [int(text, 0)] of the texts the expressions below match: a hexadecimal
    number, or a decimal one, in which a leading zero is an error unless all
    digits are zero. *)
Definition py_int (text : string) : py Z :=
  match hex_prefix text with
  | Some h => PyOk (scan_digits 16 h 0 0).1.1
  | None =>
      let v := (scan_digits 10 text 0 0).1.1 in
      if leading_zero text && negb (v =? 0) then PyRaise ValueError else PyOk v
  end.

(** ** Regular expressions *)

(** \s, [A-Z0-9_], \d and [0-9a-fA-F] on ASCII text. *)
Definition py_space (c : Ascii.ascii) : bool :=
  let n := Ascii.nat_of_ascii c in is_space c || ((28 <=? n) && (n <=? 31))%nat.
Definition ident_char (c : Ascii.ascii) : bool :=
  let n := Ascii.nat_of_ascii c in
  ((65 <=? n) && (n <=? 90))%nat || ((48 <=? n) && (n <=? 57))%nat || (n =? 95)%nat.
Definition digit_of (base : Z) (c : Ascii.ascii) : bool := bool_decide (is_Some (digit_in base c)).

(** The longest prefix of characters in a class, and the rest.  No class below
    meets what may follow it, so that greedy matching never backtracks. *)
Fixpoint span (p : Ascii.ascii -> bool) (s : string) : string * string :=
  match s with
  | String c s' => if p c then let '(t, r) := span p s' in (String c t, r) else (""%string, s)
  | EmptyString => (""%string, ""%string)
  end.

Definition star (p : Ascii.ascii -> bool) (s : string) : string := (span p s).2.
Definition plus (p : Ascii.ascii -> bool) (s : string) : option (string * string) :=
  match span p s with (EmptyString, _) => None | r => Some r end.

Fixpoint lit (p s : string) : option string :=
  match p, s with
  | EmptyString, _ => Some s
  | String a p', String c s' => if Ascii.eqb a c then lit p' s' else None
  | _, EmptyString => None
  end.

(** [(<prefix>[A-Z0-9_]+)] and [(0[xX][0-9a-fA-F]+|\d+)]. *)
Definition ident (prefix s : string) : option (string * string) :=
  r ← lit prefix s; '(t, r') ← plus ident_char r; Some (prefix +:+ t, r').
Definition number (s : string) : option (string * string) :=
  match hex_prefix s, s with
  | Some h, String z (String x _) => let '(t, r) := span (digit_of 16) h in Some (String z (String x t), r)
  | _, _ => plus (digit_of 10) s
  end.

(** REG_RE: name, MMD symbol and offset of a register line. *)
Definition REG_RE (line : string) : option (string * string * string) :=
  r ← lit "#define" (star py_space line);
  '(_, r) ← plus py_space r;
  '(name, r) ← ident "LAN80XX_" r;
  '(_, r) ← plus py_space r;
  r ← lit "(LAN80XX_IOREG(" r;
  '(mmd, r) ← ident "MMD_ID_" (star py_space r);
  r ← lit "," (star py_space r);
  r ← match star py_space r with
      | String c r' => if Ascii.eqb c "0" || Ascii.eqb c "1" then Some r' else None
      | EmptyString => None
      end;
  r ← lit "," (star py_space r);
  '(offset, r) ← number (star py_space r);
  r ← lit ")" (star py_space r);
  r ← lit ")" (star py_space r);
  if bool_decide (star py_space r = ""%string) then Some (name, mmd, offset) else None.

(** MMD_RE: symbol and number of an MMD; the text after it does not matter. *)
Definition MMD_RE (line : string) : option (string * string) :=
  r ← lit "#define" (star py_space line);
  '(_, r) ← plus py_space r;
  '(name, r) ← ident "MMD_ID_" r;
  '(_, r) ← plus py_space r;
  r ← lit "(" r;
  '(v, r) ← number (star py_space r);
  let r := default r (lit "U" r) in
  _ ← lit ")" (star py_space r);
  Some (name, v).

(** ** Reading the vendor's headers *)

Definition MMD_MAX : Z := 0x20.

Definition MMD_INFO : list (Z * (string * string)) :=
  [(0x01, ("LINE_PMA", "line PMA/PMD (+ slice / RS-FEC / PCS / SFP)"));
   (0x03, ("MAC_LINE_PCS", "host+line MAC, line PCS/PCS25G"));
   (0x07, ("LINE_KR", "line auto-neg / KR"));
   (0x08, ("MACSEC_A", "MACsec instance A"));
   (0x09, ("HOST_PMA", "host PMA/PMD (+ packet-BIST / slice / RS-FEC / PCS)"));
   (0x0A, ("PTP", "1588 TSU"));
   (0x0B, ("HOST_PCS", "host PCS / PCS25G"));
   (0x0F, ("HOST_KR", "host auto-neg / KR"));
   (0x1E, ("GLOBAL", "MCU mailbox, cross-connect, clk, gpio, PTP-global"));
   (0x1F, ("MACSEC_B", "MACsec instance B"))]%string.

(** The tree: the lines of lan80xx_regs_util.h and of the files of regs/, each
    absent when the path does not exist. *)
Record mesa := Mesa { ms_util : option (list string); ms_regs : option (list (string * list string)) }.

Definition parse_mmd_ids (lines : list string) : py (gmap string Z) :=
  py_fold (fun out line =>
    match MMD_RE line with
    | Some (name, v) => py! n := py_int v in PyOk (<[name := n]> out)
    | None => PyOk out
    end) ∅ lines.

(** Registers by MMD, and what has been written to stderr. *)
Abbreviation by_mmd := (gmap Z (list (Z * string))).

Definition parse_line (mmd_ids : gmap string Z) (st : by_mmd * list string) (line : string)
    : py (by_mmd * list string) :=
  let '(m, err) := st in
  match REG_RE line with
  | None => PyOk st
  | Some (name, mmd_sym, offset) =>
      match mmd_ids !! mmd_sym with
      | None => PyOk st
      | Some mmd_val =>
          if MMD_MAX <=? mmd_val then
            PyOk (m, err ++ ["skipping out-of-range mmd 0x" +:+ HEX 1 mmd_val +:+ " (" +:+ name +:+ ")" +:+ nl])
          else py! addr := py_int offset in
               PyOk (<[mmd_val := default [] (m !! mmd_val) ++ [(addr, name)]]> m, err)
      end
  end.

(** Order of the sort: by offset, then by name. *)
Definition reg_le (a b : Z * string) : Prop := a.1 < b.1 \/ a.1 = b.1 /\ String.le a.2 b.2.
#[export] Instance reg_le_dec : RelDecision reg_le.
Proof. intros a b. unfold reg_le. apply _. Defined.

(** [glob("regs_lan80xx_*.h")], sorted. *)
Definition ends_with (suffix s : string) : bool :=
  bool_decide (String.substring (String.length s - String.length suffix) (String.length suffix) s = suffix).
Definition is_regs_header (file : string) : bool :=
  match lit "regs_lan80xx_" file with Some r => (2 <=? String.length r)%nat && ends_with ".h" r | None => false end.
Definition file_le (a b : string * list string) : Prop := String.le a.1 b.1.
#[export] Instance file_le_dec : RelDecision file_le.
Proof. intros a b. unfold file_le. apply _. Defined.
Definition headers (files : list (string * list string)) : list (string * list string) :=
  merge_sort file_le (filter (fun f => is_regs_header f.1 = true) files).

Definition parse (ms : mesa) : py (by_mmd * list string) :=
  match ms_util ms, ms_regs ms with
  | Some util, Some files =>
      py! mmd_ids := parse_mmd_ids util in
      py! st := py_fold (fun st f => py_fold (parse_line mmd_ids) st f.2) (∅, []) (headers files) in
      PyOk (merge_sort reg_le <$> st.1, st.2)
  | _, _ => PyRaise FileNotFoundError
  end.

(** ** Writing the header *)

Definition mmd_info (mmd : Z) : string * string :=
  default ("MMD_" +:+ HEX 2 mmd, "unclassified"%string) (snd <$> List.find (fun e => e.1 =? mmd) MMD_INFO).
Definition mmd_label (mmd : Z) : string := (mmd_info mmd).1.

(** [{name:<13}] and [.lower()]. *)
Fixpoint spaces (n : nat) : string := match n with O => ""%string | S n' => String " " (spaces n') end.
Definition pad_right (w : nat) (s : string) : string := s +:+ spaces (w - String.length s).
Definition lower_char (c : Ascii.ascii) : Ascii.ascii :=
  let n := Ascii.nat_of_ascii c in if ((65 <=? n) && (n <=? 90))%nat then Ascii.ascii_of_nat (n + 32) else c.
Fixpoint lower (s : string) : string :=
  match s with String c s' => String (lower_char c) (lower s') | EmptyString => EmptyString end.

Definition header_top : list string :=
  ["// Copyright (c) 2026 Vincent Jardin, Vincent Cruz, Free Mobile";
   "// SPDX-License-Identifier: BSD-4-Clause";
   "//";
   "// Auto-generated by gen_lan80xx_regs_header.py from mesa's regs_lan80xx_*.h.";
   "// Do not edit by hand; re-run the generator instead.";
   "//";
   "// Symbolic enums for the LAN80xx MDIO Manageable Devices (MMDs)";
   "// and their register address offsets. Enumerator values are the";
   "// raw offsets; combine with an mmd to form an SPI address.";
   "";
   "#ifndef LAN80XX_REGS_H";
   "#define LAN80XX_REGS_H";
   "";
   "/* MDIO Manageable Devices (the mmd field of an SPI instruction). */";
   "typedef enum {"]%string.

Definition mmd_line (mmd : Z) : string :=
  let '(name, note) := mmd_info mmd in
  "    LAN80XX_MMD_" +:+ pad_right 13 name +:+ " = 0x" +:+ HEX 2 mmd +:+ ", /* " +:+ note +:+ " */".
Definition reg_line (addr : Z) (name : string) : string := "    " +:+ name +:+ " = 0x" +:+ HEX 4 addr +:+ ",".

(** The registers of one MMD: the lines, the warnings, the names seen. *)
Fixpoint emit_regs (mmd : Z) (regs : list (Z * string)) (seen : gmap string (Z * Z))
    : list string * list string * gmap string (Z * Z) :=
  match regs with
  | [] => ([], [], seen)
  | (addr, name) :: regs' =>
      match seen !! name with
      | Some prev =>
          let '(out, err, seen') := emit_regs mmd regs' seen in
          (out, (if bool_decide (prev = (mmd, addr)) then [] else
                 ["warning: " +:+ name +:+ " redefined (0x" +:+ HEX 2 prev.1 +:+ ":0x" +:+ HEX 4 prev.2 +:+ " vs 0x" +:+
                  HEX 2 mmd +:+ ":0x" +:+ HEX 4 addr +:+ "); keeping first" +:+ nl]) ++ err, seen')
      | None =>
          let '(out, err, seen') := emit_regs mmd regs' (<[name := (mmd, addr)]> seen) in
          (reg_line addr name :: out, err, seen')
      end
  end.

Fixpoint emit_mmds (l : list (Z * list (Z * string))) (seen : gmap string (Z * Z)) : list string * list string :=
  match l with
  | [] => ([], [])
  | (mmd, regs) :: l' =>
      let '(out, err, seen') := emit_regs mmd regs seen in
      let '(out', err') := emit_mmds l' seen' in
      (("/* MMD 0x" +:+ HEX 2 mmd +:+ " " +:+ mmd_label mmd +:+ " -- register offsets. */") ::
       ("enum lan80xx_reg_" +:+ lower (mmd_label mmd) +:+ " {") :: out ++ ["};"; ""]%string ++ out', err ++ err')
  end.

(** [sorted(by_mmd)], with the registers. *)
Definition key_le (a b : Z * list (Z * string)) : Prop := a.1 <= b.1.
#[export] Instance key_le_dec : RelDecision key_le.
Proof. intros a b. unfold key_le. apply _. Defined.
Definition sorted_mmds (m : by_mmd) : list (Z * list (Z * string)) := merge_sort key_le (map_to_list m).

(** The lines of the header, and the warnings. *)
Definition emit (m : by_mmd) : list string * list string :=
  let mmds := sorted_mmds m in
  let '(out, err) := emit_mmds mmds ∅ in
  (header_top ++ (mmd_line <$> mmds.*1) ++ ["} lan80xx_mmd_t;"; ""]%string ++ out ++
   ["#endif /* LAN80XX_REGS_H */"; ""]%string, err).

(** ** main *)

(** The script's documentation, printed when the arguments are wrong. *)
Definition gen_doc : string :=
"Generate lan80xx_regs.h: MMD + register-address enums for lan80xx-spid.

Reads mesa's LAN80xx register headers directly (sw-mepa, the former MEPA
source, is archived; mesa took over) -- no dependency on any other
project -- and emits symbolic C enums:

  * one enum ``lan80xx_mmd_t`` mapping each MDIO Manageable Device name to
    its number (0x00..0x1F);
  * one enum per MMD mapping each register name to its address offset.

It walks ``mepa/microchip/lan80xx/src/regs/regs_lan80xx_*.h`` for the
``#define LAN80XX_... (LAN80XX_IOREG(MMD_ID_x, is32, offset))`` lines and
resolves each MMD_ID_x symbol via ``lan80xx_regs_util.h``.

Enumerator values are the raw offsets, so mmd (device) and addr (offset)
stay independent, matching the SPI instruction layout the daemon builds
(slice<<21 | mmd<<16 | addr). Register names are kept verbatim (the
canonical LAN80XX_ symbols). All enumerators share one file scope, so a
name that appears more than once (a few aliases do) is emitted once; the
duplicate is dropped with a note.

Usage:
    gen_lan80xx_regs_header.py <mesa-root> <lan80xx_regs.h>
".

(** How a run ends: the exit status, the file written (its path and lines) and
    the text on stderr. *)
Record gen_result := GenResult { gr_status : Z; gr_file : option (string * list string); gr_err : list string }.

(** [str(Path(s))]: slashes and the parts that are empty or a dot collapse; two
    slashes at the start, no more and no less, are kept. *)
Definition py_path (s : string) : string :=
  let root := match s with
              | String "/" (String "/" (String "/" _)) => "/"
              | String "/" (String "/" _) => "//"
              | String "/" _ => "/"
              | _ => ""
              end%string in
  let parts := filter (fun p => p <> ""%string /\ p <> "."%string) (split_on "/"%char s) in
  let text := root +:+ String.concat "/" parts in
  if bool_decide (text = ""%string) then "."%string else text.

(** [argv] includes the script's name; [tree] is what lies under a path.  [None]
    is an exception that nothing catches. *)
Definition gen_main (argv : list string) (tree : string -> mesa) : option gen_result :=
  match argv with
  | [_; mesa_path; out] =>
      match parse (tree mesa_path) with
      | PyRaise FileNotFoundError =>
          Some (GenResult 1 None ["mesa layout not found under " +:+ py_path mesa_path +:+ nl])
      | PyRaise ValueError => None
      | PyOk (m, err) =>
          if bool_decide (m = ∅) then
            Some (GenResult 1 None (err ++ ["no register definitions parsed under " +:+ py_path mesa_path +:+ nl]))
          else
            let '(header, err') := emit m in
            let total := foldr (fun x n => length x.2 + n)%nat 0%nat (map_to_list m) in
            Some (GenResult 0 (Some (out, header)) (err ++ err' ++
              ["emitted " +:+ dec (Z.of_nat total) +:+ " register offsets across " +:+ dec (Z.of_nat (size m)) +:+
               " MMDs to " +:+ py_path out +:+ nl]))
      end
  | _ => Some (GenResult 2 None [gen_doc])
  end.

(** ** What a C compiler finds in the header *)

(** The enumerator of a line, as a C compiler reads it. *)
Definition enum_line (line : string) : option (string * Z) :=
  r ← lit "    " line;
  '(name, r) ← ident "LAN80XX_" r;
  r ← lit "= 0x" (star py_space r);
  let '(v, n, r') := scan_digits 16 r 0 0 in
  match n with O => None | S _ => _ ← lit "," r'; Some (name, v) end.
Definition enumerators (header : list string) : list (string * Z) := omap enum_line header.

(** *** Scanning *)

Fixpoint every (p : Ascii.ascii -> bool) (s : string) : Prop :=
  match s with String c s' => p c = true /\ every p s' | EmptyString => True end.

(** The text does not start in the class. *)
Definition off (p : Ascii.ascii -> bool) (s : string) : Prop :=
  match s with String c _ => p c = false | EmptyString => True end.

Lemma span_spec p s : every p (span p s).1 /\ off p (span p s).2 /\ s = (span p s).1 +:+ (span p s).2.
Proof.
  induction s as [|c s (IH1 & IH2 & IH3)]; cbn [span]; [done|]. destruct (p c) eqn:Hc; [|done].
  destruct (span p s) as [t r]. cbn in *. split_and!; [done|done|done|]. by rewrite IH3.
Qed.

Lemma span_app p t r : every p t -> off p r -> span p (t +:+ r) = (t, r).
Proof.
  intros Ht Hr. induction t as [|c t IH].
  - destruct r as [|c r]; [done|]. rewrite append_nil. cbn [span]. cbn in Hr. by rewrite Hr.
  - destruct Ht as [Hc Ht]. rewrite append_cons. cbn [span]. by rewrite Hc, IH.
Qed.

Lemma lit_app p s : lit p (p +:+ s) = Some s.
Proof. induction p as [|c p IH]; [by destruct s|]. rewrite append_cons. cbn [lit]. by rewrite Ascii.eqb_refl. Qed.

(** Names as [ident] returns them. *)
Definition named (prefix name : string) : Prop := exists t, name = prefix +:+ t /\ t <> ""%string /\ every ident_char t.

Lemma ident_named prefix s name r : ident prefix s = Some (name, r) -> named prefix name.
Proof.
  unfold ident, plus. destruct (lit prefix s) as [s1|]; cbn; [|done].
  pose proof (span_spec ident_char s1) as (He & _ & _). destruct (span ident_char s1) as [[|c t] r1]; cbn; [done|].
  intros [= <- <-]. by exists (String c t).
Qed.

Lemma ident_app prefix name r : named prefix name -> off ident_char r -> ident prefix (name +:+ r) = Some (name, r).
Proof.
  intros (t & -> & Hne & Ht) Hr. unfold ident, plus.
  rewrite append_assoc, lit_app. cbn [mbind option_bind]. rewrite span_app by done. by destruct t.
Qed.

Lemma scan_digits_app base s ds acc n r :
  Forall2 (fun c d => digit_in base c = Some d) (String.list_ascii_of_string s) ds ->
  match r with String c _ => digit_in base c = None | EmptyString => True end ->
  scan_digits base (s +:+ r) acc n = (fold_left (fun a d => a * base + d) ds acc, (n + length ds)%nat, r).
Proof.
  intros HF Hr. revert ds acc n HF. induction s as [|c s IH]; intros ds acc n HF; inversion HF as [|? d ? ds' Hd HF' Hx Hds]; subst.
  - rewrite append_nil. destruct r as [|c r]; cbn [scan_digits]; [|rewrite Hr]; by rewrite Nat.add_0_r.
  - rewrite append_cons. cbn [scan_digits]. rewrite Hd, (IH ds') by done. cbn. do 2 f_equal. lia.
Qed.

(** A printed number is read back. *)
Lemma HEX_digits w n :
  0 <= n -> exists ds, Forall2 (fun c d => digit_in 16 c = Some d) (String.list_ascii_of_string (HEX w n)) ds /\
    ds <> [] /\ digits_value 16 ds = n.
Proof.
  intros Hn. destruct (digits_scan (digit_fuel n) true 16 n "" []) as (ds & HF & Hv & Hne & _);
    [lia|done|unfold digit_fuel; lia|constructor|]. rewrite app_nil_r in HF.
  unfold HEX, hex_case. generalize (w - String.length (digits (digit_fuel n) true 16 n ""))%nat as k.
  induction k as [|k (ds' & HF' & Hne' & Hv')]; [by exists ds|]. exists (0 :: ds'). split; [by constructor|].
  split; [done|]. unfold digits_value in *. exact Hv'.
Qed.

Lemma scan_HEX w n r : 0 <= n -> exists k, scan_digits 16 (HEX w n +:+ String "," r) 0 0 = (n, S k, String "," r).
Proof.
  intros Hn. destruct (HEX_digits w n Hn) as (ds & HF & Hne & Hv).
  rewrite (scan_digits_app 16 _ ds 0 0) by done. unfold digits_value in Hv. rewrite Hv.
  destruct ds as [|d ds]; [done|]. by exists (length ds).
Qed.

Lemma reg_line_enum addr name :
  0 <= addr -> named "LAN80XX_" name -> enum_line (reg_line addr name) = Some (name, addr).
Proof.
  intros Ha Hn. unfold enum_line, reg_line. rewrite lit_app. cbn [mbind option_bind].
  rewrite ident_app by done. cbn [mbind option_bind].
  assert (star py_space (" = 0x" +:+ HEX 4 addr +:+ ",") = "= 0x" +:+ (HEX 4 addr +:+ ",")) as -> by done.
  rewrite lit_app. cbn [mbind option_bind]. destruct (scan_HEX 4 addr "" Ha) as [k ->]. done.
Qed.

Lemma mmd_line_enum mmd :
  0 <= mmd < MMD_MAX -> enum_line (mmd_line mmd) = Some ("LAN80XX_MMD_" +:+ mmd_label mmd, mmd).
Proof.
  intros H. assert (Z.to_nat mmd < 32)%nat as Hn by (unfold MMD_MAX in H; lia).
  rewrite <-(Z2Nat.id mmd) by lia. revert Hn. generalize (Z.to_nat mmd). clear. intros n Hn.
  do 32 (destruct n as [|n]; [vm_compute; reflexivity|]). lia.
Qed.

(** *** The registers of the vendor's headers *)

(** MMD, offset and name of a register. *)
Definition entry : Type := Z * (Z * string).

(** The register a line defines, if its MMD is known and in range. *)
Definition defines (mmd_ids : gmap string Z) (line : string) : option entry :=
  '(name, mmd_sym, offset) ← REG_RE line;
  mmd ← mmd_ids !! mmd_sym;
  if MMD_MAX <=? mmd then None else match py_int offset with PyOk addr => Some (mmd, (addr, name)) | PyRaise _ => None end.

(** All of them, in the order of the files and lines. *)
Definition vendor_registers (ms : mesa) : list entry :=
  match ms_util ms, ms_regs ms with
  | Some util, Some files =>
      match parse_mmd_ids util with
      | PyOk ids => omap (defines ids) (concat (snd <$> headers files))
      | PyRaise _ => []
      end
  | _, _ => []
  end.

Definition entry_ok (e : entry) : Prop := 0 <= e.1 < MMD_MAX /\ 0 <= e.2.1 /\ named "LAN80XX_" e.2.2.

Lemma scan_digits_nonneg base s acc n : 0 <= base -> 0 <= acc -> 0 <= (scan_digits base s acc n).1.1.
Proof.
  intros Hb. revert acc n. induction s as [|c s IH]; intros acc n Ha; cbn [scan_digits]; [done|].
  destruct (digit_in base c) as [d|] eqn:Hd; [|done]. apply IH.
  unfold digit_in, digit_val in Hd. repeat case_match; simplify_eq; try lia; repeat (rewrite ?andb_true_iff, ?Z.leb_le in *); nia.
Qed.

Lemma py_int_nonneg t v : py_int t = PyOk v -> 0 <= v.
Proof.
  unfold py_int. destruct (hex_prefix t) as [h|].
  - intros [= <-]. apply scan_digits_nonneg; lia.
  - destruct (_ && _); [done|]. intros [= <-]. apply scan_digits_nonneg; lia.
Qed.

(** MMD numbers are not negative either. *)
Lemma py_fold_inv {A B} (f : A -> B -> py A) (P : A -> Prop) a l a' :
  (forall a x a', P a -> f a x = PyOk a' -> P a') -> P a -> py_fold f a l = PyOk a' -> P a'.
Proof.
  intros Hf. revert a. induction l as [|x l IH]; intros a Ha; cbn; [by intros [= <-]|].
  destruct (f a x) as [a1|] eqn:H1; cbn; [|done]. eauto.
Qed.

Lemma parse_mmd_ids_nonneg util ids : parse_mmd_ids util = PyOk ids -> map_Forall (fun _ v => 0 <= v) ids.
Proof.
  apply py_fold_inv; [|apply map_Forall_empty]. intros m line m' Hm. destruct (MMD_RE line) as [[name v]|]; [|by intros [= <-]].
  destruct (py_int v) as [n|] eqn:Hn; cbn; [|done]. intros [= <-]. apply map_Forall_insert_2; [|done].
  by eapply py_int_nonneg.
Qed.

Lemma REG_RE_named line name sym off : REG_RE line = Some (name, sym, off) -> named "LAN80XX_" name.
Proof.
  unfold REG_RE. intros (r1 & _ & H)%bind_Some. apply bind_Some in H as ([? r2] & _ & H).
  apply bind_Some in H as ([nm r3] & Hid & H). apply ident_named in Hid.
  repeat (apply bind_Some in H as ([? ?] & _ & H) || apply bind_Some in H as (? & _ & H)).
  case_match; by simplify_eq.
Qed.

Lemma vendor_registers_ok ms : Forall entry_ok (vendor_registers ms).
Proof.
  unfold vendor_registers. destruct (ms_util ms) as [util|], (ms_regs ms) as [files|]; try constructor.
  destruct (parse_mmd_ids util) as [ids|] eqn:Hids; [|constructor]. apply parse_mmd_ids_nonneg in Hids.
  apply Forall_forall. intros e (line & _ & He)%list_elem_of_omap. unfold defines in He.
  apply bind_Some in He as ([[name sym] off] & Hre & He). apply bind_Some in He as (mmd & Hmmd & He).
  apply REG_RE_named in Hre. apply Hids in Hmmd. destruct (Z.leb_spec MMD_MAX mmd); [done|].
  destruct (py_int off) as [addr|] eqn:Ha; [|done]. apply py_int_nonneg in Ha. simplify_eq. split_and!; done.
Qed.

(** A line the way the vendor's headers write it. *)
Definition vendor_line (name sym is32 : string) (addr : Z) : string :=
  "#define " +:+ name +:+ " (LAN80XX_IOREG(" +:+ sym +:+ ", " +:+ is32 +:+ ", 0x" +:+ HEX 4 addr +:+ "))".

Lemma digits_every base s ds :
  Forall2 (fun c d => digit_in base c = Some d) (String.list_ascii_of_string s) ds -> every (digit_of base) s.
Proof.
  revert ds. induction s as [|c s IH]; intros ds H; inversion H as [|? d ? ds' Hd Ht]; subst; [done|].
  split; [unfold digit_of; by rewrite bool_decide_true|by eapply IH].
Qed.

Lemma number_HEX w addr r :
  0 <= addr -> off (digit_of 16) r ->
  number ("0x" +:+ HEX w addr +:+ r) = Some ("0x" +:+ HEX w addr, r) /\ py_int ("0x" +:+ HEX w addr) = PyOk addr.
Proof.
  intros Ha Hr. destruct (HEX_digits w addr Ha) as (ds & HF & Hne & Hv).
  assert (hex_prefix ("0x" +:+ HEX w addr +:+ r) = Some (HEX w addr +:+ r) /\
    hex_prefix ("0x" +:+ HEX w addr) = Some (HEX w addr)) as [H1 H2].
  { destruct (HEX w addr) as [|c t]; [inversion HF; by subst|].
    inversion HF as [|? d ? ds' Hd Ht]; subst. rewrite !append_cons, !append_nil. cbn [hex_prefix].
    rewrite (bool_decide_true (is_Some (digit_in 16 c))) by done. done. }
  split.
  - unfold number. rewrite H1. change ("0x" +:+ HEX w addr +:+ r) with (String "0" (String "x" (HEX w addr +:+ r))).
    cbv iota. rewrite span_app; [done|by eapply digits_every|done].
  - unfold py_int. rewrite H2. pose proof (scan_digits_app 16 (HEX w addr) ds 0 0 "" HF I) as Hs.
    assert (forall t : string, t +:+ "" = t) as He.
    { intros t. induction t as [|c t IH]; [done|]. by rewrite append_cons, IH. }
    rewrite He in Hs. rewrite Hs. cbn. by rewrite <-Hv.
Qed.

Lemma star_app p t r : every p t -> off p r -> star p (t +:+ r) = r.
Proof. intros Ht Hr. unfold star. by rewrite span_app. Qed.
Lemma plus_app p t r : t <> ""%string -> every p t -> off p r -> plus p (t +:+ r) = Some (t, r).
Proof. intros Hne Ht Hr. unfold plus. rewrite span_app by done. by destruct t. Qed.

Lemma named_off p c prefix name r : named (String c prefix) name -> p c = false -> off p (name +:+ r).
Proof. by intros (t & -> & _) Hc. Qed.

Lemma REG_RE_vendor_line name sym is32 addr :
  named "LAN80XX_" name -> named "MMD_ID_" sym -> is32 = "0"%string \/ is32 = "1"%string -> 0 <= addr ->
  REG_RE (vendor_line name sym is32 addr) = Some (name, sym, "0x" +:+ HEX 4 addr).
Proof.
  intros Hn Hs Hi Ha. destruct (number_HEX 4 addr "))" Ha eq_refl) as [Hnum _].
  change (vendor_line name sym is32 addr) with ("" +:+ ("#define" +:+ (" " +:+ (name +:+ (" " +:+ ("(LAN80XX_IOREG(" +:+
    ("" +:+ (sym +:+ ("" +:+ ("," +:+ (" " +:+ (is32 +:+ ("" +:+ ("," +:+ (" " +:+
      ("0x" +:+ HEX 4 addr +:+ "))")))))))))))))))).
  unfold REG_RE. rewrite star_app, lit_app by done. cbn [mbind option_bind].
  rewrite plus_app by (done || by eapply named_off). cbn [mbind option_bind].
  rewrite ident_app by done. cbn [mbind option_bind]. rewrite plus_app by done. cbn [mbind option_bind].
  rewrite lit_app. cbn [mbind option_bind]. rewrite star_app by (done || by eapply named_off).
  rewrite ident_app by done. cbn [mbind option_bind]. rewrite star_app, lit_app by done. cbn [mbind option_bind].
  rewrite star_app by (done || by destruct Hi as [->| ->]).
  destruct Hi as [-> | ->]; rewrite append_cons; cbn [Ascii.eqb Bool.eqb orb mbind option_bind];
    rewrite append_nil, star_app, lit_app by done; cbn [mbind option_bind];
    rewrite star_app by done; rewrite Hnum; done.
Qed.

(** Such a line is read: it defines its register at its offset. *)
Lemma vendor_line_defines ids name sym is32 addr mmd :
  named "LAN80XX_" name -> named "MMD_ID_" sym -> is32 = "0"%string \/ is32 = "1"%string -> 0 <= addr ->
  ids !! sym = Some mmd -> mmd < MMD_MAX ->
  defines ids (vendor_line name sym is32 addr) = Some (mmd, (addr, name)).
Proof.
  intros Hn Hs Hi Ha Hids Hm. unfold defines.
  rewrite REG_RE_vendor_line by done.
  cbn [mbind option_bind]. rewrite Hids. cbn [mbind option_bind]. destruct (Z.leb_spec MMD_MAX mmd); [lia|].
  by destruct (number_HEX 4 addr "" Ha I) as [_ ->].
Qed.

(** *** Grouping by MMD *)

Definition of_mmd (k : Z) (l : list entry) : list (Z * string) := snd <$> filter (fun e => e.1 = k) l.

(** [m] holds the registers of [l], by MMD and in their order. *)
Definition groups (m : by_mmd) (l : list entry) : Prop :=
  forall k, m !! k = match of_mmd k l with [] => None | regs => Some regs end.

Lemma of_mmd_app k l l' : of_mmd k (l ++ l') = of_mmd k l ++ of_mmd k l'.
Proof. unfold of_mmd. by rewrite filter_app, fmap_app. Qed.

Lemma groups_add m l mmd reg :
  groups m l -> groups (<[mmd := default [] (m !! mmd) ++ [reg]]> m) (l ++ [(mmd, reg)]).
Proof.
  intros Hm k. rewrite of_mmd_app. unfold of_mmd at 2. rewrite filter_cons. cbn [fst].
  destruct (decide (mmd = k)) as [->|Hne].
  - rewrite lookup_insert_eq, Hm. cbn. by destruct (of_mmd k l).
  - rewrite lookup_insert_ne, Hm by done. cbn. by rewrite app_nil_r.
Qed.

Lemma parse_line_groups ids m err line m' err' l :
  parse_line ids (m, err) line = PyOk (m', err') -> groups m l ->
  groups m' (l ++ option_list (defines ids line)).
Proof.
  unfold parse_line, defines. destruct (REG_RE line) as [[[name sym] off]|]; cbn; [|intros [= <- <-]; by rewrite app_nil_r].
  destruct (ids !! sym) as [mmd|]; cbn; [|intros [= <- <-]; by rewrite app_nil_r].
  destruct (MMD_MAX <=? mmd); [intros [= <- <-]; by rewrite app_nil_r|].
  destruct (py_int off) as [addr|]; cbn; [|done]. intros [= <- <-]. by apply groups_add.
Qed.

Lemma parse_lines_groups ids lines m err m' err' l :
  py_fold (parse_line ids) (m, err) lines = PyOk (m', err') -> groups m l ->
  groups m' (l ++ omap (defines ids) lines).
Proof.
  revert m err l. induction lines as [|line lines IH]; intros m err l; cbn [py_fold].
  { intros [= <- <-]. by rewrite app_nil_r. }
  destruct (parse_line ids (m, err) line) as [[m1 err1]|] eqn:H1; cbn [py_bind]; [|done]. intros H Hm.
  pose proof (parse_line_groups _ _ _ _ _ _ _ H1 Hm) as Hm1. apply (IH _ _ _ H) in Hm1.
  rewrite <-app_assoc in Hm1. cbn [omap list_omap]. revert Hm1. by destruct (defines ids line).
Qed.

Lemma py_fold_app {A B} (f : A -> B -> py A) a l l' :
  py_fold f a (l ++ l') = py_bind (py_fold f a l) (fun a' => py_fold f a' l').
Proof. revert a. induction l as [|x l IH]; intros a; cbn; [done|]. destruct (f a x); cbn; [apply IH|done]. Qed.

Lemma py_fold_files {A B} (f : A -> B -> py A) a (l : list (string * list B)) :
  py_fold (fun a x => py_fold f a x.2) a l = py_fold f a (concat (snd <$> l)).
Proof.
  revert a. induction l as [|x l IH]; intros a; cbn; [done|]. rewrite py_fold_app.
  destruct (py_fold f a x.2); cbn; [apply IH|done].
Qed.

Lemma parse_groups ms m err :
  parse ms = PyOk (m, err) -> exists m0, groups m0 (vendor_registers ms) /\ m = merge_sort reg_le <$> m0.
Proof.
  unfold parse, vendor_registers. destruct (ms_util ms) as [util|], (ms_regs ms) as [files|]; try done.
  destruct (parse_mmd_ids util) as [ids|]; cbn [py_bind]; [|done]. rewrite py_fold_files.
  destruct (py_fold _ _ _) as [[m0 err0]|] eqn:H; cbn; [|done]. intros [= <- <-]. exists m0. split; [|done].
  apply (parse_lines_groups _ _ _ _ _ _ [] H). by intros k.
Qed.

(** *** Order *)

#[export] Instance reg_le_trans : Transitive reg_le.
Proof.
  intros a b c [?|[? ?]] [?|[? ?]]; unfold reg_le; [lia|lia|lia|right]. split; [lia|by etransitivity].
Qed.
#[export] Instance reg_le_total : Total reg_le.
Proof.
  intros a b. unfold reg_le. destruct (Z.lt_trichotomy a.1 b.1) as [?|[?|?]]; [auto| |auto].
  destruct (total String.le a.2 b.2); auto.
Qed.
#[export] Instance reg_le_antisym : AntiSymm (=) reg_le.
Proof.
  intros [a n] [b m] [?|[? Hn]] [?|[? Hm]]; cbn in *; try lia. f_equal; [done|]. by apply (anti_symm String.le).
Qed.

(** The order in which the header lists registers. *)
Definition entry_le (a b : entry) : Prop := a.1 < b.1 \/ a.1 = b.1 /\ reg_le a.2 b.2.

Lemma entry_le_antisym a b : entry_le a b -> entry_le b a -> a = b.
Proof.
  destruct a as [k r], b as [k' r']. intros [?|[? H]] [?|[? H']]; cbn in *; try lia.
  f_equal; [done|]. by apply (anti_symm reg_le).
Qed.

Definition flat (l : list (Z * list (Z * string))) : list entry := l ≫= fun x => pair x.1 <$> x.2.

Lemma flat_cons x l : flat (x :: l) = (pair x.1 <$> x.2) ++ flat l.
Proof. done. Qed.

Lemma elem_of_flat e l : e ∈ flat l <-> exists regs, (e.1, regs) ∈ l /\ e.2 ∈ regs.
Proof.
  unfold flat. rewrite list_elem_of_bind. destruct e as [k r]. cbn [fst snd]. split.
  - intros ([k' regs] & (r' & [= -> ->] & Hr)%list_elem_of_fmap & Hx). by exists regs.
  - intros (regs & Hx & Hr). exists (k, regs). split; [|done]. apply list_elem_of_fmap. by exists r.
Qed.

Lemma flat_sorted l :
  StronglySorted key_le l -> NoDup l.*1 -> Forall (fun x => StronglySorted reg_le x.2) l ->
  StronglySorted entry_le (flat l).
Proof.
  intros Hs. induction Hs as [|[k regs] l Hs IH Hall]; intros Hnd Hr; [constructor|]. rewrite flat_cons.
  cbn [fmap list_fmap fst] in Hnd. apply NoDup_cons in Hnd as [Hk Hnd]. apply Forall_cons in Hr as [Hr0 Hr].
  apply StronglySorted_app_2; [| |by apply IH].
  - intros e1 e2 (r & -> & _)%list_elem_of_fmap (regs' & H2 & _)%elem_of_flat. left. cbn.
    rewrite Forall_forall in Hall. specialize (Hall _ H2). unfold key_le in Hall. cbn in Hall.
    assert (k <> e2.1); [|lia]. intros ->. apply Hk, list_elem_of_fmap. by exists (e2.1, regs').
  - cbn in *. clear -Hr0. induction Hr0 as [|r regs Hs IH Hall]; cbn; constructor; [done|].
    apply Forall_fmap. eapply Forall_impl; [exact Hall|]. intros r' Hr'. by right.
Qed.

(** *** First occurrences *)

Fixpoint firsts (seen : gset string) (l : list entry) : list entry :=
  match l with
  | [] => []
  | e :: l' => if decide (e.2.2 ∈ seen) then firsts seen l' else e :: firsts ({[e.2.2]} ∪ seen) l'
  end.
Definition names (l : list entry) : gset string := list_to_set ((fun e => e.2.2) <$> l).
Definition enum_of (e : entry) : string * Z := (e.2.2, e.2.1).

Lemma firsts_app seen l l' : firsts seen (l ++ l') = firsts seen l ++ firsts (names l ∪ seen) l'.
Proof.
  revert seen. induction l as [|e l IH]; intros seen; cbn [app firsts].
  - f_equal. unfold names. cbn. set_solver.
  - unfold names. cbn [fmap list_fmap list_to_set]. destruct (decide _); rewrite IH; cbn [app];
      [|f_equal]; f_equal; f_equal; unfold names; set_solver.
Qed.

Lemma firsts_names seen l : NoDup (enum_of <$> firsts seen l).*1 /\ forall e, e ∈ firsts seen l -> e.2.2 ∉ seen.
Proof.
  revert seen. induction l as [|e l IH]; intros seen; cbn [firsts]; [split; [constructor|set_solver]|].
  destruct (decide _) as [|Hn]; [apply IH|]. destruct (IH ({[e.2.2]} ∪ seen)) as [IH1 IH2]. split.
  - cbn. constructor; [|done]. intros (x & Hx & (e' & -> & He')%list_elem_of_fmap)%list_elem_of_fmap.
    cbn in Hx. specialize (IH2 _ He'). rewrite <-Hx in IH2. set_solver.
  - intros e' [->|He']%elem_of_cons; [done|]. specialize (IH2 _ He'). set_solver.
Qed.

(** In a sorted list the first occurrence of a name is its least entry. *)
Lemma firsts_spec seen l e :
  StronglySorted entry_le l ->
  (e ∈ firsts seen l) <-> (e ∈ l /\ (e.2.2 ∉ seen) /\ forall e', e' ∈ l -> e'.2.2 = e.2.2 -> entry_le e e').
Proof.
  assert (forall a, entry_le a a) as Hrefl by (intros a; right; split; [done|right; split; [done|reflexivity]]).
  intros Hs. revert seen. induction Hs as [|x l Hs IH Hall]; intros seen; cbn [firsts]; [set_solver|].
  rewrite Forall_forall in Hall. destruct (decide _) as [Hx|Hx].
  - rewrite IH. setoid_rewrite elem_of_cons. split.
    + intros (He & Hn & Hmin). split_and!; [auto|done|]. intros e' [->|?] Heq; [congruence|auto].
    + intros ([->|He] & Hn & Hmin); [done|]. split_and!; auto.
  - rewrite elem_of_cons, IH. setoid_rewrite elem_of_cons. split.
    + intros [->|(He & Hn & Hmin)].
      * split_and!; [auto|done|]. intros e' [->|?] _; auto.
      * split_and!; [auto|set_solver|]. intros e' [->|?] Heq; [set_solver|auto].
    + intros ([->|He] & Hn & Hmin); [auto|]. destruct (decide (e.2.2 = x.2.2)) as [Heq|Hne].
      * left. apply entry_le_antisym; [apply Hmin; auto|by apply Hall].
      * right. split_and!; [done|set_solver|auto].
Qed.

(** *** The emitted lines *)

Lemma emit_regs_enums mmd regs seen out err seen' :
  Forall (fun r => entry_ok (mmd, r)) regs -> emit_regs mmd regs seen = (out, err, seen') ->
  enumerators out = enum_of <$> firsts (dom seen) (pair mmd <$> regs) /\
  dom seen' = names (pair mmd <$> regs) ∪ dom seen.
Proof.
  intros Hok. revert seen out err seen'. induction Hok as [|[addr name] regs (_ & Ha & Hn) _ IH]; intros seen out err seen';
    cbn [emit_regs].
  { intros [= <- <- <-]. split; [done|]. unfold names. set_solver. }
  unfold names. cbn [fmap list_fmap firsts snd list_to_set]. cbn in Ha, Hn.
  destruct (seen !! name) as [prev|] eqn:Hs.
  - destruct (emit_regs mmd regs seen) as [[out1 err1] seen1] eqn:H1. intros [= <- <- <-].
    destruct (IH _ _ _ _ H1) as [He Hd]. assert (name ∈ dom seen) as Hin by by eapply elem_of_dom_2.
    rewrite decide_True by done. split; [done|]. unfold names in Hd. set_solver.
  - destruct (emit_regs mmd regs (<[name := (mmd, addr)]> seen)) as [[out1 err1] seen1] eqn:H1. intros [= <- <- <-].
    destruct (IH _ _ _ _ H1) as [He Hd]. assert (name ∉ dom seen) as Hin by by apply not_elem_of_dom.
    rewrite decide_False by done. rewrite dom_insert_L in He, Hd. unfold names in Hd. split; [|set_solver].
    unfold enumerators in *. cbn [omap list_omap fmap list_fmap]. by rewrite reg_line_enum, He.
Qed.

Lemma enumerators_app l l' : enumerators (l ++ l') = enumerators l ++ enumerators l'.
Proof. apply omap_app. Qed.

Lemma emit_mmds_enums l seen :
  Forall entry_ok (flat l) ->
  enumerators (emit_mmds l seen).1 = enum_of <$> firsts (dom seen) (flat l).
Proof.
  revert seen. induction l as [|[mmd regs] l IH]; intros seen Hok; cbn [emit_mmds]; [done|].
  rewrite flat_cons in *. cbn [fst snd] in *. apply Forall_app in Hok as [H0 Hok]. rewrite Forall_fmap in H0.
  destruct (emit_regs mmd regs seen) as [[out err] seen'] eqn:H1.
  destruct (emit_regs_enums _ _ _ _ _ _ H0 H1) as [He Hd]. specialize (IH seen' Hok).
  destruct (emit_mmds l seen') as [out' err']. cbn [fst] in *.
  change (enumerators (out ++ ["};"; ""]%string ++ out') =
    enum_of <$> firsts (dom seen) ((pair mmd <$> regs) ++ flat l)).
  rewrite firsts_app, fmap_app, enumerators_app, He, <-Hd, <-IH. done.
Qed.

Definition mmd_enum (mmd : Z) : string * Z := ("LAN80XX_MMD_" +:+ mmd_label mmd, mmd).

Lemma mmd_lines_enums l : Forall (fun k => 0 <= k < MMD_MAX) l -> enumerators (mmd_line <$> l) = mmd_enum <$> l.
Proof.
  intros H. unfold enumerators. induction H as [|k l Hk _ IH]; [done|]. cbn [fmap list_fmap omap list_omap].
  by rewrite mmd_line_enum, IH.
Qed.

Lemma emit_enums m :
  Forall entry_ok (flat (sorted_mmds m)) -> Forall (fun k => 0 <= k < MMD_MAX) (sorted_mmds m).*1 ->
  enumerators (emit m).1 = (mmd_enum <$> (sorted_mmds m).*1) ++ (enum_of <$> firsts ∅ (flat (sorted_mmds m))).
Proof.
  intros Hok Hk. unfold emit. pose proof (emit_mmds_enums (sorted_mmds m) ∅ Hok) as He.
  destruct (emit_mmds (sorted_mmds m) ∅) as [out err]. cbn [fst] in *. rewrite dom_empty_L in He.
  rewrite !enumerators_app, mmd_lines_enums, He by done.
  change (enumerators header_top) with (@nil (string * Z)).
  change (enumerators ["} lan80xx_mmd_t;"; ""]%string) with (@nil (string * Z)).
  change (enumerators ["#endif /* LAN80XX_REGS_H */"; ""]%string) with (@nil (string * Z)).
  cbn [app]. by rewrite app_nil_r.
Qed.

(** The labels of the MMDs are distinct. *)
Lemma mmd_label_inj a b : 0 <= a < MMD_MAX -> 0 <= b < MMD_MAX -> (mmd_enum a).1 = (mmd_enum b).1 -> a = b.
Proof.
  intros Ha Hb. unfold MMD_MAX in *.
  assert (Forall (fun '(x, y) => (mmd_enum x).1 = (mmd_enum y).1 -> x = y)
    (x ← Z.of_nat <$> seq 0 32; y ← Z.of_nat <$> seq 0 32; [(x, y)])) as H.
  { apply (bool_decide_unpack _). vm_compute. exact I. }
  rewrite Forall_forall in H. apply (H (a, b)). apply list_elem_of_bind. exists a. split.
  - apply list_elem_of_bind. exists b. split; [set_solver|]. apply list_elem_of_fmap. exists (Z.to_nat b).
    split; [lia|]. apply elem_of_seq. lia.
  - apply list_elem_of_fmap. exists (Z.to_nat a). split; [lia|]. apply elem_of_seq. lia.
Qed.

(** *** The whole script *)

(** What the parsed map lists is what the vendor's lines define. *)
Lemma parsed_entries m0 l e :
  groups m0 l -> (e ∈ flat (sorted_mmds (merge_sort reg_le <$> m0))) <-> (e ∈ l).
Proof.
  intros Hg. rewrite elem_of_flat. unfold sorted_mmds. destruct e as [k r]. cbn [fst snd].
  assert (r ∈ of_mmd k l <-> (k, r) ∈ l) as <-.
  { unfold of_mmd. rewrite list_elem_of_fmap. split.
    - intros ([k' r'] & -> & [Hk He]%list_elem_of_filter). cbn in *. by subst.
    - intros He. exists (k, r). split; [done|]. by apply list_elem_of_filter. }
  setoid_rewrite merge_sort_Permutation. setoid_rewrite elem_of_map_to_list. setoid_rewrite lookup_fmap. rewrite Hg.
  split.
  - intros (regs & (l0 & H & ->)%fmap_Some & Hr). rewrite merge_sort_Permutation in Hr.
    destruct (of_mmd k l) as [|x t]; [done|]. by injection H as <-.
  - intros Hr. destruct (of_mmd k l) as [|x t]; [by apply elem_of_nil in Hr|]. eexists. split; [done|].
    by rewrite merge_sort_Permutation.
Qed.

Lemma key_le_total : Total key_le.
Proof. intros a b. unfold key_le. lia. Qed.
Lemma key_le_trans : Transitive key_le.
Proof. intros a b c. unfold key_le. lia. Qed.

Lemma sorted_mmds_keys m : NoDup (sorted_mmds m).*1.
Proof. unfold sorted_mmds. rewrite merge_sort_Permutation. apply NoDup_fst_map_to_list. Qed.

Lemma parsed_sorted m0 : StronglySorted entry_le (flat (sorted_mmds (merge_sort reg_le <$> m0))).
Proof.
  apply flat_sorted; [|apply sorted_mmds_keys|].
  - unfold sorted_mmds. apply (@StronglySorted_merge_sort _ _ _ key_le_trans key_le_total).
  - apply Forall_forall. intros [k regs]. unfold sorted_mmds. rewrite merge_sort_Permutation, elem_of_map_to_list.
    rewrite lookup_fmap, fmap_Some. intros (regs0 & _ & ->). cbn. apply StronglySorted_merge_sort; apply _.
Qed.

(** Every MMD of the header has a register. *)
Lemma parsed_keys m0 l k :
  groups m0 l -> (k ∈ (sorted_mmds (merge_sort reg_le <$> m0)).*1) <-> (exists r, (k, r) ∈ l).
Proof.
  intros Hg. rewrite list_elem_of_fmap. split.
  - intros ([k' regs] & -> & Hx). cbn. pose proof Hx as Hx'. unfold sorted_mmds in Hx'.
    rewrite merge_sort_Permutation, elem_of_map_to_list, lookup_fmap, Hg in Hx'.
    apply fmap_Some in Hx' as (l0 & Hx' & ->). destruct (of_mmd k' l) as [|r t] eqn:Hl; [done|].
    injection Hx' as <-. exists r. apply (parsed_entries m0 l _ Hg), elem_of_flat.
    eexists. split; [done|]. cbn [snd]. rewrite merge_sort_Permutation. by left.
  - intros (r & (regs & Hx & _)%(parsed_entries m0 l _ Hg)%elem_of_flat). by exists (k, regs).
Qed.

(** The registers the header lists are the least definitions of their names. *)
Lemma listed_registers m0 l name addr :
  groups m0 l ->
  ((name, addr) ∈ enum_of <$> firsts ∅ (flat (sorted_mmds (merge_sort reg_le <$> m0)))) <->
  (exists mmd, (mmd, (addr, name)) ∈ l /\
     forall mmd' addr', (mmd', (addr', name)) ∈ l -> mmd < mmd' \/ mmd = mmd' /\ addr <= addr').
Proof.
  intros Hg. rewrite list_elem_of_fmap. split.
  - intros ([mmd [a n]] & [= -> ->] & He). apply (firsts_spec _ _ _ (parsed_sorted m0)) in He as (He & _ & Hmin).
    exists mmd. split; [by apply (parsed_entries m0 l _ Hg)|]. intros mmd' addr' H'.
    apply (parsed_entries m0 l _ Hg) in H'. destruct (Hmin _ H' eq_refl) as [|[? [|[? _]]]]; cbn in *; lia.
  - intros (mmd & He & Hmin). exists (mmd, (addr, name)). split; [done|].
    apply (firsts_spec _ _ _ (parsed_sorted m0)). split_and!; [by apply (parsed_entries m0 l _ Hg)|set_solver|].
    intros [mmd' [addr' name']] H' Heq. cbn in Heq. subst name'. apply (parsed_entries m0 l _ Hg) in H'.
    unfold entry_le, reg_le. cbn. destruct (Hmin _ _ H') as [|[-> ?]]; [auto|right; split; [done|]].
    destruct (decide (addr = addr')) as [->|]; [right; split; [done|reflexivity]|left; lia].
Qed.

Lemma mmd_enums_distinct l : Forall (fun k => 0 <= k < MMD_MAX) l -> NoDup l -> NoDup (mmd_enum <$> l).*1.
Proof.
  intros Hk Hnd. rewrite Forall_forall in Hk. rewrite <-list_fmap_compose. apply NoDup_fmap_2_strong; [|done].
  intros a b Ha Hb. by apply mmd_label_inj; apply Hk.
Qed.

(** What the emitted header enumerates. *)
Lemma emitted_header ms m err :
  parse ms = PyOk (m, err) ->
  exists mmds regs, enumerators (emit m).1 = mmds ++ regs /\ NoDup mmds.*1 /\ NoDup regs.*1 /\
    (forall name addr, (name, addr) ∈ regs <-> exists mmd, (mmd, (addr, name)) ∈ vendor_registers ms /\
       forall mmd' addr', (mmd', (addr', name)) ∈ vendor_registers ms -> mmd < mmd' \/ mmd = mmd' /\ addr <= addr') /\
    (forall name n, (name, n) ∈ mmds <-> name = "LAN80XX_MMD_" +:+ mmd_label n /\
       exists reg, (n, reg) ∈ vendor_registers ms).
Proof.
  intros Hp. destruct (parse_groups _ _ _ Hp) as (m0 & Hg & ->).
  set (l := vendor_registers ms) in *. pose proof (vendor_registers_ok ms) as Hok. fold l in Hok. rewrite Forall_forall in Hok.
  set (mm := sorted_mmds (merge_sort reg_le <$> m0)).
  assert (Forall (fun k => 0 <= k < MMD_MAX) mm.*1) as Hk.
  { apply Forall_forall. intros k (r & Hr)%(parsed_keys m0 l _ Hg). apply (Hok _ Hr). }
  eexists _, _. split; [apply emit_enums; [|exact Hk]|].
  { apply Forall_forall. intros e He%(parsed_entries m0 l _ Hg). by apply Hok. }
  fold mm. destruct (firsts_names ∅ (flat mm)) as [Hnd _]. split_and!; [|exact Hnd| |].
  - apply mmd_enums_distinct; [done|apply sorted_mmds_keys].
  - intros name addr. by apply listed_registers.
  - intros name n. rewrite list_elem_of_fmap, <-(parsed_keys m0 l n Hg). fold mm. split.
    + by intros (k & [= -> ->] & Hin).
    + intros [-> Hin]. by exists n.
Qed.

(** C37: the generated header gives every register of the vendor's headers its
    offset.  When the script writes a file, it exits with 0, the file goes to its
    second argument and the register enumerators in it have distinct names; a
    name is among them exactly if some register line with a known MMD below 0x20
    defines it, and its value is the offset of the definition with the least MMD
    and, there, the least offset.  The MMD enumerators are those of the MMDs that
    have registers, with their numbers as values and distinct names. *)
Theorem header_defines_registers argv tree r path header :
  gen_main argv tree = Some r -> gr_file r = Some (path, header) ->
  gr_status r = 0 /\ argv !! 2%nat = Some path /\
  exists mesa_path mmds regs, argv !! 1%nat = Some mesa_path /\ enumerators header = mmds ++ regs /\
    NoDup mmds.*1 /\ NoDup regs.*1 /\
    (forall name addr, (name, addr) ∈ regs <-> exists mmd, (mmd, (addr, name)) ∈ vendor_registers (tree mesa_path) /\
       forall mmd' addr', (mmd', (addr', name)) ∈ vendor_registers (tree mesa_path) ->
         mmd < mmd' \/ mmd = mmd' /\ addr <= addr') /\
    (forall name n, (name, n) ∈ mmds <-> name = "LAN80XX_MMD_" +:+ mmd_label n /\
       exists reg, (n, reg) ∈ vendor_registers (tree mesa_path)).
Proof.
  destruct argv as [|prog [|mesa_path [|out [|]]]]; cbn [gen_main]; intros Hr Hf;
    [by simplify_eq..| |by simplify_eq].
  destruct (parse (tree mesa_path)) as [[m err]|[]] eqn:Hp; [|by simplify_eq..].
  destruct (bool_decide _); [by simplify_eq|]. destruct (emit m) as [hd err'] eqn:He. simplify_eq/=.
  split; [done|]. split; [done|]. exists mesa_path.
  destruct (emitted_header (tree mesa_path) m err Hp) as (mmds & regs & H). rewrite He in H. by exists mmds, regs.
Qed.
