(* ===== verification/RegsExamples.v ===== *)
(** * The register header generator on a small vendor tree

    A tree that defines the registers the daemon names gives the header that the
    simulated board is built with; two trees on which the script does not do what
    it means to. *)
From stdpp Require Import gmap.
From S2P Require Import Prelude Fmt State Sim RegsHeader.

(** The constants the daemon is compiled with are found in a header by name. *)
Definition enumerator (header : list string) (name : string) : option Z :=
  snd <$> List.find (fun e => bool_decide (e.1 = name)) (enumerators header).

Definition header_regs (header : list string) : option Regs :=
  id ← enumerator header "LAN80XX_MCU_IO_MNGT_MISC_DEVICE_ID_REG";
  rev ← enumerator header "LAN80XX_MCU_IO_MNGT_MISC_DEVICE_SILICON_REVISION_REG";
  dis ← enumerator header "LAN80XX_MCU_IO_MNGT_MISC_DEVICE_FEATURE_DISABLE_REG";
  h1 ← enumerator header "LAN80XX_HOST_PCS25G_STATUS1";
  b1 ← enumerator header "LAN80XX_HOST_PCS25G_BASER_STATUS1";
  b2 ← enumerator header "LAN80XX_HOST_PCS25G_BASER_STATUS2";
  l1 ← enumerator header "LAN80XX_LINE_PCS25G_STATUS1";
  Some (Build_Regs id rev dis h1 b1 b2 l1).

Definition sample_util : list string :=
  ["#define MMD_ID_LINE_PCS (0x3U)"; "#define MMD_ID_HOST_PCS ( 11 )"; "  #define MMD_ID_GLOBAL (0x1EU) /* chip */";
   "#define MMD_ID_VIRTUAL (0x20U)"]%string.

Definition sample_files : list (string * list string) :=
  [("regs_lan80xx_mcu.h",
    ["/* MCU */";
     vendor_line "LAN80XX_MCU_IO_MNGT_MISC_DEVICE_FEATURE_DISABLE_REG" "MMD_ID_GLOBAL" "1" 2;
     vendor_line "LAN80XX_MCU_IO_MNGT_MISC_DEVICE_ID_REG" "MMD_ID_GLOBAL" "1" 0;
     vendor_line "LAN80XX_MCU_IO_MNGT_MISC_DEVICE_SILICON_REVISION_REG" "MMD_ID_GLOBAL" "1" 1;
     "#define LAN80XX_HOST_PCS25G_STATUS1 (LAN80XX_IOREG(MMD_ID_GLOBAL,1,77))";
     vendor_line "LAN80XX_NOWHERE" "MMD_ID_VIRTUAL" "0" 3]);
   ("readme.txt", [vendor_line "LAN80XX_NOT_READ" "MMD_ID_GLOBAL" "1" 9]);
   ("regs_lan80xx_host.h",
    ["#define LAN80XX_HOST_PCS25G_STATUS1 (LAN80XX_IOREG(MMD_ID_HOST_PCS, 0, 1))";
     vendor_line "LAN80XX_HOST_PCS25G_BASER_STATUS2" "MMD_ID_HOST_PCS" "0" 0x21;
     vendor_line "LAN80XX_HOST_PCS25G_BASER_STATUS1" "MMD_ID_HOST_PCS" "0" 0x20;
     vendor_line "LAN80XX_LINE_PCS25G_STATUS1" "MMD_ID_LINE_PCS" "0" 1])]%string.

Definition sample_tree (path : string) : mesa :=
  if bool_decide (path = "mesa"%string) then Mesa (Some sample_util) (Some sample_files) else Mesa None None.
Definition sample_argv : list string := ["gen"; "mesa"; "lan80xx_regs.h"]%string.

(** The header of the sample tree, from its first enumerator on. *)
Definition sample_body : list string :=
  ["    LAN80XX_MMD_MAC_LINE_PCS  = 0x03, /* host+line MAC, line PCS/PCS25G */";
   "    LAN80XX_MMD_HOST_PCS      = 0x0B, /* host PCS / PCS25G */";
   "    LAN80XX_MMD_GLOBAL        = 0x1E, /* MCU mailbox, cross-connect, clk, gpio, PTP-global */";
   "} lan80xx_mmd_t;"; "";
   "/* MMD 0x03 MAC_LINE_PCS -- register offsets. */"; "enum lan80xx_reg_mac_line_pcs {";
   "    LAN80XX_LINE_PCS25G_STATUS1 = 0x0001,"; "};"; "";
   "/* MMD 0x0B HOST_PCS -- register offsets. */"; "enum lan80xx_reg_host_pcs {";
   "    LAN80XX_HOST_PCS25G_STATUS1 = 0x0001,"; "    LAN80XX_HOST_PCS25G_BASER_STATUS1 = 0x0020,";
   "    LAN80XX_HOST_PCS25G_BASER_STATUS2 = 0x0021,"; "};"; "";
   "/* MMD 0x1E GLOBAL -- register offsets. */"; "enum lan80xx_reg_global {";
   "    LAN80XX_MCU_IO_MNGT_MISC_DEVICE_ID_REG = 0x0000,";
   "    LAN80XX_MCU_IO_MNGT_MISC_DEVICE_SILICON_REVISION_REG = 0x0001,";
   "    LAN80XX_MCU_IO_MNGT_MISC_DEVICE_FEATURE_DISABLE_REG = 0x0002,"; "};"; "";
   "#endif /* LAN80XX_REGS_H */"; ""]%string.

Definition sample_result : gen_result := {|
  gr_status := 0;
  gr_file := Some ("lan80xx_regs.h"%string, header_top ++ sample_body);
  gr_err := ["skipping out-of-range mmd 0x20 (LAN80XX_NOWHERE)" +:+ nl;
             "warning: LAN80XX_HOST_PCS25G_STATUS1 redefined (0x0B:0x0001 vs 0x1E:0x004D); keeping first" +:+ nl;
             "emitted 8 register offsets across 3 MMDs to lan80xx_regs.h" +:+ nl] |}.

Example sample_generated : gen_main sample_argv sample_tree = Some sample_result.
Proof. vm_compute. reflexivity. Qed.

(** It is the header of the simulated board. *)
Example sample_header_regs : header_regs (header_top ++ sample_body) = Some sim_regs.
Proof. vm_compute. reflexivity. Qed.

(** The MMD numbers the daemon uses are those of the generator's table. *)
Lemma mmd_constants :
  (mmd_label <$> [LAN80XX_MMD_LINE_PMA; LAN80XX_MMD_MAC_LINE_PCS; LAN80XX_MMD_LINE_KR; LAN80XX_MMD_HOST_PMA;
                  LAN80XX_MMD_HOST_PCS; LAN80XX_MMD_GLOBAL]) =
  ["LINE_PMA"; "MAC_LINE_PCS"; "LINE_KR"; "HOST_PMA"; "HOST_PCS"; "GLOBAL"]%string.
Proof. reflexivity. Qed.

(** The other ways a run ends: wrong arguments, no tree, nothing in the tree. *)
Example path_texts :
  py_path <$> ["mesa/"; "./a//b/."; "/x/"; "//y"; "///z"; ""; "a/../b"]%string =
  ["mesa"; "a/b"; "/x"; "//y"; "/z"; "."; "a/../b"]%string.
Proof. vm_compute. reflexivity. Qed.

Example gen_usage : gen_main ["gen"; "mesa"]%string sample_tree = Some (GenResult 2 None [gen_doc]).
Proof. reflexivity. Qed.
Example gen_no_tree :
  gen_main ["gen"; "x"; "out"]%string sample_tree =
  Some (GenResult 1 None ["mesa layout not found under x" +:+ nl]).
Proof. reflexivity. Qed.
Example gen_nothing :
  gen_main ["gen"; "x"; "out"]%string (fun _ => Mesa (Some sample_util) (Some [])) =
  Some (GenResult 1 None ["no register definitions parsed under x" +:+ nl]).
Proof. vm_compute. reflexivity. Qed.

(** A decimal number with a leading zero ends the script with an exception: the
    expressions accept it and [int(text, 0)] does not. *)
Example gen_leading_zero :
  gen_main ["gen"; "x"; "out"]%string (fun _ => Mesa (Some ["#define MMD_ID_PTP (010)"]%string) (Some [])) = None.
Proof. vm_compute. reflexivity. Qed.

(** An MMD whose names all appear under a lower MMD gets an enumeration without
    enumerators, which is not C. *)
Example gen_empty_enum :
  exists before after, gr_file <$> gen_main ["gen"; "x"; "out"]%string (fun _ => Mesa (Some sample_util)
    (Some [("regs_lan80xx_a.h"%string, [vendor_line "LAN80XX_A" "MMD_ID_HOST_PCS" "0" 1;
                                        vendor_line "LAN80XX_A" "MMD_ID_GLOBAL" "0" 1])])) =
  Some (Some ("out"%string, before ++ ["enum lan80xx_reg_global {"; "};"]%string ++ after)).
Proof.
  eexists (header_top ++ [_; _; _; _; _; _; _; _; _; _]), [_; _; _]. vm_compute. reflexivity.
Qed.

(** The generated header of the sample tree: [header_defines_registers] there. *)
Lemma header_defines_registers_witness :
  exists mmds regs, enumerators (header_top ++ sample_body) = mmds ++ regs /\ NoDup regs.*1 /\
    (("LAN80XX_HOST_PCS25G_STATUS1"%string, 1) ∈ regs <->
     exists mmd, (mmd, (1, "LAN80XX_HOST_PCS25G_STATUS1"%string)) ∈ vendor_registers (sample_tree "mesa") /\
       forall mmd' addr', (mmd', (addr', "LAN80XX_HOST_PCS25G_STATUS1"%string)) ∈ vendor_registers (sample_tree "mesa") ->
         mmd < mmd' \/ mmd = mmd' /\ 1 <= addr').
Proof.
  destruct (header_defines_registers sample_argv sample_tree sample_result "lan80xx_regs.h" (header_top ++ sample_body))
    as (_ & _ & mp & mmds & regs & Hmp & He & _ & Hnd & Hr & _); [vm_compute; reflexivity|reflexivity|].
  injection Hmp as <-. exists mmds, regs. split; [exact He|]. split; [exact Hnd|]. apply Hr.
Defined.
