(* ===== verification/FuzzExamples.v ===== *)
(** * The fuzzing theorems at work

    The harnesses on the simulated environment, with inputs that reach the
    scheduler and the mailbox. *)
From Stdlib Require Import Strings.Byte.
From S2P Require Import Prelude Bytes Proto State Queue Daemon Main Cli Fuzz FuzzSpec Sim Examples CliExamples.

Definition fuzz_start : st (fuzzed sim) := St LLVMFuzzerInitialize (Fuzzed [] 0 0 demo_world) [].

(** Bytes of a message, as an input. *)
Definition input_of (l : list Z) : list byte := omap (fun z => Byte.of_N (Z.to_N z)) l.

(** A MAILBOX request of the first client and a READ of the second, each after
    its 16-bit frame. *)
Definition fuzz_mb_input : list byte :=
  input_of ([4; 0; 0x10; 0xff; 9; 0] ++ [22; 0] ++
    hdr_encode (Hdr 1 (type_code SPIPROXY_MAILBOX) 0 1 10) ++ mb_encode (Mb 0 0x10 2 0) ++ [0xaa; 0xbb] ++
    [24; 0x80] ++ hdr_encode (Hdr 1 (type_code SPIPROXY_READ) 0 2 12) ++ op_encode demo_read).

Lemma fuzz_msg_passes_witness :
  exists s', fuzz_msg 3 fuzz_mb_input fuzz_start = Ok (Returned 0, s') /\ fuzz_ready s'.
Proof. apply (fuzz_msg_passes 3 fuzz_mb_input fuzz_start (initialize_ready demo_world [] 0)). lia. Defined.

(** A whole datagram, and one whose header announces more than it carries. *)
Definition fuzz_frame_input : list byte :=
  input_of ([24; 0] ++ hdr_encode (Hdr 1 (type_code SPIPROXY_READ) 0 1 12) ++ op_encode demo_read ++
    [12; 0] ++ hdr_encode (Hdr 1 (type_code SPIPROXY_CLAIM) 0 2 4096)).

Lemma fuzz_frame_passes_witness :
  exists s', fuzz_frame 3 fuzz_frame_input fuzz_start = Ok (Returned 0, s') /\ fuzz_ready s'.
Proof. apply (fuzz_frame_passes 3 fuzz_frame_input fuzz_start (initialize_ready demo_world [] 0)). lia. Defined.

Lemma fuzz_resp_returns_witness :
  exists c', fuzz_resp (input_of (hdr_encode (Hdr 1 0x81 0 7 0xffff))) (fresh_cli []) = Ok (0, c').
Proof. apply fuzz_resp_returns. Defined.
